(** * Restaurant point of sale: order lifecycle and table-status synchronisation

    A shallow embedding of the REST handlers of the POS application (Next.js
    route handlers over a better-sqlite3 store) and the properties of the
    order service and of the table-status synchroniser.

    Layout of the development:
    - the persisted schema ([lib/database.ts]): rows, relations, the store;
    - the SQL statements the handlers run, as functions on the store, with the
      constraints the store enforces (foreign keys are ON, check constraints
      are carried by the enumerations, update triggers refresh [updated_at]);
    - a small monad for handler bodies: statements that may throw, early
      [return NextResponse.json(..)], [db.transaction], [try]/[catch];
    - the route handlers, one module per route file;
    - the theorems. *)

From Stdlib Require Import ZArith List String Bool Lia Permutation Sorted DecimalString.
From Stdlib Require Import Floats.
Import ListNotations.
Local Open Scope string_scope.
Local Open Scope list_scope.
Local Open Scope Z_scope.

Set Implicit Arguments.
Set Warnings "-inexact-float".

(* ================================================================= *)
(** ** Enumerations ([lib/types.ts], check constraints of the schema) *)

Inductive TableStatus := Free | Occupied | Serving | Billing.
Inductive OrderStatus := Pending | Preparing | Ready | Served | Paid.
Inductive MenuCategory := Starters | Mains | Drinks.
Inductive StaffRole := Manager | HeadWaiter | Waiter | Chef | SousChef | Hostess.
Inductive ShiftStatus := OnShift | OffDuty.

Definition TableStatus_eqb (a b : TableStatus) : bool :=
  match a, b with
  | Free, Free | Occupied, Occupied | Serving, Serving | Billing, Billing => true
  | _, _ => false
  end.

Definition OrderStatus_eqb (a b : OrderStatus) : bool :=
  match a, b with
  | Pending, Pending | Preparing, Preparing | Ready, Ready
  | Served, Served | Paid, Paid => true
  | _, _ => false
  end.

(** The request bodies carry the enumerations as JSON strings; these are the
    [validStatuses.includes(..)] tests of the handlers. *)
Definition TableStatus_of_string (s : string) : option TableStatus :=
  if String.eqb s "Free" then Some Free
  else if String.eqb s "Occupied" then Some Occupied
  else if String.eqb s "Serving" then Some Serving
  else if String.eqb s "Billing" then Some Billing
  else None.

Definition OrderStatus_of_string (s : string) : option OrderStatus :=
  if String.eqb s "Pending" then Some Pending
  else if String.eqb s "Preparing" then Some Preparing
  else if String.eqb s "Ready" then Some Ready
  else if String.eqb s "Served" then Some Served
  else if String.eqb s "Paid" then Some Paid
  else None.

Definition OrderStatus_to_string (s : OrderStatus) : string :=
  match s with
  | Pending => "Pending" | Preparing => "Preparing" | Ready => "Ready"
  | Served => "Served" | Paid => "Paid"
  end.

Definition MenuCategory_of_string (s : string) : option MenuCategory :=
  if String.eqb s "Starters" then Some Starters
  else if String.eqb s "Mains" then Some Mains
  else if String.eqb s "Drinks" then Some Drinks
  else None.

Definition StaffRole_of_string (s : string) : option StaffRole :=
  if String.eqb s "Manager" then Some Manager
  else if String.eqb s "Head Waiter" then Some HeadWaiter
  else if String.eqb s "Waiter" then Some Waiter
  else if String.eqb s "Chef" then Some Chef
  else if String.eqb s "Sous Chef" then Some SousChef
  else if String.eqb s "Hostess" then Some Hostess
  else None.

Definition ShiftStatus_of_string (s : string) : option ShiftStatus :=
  if String.eqb s "On Shift" then Some OnShift
  else if String.eqb s "Off Duty" then Some OffDuty
  else None.

(* ================================================================= *)
(** ** Rows of the five relations

    Amounts are the JavaScript numbers the handlers compute, IEEE 754
    doubles: a [DECIMAL(10, 2)] column has numeric affinity and keeps a
    double as it is bound, without rounding it to two decimals. Timestamps
    ([CURRENT_TIMESTAMP]) are seconds. *)

Record Table := mkTable {
  t_id : Z;
  t_number : Z;
  t_status : TableStatus;
  t_customer_count : option Z;
  t_created_at : Z;
  t_updated_at : Z }.

Record MenuItem := mkMenuItem {
  mi_id : Z;
  mi_name : string;
  mi_price : float;
  mi_category : MenuCategory;
  mi_image : string;
  mi_is_available : bool;
  mi_created_at : Z;
  mi_updated_at : Z }.

Record Staff := mkStaff {
  s_id : Z;
  s_name : string;
  s_role : StaffRole;
  s_shift : string;
  s_status : ShiftStatus;
  s_avatar : string;
  s_created_at : Z;
  s_updated_at : Z }.

Record Order := mkOrder {
  o_id : Z;
  o_table_id : Z;
  o_total_amount : float;
  o_status : OrderStatus;
  o_staff_id : option Z;
  o_created_at : Z;
  o_updated_at : Z }.

Record OrderItem := mkOrderItem {
  oi_id : Z;
  oi_order_id : Z;
  oi_menu_item_id : Z;
  oi_quantity : Z;
  oi_unit_price : float;
  oi_subtotal : float;
  oi_created_at : Z }.

(* ================================================================= *)
(** ** Relations with [INTEGER PRIMARY KEY AUTOINCREMENT] *)

Class Row (A : Type) := rowid : A -> Z.
#[global] Instance Row_Table : Row Table := t_id.
#[global] Instance Row_MenuItem : Row MenuItem := mi_id.
#[global] Instance Row_Staff : Row Staff := s_id.
#[global] Instance Row_Order : Row Order := o_id.
#[global] Instance Row_OrderItem : Row OrderItem := oi_id.

(** [rows] in rowid order of insertion; [seq] is the relation's entry of
    [sqlite_sequence], the largest rowid ever handed out. *)
Record Rel (A : Type) := mkRel { rows : list A; seq : Z }.

Section Relations.
Context {A : Type} `{Row A}.

Definition max_rowid (l : list A) : Z :=
    fold_right (fun r m => Z.max (rowid r) m) 0 l.

Definition next_rowid (r : Rel A) : Z :=
    Z.max (seq r) (max_rowid (rows r)) + 1.

  (** [INSERT]: the new row goes last and gets the next rowid, which is also
      [lastInsertRowid]. *)
Definition insert_row (mk : Z -> A) (r : Rel A) : Z * Rel A :=
    let i := next_rowid r in (i, mkRel (rows r ++ [mk i]) i).

  (** [UPDATE .. SET .. WHERE p]. *)
Definition update_where (p : A -> bool) (f : A -> A) (r : Rel A) : Rel A :=
    mkRel (map (fun x => if p x then f x else x) (rows r)) (seq r).

  (** [DELETE .. WHERE p]. *)
Definition delete_where (p : A -> bool) (r : Rel A) : Rel A :=
    mkRel (filter (fun x => negb (p x)) (rows r)) (seq r).

  (** [SELECT .. WHERE p] with [.all()] and with [.get()]. *)
Definition select_where (p : A -> bool) (r : Rel A) : list A :=
    filter p (rows r).

Definition get_where (p : A -> bool) (r : Rel A) : option A :=
    find p (rows r).

Definition has_rowid (i : Z) (r : Rel A) : bool :=
    existsb (fun x => rowid x =? i) (rows r).
End Relations.

(* ================================================================= *)
(** ** The store *)

Record Db := mkDb {
  tables : Rel Table;
  menu_items : Rel MenuItem;
  staff : Rel Staff;
  orders : Rel Order;
  order_items : Rel OrderItem }.

Definition with_tables (r : Rel Table) (db : Db) : Db :=
  mkDb r (menu_items db) (staff db) (orders db) (order_items db).
Definition with_menu_items (r : Rel MenuItem) (db : Db) : Db :=
  mkDb (tables db) r (staff db) (orders db) (order_items db).
Definition with_staff (r : Rel Staff) (db : Db) : Db :=
  mkDb (tables db) (menu_items db) r (orders db) (order_items db).
Definition with_orders (r : Rel Order) (db : Db) : Db :=
  mkDb (tables db) (menu_items db) (staff db) r (order_items db).
Definition with_order_items (r : Rel OrderItem) (db : Db) : Db :=
  mkDb (tables db) (menu_items db) (staff db) (orders db) r.

(** The column names of [orders] as [initializeDatabase] declares them. *)
Definition orders_columns : list string :=
  ["id"; "table_id"; "total_amount"; "status"; "staff_id"; "created_at"; "updated_at"].

(** Errors a statement can raise. [IoError] stands for any unexpected store
    failure; the others are the constraint and compilation errors of SQLite
    and the binding error of better-sqlite3. *)
Inductive SqlError :=
| IoError
| ConstraintUnique
| ConstraintForeignKey
| ConstraintNotNull
| ConstraintCheck
| NoSuchColumn (c : string)
| BindError.

(** Result of running one statement: it either completes, or fails without
    having changed anything. *)
Inductive Exec (A : Type) :=
| Done (a : A) (db : Db)
| Fail (e : SqlError).
Arguments Fail {A} e.

(* ================================================================= *)
(** ** JavaScript values of the request bodies

    A JSON field is [None] when it is absent and carries its number or string
    otherwise; [!x] is true for an absent field, for [0] and for the empty
    string. Ids, counts and quantities are integers; prices are doubles. *)

Definition truthyZ (x : option Z) : bool :=
  match x with Some z => negb (z =? 0) | None => false end.

(** [!x] on a double: [0], [-0] and [NaN] are falsy. *)
Definition truthyF (x : option float) : bool :=
  match x with
  | Some f => negb (PrimFloat.eqb f 0 || PrimFloat.is_nan f)
  | None => false
  end.

Definition truthyS (x : option string) : bool :=
  match x with Some s => negb (String.eqb s EmptyString) | None => false end.

(** [x || null], as bound to a statement parameter. *)
Definition or_nullZ (x : option Z) : option Z := if truthyZ x then x else None.
Definition or_nullF (x : option float) : option float := if truthyF x then x else None.
Definition or_nullS (x : option string) : option string := if truthyS x then x else None.

(** [COALESCE(?, column)]. *)
Definition coalesce {A : Type} (x : option A) (old : A) : A :=
  match x with Some v => v | None => old end.

Definition string_of_Z (z : Z) : string := NilZero.string_of_int (Z.to_int z).

(** The JavaScript number of an integer of a request body: the nearest
    double (the integer itself up to [2^53]). *)
Definition number_of_Z (z : Z) : float :=
  SF2Prim (binary_normalize prec emax z 0 false).

(** A double bound to a statement parameter: SQLite takes a NaN as NULL and
    keeps every other double (but for the sign of a negative zero, which no
    handler binds when the prices are positive, and which an answer in
    JSON does not show). *)
Definition sql_real (x : float) : option float :=
  if PrimFloat.is_nan x then None else Some x.

Definition bind_real (x : option float) : option float :=
  match x with Some f => sql_real f | None => None end.

(** The doubles above zero, [+Infinity] among them, and those that are above
    zero or [+0]. *)
Definition SFpositive (x : spec_float) : bool :=
  match x with
  | S754_finite false _ _ | S754_infinity false => true
  | _ => false
  end.

Definition SFnonneg (x : spec_float) : bool :=
  match x with
  | S754_zero false | S754_finite false _ _ | S754_infinity false => true
  | _ => false
  end.

(* ================================================================= *)
(** ** Statements on [tables] *)

Definition set_t_status (s : TableStatus) (t : Table) : Table :=
  mkTable (t_id t) (t_number t) s (t_customer_count t) (t_created_at t) (t_updated_at t).
Definition set_t_customer_count (c : option Z) (t : Table) : Table :=
  mkTable (t_id t) (t_number t) (t_status t) c (t_created_at t) (t_updated_at t).
Definition set_t_updated_at (now : Z) (t : Table) : Table :=
  mkTable (t_id t) (t_number t) (t_status t) (t_customer_count t) (t_created_at t) now.

(** An [UPDATE tables SET .. WHERE id = ?]; the trigger
    [update_tables_timestamp] then refreshes [updated_at] of the rows hit. *)
Definition update_tables (now : Z) (id : Z) (f : Table -> Table) (db : Db) : Db :=
  with_tables
    (update_where (fun t => t_id t =? id) (fun t => set_t_updated_at now (f t)) (tables db)) db.

(** [SELECT .. FROM tables WHERE id = ?]. *)
Definition select_table (id : Z) (db : Db) : option Table :=
  get_where (fun t => t_id t =? id) (tables db).

(** [UPDATE tables SET status = ? WHERE id = ?]. *)
Definition update_table_status (now : Z) (s : TableStatus) (id : Z) (db : Db) : Db :=
  update_tables now id (set_t_status s) db.

(** [UPDATE tables SET status = ?, customer_count = ? WHERE id = ?]. *)
Definition update_table_status_count (now : Z) (s : TableStatus) (c : option Z)
    (id : Z) (db : Db) : Db :=
  update_tables now id (fun t => set_t_customer_count c (set_t_status s t)) db.

(** [UPDATE tables SET status = COALESCE(?, status),
     customer_count = COALESCE(?, customer_count) WHERE id = ?]. *)
Definition update_table_coalesce (now : Z) (s : option TableStatus) (c : option Z)
    (id : Z) (db : Db) : Db :=
  update_tables now id
    (fun t => set_t_customer_count
                (match c with Some v => Some v | None => t_customer_count t end)
                (set_t_status (coalesce s (t_status t)) t)) db.

(** [INSERT INTO tables (number, status, customer_count) VALUES (?, ?, ?)]:
    [number] is UNIQUE, [status] is checked against the four values. *)
Definition insert_table (now : Z) (number : Z) (status : string) (c : option Z)
    (db : Db) : Exec Z :=
  match TableStatus_of_string status with
  | None => Fail ConstraintCheck
  | Some s =>
      if existsb (fun t => t_number t =? number) (rows (tables db))
      then Fail ConstraintUnique
      else let (i, r) := insert_row (fun i => mkTable i number s c now now) (tables db) in
           Done i (with_tables r db)
  end.

(* ================================================================= *)
(** ** Statements on [orders] and [order_items] *)

Definition set_o_status (s : OrderStatus) (o : Order) : Order :=
  mkOrder (o_id o) (o_table_id o) (o_total_amount o) s (o_staff_id o)
          (o_created_at o) (o_updated_at o).
Definition set_o_staff_id (x : option Z) (o : Order) : Order :=
  mkOrder (o_id o) (o_table_id o) (o_total_amount o) (o_status o) x
          (o_created_at o) (o_updated_at o).
Definition set_o_updated_at (now : Z) (o : Order) : Order :=
  mkOrder (o_id o) (o_table_id o) (o_total_amount o) (o_status o) (o_staff_id o)
          (o_created_at o) now.

(** The foreign key [orders.staff_id -> staff.id] on a value written. *)
Definition staff_ref_ok (x : option Z) (db : Db) : bool :=
  match x with Some s => has_rowid s (staff db) | None => true end.

(** [INSERT INTO orders (table_id, total_amount, status, staff_id)
     VALUES (?, ?, 'Pending', ?)]; a total that is NaN is bound as NULL,
    which the NOT NULL constraint rejects. *)
Definition insert_order (now : Z) (tableId : Z) (total : float) (staffId : option Z)
    (db : Db) : Exec Z :=
  match sql_real total with
  | None => Fail ConstraintNotNull
  | Some amount =>
      if negb (has_rowid tableId (tables db)) then Fail ConstraintForeignKey
      else if negb (staff_ref_ok staffId db) then Fail ConstraintForeignKey
      else let (i, r) := insert_row
                           (fun i => mkOrder i tableId amount Pending staffId now now)
                           (orders db) in
           Done i (with_orders r db)
  end.

(** One line of an order as the create handlers compute it. [quantity] is
    [None] when the request line has no quantity; [subtotal] is then NaN. *)
Record LineData := mkLine {
  menuItemId : Z;
  quantity : option Z;
  unitPrice : float;
  subtotal : float }.

(** [INSERT INTO order_items (order_id, menu_item_id, quantity, unit_price,
     subtotal) VALUES (?, ?, ?, ?, ?)]; an [undefined] quantity cannot be
    bound, and an amount that is NaN is bound as NULL, which the NOT NULL
    constraints reject. *)
Definition insert_order_item (now : Z) (orderId : Z) (item : LineData) (db : Db)
    : Exec unit :=
  match quantity item with
  | None => Fail BindError
  | Some q =>
      match sql_real (unitPrice item), sql_real (subtotal item) with
      | Some price, Some sub =>
          if negb (has_rowid orderId (orders db)) then Fail ConstraintForeignKey
          else if negb (has_rowid (menuItemId item) (menu_items db))
               then Fail ConstraintForeignKey
          else let (_, r) := insert_row
                               (fun i => mkOrderItem i orderId (menuItemId item) q
                                                     price sub now)
                               (order_items db) in
               Done tt (with_order_items r db)
      | _, _ => Fail ConstraintNotNull
      end
  end.

(** [SELECT .. FROM orders WHERE id = ?]. *)
Definition select_order (id : Z) (db : Db) : option Order :=
  get_where (fun o => o_id o =? id) (orders db).

(** [UPDATE orders SET status = COALESCE(?, status),
     staff_id = COALESCE(?, staff_id) WHERE id = ?], then the trigger
    [update_orders_timestamp]. *)
Definition update_order (now : Z) (s : option OrderStatus) (staffId : option Z)
    (id : Z) (db : Db) : Exec unit :=
  if has_rowid id (orders db) && negb (staff_ref_ok staffId db)
  then Fail ConstraintForeignKey
  else Done tt
         (with_orders
            (update_where (fun o => o_id o =? id)
               (fun o => set_o_updated_at now
                           (set_o_staff_id
                              (match staffId with Some v => Some v | None => o_staff_id o end)
                              (set_o_status (coalesce s (o_status o)) o)))
               (orders db)) db).

Definition is_active (o : Order) : bool := negb (OrderStatus_eqb (o_status o) Paid).

(** The non-Paid orders of a table, in rowid order. *)
Definition active_orders (tableId : Z) (db : Db) : list Order :=
  select_where (fun o => (o_table_id o =? tableId) && is_active o) (orders db).

(** [SELECT COUNT( * ) FROM orders WHERE table_id = ? AND status NOT IN ('Paid')]. *)
Definition count_active (tableId : Z) (db : Db) : Z :=
  Z.of_nat (List.length (active_orders tableId db)).

(** [.. AND status NOT IN ('Paid') AND id != ?]. *)
Definition count_other_active (tableId orderId : Z) (db : Db) : Z :=
  Z.of_nat (List.length (filter (fun o => negb (o_id o =? orderId)) (active_orders tableId db))).

(** [DELETE FROM orders WHERE id = ?]; [order_items.order_id] cascades. *)
Definition delete_order (id : Z) (db : Db) : Db :=
  with_order_items (delete_where (fun i => oi_order_id i =? id) (order_items db))
    (with_orders (delete_where (fun o => o_id o =? id) (orders db)) db).

(** [SELECT status, COUNT( * ) as count FROM orders
     WHERE table_id = ? AND status != 'Paid' GROUP BY status]: one row for
    each status that occurs. *)
Definition active_by_status (tableId : Z) (db : Db) : list (OrderStatus * Z) :=
  filter (fun g => 0 <? snd g)
    (map (fun s => (s, Z.of_nat (List.length (filter (fun o => OrderStatus_eqb (o_status o) s)
                                                (active_orders tableId db)))))
         [Pending; Preparing; Ready; Served]).

(** [SELECT SUM(oi.quantity) FROM orders o JOIN order_items oi ON o.id = oi.order_id
     WHERE o.table_id = ? AND o.status != 'Paid']: NULL when the join is empty. *)
Definition joined_quantities (tableId : Z) (db : Db) : list Z :=
  flat_map (fun o => map oi_quantity
                       (select_where (fun i => oi_order_id i =? o_id o) (order_items db)))
           (active_orders tableId db).

Definition sum_quantities (tableId : Z) (db : Db) : option Z :=
  match joined_quantities tableId db with
  | [] => None
  | l => Some (fold_left Z.add l 0)
  end.

(* ================================================================= *)
(** ** Statements on [menu_items] and [staff] *)

Definition select_menu_item (id : Z) (db : Db) : option MenuItem :=
  get_where (fun m => mi_id m =? id) (menu_items db).

(** [INSERT INTO menu_items (name, price, category, image, is_available)
     VALUES (?, ?, ?, ?, ?)]; [price] is NOT NULL. *)
Definition insert_menu_item (now : Z) (name : string) (price : float) (c : MenuCategory)
    (image : string) (avail : bool) (db : Db) : Exec Z :=
  match sql_real price with
  | None => Fail ConstraintNotNull
  | Some p =>
      let (i, r) := insert_row (fun i => mkMenuItem i name p c image avail now now)
                               (menu_items db) in
      Done i (with_menu_items r db)
  end.

(** [UPDATE menu_items SET name = COALESCE(?, name), ..  WHERE id = ?]. *)
Definition update_menu_item (now : Z) (name : option string) (price : option float)
    (c : option MenuCategory) (image : option string) (avail : option bool)
    (id : Z) (db : Db) : Db :=
  with_menu_items
    (update_where (fun m => mi_id m =? id)
       (fun m => mkMenuItem (mi_id m) (coalesce name (mi_name m))
                            (coalesce (bind_real price) (mi_price m))
                            (coalesce c (mi_category m)) (coalesce image (mi_image m))
                            (coalesce avail (mi_is_available m)) (mi_created_at m) now)
       (menu_items db)) db.

(** [DELETE FROM menu_items WHERE id = ?]; [order_items.menu_item_id] cascades. *)
Definition delete_menu_item (id : Z) (db : Db) : Db :=
  with_order_items (delete_where (fun i => oi_menu_item_id i =? id) (order_items db))
    (with_menu_items (delete_where (fun m => mi_id m =? id) (menu_items db)) db).

Definition select_staff (id : Z) (db : Db) : option Staff :=
  get_where (fun s => s_id s =? id) (staff db).

Definition insert_staff (now : Z) (name : string) (role : StaffRole) (shift : string)
    (status : ShiftStatus) (avatar : string) (db : Db) : Exec Z :=
  let (i, r) := insert_row (fun i => mkStaff i name role shift status avatar now now)
                           (staff db) in
  Done i (with_staff r db).

Definition update_staff (now : Z) (name : option string) (role : option StaffRole)
    (shift : option string) (status : option ShiftStatus) (avatar : option string)
    (id : Z) (db : Db) : Db :=
  with_staff
    (update_where (fun s => s_id s =? id)
       (fun s => mkStaff (s_id s) (coalesce name (s_name s)) (coalesce role (s_role s))
                         (coalesce shift (s_shift s)) (coalesce status (s_status s))
                         (coalesce avatar (s_avatar s)) (s_created_at s) now)
       (staff db)) db.

(** [DELETE FROM staff WHERE id = ?]; [orders.staff_id] is set to NULL, which
    is an update of those orders. *)
Definition delete_staff (now : Z) (id : Z) (db : Db) : Db :=
  with_orders
    (update_where (fun o => match o_staff_id o with Some s => s =? id | None => false end)
       (fun o => set_o_updated_at now (set_o_staff_id None o)) (orders db))
    (with_staff (delete_where (fun s => s_id s =? id) (staff db)) db).

(** [DELETE FROM tables WHERE id = ?]; [orders.table_id] cascades, and the
    orders deleted take their line items with them. *)
Definition delete_table (id : Z) (db : Db) : Db :=
  let gone := map o_id (select_where (fun o => o_table_id o =? id) (orders db)) in
  with_order_items
    (delete_where (fun i => existsb (Z.eqb (oi_order_id i)) gone) (order_items db))
    (with_orders (delete_where (fun o => o_table_id o =? id) (orders db))
       (with_tables (delete_where (fun t => t_id t =? id) (tables db)) db)).

(* ================================================================= *)
(** ** Joined reads and response bodies *)

(** A row of [SELECT o.*, t.number as tableNumber, s.name as staffName
     FROM orders o LEFT JOIN tables t .. LEFT JOIN staff s ..]; ids are
    primary keys, so at most one table and one staff member match. *)
Record OrderView := mkOrderView {
  ov_order : Order;
  ov_tableNumber : option Z;
  ov_staffName : option string }.

(** A row of [SELECT oi.*, mi.name as itemName, mi.category, mi.image
     FROM order_items oi JOIN menu_items mi ON oi.menu_item_id = mi.id]. *)
Record ItemView := mkItemView {
  iv_item : OrderItem;
  iv_itemName : string;
  iv_category : MenuCategory;
  iv_image : string }.

Definition order_view (db : Db) (o : Order) : OrderView :=
  mkOrderView o
    (option_map t_number (select_table (o_table_id o) db))
    (match o_staff_id o with
     | Some s => option_map s_name (select_staff s db)
     | None => None
     end).

(** [SELECT .. FROM orders o LEFT JOIN .. WHERE o.id = ?] with [.get()]. *)
Definition select_order_view (id : Z) (db : Db) : option OrderView :=
  option_map (order_view db) (select_order id db).

(** The inner join drops a line whose menu item is gone. *)
Definition join_menu_item {B : Type} (mk : OrderItem -> MenuItem -> B) (db : Db)
    (i : OrderItem) : list B :=
  match select_menu_item (oi_menu_item_id i) db with
  | Some m => [mk i m]
  | None => []
  end.

Definition item_view (i : OrderItem) (m : MenuItem) : ItemView :=
  mkItemView i (mi_name m) (mi_category m) (mi_image m).

(** [SELECT .. FROM order_items oi JOIN menu_items mi .. WHERE oi.order_id = ?]. *)
Definition select_item_views (orderId : Z) (db : Db) : list ItemView :=
  flat_map (join_menu_item item_view db)
           (select_where (fun i => oi_order_id i =? orderId) (order_items db)).

(** The same with [mi.price] among the columns (table order listing). *)
Definition select_item_views_price (orderId : Z) (db : Db) : list (ItemView * float) :=
  flat_map (join_menu_item (fun i m => (item_view i m, mi_price m)) db)
           (select_where (fun i => oi_order_id i =? orderId) (order_items db)).

(** JSON bodies of the responses, one constructor per shape. *)
Inductive Body :=
| ErrorJson (error : string)
| MessageJson (message : string)
| OrderJson (order : option OrderView) (items : list ItemView)
| OrderListJson (l : list (OrderView * list (ItemView * float)))
| OrderCreatedJson (message : string) (orderId : Z) (totalAmount : float)
| StatusUpdatedJson (message : string) (orderId : option Z) (status : string)
| SyncedJson (message : string) (tablesUpdated : Z)
| TableJson (t : option Table)
| MenuItemJson (m : option MenuItem)
| StaffJson (s : option Staff).

Record Response := mkResponse { http_status : Z; body : Body }.

Definition json (b : Body) : Response := mkResponse 200 b.
Definition json_status (b : Body) (code : Z) : Response := mkResponse code b.
Definition error_response (msg : string) (code : Z) : Response := mkResponse code (ErrorJson msg).

(* ================================================================= *)
(** ** Handler bodies

    A handler body runs statements against the store. A statement may throw:
    because the store fails ([Faults] says at which statements, counted in
    execution order), or because a constraint rejects it. A handler may also
    leave early with a response. *)

Definition Faults := nat -> bool.
Definition no_faults : Faults := fun _ => false.

Record St := mkSt { st_db : Db; st_tick : nat }.

Inductive Outcome (A : Type) :=
| Val (a : A)
| Reply (r : Response)
| Throw (e : SqlError).
Arguments Reply {A} r.
Arguments Throw {A} e.

Definition M (A : Type) := Faults -> St -> Outcome A * St.

Definition ret {A} (a : A) : M A := fun _ st => (Val a, st).

Definition bind {A B} (m : M A) (k : A -> M B) : M B :=
  fun flt st =>
    match m flt st with
    | (Val a, st1) => k a flt st1
    | (Reply r, st1) => (Reply r, st1)
    | (Throw e, st1) => (Throw e, st1)
    end.

(** [return NextResponse.json(..)] before the end of the handler. *)
Definition reply {A} (r : Response) : M A := fun _ st => (Reply r, st).

Definition throw {A} (e : SqlError) : M A := fun _ st => (Throw e, st).

(** One statement, prepared and run. *)
Definition stmt {A} (f : Db -> Exec A) : M A :=
  fun flt st =>
    let st1 := mkSt (st_db st) (S (st_tick st)) in
    if flt (st_tick st) then (Throw IoError, st1)
    else match f (st_db st) with
         | Done a db1 => (Val a, mkSt db1 (S (st_tick st)))
         | Fail e => (Throw e, st1)
         end.

Definition query {A} (f : Db -> A) : M A := stmt (fun db => Done (f db) db).
Definition exec (f : Db -> Db) : M unit := stmt (fun db => Done tt (f db)).

(** [db.prepare(sql)] compiles the statement: every column it names must be
    a column of the relation. *)
Definition prepare (columns used : list string) : M unit :=
  match find (fun c => negb (existsb (String.eqb c) columns)) used with
  | Some c => throw (NoSuchColumn c)
  | None => ret tt
  end.

(** [db.transaction(fn)()]: commit when [fn] returns, roll back and rethrow
    when it throws. *)
Definition transaction {A} (m : M A) : M A :=
  fun flt st =>
    match m flt st with
    | (Throw e, st1) => (Throw e, mkSt (st_db st) (st_tick st1))
    | r => r
    end.

Declare Scope handler_scope.
Delimit Scope handler_scope with handler.
Notation "x <- m ;; k" := (bind m (fun x => k))
  (at level 61, m at next level, right associativity) : handler_scope.
Notation "m ;;; k" := (bind m (fun _ => k))
  (at level 61, right associativity) : handler_scope.
Local Open Scope handler_scope.

(** [for (const x of l) { body }]. *)
Fixpoint for_each {A} (l : list A) (body : A -> M unit) : M unit :=
  match l with
  | [] => ret tt
  | x :: rest => body x ;;; for_each rest body
  end.

(** [try { .. } catch (error) { .. }] around a whole handler: the response
    of the body, or the response the catch clause builds; either way the
    store is left as the statements left it. *)
Definition handle (m : M Response) (on_error : SqlError -> Response)
    (flt : Faults) (db : Db) : Response * Db :=
  match m flt (mkSt db 0) with
  | (Val r, st) => (r, st_db st)
  | (Reply r, st) => (r, st_db st)
  | (Throw e, st) => (on_error e, st_db st)
  end.

Definition internal_error (msg : string) : SqlError -> Response :=
  fun _ => error_response msg 500.

(* ================================================================= *)
(** ** [POST /api/orders] (the route with the table check and staff) *)

(** One entry of the [items] array of a create-order request. *)
Record ItemReq := mkItemReq { item_id : option Z; item_quantity : option Z }.

Module Orders.

Record Request := mkRequest {
    tableId : option Z;
    items : option (list ItemReq);   (* [None]: absent or not an array *)
    staffId : option Z }.

  (** The loop that prices the lines: it validates each line, reads the
      current price of its menu item, and accumulates [totalAmount] and
      [orderItemsData]. [menuItem.price * item.quantity] and
      [totalAmount += subtotal] are operations on doubles. *)
Fixpoint price_items (l : list ItemReq) (totalAmount : float)
      (orderItemsData : list LineData) : M (float * list LineData) :=
    match l with
    | [] => ret (totalAmount, orderItemsData)
    | item :: rest =>
        match item_id item, item_quantity item with
        | Some id, Some q =>
            if (id =? 0) || (q =? 0) || (q <=? 0)
            then reply (error_response "Invalid item data" 400)
            else
              menuItem <- query (select_menu_item id) ;;
              match menuItem with
              | None =>
                  reply (error_response
                           ("Menu item with ID " ++ string_of_Z id ++ " not found")%string 404)
              | Some m =>
                  let sub := PrimFloat.mul (mi_price m) (number_of_Z q) in
                  price_items rest (PrimFloat.add totalAmount sub)
                    (orderItemsData ++ [mkLine id (Some q) (mi_price m) sub])
              end
        | _, _ => reply (error_response "Invalid item data" 400)
        end
    end.

  (** The callback of [db.transaction]. *)
Definition create (now : Z) (tableId : Z) (totalAmount : float) (staffId : option Z)
      (orderItemsData : list LineData) : M Z :=
    orderId <- stmt (insert_order now tableId totalAmount (or_nullZ staffId)) ;;
    for_each orderItemsData (fun item => stmt (insert_order_item now orderId item)) ;;;
    exec (update_table_status now Occupied tableId) ;;;
    ret orderId.

Definition POST_body (now : Z) (req : Request) : M Response :=
    match tableId req, items req with
    | Some tableId, Some ((_ :: _) as items) =>
        if tableId =? 0
        then reply (error_response "Table ID and items array are required" 400)
        else
          table <- query (select_table tableId) ;;
          match table with
          | None => reply (error_response "Table not found" 404)
          | Some _ =>
              priced <- price_items items 0%float [] ;;
              let (totalAmount, orderItemsData) := priced in
              orderId <- transaction (create now tableId totalAmount (staffId req) orderItemsData) ;;
              createdOrder <- query (select_order_view orderId) ;;
              orderItems <- query (select_item_views orderId) ;;
              ret (json_status (OrderJson createdOrder orderItems) 201)
          end
    | _, _ => reply (error_response "Table ID and items array are required" 400)
    end.

Definition POST (flt : Faults) (now : Z) (req : Request) (db : Db) : Response * Db :=
    handle (POST_body now req) (internal_error "Failed to create order") flt db.

End Orders.

(* ================================================================= *)
(** ** [POST /api/orders] (the route that answers with the order id) *)

Module OrdersAlt.

Record Request := mkRequest {
    tableId : option Z;
    items : option (list ItemReq) }.

  (** No validation of the lines here: a line without an id cannot be bound
      to the lookup, and a line without a quantity makes the amounts NaN
      ([menuItem.price * undefined]). *)
Fixpoint price_items (l : list ItemReq) (totalAmount : float)
      (orderItems : list LineData) : M (float * list LineData) :=
    match l with
    | [] => ret (totalAmount, orderItems)
    | item :: rest =>
        match item_id item with
        | None => throw BindError
        | Some id =>
            menuItem <- query (select_menu_item id) ;;
            match menuItem with
            | None =>
                reply (error_response
                         ("Menu item with ID " ++ string_of_Z id ++ " not found")%string 400)
            | Some m =>
                let sub := match item_quantity item with
                           | Some q => PrimFloat.mul (mi_price m) (number_of_Z q)
                           | None => nan
                           end in
                price_items rest (PrimFloat.add totalAmount sub)
                  (orderItems ++ [mkLine id (item_quantity item) (mi_price m) sub])
            end
        end
    end.

Definition create (now : Z) (tableId : Z) (totalAmount : float)
      (orderItems : list LineData) : M Z :=
    orderId <- stmt (insert_order now tableId totalAmount None) ;;
    for_each orderItems (fun item => stmt (insert_order_item now orderId item)) ;;;
    exec (update_table_status now Occupied tableId) ;;;
    ret orderId.

Definition POST_body (now : Z) (req : Request) : M Response :=
    match tableId req, items req with
    | Some tableId, Some ((_ :: _) as items) =>
        if tableId =? 0
        then reply (error_response "Table ID and items are required" 400)
        else
          priced <- price_items items 0%float [] ;;
          let (totalAmount, orderItems) := priced in
          orderId <- transaction (create now tableId totalAmount orderItems) ;;
          ret (json_status (OrderCreatedJson "Order created successfully" orderId totalAmount) 201)
    | _, _ => reply (error_response "Table ID and items are required" 400)
    end.

Definition POST (flt : Faults) (now : Z) (req : Request) (db : Db) : Response * Db :=
    handle (POST_body now req) (internal_error "Failed to create order, please try again") flt db.

End OrdersAlt.

(* ================================================================= *)
(** ** [PUT] and [DELETE /api/orders/[id]]

    The path parameter is the result of [parseInt]: [None] for NaN. *)

Module OrderById.

Record Request := mkRequest {
    status : option string;
    staffId : option Z }.

  (** The [switch (status)] of the update, inside the transaction. *)
Definition table_status_for (s : OrderStatus) (tableId orderId : Z) : M TableStatus :=
    match s with
    | Pending | Preparing => ret Occupied
    | Ready | Served => ret Serving
    | Paid =>
        activeOrdersCount <- query (count_other_active tableId orderId) ;;
        ret (if 0 <? activeOrdersCount then Occupied else Billing)
    end.

Definition update (now : Z) (orderId : Z) (s : option OrderStatus) (staffId : option Z)
      (tableId : Z) : M unit :=
    stmt (update_order now s (or_nullZ staffId) orderId) ;;;
    match s with
    | Some s =>
        tableStatus <- table_status_for s tableId orderId ;;
        exec (update_table_status now tableStatus tableId)
    | None => ret tt
    end.

Definition PUT_body (now : Z) (id : option Z) (req : Request) : M Response :=
    match id with
    | None => reply (error_response "Invalid order ID" 400)
    | Some orderId =>
        let given := or_nullS (status req) in
        match given, match given with Some s => OrderStatus_of_string s | None => None end with
        | Some _, None => reply (error_response "Invalid order status" 400)
        | _, s =>
            existingOrder <- query (select_order orderId) ;;
            match existingOrder with
            | None => reply (error_response "Order not found" 404)
            | Some existing =>
                transaction (update now orderId s (staffId req) (o_table_id existing)) ;;;
                updatedOrder <- query (select_order_view orderId) ;;
                items <- query (select_item_views orderId) ;;
                ret (json (OrderJson updatedOrder items))
            end
        end
    end.

Definition PUT (flt : Faults) (now : Z) (id : option Z) (req : Request) (db : Db)
      : Response * Db :=
    handle (PUT_body now id req) (internal_error "Failed to update order") flt db.

  (** The callback of the cancelling transaction. *)
Definition cancel (now : Z) (orderId tableId : Z) : M unit :=
    exec (delete_order orderId) ;;;
    otherOrdersCount <- query (count_active tableId) ;;
    if otherOrdersCount =? 0
    then exec (update_table_status_count now Free None tableId)
    else ret tt.

Definition DELETE_body (now : Z) (id : option Z) : M Response :=
    match id with
    | None => reply (error_response "Invalid order ID" 400)
    | Some orderId =>
        existingOrder <- query (select_order orderId) ;;
        match existingOrder with
        | None => reply (error_response "Order not found" 404)
        | Some existing =>
            if negb (OrderStatus_eqb (o_status existing) Pending)
            then reply (error_response "Can only cancel pending orders" 400)
            else
              transaction (cancel now orderId (o_table_id existing)) ;;;
              ret (json (MessageJson "Order cancelled successfully"))
        end
    end.

Definition DELETE (flt : Faults) (now : Z) (id : option Z) (db : Db) : Response * Db :=
    handle (DELETE_body now id) (internal_error "Failed to cancel order") flt db.

End OrderById.

(* ================================================================= *)
(** ** [PATCH /api/orders/[id]/status]

    The statements of this handler name the columns [updatedAt] and
    [tableId]. The handler is given the column names of [orders] in the store
    it runs against, so that what it does when its statements compile is
    modelled next to what it does against [orders_columns]. No transaction
    here. *)

(** [UPDATE orders SET status = ?, updatedAt = CURRENT_TIMESTAMP WHERE id = ?];
    the result is [changes]. A NaN id is bound as NULL and matches no row. *)
Definition update_order_status (now : Z) (s : OrderStatus) (id : option Z) (db : Db)
    : Exec Z :=
  match id with
  | None => Done 0 db
  | Some i =>
      Done (Z.of_nat (List.length (select_where (fun o => o_id o =? i) (orders db))))
           (with_orders
              (update_where (fun o => o_id o =? i)
                 (fun o => set_o_updated_at now (set_o_status s o)) (orders db)) db)
  end.

Module OrderStatusRoute.

Definition free_table_when_paid (columns : list string) (now : Z) (id : option Z)
      : M unit :=
    prepare columns ["tableId"; "id"] ;;;
    order <- query (fun db => match id with Some i => select_order i db | None => None end) ;;
    match order with
    | Some o =>
        prepare columns ["tableId"; "status"] ;;;
        activeOrders <- query (count_active (o_table_id o)) ;;
        if activeOrders =? 0
        then exec (update_table_status now Free (o_table_id o))
        else ret tt
    | None => ret tt
    end.

Definition PATCH_body (columns : list string) (now : Z) (id : option Z)
      (status : option string) : M Response :=
    match or_nullS status with
    | None => reply (error_response "Status is required" 400)
    | Some given =>
        match OrderStatus_of_string given with
        | None => reply (error_response "Invalid status" 400)
        | Some s =>
            prepare columns ["status"; "updatedAt"; "id"] ;;;
            changes <- stmt (update_order_status now s id) ;;
            if changes =? 0
            then reply (error_response "Order not found" 404)
            else
              (if OrderStatus_eqb s Paid
               then free_table_when_paid columns now id
               else ret tt) ;;;
              ret (json (StatusUpdatedJson "Order status updated successfully" id given))
        end
    end.

Definition PATCH (columns : list string) (flt : Faults) (now : Z) (id : option Z)
      (status : option string) (db : Db) : Response * Db :=
    handle (PATCH_body columns now id status)
           (internal_error "Failed to update order status") flt db.

End OrderStatusRoute.

(* ================================================================= *)
(** ** [POST /api/tables/sync-status] *)

Module TablesSync.

Definition has_status (s : OrderStatus) (activeOrders : list (OrderStatus * Z)) : bool :=
    existsb (fun order => OrderStatus_eqb (fst order) s) activeOrders.

  (** The body of the loop between the two reads and the write. *)
Definition derive (activeOrders : list (OrderStatus * Z)) (totalCustomers : option Z)
      : TableStatus * option Z :=
    match activeOrders with
    | [] => (Free, None)
    | _ :: _ =>
        let hasPending := has_status Pending activeOrders in
        let hasPreparing := has_status Preparing activeOrders in
        let hasReady := has_status Ready activeOrders in
        let hasServed := has_status Served activeOrders in
        let newStatus :=
          if hasPending || hasPreparing then Occupied
          else if hasReady || hasServed then Serving
          else Occupied in
        (newStatus, if truthyZ totalCustomers then totalCustomers else None)
    end.

Definition sync_table (now : Z) (table : Table) : M unit :=
    activeOrders <- query (active_by_status (t_id table)) ;;
    customerCount <- query (sum_quantities (t_id table)) ;;
    let (newStatus, customerCountValue) := derive activeOrders customerCount in
    exec (update_table_status_count now newStatus customerCountValue (t_id table)).

Definition POST_body (now : Z) : M Response :=
    all <- query (fun db => rows (tables db)) ;;
    for_each all (sync_table now) ;;;
    ret (json (SyncedJson "Table statuses synced successfully" (Z.of_nat (List.length all)))).

Definition POST (flt : Faults) (now : Z) (db : Db) : Response * Db :=
    handle (POST_body now) (internal_error "Failed to sync table statuses") flt db.

End TablesSync.

(* ================================================================= *)
(** ** [GET /api/tables/[id]/orders] *)

(** [ORDER BY o.created_at DESC]. *)
Fixpoint insert_desc (o : Order) (l : list Order) : list Order :=
  match l with
  | [] => [o]
  | x :: rest =>
      if o_created_at x <=? o_created_at o then o :: l else x :: insert_desc o rest
  end.

Definition order_by_created_desc (l : list Order) : list Order :=
  fold_right insert_desc [] l.

Module TableOrders.

  (** [orders.map(order => ({ ...order, items: orderItemsStmt.all(order.id) }))]. *)
Fixpoint with_items (l : list OrderView) : M (list (OrderView * list (ItemView * float))) :=
    match l with
    | [] => ret []
    | order :: rest =>
        items <- query (select_item_views_price (o_id (ov_order order))) ;;
        more <- with_items rest ;;
        ret ((order, items) :: more)
    end.

Definition GET_body (id : option Z) : M Response :=
    match id with
    | None => reply (error_response "Invalid table ID" 400)
    | Some tableId =>
        found <- query (fun db => map (order_view db)
                                      (order_by_created_desc (active_orders tableId db))) ;;
        ordersWithItems <- with_items found ;;
        ret (json (OrderListJson ordersWithItems))
    end.

Definition GET (flt : Faults) (id : option Z) (db : Db) : Response * Db :=
    handle (GET_body id) (internal_error "Failed to fetch table orders") flt db.

End TableOrders.

(* ================================================================= *)
(** ** [POST /api/tables], [PUT] and [DELETE /api/tables/[id]] *)

Module Tables.

Record Request := mkRequest {
    number : option Z;
    status : option string;
    customerCount : option Z }.

Definition POST_body (now : Z) (req : Request) : M Response :=
    if negb (truthyZ (number req))
    then reply (error_response "Table number is required and must be a number" 400)
    else
      let n := match number req with Some n => n | None => 0 end in
      let s := match status req with Some s => s | None => "Free" end in
      newId <- stmt (insert_table now n s (or_nullZ (customerCount req))) ;;
      createdTable <- query (select_table newId) ;;
      ret (json_status (TableJson createdTable) 201).

Definition on_error (e : SqlError) : Response :=
    match e with
    | ConstraintUnique => error_response "Table number already exists" 409
    | _ => error_response "Failed to create table" 500
    end.

Definition POST (flt : Faults) (now : Z) (req : Request) (db : Db) : Response * Db :=
    handle (POST_body now req) on_error flt db.

End Tables.

Module TableById.

Record Request := mkRequest {
    status : option string;
    customerCount : option Z }.

Definition PUT_body (now : Z) (id : option Z) (req : Request) : M Response :=
    match id with
    | None => reply (error_response "Invalid table ID" 400)
    | Some tableId =>
        let given := or_nullS (status req) in
        match given, match given with Some s => TableStatus_of_string s | None => None end with
        | Some _, None => reply (error_response "Invalid table status" 400)
        | _, s =>
            existingTable <- query (select_table tableId) ;;
            match existingTable with
            | None => reply (error_response "Table not found" 404)
            | Some _ =>
                exec (update_table_coalesce now s (or_nullZ (customerCount req)) tableId) ;;;
                updatedTable <- query (select_table tableId) ;;
                ret (json (TableJson updatedTable))
            end
        end
    end.

Definition PUT (flt : Faults) (now : Z) (id : option Z) (req : Request) (db : Db)
      : Response * Db :=
    handle (PUT_body now id req) (internal_error "Failed to update table") flt db.

Definition DELETE_body (id : option Z) : M Response :=
    match id with
    | None => reply (error_response "Invalid table ID" 400)
    | Some tableId =>
        existingTable <- query (select_table tableId) ;;
        match existingTable with
        | None => reply (error_response "Table not found" 404)
        | Some _ =>
            exec (delete_table tableId) ;;;
            ret (json (MessageJson "Table deleted successfully"))
        end
    end.

Definition DELETE (flt : Faults) (id : option Z) (db : Db) : Response * Db :=
    handle (DELETE_body id) (internal_error "Failed to delete table") flt db.

End TableById.

(* ================================================================= *)
(** ** [POST /api/menu], [PUT] and [DELETE /api/menu/[id]] *)

Module Menu.

Record Request := mkRequest {
    name : option string;
    price : option float;
    category : option string;
    image : option string;
    isAvailable : option bool }.

Definition POST_body (now : Z) (req : Request) : M Response :=
    match or_nullS (name req), or_nullF (price req), or_nullS (category req),
          or_nullS (image req) with
    | Some n, Some p, Some c, Some i =>
        match MenuCategory_of_string c with
        | None => reply (error_response "Invalid category. Must be Starters, Mains, or Drinks" 400)
        | Some cat =>
            if PrimFloat.leb p 0
            then reply (error_response "Price must be a positive number" 400)
            else
              let avail := match isAvailable req with Some b => b | None => true end in
              newId <- stmt (insert_menu_item now n p cat i avail) ;;
              createdItem <- query (select_menu_item newId) ;;
              ret (json_status (MenuItemJson createdItem) 201)
        end
    | _, _, _, _ => reply (error_response "Name, price, category, and image are required" 400)
    end.

Definition POST (flt : Faults) (now : Z) (req : Request) (db : Db) : Response * Db :=
    handle (POST_body now req) (internal_error "Failed to create menu item") flt db.

End Menu.

Module MenuById.

Definition PUT_body (now : Z) (id : option Z) (req : Menu.Request) : M Response :=
    match id with
    | None => reply (error_response "Invalid menu item ID" 400)
    | Some itemId =>
        let given := or_nullS (Menu.category req) in
        match given, match given with Some c => MenuCategory_of_string c | None => None end with
        | Some _, None =>
            reply (error_response "Invalid category. Must be Starters, Mains, or Drinks" 400)
        | _, cat =>
            if match Menu.price req with Some p => PrimFloat.leb p 0 | None => false end
            then reply (error_response "Price must be a positive number" 400)
            else
              existingItem <- query (select_menu_item itemId) ;;
              match existingItem with
              | None => reply (error_response "Menu item not found" 404)
              | Some _ =>
                  exec (update_menu_item now (or_nullS (Menu.name req))
                          (or_nullF (Menu.price req)) cat (or_nullS (Menu.image req))
                          (Menu.isAvailable req) itemId) ;;;
                  updatedItem <- query (select_menu_item itemId) ;;
                  ret (json (MenuItemJson updatedItem))
              end
        end
    end.

Definition PUT (flt : Faults) (now : Z) (id : option Z) (req : Menu.Request) (db : Db)
      : Response * Db :=
    handle (PUT_body now id req) (internal_error "Failed to update menu item") flt db.

Definition DELETE_body (id : option Z) : M Response :=
    match id with
    | None => reply (error_response "Invalid menu item ID" 400)
    | Some itemId =>
        existingItem <- query (select_menu_item itemId) ;;
        match existingItem with
        | None => reply (error_response "Menu item not found" 404)
        | Some _ =>
            exec (delete_menu_item itemId) ;;;
            ret (json (MessageJson "Menu item deleted successfully"))
        end
    end.

Definition DELETE (flt : Faults) (id : option Z) (db : Db) : Response * Db :=
    handle (DELETE_body id) (internal_error "Failed to delete menu item") flt db.

End MenuById.

(* ================================================================= *)
(** ** [POST /api/staff], [PUT] and [DELETE /api/staff/[id]] *)

(** The message [Invalid status. Must be "On Shift" or "Off Duty"]. *)
Definition invalid_shift_status : string :=
  let q := String (Ascii.ascii_of_nat 34) EmptyString in
  ("Invalid status. Must be " ++ q ++ "On Shift" ++ q ++ " or " ++ q ++ "Off Duty" ++ q)%string.

Module StaffRoute.

Record Request := mkRequest {
    name : option string;
    role : option string;
    shift : option string;
    status : option string;
    avatar : option string }.

Definition POST_body (now : Z) (req : Request) : M Response :=
    match or_nullS (name req), or_nullS (role req), or_nullS (shift req),
          or_nullS (avatar req) with
    | Some n, Some r, Some sh, Some a =>
        match StaffRole_of_string r with
        | None => reply (error_response "Invalid role" 400)
        | Some rl =>
            let st := match status req with Some s => s | None => "Off Duty" end in
            match ShiftStatus_of_string st with
            | None => reply (error_response invalid_shift_status 400)
            | Some s =>
                newId <- stmt (insert_staff now n rl sh s a) ;;
                createdStaff <- query (select_staff newId) ;;
                ret (json_status (StaffJson createdStaff) 201)
            end
        end
    | _, _, _, _ => reply (error_response "Name, role, shift, and avatar are required" 400)
    end.

Definition POST (flt : Faults) (now : Z) (req : Request) (db : Db) : Response * Db :=
    handle (POST_body now req) (internal_error "Failed to create staff member") flt db.

End StaffRoute.

Module StaffById.

Definition PUT_body (now : Z) (id : option Z) (req : StaffRoute.Request) : M Response :=
    match id with
    | None => reply (error_response "Invalid staff member ID" 400)
    | Some staffId =>
        let role := or_nullS (StaffRoute.role req) in
        let status := or_nullS (StaffRoute.status req) in
        match role, match role with Some r => StaffRole_of_string r | None => None end with
        | Some _, None => reply (error_response "Invalid role" 400)
        | _, rl =>
            match status, match status with Some s => ShiftStatus_of_string s | None => None end with
            | Some _, None =>
                reply (error_response invalid_shift_status 400)
            | _, st =>
                existingStaff <- query (select_staff staffId) ;;
                match existingStaff with
                | None => reply (error_response "Staff member not found" 404)
                | Some _ =>
                    exec (update_staff now (or_nullS (StaffRoute.name req)) rl
                            (or_nullS (StaffRoute.shift req)) st
                            (or_nullS (StaffRoute.avatar req)) staffId) ;;;
                    updatedStaff <- query (select_staff staffId) ;;
                    ret (json (StaffJson updatedStaff))
                end
            end
        end
    end.

Definition PUT (flt : Faults) (now : Z) (id : option Z) (req : StaffRoute.Request)
      (db : Db) : Response * Db :=
    handle (PUT_body now id req) (internal_error "Failed to update staff member") flt db.

Definition DELETE_body (now : Z) (id : option Z) : M Response :=
    match id with
    | None => reply (error_response "Invalid staff member ID" 400)
    | Some staffId =>
        existingStaff <- query (select_staff staffId) ;;
        match existingStaff with
        | None => reply (error_response "Staff member not found" 404)
        | Some _ =>
            exec (delete_staff now staffId) ;;;
            ret (json (MessageJson "Staff member deleted successfully"))
        end
    end.

Definition DELETE (flt : Faults) (now : Z) (id : option Z) (db : Db) : Response * Db :=
    handle (DELETE_body now id) (internal_error "Failed to delete staff member") flt db.

End StaffById.

(* ================================================================= *)
(** ** Properties of handler bodies *)

(** Every run of the body, whatever the store failures, takes a store to
    one related to it by [R]. *)
Definition preserves (R : Db -> Db -> Prop) {A} (m : M A) : Prop :=
  forall flt st o st', m flt st = (o, st') -> R (st_db st) (st_db st').

(** A body that only reads leaves the store as it is. *)
Definition readonly {A} (m : M A) : Prop := preserves eq m.

(** A store failure can only turn an outcome into an exception: an outcome
    that is not an exception is the outcome of the run without failures. *)
Definition steady {A} (m : M A) : Prop :=
  forall flt st o st',
    m flt st = (o, st') -> (forall e, o <> Throw e) -> m no_faults st = (o, st').

(* ================================================================= *)
(** ** Definitions used by the statements of the theorems *)

(** What the committed transaction of a cancellation leaves. *)
Definition cancelled (now oid tableId : Z) (db : Db) : Db :=
  let db1 := delete_order oid db in
  if count_active tableId db1 =? 0
  then update_table_status_count now Free None tableId db1
  else db1.

(** What one pass of the resync loop computes for a table id, the row it
    writes, and the store after it. *)
Definition derived (id : Z) (db : Db) : TableStatus * option Z :=
  TablesSync.derive (active_by_status id db) (sum_quantities id db).

Definition synced (now : Z) (db : Db) (t : Table) : Table :=
  mkTable (t_id t) (t_number t) (fst (derived (t_id t) db)) (snd (derived (t_id t) db))
          (t_created_at t) now.

Definition sync_step (now : Z) (db : Db) (t : Table) : Db :=
  update_table_status_count now (fst (derived (t_id t) db)) (snd (derived (t_id t) db))
    (t_id t) db.

(** An order that is Pending or Preparing. *)
Definition cooking (o : Order) : bool :=
  OrderStatus_eqb (o_status o) Pending || OrderStatus_eqb (o_status o) Preparing.

(* ================================================================= *)
(** ** A small store for the examples

    Table 5 (id 1), free; two menu items; one waiter. *)

Definition sample_db : Db :=
  mkDb (mkRel [mkTable 1 5 Free None 10 10] 1)
       (mkRel [mkMenuItem 1 "Bruschetta" 1000 Starters "a.png" true 10 10;
               mkMenuItem 2 "Espresso" 500 Drinks "b.png" true 10 10] 2)
       (mkRel [mkStaff 1 "Maria Garcia" Waiter "9am - 5pm" OnShift "m.png" 10 10] 1)
       (mkRel [] 0)
       (mkRel [] 0).

(** Item A twice and item B once, for table 5. *)
Definition sample_request : Orders.Request :=
  Orders.mkRequest (Some 1)
    (Some [mkItemReq (Some 1) (Some 2); mkItemReq (Some 2) (Some 1)]) None.

(** The store after that order was created at time 100. *)
Definition sample_db_order : Db := snd (Orders.POST no_faults 100 sample_request sample_db).

(* ================================================================= *)
(** ** The order listing of a table *)

(** Newest first. *)
Definition newer_first (a b : Order) : Prop := o_created_at b <= o_created_at a.

(** The foreign key [order_items.menu_item_id -> menu_items.id] holds. *)
Definition items_have_menu_item (db : Db) : Prop :=
  Forall (fun i => select_menu_item (oi_menu_item_id i) db <> None) (rows (order_items db)).

(** The body of the answer of [GET /api/tables/[id]/orders]. *)
Definition listing (tableId : Z) (db : Db) : list (OrderView * list (ItemView * float)) :=
  map (fun order => (order, select_item_views_price (o_id (ov_order order)) db))
      (map (order_view db) (order_by_created_desc (active_orders tableId db))).


(* ================================================================= *)
(** ** Creating an order: what the statements of the theorems name *)

(** The price of a menu item in a store. *)
Definition price_of (db : Db) (id : Z) : float :=
  match select_menu_item id db with Some m => mi_price m | None => 0%float end.

(** The prices of the menu are above zero: what [POST /api/menu] and
    [PUT /api/menu/[id]] let through. *)
Definition prices_positive (db : Db) : Prop :=
  Forall (fun m => PrimFloat.ltb 0 (mi_price m) = true) (rows (menu_items db)).

(** A line of a create-order request that passes the checks of the pricing
    loop against [db]. *)
Definition valid_line (db : Db) (item : ItemReq) : Prop :=
  exists id q, item_id item = Some id /\ id <> 0 /\ item_quantity item = Some q /\ 0 < q
               /\ select_menu_item id db <> None.

(** What the pricing loop of the first create route records for a line. *)
Definition priced_line (db : Db) (item : ItemReq) : LineData :=
  let id := match item_id item with Some id => id | None => 0 end in
  let q := match item_quantity item with Some q => q | None => 0 end in
  mkLine id (Some q) (price_of db id) (PrimFloat.mul (price_of db id) (number_of_Z q)).

(** The number a double stands for, counted in units of [2^-1074], the
    smallest positive double: every finite double is a whole number of
    these. [None] for the infinities and NaN. *)
Definition exact (x : float) : option Z :=
  match Prim2SF x with
  | S754_zero _ => Some 0
  | S754_finite s m e => Some ((if s then -1 else 1) * Z.pos m * 2 ^ (e + 1074))
  | S754_infinity _ | S754_nan => None
  end.

(** The total the pricing loop accumulates: the subtotals added from left
    to right, starting from 0, each addition rounding to a double. *)
Definition order_total (db : Db) (items : list ItemReq) : float :=
  fold_left PrimFloat.add (map (fun item => subtotal (priced_line db item)) items) 0%float.

(** The foreign key [order_items.order_id -> orders.id] holds. *)
Definition items_have_order (db : Db) : Prop :=
  Forall (fun i => has_rowid (oi_order_id i) (orders db) = true) (rows (order_items db)).

(** The row a line becomes. *)
Definition line_row (now orderId : Z) (l : LineData) (i : Z) : OrderItem :=
  mkOrderItem i orderId (menuItemId l)
    (match quantity l with Some q => q | None => 0 end)
    (unitPrice l) (subtotal l) now.

(** The rows the insertion loop appends to [order_items]. *)
Fixpoint new_rows (now orderId : Z) (lines : list LineData) (r : Rel OrderItem)
    : list OrderItem :=
  match lines with
  | [] => []
  | l :: rest =>
      let (i, r1) := insert_row (line_row now orderId l) r in
      line_row now orderId l i :: new_rows now orderId rest r1
  end.

Definition add_lines (now orderId : Z) (lines : list LineData) (r : Rel OrderItem)
    : Rel OrderItem :=
  fold_left (fun r l => snd (insert_row (line_row now orderId l) r)) lines r.

(** The store a committed creation leaves. *)
Definition created (now tableId : Z) (total : float) (staffId : option Z)
    (lines : list LineData) (db : Db) : Db :=
  let oid := next_rowid (orders db) in
  let db1 := with_orders (snd (insert_row
                                 (fun i => mkOrder i tableId total Pending staffId now now)
                                 (orders db))) db in
  let db2 := with_order_items (add_lines now oid lines (order_items db1)) db1 in
  update_table_status now Occupied tableId db2.

(** Lines the insertion loop can store: bound values, amounts that are
    numbers, and existing menu items. *)
Definition complete_lines (db : Db) (lines : list LineData) : Prop :=
  Forall (fun l => quantity l <> None /\
                   PrimFloat.is_nan (unitPrice l) = false /\
                   PrimFloat.is_nan (subtotal l) = false /\
                   has_rowid (menuItemId l) (menu_items db) = true) lines.

(** Two stores with the same orders and line items. *)
Definition same_orders (a b : Db) : Prop :=
  orders b = orders a /\ order_items b = order_items a.


(** The priced lines are the request lines, one for one, and their menu
    items exist. *)
Definition lines_of (db : Db) (items : list ItemReq) (lines : list LineData) : Prop :=
  Forall2 (fun item line =>
             item_id item = Some (menuItemId line) /\
             item_quantity item = quantity line /\
             select_menu_item (menuItemId line) db <> None) items lines.

(** The complete order a creation leaves: the order row, one line item per
    request line, and the table Occupied. *)
Definition fully_created (now : Z) (tableId : Z) (items : list ItemReq) (db db' : Db) : Prop :=
  exists total staffId lines,
    lines_of db items lines /\
    db' = created now tableId total staffId lines db.






(* ================================================================= *)
(** ** The application as a whole *)

(** The requests that write to the store, and the order listing. *)
Inductive Op :=
| CreateOrder (req : Orders.Request)
| CreateOrderAlt (req : OrdersAlt.Request)
| UpdateOrder (id : option Z) (req : OrderById.Request)
| CancelOrder (id : option Z)
| PatchOrderStatus (id : option Z) (status : option string)
| ListTableOrders (id : option Z)
| SyncTables
| CreateTable (req : Tables.Request)
| UpdateTable (id : option Z) (req : TableById.Request)
| DeleteTable (id : option Z)
| CreateMenuItem (req : Menu.Request)
| UpdateMenuItem (id : option Z) (req : Menu.Request)
| DeleteMenuItem (id : option Z)
| CreateStaff (req : StaffRoute.Request)
| UpdateStaff (id : option Z) (req : StaffRoute.Request)
| DeleteStaff (id : option Z).

(** The application serving a request at time [now], with the store failing
    as [flt] says. *)
Definition run (flt : Faults) (now : Z) (op : Op) (db : Db) : Response * Db :=
  match op with
  | CreateOrder req => Orders.POST flt now req db
  | CreateOrderAlt req => OrdersAlt.POST flt now req db
  | UpdateOrder id req => OrderById.PUT flt now id req db
  | CancelOrder id => OrderById.DELETE flt now id db
  | PatchOrderStatus id status => OrderStatusRoute.PATCH orders_columns flt now id status db
  | ListTableOrders id => TableOrders.GET flt id db
  | SyncTables => TablesSync.POST flt now db
  | CreateTable req => Tables.POST flt now req db
  | UpdateTable id req => TableById.PUT flt now id req db
  | DeleteTable id => TableById.DELETE flt id db
  | CreateMenuItem req => Menu.POST flt now req db
  | UpdateMenuItem id req => MenuById.PUT flt now id req db
  | DeleteMenuItem id => MenuById.DELETE flt id db
  | CreateStaff req => StaffRoute.POST flt now req db
  | UpdateStaff id req => StaffById.PUT flt now id req db
  | DeleteStaff id => StaffById.DELETE flt now id db
  end.

(** The bulk resync, order cancellation and the direct table update. *)
Definition writes_customer_count (op : Op) : bool :=
  match op with
  | SyncTables | CancelOrder _ | UpdateTable _ _ => true
  | _ => false
  end.

(** The customer count of each table, by table id. *)
Definition customer_counts (db : Db) : list (Z * option Z) :=
  map (fun t => (t_id t, t_customer_count t)) (rows (tables db)).

Definition same_counts (a b : Db) : Prop := customer_counts b = customer_counts a.

(** No table of [db] has another customer count in [db']. *)
Definition counts_untouched (db db' : Db) : Prop :=
  forall id c, In (id, c) (customer_counts db') -> has_rowid id (tables db) = true ->
               In (id, c) (customer_counts db).

(** The table row a successful creation leaves for a table. *)
Definition occupy (now tableId : Z) (t : Table) : Table :=
  if t_id t =? tableId
  then mkTable (t_id t) (t_number t) Occupied (t_customer_count t) (t_created_at t) now
  else t.

(** The tables of [b] and their customer counts are among those of [a]. *)
Definition counts_shrink (a b : Db) : Prop := incl (customer_counts b) (customer_counts a).

(* ================================================================= *)
(** ** Updating an order: what the statements of the theorems name *)

(** The other non-Paid orders of a table. *)
Definition other_active (tableId orderId : Z) (db : Db) : list Order :=
  filter (fun o => negb (o_id o =? orderId)) (active_orders tableId db).

(** The table status the order update writes for a new order status. *)
Definition table_status_after (s : OrderStatus) (others : list Order) : TableStatus :=
  match s with
  | Pending | Preparing => Occupied
  | Ready | Served => Serving
  | Paid => match others with [] => Billing | _ :: _ => Occupied end
  end.

(** The order row after [PUT /api/orders/[id]]. *)
Definition update_order_row (now : Z) (s : option OrderStatus) (staffId : option Z)
    (o : Order) : Order :=
  mkOrder (o_id o) (o_table_id o) (o_total_amount o) (coalesce s (o_status o))
          (match staffId with Some v => Some v | None => o_staff_id o end)
          (o_created_at o) now.

(** The store a committed order update leaves: the order row written and,
    when a status was given, the table row written. *)
Definition updated (now oid : Z) (s : option OrderStatus) (staffId : option Z)
    (tableId : Z) (db : Db) : Db :=
  let db1 := with_orders (update_where (fun o => o_id o =? oid)
                                       (update_order_row now s staffId) (orders db)) db in
  match s with
  | Some st =>
      update_table_status now (table_status_after st (other_active tableId oid db)) tableId db1
  | None => db1
  end.

(** The status a request asks for: [None] when it gives none. *)
Definition requested_status (req : OrderById.Request) : option OrderStatus :=
  match or_nullS (OrderById.status req) with
  | Some s => OrderStatus_of_string s
  | None => None
  end.

(** The column names the statements of the PATCH handler use. *)
Definition camel_columns : list string :=
  ["id"; "tableId"; "totalAmount"; "status"; "staffId"; "createdAt"; "updatedAt"].


(* ================================================================= *)
(** ** The invariant on table status *)

(** The status the invariant of the specification derives from the non-Paid
    orders of a table: Free when there is none, Occupied when one of them
    is Pending or Preparing, Serving when all are Ready or Served. *)
Definition expected_status (active : list Order) : TableStatus :=
  match active with
  | [] => Free
  | _ :: _ => if existsb cooking active then Occupied else Serving
  end.

(** A table row whose stored status is the derived one. *)
Definition consistent (db : Db) (t : Table) : Prop :=
  t_status t = expected_status (active_orders (t_id t) db).

(* ================================================================= *)
(** ** Referential integrity *)

(** The foreign keys of [order_items] hold. *)
Definition well_formed (db : Db) : Prop := items_have_order db /\ items_have_menu_item db.

Definition keeps_well_formed (a b : Db) : Prop := well_formed a -> well_formed b.

(** The store before any request. *)
Definition empty_db : Db := mkDb (mkRel [] 0) (mkRel [] 0) (mkRel [] 0) (mkRel [] 0) (mkRel [] 0).

(** The stores the application can be in. *)
Inductive reachable : Db -> Prop :=
| reach_empty : reachable empty_db
| reach_run flt now op db : reachable db -> reachable (snd (run flt now op db)).

(* ================================================================= *)
(** ** The routes that read

    The [GET] handlers of the route files, one module per route. A route
    that lists rows answers with a JSON array. *)

Inductive Listing (A : Type) :=
| Rows (l : list A)
| NoRows (r : Response).
Arguments NoRows {A} r.

(** [try { .. return NextResponse.json(rows) } catch (error) { .. }]. *)
Definition handle_list {A} (m : M (list A)) (on_error : SqlError -> Response)
    (flt : Faults) (db : Db) : Listing A * Db :=
  match m flt (mkSt db 0) with
  | (Val l, st) => (Rows l, st_db st)
  | (Reply r, st) => (NoRows r, st_db st)
  | (Throw e, st) => (NoRows (on_error e), st_db st)
  end.

(** [ORDER BY number ASC]. *)
Fixpoint insert_asc (t : Table) (l : list Table) : list Table :=
  match l with
  | [] => [t]
  | x :: rest =>
      if t_number t <=? t_number x then t :: l else x :: insert_asc t rest
  end.

Definition order_by_number (l : list Table) : list Table :=
  fold_right insert_asc [] l.

(** The texts of the enumerations, as stored. *)
Definition MenuCategory_to_string (c : MenuCategory) : string :=
  match c with Starters => "Starters" | Mains => "Mains" | Drinks => "Drinks" end.

Definition StaffRole_to_string (r : StaffRole) : string :=
  match r with
  | Manager => "Manager" | HeadWaiter => "Head Waiter" | Waiter => "Waiter"
  | Chef => "Chef" | SousChef => "Sous Chef" | Hostess => "Hostess"
  end.

Definition ShiftStatus_to_string (s : ShiftStatus) : string :=
  match s with OnShift => "On Shift" | OffDuty => "Off Duty" end.

Section OrderBy.
Context {A : Type} (before : A -> A -> bool).

(** [ORDER BY .. ASC] for the order [before]. *)
Fixpoint insert_by (x : A) (l : list A) : list A :=
  match l with
  | [] => [x]
  | y :: rest => if before x y then x :: l else y :: insert_by x rest
  end.

Definition order_by (l : list A) : list A := fold_right insert_by [] l.
End OrderBy.

(** [ORDER BY category, name ASC] and [ORDER BY name ASC]: texts compare
    byte by byte. *)
Definition menu_before (a b : MenuItem) : bool :=
  match String.compare (MenuCategory_to_string (mi_category a))
                       (MenuCategory_to_string (mi_category b)) with
  | Lt => true
  | Gt => false
  | Eq => String.leb (mi_name a) (mi_name b)
  end.

Definition staff_before (a b : Staff) : bool := String.leb (s_name a) (s_name b).

Module Get.

(** *** [GET /api/orders] (the route with [limit]) *)

Module Orders.

(** The query string. [tableId] and [limit] go through [parseInt]: the
    field is [None] when the parameter is absent or empty, [Some None] when
    it does not start with a number. *)
Record Query := mkQuery {
    status : option string;
    tableId : option (option Z);
    limit : option (option Z) }.

(** The [WHERE] clause the handler assembles. A NaN is bound as NULL, and
    [o.table_id = NULL] holds for no row. *)
Definition matches (q : Query) (o : Order) : bool :=
    match or_nullS (status q) with
    | Some s => String.eqb (OrderStatus_to_string (o_status o)) s
    | None => true
    end
    &&
    match tableId q with
    | Some (Some t) => o_table_id o =? t
    | Some None => false
    | None => true
    end.

(** [.. ORDER BY o.created_at DESC LIMIT ?]: a negative limit is no limit,
    and a limit that is not an integer (the NULL of a NaN) is an error of
    the statement. *)
Definition select_orders (q : Query) (db : Db) : Exec (list OrderView) :=
    let found := map (order_view db)
                     (order_by_created_desc (select_where (matches q) (orders db))) in
    match limit q with
    | None => Done found db
    | Some None => Fail IoError
    | Some (Some n) => Done (if n <? 0 then found else firstn (Z.to_nat n) found) db
    end.

(** [orders.map(order => ({ ...order, items: orderItemsStmt.all(order.id) }))]. *)
Fixpoint with_items (l : list OrderView) : M (list (OrderView * list ItemView)) :=
    match l with
    | [] => ret []
    | order :: rest =>
        items <- query (select_item_views (o_id (ov_order order))) ;;
        more <- with_items rest ;;
        ret ((order, items) :: more)
    end.

Definition GET_body (q : Query) : M (list (OrderView * list ItemView)) :=
    found <- stmt (select_orders q) ;;
    with_items found.

Definition GET (flt : Faults) (q : Query) (db : Db)
      : Listing (OrderView * list ItemView) * Db :=
    handle_list (GET_body q) (internal_error "Failed to fetch orders") flt db.

End Orders.

(** *** [GET /api/orders/[id]] *)

Module OrderById.

Definition GET_body (id : option Z) : M Response :=
    match id with
    | None => reply (error_response "Invalid order ID" 400)
    | Some orderId =>
        order <- query (select_order_view orderId) ;;
        match order with
        | None => reply (error_response "Order not found" 404)
        | Some _ =>
            items <- query (select_item_views orderId) ;;
            ret (json (OrderJson order items))
        end
    end.

Definition GET (flt : Faults) (id : option Z) (db : Db) : Response * Db :=
    handle (GET_body id) (internal_error "Failed to fetch order") flt db.

End OrderById.

(** *** [GET /api/tables] and [GET /api/tables/[id]] *)

Module Tables.

Definition GET_body : M (list Table) :=
    query (fun db => order_by_number (rows (tables db))).

Definition GET (flt : Faults) (db : Db) : Listing Table * Db :=
    handle_list GET_body (internal_error "Failed to fetch tables") flt db.

End Tables.

Module TableById.

Definition GET_body (id : option Z) : M Response :=
    match id with
    | None => reply (error_response "Invalid table ID" 400)
    | Some tableId =>
        table <- query (select_table tableId) ;;
        match table with
        | None => reply (error_response "Table not found" 404)
        | Some _ => ret (json (TableJson table))
        end
    end.

Definition GET (flt : Faults) (id : option Z) (db : Db) : Response * Db :=
    handle (GET_body id) (internal_error "Failed to fetch table") flt db.

End TableById.

(** *** [GET /api/menu/[id]] and [GET /api/staff/[id]] *)

Module MenuById.

Definition GET_body (id : option Z) : M Response :=
    match id with
    | None => reply (error_response "Invalid menu item ID" 400)
    | Some itemId =>
        menuItem <- query (select_menu_item itemId) ;;
        match menuItem with
        | None => reply (error_response "Menu item not found" 404)
        | Some _ => ret (json (MenuItemJson menuItem))
        end
    end.

Definition GET (flt : Faults) (id : option Z) (db : Db) : Response * Db :=
    handle (GET_body id) (internal_error "Failed to fetch menu item") flt db.

End MenuById.

Module StaffById.

Definition GET_body (id : option Z) : M Response :=
    match id with
    | None => reply (error_response "Invalid staff member ID" 400)
    | Some staffId =>
        staffMember <- query (select_staff staffId) ;;
        match staffMember with
        | None => reply (error_response "Staff member not found" 404)
        | Some _ => ret (json (StaffJson staffMember))
        end
    end.

Definition GET (flt : Faults) (id : option Z) (db : Db) : Response * Db :=
    handle (GET_body id) (internal_error "Failed to fetch staff member") flt db.

End StaffById.

(** *** [GET /api/menu] and [GET /api/staff] *)

Module Menu.

(** The query string: a parameter is [None] when it is absent. *)
Record Query := mkQuery {
    category : option string;
    available : option string }.

(** [category = ?] when [category] is not empty, and [is_available = ?]
    with [available === 'true' ? 1 : 0] when [available] is present. *)
Definition matches (q : Query) (m : MenuItem) : bool :=
    match or_nullS (category q) with
    | Some c => String.eqb (MenuCategory_to_string (mi_category m)) c
    | None => true
    end
    &&
    match available q with
    | Some a => Bool.eqb (mi_is_available m) (String.eqb a "true")
    | None => true
    end.

Definition GET_body (q : Query) : M (list MenuItem) :=
    query (fun db => order_by menu_before (select_where (matches q) (menu_items db))).

Definition GET (flt : Faults) (q : Query) (db : Db) : Listing MenuItem * Db :=
    handle_list (GET_body q) (internal_error "Failed to fetch menu items") flt db.

End Menu.

Module Staff.

Record Query := mkQuery {
    status : option string;
    role : option string }.

Definition matches (q : Query) (s : Staff) : bool :=
    match or_nullS (status q) with
    | Some x => String.eqb (ShiftStatus_to_string (s_status s)) x
    | None => true
    end
    &&
    match or_nullS (role q) with
    | Some x => String.eqb (StaffRole_to_string (s_role s)) x
    | None => true
    end.

Definition GET_body (q : Query) : M (list Staff) :=
    query (fun db => order_by staff_before (select_where (matches q) (staff db))).

Definition GET (flt : Faults) (q : Query) (db : Db) : Listing Staff * Db :=
    handle_list (GET_body q) (internal_error "Failed to fetch staff members") flt db.

End Staff.

End Get.

(* ================================================================= *)
(** ** The order popup of the waiter page ([components/OrderPopup.tsx])

    The cart is the state [orderItems]; the functions below are the state
    updates of the component. *)

Module OrderPopup.

(** [OrderItem extends MenuItem { quantity }]: a menu item as fetched from
    [/api/menu], with the quantity chosen. *)
Record CartItem := mkCartItem { ci_item : MenuItem; ci_quantity : Z }.

Definition ci_id (item : CartItem) : Z := mi_id (ci_item item).

Definition handleAddItem (itemToAdd : MenuItem) (prevItems : list CartItem)
      : list CartItem :=
    match find (fun item => ci_id item =? mi_id itemToAdd) prevItems with
    | Some _ =>
        map (fun item => if ci_id item =? mi_id itemToAdd
                         then mkCartItem (ci_item item) (ci_quantity item + 1)
                         else item) prevItems
    | None => prevItems ++ [mkCartItem itemToAdd 1]
    end.

Definition handleUpdateQuantity (itemId newQuantity : Z) (prevItems : list CartItem)
      : list CartItem :=
    if newQuantity <=? 0
    then filter (fun item => negb (ci_id item =? itemId)) prevItems
    else map (fun item => if ci_id item =? itemId
                          then mkCartItem (ci_item item) newQuantity
                          else item) prevItems.

(** [orderItems.reduce((acc, item) => acc + item.price * item.quantity, 0)],
    on doubles. *)
Definition total (orderItems : list CartItem) : float :=
    fold_left (fun acc item =>
                 PrimFloat.add acc (PrimFloat.mul (mi_price (ci_item item))
                                                  (number_of_Z (ci_quantity item))))
              orderItems 0%float.



(** The buttons of the popup: add a menu item, and plus and minus on a line
    of the cart. *)
Inductive Click :=
| Add (item : MenuItem)
| Plus (line : CartItem)
| Minus (line : CartItem).

Definition click (c : Click) (orderItems : list CartItem) : list CartItem :=
    match c with
    | Add item => handleAddItem item orderItems
    | Plus line => handleUpdateQuantity (ci_id line) (ci_quantity line + 1) orderItems
    | Minus line => handleUpdateQuantity (ci_id line) (ci_quantity line - 1) orderItems
    end.



End OrderPopup.

(* ================================================================= *)
(** ** Where a handler body can leave early *)

(** The body never returns early. *)
Definition quiet {A} (m : M A) : Prop :=
  forall flt st o st', m flt st = (o, st') -> forall r, o <> Reply r.

(** The body never returns early, and ends with a 200 or a 201. *)
Definition settled (m : M Response) : Prop :=
  forall flt st o st', m flt st = (o, st') ->
    match o with
    | Val r => http_status r = 200 \/ http_status r = 201
    | Reply _ => False
    | Throw _ => True
    end.

(** The body returns early only while it has not written, and otherwise
    ends with a 200 or a 201. *)
Definition refuses_early (m : M Response) : Prop :=
  forall flt st o st', m flt st = (o, st') ->
    match o with
    | Val r => http_status r = 200 \/ http_status r = 201
    | Reply _ => st_db st' = st_db st
    | Throw _ => True
    end.

(* ================================================================= *)
(** ** Keys and references of the schema *)

Section Keys.
Context {A : Type} `{Row A}.

(** [INTEGER PRIMARY KEY AUTOINCREMENT]: the rowids of a relation are
    distinct and positive, and none is beyond the relation's entry of
    [sqlite_sequence]. *)
Definition keyed (r : Rel A) : Prop :=
  NoDup (map rowid (rows r)) /\ Forall (fun x => 0 < rowid x <= seq r) (rows r).
End Keys.

(** The primary keys of the five relations, and [number INTEGER UNIQUE]. *)
Definition keys_hold (db : Db) : Prop :=
  keyed (tables db) /\ keyed (menu_items db) /\ keyed (staff db) /\
  keyed (orders db) /\ keyed (order_items db) /\
  NoDup (map t_number (rows (tables db))).

(** The foreign keys [orders.table_id -> tables.id] and
    [orders.staff_id -> staff.id]. *)
Definition orders_have_table (db : Db) : Prop :=
  Forall (fun o => has_rowid (o_table_id o) (tables db) = true) (rows (orders db)).

Definition orders_have_staff (db : Db) : Prop :=
  Forall (fun o => staff_ref_ok (o_staff_id o) db = true) (rows (orders db)).

Definition orders_refer (db : Db) : Prop := orders_have_table db /\ orders_have_staff db.

(** All four foreign keys. *)
Definition references_hold (db : Db) : Prop := orders_refer db /\ well_formed db.

(** A property of the store that a step does not break. *)
Definition keeps (I : Db -> Prop) (a b : Db) : Prop := I a -> I b.

(** The orders of a listing, in the order of the answer. *)
Definition listed_orders {B} (l : list (OrderView * B)) : list Order :=
  map (fun p => ov_order (fst p)) l.

(* ================================================================= *)
(** ** Orders over time *)

(** Every order of [b] is an order of [a] with its id, table, amount and
    creation time, or has an id that [a] had not handed out yet. *)
Definition orders_evolve (a b : Db) : Prop :=
  seq (orders a) <= seq (orders b) /\
  forall o', In o' (rows (orders b)) ->
    (exists o, In o (rows (orders a)) /\ o_id o = o_id o' /\
               o_table_id o = o_table_id o' /\ o_total_amount o = o_total_amount o' /\
               o_created_at o = o_created_at o')
    \/ seq (orders a) < o_id o'.

(** The stores the application can get to from a store. *)
Inductive later (db : Db) : Db -> Prop :=
| later_now : later db db
| later_run flt now op db' : later db db' -> later db (snd (run flt now op db')).
(* ================================================================= *)
(** ** Doubles *)

Lemma SFcompare_refl x : x <> S754_nan -> SFcompare x x = Some Eq.
Proof.
  destruct x as [s | s | | s m e]; cbn; try congruence; intros _.
  - now destruct s.
  - rewrite Z.compare_refl.
    change (PosDef.Pos.compare_cont Eq m m) with (Pos.compare m m).
    rewrite Pos.compare_refl. now destruct s.
Qed.

Lemma is_nan_Prim2SF f : PrimFloat.is_nan f = true <-> Prim2SF f = S754_nan.
Proof.
  unfold PrimFloat.is_nan. rewrite eqb_spec. unfold SFeqb. split.
  - intro H. destruct (Prim2SF f) eqn:E; try reflexivity;
      rewrite SFcompare_refl in H by discriminate; discriminate.
  - intros ->. reflexivity.
Qed.

Lemma not_nan_Prim2SF f : PrimFloat.is_nan f = false <-> Prim2SF f <> S754_nan.
Proof.
  rewrite <- is_nan_Prim2SF. destruct (PrimFloat.is_nan f); split; congruence.
Qed.

(** A NaN operand makes the sum and the product NaN. *)
Lemma add_not_nan x y :
  PrimFloat.is_nan (PrimFloat.add x y) = false ->
  PrimFloat.is_nan x = false /\ PrimFloat.is_nan y = false.
Proof.
  rewrite !not_nan_Prim2SF, add_spec. unfold SF64add.
  destruct (Prim2SF x), (Prim2SF y); cbn; intro H; split; congruence.
Qed.

Lemma mul_not_nan x y :
  PrimFloat.is_nan (PrimFloat.mul x y) = false ->
  PrimFloat.is_nan x = false /\ PrimFloat.is_nan y = false.
Proof.
  rewrite !not_nan_Prim2SF, mul_spec. unfold SF64mul.
  destruct (Prim2SF x), (Prim2SF y); cbn; intro H; split; congruence.
Qed.

(** [0 < p] on doubles: [p] is a number, is not zero and is not [<= 0]. *)
Lemma positive_number p :
  PrimFloat.ltb 0 p = true ->
  PrimFloat.is_nan p = false /\ PrimFloat.eqb p 0 = false /\ PrimFloat.leb p 0 = false.
Proof.
  intro H. split; [| split].
  - apply not_nan_Prim2SF. rewrite ltb_spec in H. intro E. rewrite E in H. discriminate.
  - rewrite eqb_spec. rewrite ltb_spec in H. change (Prim2SF 0) with (S754_zero false) in *.
    destruct (Prim2SF p) as [s | s | | s m e]; cbn in *; try discriminate;
      destruct s; try discriminate; reflexivity.
  - rewrite leb_spec. rewrite ltb_spec in H. change (Prim2SF 0) with (S754_zero false) in *.
    destruct (Prim2SF p) as [s | s | | s m e]; cbn in *; try discriminate;
      destruct s; try discriminate; reflexivity.
Qed.

Lemma number_positive p :
  PrimFloat.is_nan p = false -> PrimFloat.eqb p 0 = false -> PrimFloat.leb p 0 = false ->
  PrimFloat.ltb 0 p = true.
Proof.
  rewrite not_nan_Prim2SF, eqb_spec, leb_spec, ltb_spec.
  change (Prim2SF 0) with (S754_zero false).
  destruct (Prim2SF p) as [s | s | | s m e]; cbn; try congruence; destruct s; cbn; congruence.
Qed.

Lemma sql_real_number x : PrimFloat.is_nan x = false -> sql_real x = Some x.
Proof. unfold sql_real. now intros ->. Qed.

Lemma sql_real_inv x v : sql_real x = Some v -> v = x /\ PrimFloat.is_nan x = false.
Proof. unfold sql_real. destruct (PrimFloat.is_nan x); [discriminate |]. intro E. now inversion E. Qed.

Lemma truthyF_positive p : PrimFloat.ltb 0 p = true -> or_nullF (Some p) = Some p.
Proof.
  intro H. destruct (positive_number H) as (N & Z & _).
  unfold or_nullF, truthyF. now rewrite N, Z.
Qed.

Lemma or_nullF_inv x p :
  or_nullF x = Some p ->
  x = Some p /\ PrimFloat.is_nan p = false /\ PrimFloat.eqb p 0 = false.
Proof.
  unfold or_nullF, truthyF. destruct x as [f |]; [| discriminate].
  destruct (PrimFloat.eqb f 0) eqn:Z, (PrimFloat.is_nan f) eqn:N; cbn; try discriminate.
  intro E. inversion E; subst. auto.
Qed.

Lemma insert_menu_item_done now n p c i av db a db' :
  insert_menu_item now n p c i av db = Done a db' ->
  PrimFloat.is_nan p = false /\ a = next_rowid (menu_items db) /\
  db' = with_menu_items
          (snd (insert_row (fun k => mkMenuItem k n p c i av now now) (menu_items db))) db.
Proof.
  unfold insert_menu_item. destruct (sql_real p) as [v |] eqn:Ep; [| discriminate].
  apply sql_real_inv in Ep. destruct Ep as [-> Hn].
  cbn. intro E. injection E as <- <-. auto.
Qed.

Lemma fold_add_not_nan l : forall acc,
  PrimFloat.is_nan (fold_left PrimFloat.add l acc) = false ->
  PrimFloat.is_nan acc = false /\ Forall (fun x => PrimFloat.is_nan x = false) l.
Proof.
  induction l as [| x r IH]; intros acc H; cbn in *.
  - now split.
  - apply IH in H. destruct H as [H Hr]. apply add_not_nan in H. destruct H.
    split; [assumption | now constructor].
Qed.

(** *** Rounding

    [binary_round] and [binary_round_aux] are the rounding to nearest of the
    specification of the primitive doubles. What is needed of them: the
    double of a positive integer is positive, a product of positive doubles
    and a sum of doubles that are not negative are not negative, hence are
    numbers, and a double times one is that double. The first needs the
    result of [binary_round] to be a valid double, so that [SF2Prim] keeps
    it. *)

Lemma fexp_eq e : fexp prec emax e = Z.max (e - 53) (-1074).
Proof. reflexivity. Qed.

Lemma digits2_bounds p :
  2 ^ (Zpos (digits2_pos p) - 1) <= Zpos p < 2 ^ Zpos (digits2_pos p).
Proof.
  induction p as [p IH | p IH |]; cbn [digits2_pos].
  - rewrite Pos2Z.inj_succ.
    replace (Z.succ (Zpos (digits2_pos p)) - 1) with (Z.succ (Zpos (digits2_pos p) - 1)) by lia.
    rewrite !Z.pow_succ_r by lia. lia.
  - rewrite Pos2Z.inj_succ.
    replace (Z.succ (Zpos (digits2_pos p)) - 1) with (Z.succ (Zpos (digits2_pos p) - 1)) by lia.
    rewrite !Z.pow_succ_r by lia. lia.
  - cbn. lia.
Qed.

Lemma Zdigits2_bounds m :
  0 < m -> 0 < Zdigits2 m /\ 2 ^ (Zdigits2 m - 1) <= m < 2 ^ Zdigits2 m.
Proof.
  destruct m as [| p | p]; try lia. intros _. cbn [Zdigits2].
  split; [lia | apply digits2_bounds].
Qed.

Lemma Zdigits2_unique m d :
  0 < d -> 2 ^ (d - 1) <= m < 2 ^ d -> Zdigits2 m = d.
Proof.
  intros Hd Hm.
  assert (Hp : 0 < m). { assert (0 < 2 ^ (d - 1)) by (apply Z.pow_pos_nonneg; lia). lia. }
  destruct (Zdigits2_bounds Hp) as [Hk Hb].
  destruct (Z.lt_trichotomy (Zdigits2 m) d) as [L | [E | G]]; [| exact E |].
  - assert (2 ^ Zdigits2 m <= 2 ^ (d - 1)) by (apply Z.pow_le_mono_r; lia). lia.
  - assert (2 ^ d <= 2 ^ (Zdigits2 m - 1)) by (apply Z.pow_le_mono_r; lia). lia.
Qed.

Lemma Zdigits2_nonneg m : 0 <= m -> 0 <= Zdigits2 m.
Proof. destruct m; cbn; lia. Qed.

(** The digits of a quotient by a power of two. *)
Lemma Zdigits2_div m n :
  0 < m -> 0 <= n < Zdigits2 m -> Zdigits2 (m / 2 ^ n) = Zdigits2 m - n.
Proof.
  intros Hm Hn. destruct (Zdigits2_bounds Hm) as [Hd Hb].
  assert (P : 0 < 2 ^ n) by (apply Z.pow_pos_nonneg; lia).
  apply Zdigits2_unique; [lia |]. split.
  - apply Z.div_le_lower_bound; [exact P |].
    rewrite <- Z.pow_add_r by lia.
    replace (n + (Zdigits2 m - n - 1)) with (Zdigits2 m - 1) by lia. lia.
  - apply Z.div_lt_upper_bound; [exact P |].
    rewrite <- Z.pow_add_r by lia.
    replace (n + (Zdigits2 m - n)) with (Zdigits2 m) by lia. lia.
Qed.

Lemma div_pow_small m n : 0 <= m -> Zdigits2 m <= n -> m / 2 ^ n = 0.
Proof.
  intros Hm Hn. destruct (Z.eq_dec m 0) as [-> | Hz].
  - apply Z.div_0_l. apply Z.pow_nonzero; [lia |]. cbn in Hn. lia.
  - destruct (@Zdigits2_bounds m ltac:(lia)) as [Hd Hb].
    apply Z.div_small. split; [lia |].
    assert (2 ^ Zdigits2 m <= 2 ^ n) by (apply Z.pow_le_mono_r; lia). lia.
Qed.

Lemma div_pow_pos m n : 0 < m -> 0 <= n < Zdigits2 m -> 0 < m / 2 ^ n.
Proof.
  intros Hm Hn. destruct (Zdigits2_bounds Hm) as [Hd Hb].
  assert (P : 0 < 2 ^ n) by (apply Z.pow_pos_nonneg; lia).
  apply Z.div_str_pos. split; [exact P |].
  assert (2 ^ n <= 2 ^ (Zdigits2 m - 1)) by (apply Z.pow_le_mono_r; lia). lia.
Qed.

Lemma shr_1_m r : 0 <= shr_m r -> shr_m (shr_1 r) = shr_m r / 2.
Proof.
  destruct r as [m r s]. cbn [shr_m shr_1]. intro H.
  destruct m as [| [p | p |] | p]; cbn [shr_m]; try lia.
  - reflexivity.
  - apply Z.div_unique with (r := 1); lia.
  - apply Z.div_unique with (r := 0); lia.
  - reflexivity.
Qed.

Lemma pow2_xI p : 2 ^ Zpos p~1 = 2 * 2 ^ Zpos p * 2 ^ Zpos p.
Proof.
  replace (Zpos p~1) with (1 + Zpos p + Zpos p) by lia.
  rewrite !Z.pow_add_r by lia. reflexivity.
Qed.

Lemma pow2_xO p : 2 ^ Zpos p~0 = 2 ^ Zpos p * 2 ^ Zpos p.
Proof.
  replace (Zpos p~0) with (Zpos p + Zpos p) by lia.
  rewrite !Z.pow_add_r by lia. reflexivity.
Qed.

Lemma iter_shr_1_m p : forall r,
  0 <= shr_m r -> shr_m (iter_pos shr_1 p r) = shr_m r / 2 ^ Zpos p.
Proof.
  assert (N : forall r, 0 <= shr_m r -> 0 <= shr_m (shr_1 r)).
  { intros r H. rewrite shr_1_m by exact H. apply Z.div_pos; lia. }
  assert (P : forall q, 0 < 2 ^ Zpos q) by (intro q; apply Z.pow_pos_nonneg; lia).
  induction p as [p IH | p IH |]; intros r H; cbn [iter_pos].
  - assert (H1 := N r H).
    assert (H2 : 0 <= shr_m (iter_pos shr_1 p (shr_1 r))).
    { rewrite IH by exact H1. apply Z.div_pos; [exact H1 | apply P]. }
    rewrite IH by exact H2. rewrite IH by exact H1. rewrite shr_1_m by exact H.
    rewrite pow2_xI. pose proof (P p).
    rewrite !Z.div_div by lia. f_equal. lia.
  - assert (H2 : 0 <= shr_m (iter_pos shr_1 p r)).
    { rewrite IH by exact H. apply Z.div_pos; [exact H | apply P]. }
    rewrite IH by exact H2. rewrite IH by exact H.
    rewrite pow2_xO. pose proof (P p).
    rewrite !Z.div_div by lia. reflexivity.
  - rewrite shr_1_m by exact H. reflexivity.
Qed.

Lemma shr_spec r e n :
  0 <= shr_m r ->
  shr_m (fst (shr r e n)) = shr_m r / 2 ^ Z.max n 0 /\ snd (shr r e n) = e + Z.max n 0.
Proof.
  intro H. unfold shr. destruct n as [| p | p]; cbn [fst snd].
  - cbn. rewrite Z.div_1_r. lia.
  - rewrite iter_shr_1_m by exact H. rewrite Z.max_l by lia. split; reflexivity.
  - cbn. rewrite Z.div_1_r. lia.
Qed.

Lemma shr_record_of_loc_m m l : shr_m (shr_record_of_loc m l) = m.
Proof. destruct l as [| []]; reflexivity. Qed.

Lemma shr_fexp_spec m e l :
  0 <= m ->
  let n := Z.max (Z.max (Zdigits2 m + e - 53) (-1074) - e) 0 in
  shr_m (fst (shr_fexp prec emax m e l)) = m / 2 ^ n /\
  snd (shr_fexp prec emax m e l) = e + n.
Proof.
  intros H n. unfold shr_fexp. rewrite fexp_eq.
  pose proof (@shr_spec (shr_record_of_loc m l) e
                (Z.max (Zdigits2 m + e - 53) (-1074) - e)) as S.
  rewrite shr_record_of_loc_m in S. exact (S H).
Qed.

Lemma round_nearest_even_cases m l :
  round_nearest_even m l = m \/ round_nearest_even m l = m + 1.
Proof.
  destruct l as [| []]; cbn; auto. destruct (Z.even m); auto.
Qed.

(** What [binary_round_aux] computes, on a mantissa that is not negative. *)
Lemma binary_round_aux_spec s m e l :
  0 <= m ->
  exists m1 m2 m3 e1 e3,
    m1 = m / 2 ^ (e1 - e) /\
    e1 = e + Z.max (Z.max (Zdigits2 m + e - 53) (-1074) - e) 0 /\
    (m2 = m1 \/ m2 = m1 + 1) /\
    m3 = m2 / 2 ^ (e3 - e1) /\
    e3 = e1 + Z.max (Z.max (Zdigits2 m2 + e1 - 53) (-1074) - e1) 0 /\
    binary_round_aux prec emax s m e l =
      match m3 with
      | Z0 => S754_zero s
      | Zpos p => if e3 <=? 1024 - 53 then S754_finite s p e3 else S754_infinity s
      | Zneg _ => S754_nan
      end.
Proof.
  intro H. unfold binary_round_aux.
  destruct (shr_fexp_spec e l H) as [A1 A2]. cbv zeta in A1, A2.
  destruct (shr_fexp prec emax m e l) as [r1 e1]. cbn [fst snd] in A1, A2.
  set (m2 := round_nearest_even (shr_m r1) (loc_of_shr_record r1)).
  assert (H1 : 0 <= shr_m r1).
  { rewrite A1. apply Z.div_pos; [exact H | apply Z.pow_pos_nonneg; lia]. }
  assert (H2 : 0 <= m2).
  { unfold m2. destruct (round_nearest_even_cases (shr_m r1) (loc_of_shr_record r1)); lia. }
  destruct (shr_fexp_spec e1 loc_Exact H2) as [B1 B2]. cbv zeta in B1, B2.
  destruct (shr_fexp prec emax m2 e1 loc_Exact) as [r3 e3]. cbn [fst snd] in B1, B2.
  exists (shr_m r1), m2, (shr_m r3), e1, e3.
  split; [rewrite A1; f_equal; f_equal; lia |].
  split; [exact A2 |].
  split; [apply round_nearest_even_cases |].
  split; [rewrite B1; f_equal; f_equal; lia |].
  split; [exact B2 |]. reflexivity.
Qed.

Lemma binary_round_aux_nonneg m e l :
  0 <= m -> SFnonneg (binary_round_aux prec emax false m e l) = true.
Proof.
  intro H. destruct (binary_round_aux_spec false e l H)
    as (m1 & m2 & m3 & e1 & e3 & E1 & Ee1 & E2 & E3 & Ee3 & ->).
  assert (0 <= m1) by (subst m1; apply Z.div_pos; [exact H | apply Z.pow_pos_nonneg; lia]).
  assert (0 <= m3) by (subst m3; apply Z.div_pos; [lia | apply Z.pow_pos_nonneg; lia]).
  destruct m3 as [| p | p]; [reflexivity | | lia].
  now destruct (e3 <=? 1024 - 53).
Qed.

(** Above the smallest exponent a positive mantissa is not rounded to
    zero. *)
Lemma binary_round_aux_positive m e l :
  0 < m -> -1074 <= e -> SFpositive (binary_round_aux prec emax false m e l) = true.
Proof.
  intros H He. destruct (@binary_round_aux_spec false m e l ltac:(lia))
    as (m1 & m2 & m3 & e1 & e3 & E1 & Ee1 & E2 & E3 & Ee3 & ->).
  destruct (Zdigits2_bounds H) as [Hd _].
  assert (P1 : 0 < m1) by (subst m1; apply div_pow_pos; lia).
  assert (P2 : 0 < m2) by lia.
  destruct (Zdigits2_bounds P2) as [Hd2 _].
  assert (P3 : 0 < m3) by (subst m3; apply div_pow_pos; lia).
  destruct m3 as [| p | p]; [lia | | lia].
  now destruct (e3 <=? 1024 - 53).
Qed.

Lemma Zdigits2_mono a b : 0 < a -> a <= b -> Zdigits2 a <= Zdigits2 b.
Proof.
  intros Ha Hab. destruct (Zdigits2_bounds Ha) as [Da Ba].
  destruct (@Zdigits2_bounds b ltac:(lia)) as [Db Bb].
  destruct (Z_le_gt_dec (Zdigits2 a) (Zdigits2 b)) as [L | G]; [exact L |].
  assert (2 ^ Zdigits2 b <= 2 ^ (Zdigits2 a - 1)) by (apply Z.pow_le_mono_r; lia). lia.
Qed.

(** A shift to the exponent [fexp] asks for leaves a canonical mantissa. *)
Lemma shift_canonical m e n m' e' :
  0 < m -> -1074 <= e -> e <= Z.max (Zdigits2 m + e - 53) (-1074) ->
  n = Z.max (Z.max (Zdigits2 m + e - 53) (-1074) - e) 0 ->
  m' = m / 2 ^ n -> e' = e + n ->
  0 < m' /\ Z.max (Zdigits2 m' + e' - 53) (-1074) = e' /\ -1074 <= e'.
Proof.
  intros Hm He Hc -> -> ->. destruct (Zdigits2_bounds Hm) as [Hd _].
  set (n := Z.max (Z.max (Zdigits2 m + e - 53) (-1074) - e) 0).
  assert (Hn : 0 <= n < Zdigits2 m) by lia.
  split; [apply div_pow_pos; assumption |].
  rewrite Zdigits2_div by assumption. lia.
Qed.

Lemma binary_round_aux_valid s m e l :
  0 < m -> e <= Z.max (Zdigits2 m + e - 53) (-1074) ->
  valid_binary (binary_round_aux prec emax s m e l) = true.
Proof.
  intros H Hc. destruct (@binary_round_aux_spec s m e l ltac:(lia))
    as (m1 & m2 & m3 & e1 & e3 & E1 & Ee1 & E2 & E3 & Ee3 & ->).
  destruct (Zdigits2_bounds H) as [Hd _].
  assert (C : 0 < m3 -> Z.max (Zdigits2 m3 + e3 - 53) (-1074) = e3).
  { intro P3.
    assert (P2 : 0 < m2).
    { destruct (Z_lt_le_dec 0 m2) as [L | G]; [exact L |].
      assert (N1 : 0 <= m1)
        by (subst m1; apply Z.div_pos; [lia | apply Z.pow_pos_nonneg; lia]).
      assert (Z2 : m2 = 0) by lia. rewrite Z2 in E3. rewrite Z.div_0_l in E3; [lia |].
      apply Z.pow_nonzero; lia. }
    assert (Q : -1074 <= e1 /\ e1 <= Z.max (Zdigits2 m2 + e1 - 53) (-1074)).
    { destruct (Z_lt_le_dec (e1 - e) (Zdigits2 m)) as [L | G].
      - assert (P1 : 0 < m1) by (subst m1; apply div_pow_pos; lia).
        assert (D1 : Zdigits2 m1 = Zdigits2 m - (e1 - e))
          by (subst m1; apply Zdigits2_div; lia).
        assert (Zdigits2 m1 <= Zdigits2 m2) by (apply Zdigits2_mono; lia).
        lia.
      - assert (Z1 : m1 = 0) by (subst m1; apply div_pow_small; lia).
        assert (O2 : m2 = 1) by lia. rewrite O2. cbn [Zdigits2 digits2_pos]. lia. }
    destruct Q as [Q1 Q2].
    destruct (@shift_canonical m2 e1 (e3 - e1) m3 e3 P2 Q1 Q2 ltac:(lia) E3 ltac:(lia))
      as (_ & R & _).
    exact R. }
  destruct m3 as [| p | p]; [reflexivity | | reflexivity].
  destruct (e3 <=? 1024 - 53) eqn:B; [| reflexivity].
  cbn [valid_binary]. unfold bounded, canonical_mantissa. rewrite fexp_eq.
  change (Zpos (digits2_pos p)) with (Zdigits2 (Zpos p)).
  rewrite C by lia. rewrite Z.eqb_refl. exact B.
Qed.

Lemma iter_xO_pow m d : Zpos (Pos.iter xO m d) = Zpos m * 2 ^ Zpos d.
Proof.
  induction d as [| d IH] using Pos.peano_ind.
  - cbn. lia.
  - rewrite Pos.iter_succ, Pos2Z.inj_xO, IH, Pos2Z.inj_succ, Z.pow_succ_r by lia. lia.
Qed.

Lemma Zdigits2_shift m d : 0 < m -> 0 <= d -> Zdigits2 (m * 2 ^ d) = Zdigits2 m + d.
Proof.
  intros Hm Hd. destruct (Zdigits2_bounds Hm) as [Hk Hb].
  assert (P : 0 < 2 ^ d) by (apply Z.pow_pos_nonneg; lia).
  apply Zdigits2_unique; [lia |].
  replace (Zdigits2 m + d - 1) with ((Zdigits2 m - 1) + d) by lia.
  rewrite !Z.pow_add_r by lia. nia.
Qed.

Lemma binary_round_as_aux s m e :
  exists mz ez,
    binary_round prec emax s m e = binary_round_aux prec emax s (Zpos mz) ez loc_Exact /\
    ez <= Z.max (Zdigits2 (Zpos mz) + ez - 53) (-1074) /\ Z.min e (-1074) <= ez.
Proof.
  unfold binary_round, shl_align. rewrite fexp_eq.
  change (Zpos (digits2_pos m)) with (Zdigits2 (Zpos m)).
  destruct (Z.max (Zdigits2 (Zpos m) + e - 53) (-1074) - e) as [| d | d] eqn:E.
  - exists m, e. split; [reflexivity | lia].
  - exists m, e. split; [reflexivity | lia].
  - exists (Pos.iter xO m d), (Z.max (Zdigits2 (Zpos m) + e - 53) (-1074)).
    split; [reflexivity |]. rewrite iter_xO_pow.
    rewrite Zdigits2_shift by lia. lia.
Qed.

Lemma binary_round_valid s m e : valid_binary (binary_round prec emax s m e) = true.
Proof.
  destruct (binary_round_as_aux s m e) as (mz & ez & -> & H & _).
  apply binary_round_aux_valid; [lia | exact H].
Qed.

Lemma binary_normalize_valid z e s : valid_binary (binary_normalize prec emax z e s) = true.
Proof. destruct z; [reflexivity | apply binary_round_valid ..]. Qed.

(** The double of an integer is the integer rounded to the nearest. *)
Lemma Prim2SF_number_of_Z z :
  Prim2SF (number_of_Z z) = binary_normalize prec emax z 0 false.
Proof. apply Prim2SF_SF2Prim, binary_normalize_valid. Qed.

Lemma number_of_Z_positive z : 0 < z -> SFpositive (Prim2SF (number_of_Z z)) = true.
Proof.
  intro H. rewrite Prim2SF_number_of_Z. destruct z as [| p | p]; try lia.
  cbn [binary_normalize].
  destruct (binary_round_as_aux false p 0) as (mz & ez & -> & _ & He).
  apply binary_round_aux_positive; lia.
Qed.







Lemma positive_Prim2SF p : PrimFloat.ltb 0 p = true <-> SFpositive (Prim2SF p) = true.
Proof.
  rewrite ltb_spec. change (Prim2SF 0) with (S754_zero false). unfold SFltb.
  destruct (Prim2SF p) as [s | s | | s m e]; cbn; try destruct s; split; congruence.
Qed.

Lemma SFpositive_nonneg x : SFpositive x = true -> SFnonneg x = true.
Proof. destruct x as [s | s | | s m e]; try destruct s; cbn; congruence. Qed.

Lemma SFnonneg_number x : SFnonneg x = true -> x <> S754_nan.
Proof. intros H E. subst x. discriminate. Qed.

(** A product of positive doubles is positive or [+0] (an underflow). *)
Lemma SFmul_nonneg x y :
  SFpositive x = true -> SFpositive y = true -> SFnonneg (SFmul prec emax x y) = true.
Proof.
  destruct x as [sx | sx | | sx mx ex], y as [sy | sy | | sy my ey];
    try destruct sx; try destruct sy; cbn [SFpositive]; try discriminate; intros _ _;
    try reflexivity.
  cbn [SFmul xorb]. apply binary_round_aux_nonneg. lia.
Qed.

Lemma SFadd_nonneg x y :
  SFnonneg x = true -> SFnonneg y = true -> SFnonneg (SFadd prec emax x y) = true.
Proof.
  destruct x as [sx | sx | | sx mx ex], y as [sy | sy | | sy my ey];
    try destruct sx; try destruct sy; cbn [SFnonneg]; try discriminate; intros _ _;
    try reflexivity.
  cbn [SFadd cond_Zopp Z.add binary_normalize].
  destruct (binary_round_as_aux false
              (fst (shl_align mx ex (Z.min ex ey)) + fst (shl_align my ey (Z.min ex ey)))
              (Z.min ex ey)) as (mz & ez & -> & _ & _).
  apply binary_round_aux_nonneg. lia.
Qed.

Lemma nonneg_number f : SFnonneg (Prim2SF f) = true -> PrimFloat.is_nan f = false.
Proof. intro H. apply not_nan_Prim2SF. now apply SFnonneg_number. Qed.

Lemma mul_nonneg x y :
  PrimFloat.ltb 0 x = true -> SFpositive (Prim2SF y) = true ->
  SFnonneg (Prim2SF (PrimFloat.mul x y)) = true.
Proof.
  intros Hx Hy. rewrite mul_spec. apply SFmul_nonneg; [| exact Hy].
  now apply positive_Prim2SF.
Qed.

Lemma add_nonneg x y :
  SFnonneg (Prim2SF x) = true -> SFnonneg (Prim2SF y) = true ->
  SFnonneg (Prim2SF (PrimFloat.add x y)) = true.
Proof. intros Hx Hy. rewrite add_spec. now apply SFadd_nonneg. Qed.

Lemma fold_add_nonneg l : forall acc,
  SFnonneg (Prim2SF acc) = true -> Forall (fun x => SFnonneg (Prim2SF x) = true) l ->
  SFnonneg (Prim2SF (fold_left PrimFloat.add l acc)) = true.
Proof.
  induction l as [| x r IH]; intros acc Ha Hl; cbn; [exact Ha |].
  inversion Hl; subst. apply IH; [now apply add_nonneg | assumption].
Qed.

(* ================================================================= *)
(** ** Reasoning about handler bodies *)

Lemma OrderStatus_eqb_eq a b : OrderStatus_eqb a b = true <-> a = b.
Proof. destruct a, b; simpl; split; congruence. Qed.

Lemma OrderStatus_eqb_refl a : OrderStatus_eqb a a = true.
Proof. now destruct a. Qed.

Lemma OrderStatus_of_to_string s :
  OrderStatus_of_string (OrderStatus_to_string s) = Some s.
Proof. now destruct s. Qed.

Lemma bind_inv {A B} (m : M A) (k : A -> M B) flt st o st' :
  bind m k flt st = (o, st') ->
  (exists a st1, m flt st = (Val a, st1) /\ k a flt st1 = (o, st'))
  \/ (exists r, m flt st = (Reply r, st') /\ o = Reply r)
  \/ (exists e, m flt st = (Throw e, st') /\ o = Throw e).
Proof.
  unfold bind. destruct (m flt st) as [[a | r | e] st1]; intro E.
  - left. now exists a, st1.
  - right. left. inversion E. now exists r.
  - right. right. inversion E. now exists e.
Qed.

Lemma stmt_inv {A} (f : Db -> Exec A) flt st o st' :
  stmt f flt st = (o, st') ->
  st_tick st' = S (st_tick st) /\
  ((flt (st_tick st) = true /\ o = Throw IoError /\ st_db st' = st_db st)
   \/ (flt (st_tick st) = false /\ exists a, f (st_db st) = Done a (st_db st') /\ o = Val a)
   \/ (flt (st_tick st) = false /\ exists e, f (st_db st) = Fail e /\ o = Throw e
       /\ st_db st' = st_db st)).
Proof.
  unfold stmt. destruct (flt (st_tick st)).
  - intro E. inversion E. simpl. auto.
  - destruct (f (st_db st)) as [a db1 | e] eqn:F; intro E; inversion E; simpl; split; auto.
    + right. left. split; auto. now exists a.
    + right. right. split; auto. now exists e.
Qed.

(** *** Relations every run of a body maintains, whatever the store failures *)

Section Preserves.
Variable R : Db -> Db -> Prop.
Hypothesis R_refl : forall db, R db db.
Hypothesis R_trans : forall a b c, R a b -> R b c -> R a c.

Lemma preserves_ret {A} (a : A) : preserves R (ret a).
Proof. intros flt st o st' E. inversion E. apply R_refl. Qed.

Lemma preserves_reply {A} r : preserves R (@reply A r).
Proof. intros flt st o st' E. inversion E. apply R_refl. Qed.

Lemma preserves_throw {A} e : preserves R (@throw A e).
Proof. intros flt st o st' E. inversion E. apply R_refl. Qed.

Lemma preserves_prepare columns used : preserves R (prepare columns used).
Proof.
  unfold prepare. destruct (find _ used).
  - apply preserves_throw.
  - apply preserves_ret.
Qed.

Lemma preserves_stmt {A} (f : Db -> Exec A) :
  (forall db a db', f db = Done a db' -> R db db') -> preserves R (stmt f).
Proof.
  intros Hf flt st o st' E. apply stmt_inv in E.
  destruct E as [_ [(_ & _ & ->) | [(_ & a & F & _) | (_ & e & _ & _ & ->)]]]; eauto.
Qed.

Lemma preserves_query {A} (f : Db -> A) : preserves R (query f).
Proof. apply preserves_stmt. intros db a db' E. inversion E. apply R_refl. Qed.

Lemma preserves_exec (f : Db -> Db) : (forall db, R db (f db)) -> preserves R (exec f).
Proof. intro Hf. apply preserves_stmt. intros db a db' E. inversion E. apply Hf. Qed.

Lemma preserves_bind {A B} (m : M A) (k : A -> M B) :
  preserves R m -> (forall a, preserves R (k a)) -> preserves R (bind m k).
Proof.
  intros Hm Hk flt st o st' E. apply bind_inv in E.
  destruct E as [(a & st1 & E1 & E2) | [(r & E1 & _) | (e & E1 & _)]].
  - eapply R_trans; [eapply Hm | eapply Hk]; eauto.
  - eapply Hm; eauto.
  - eapply Hm; eauto.
Qed.

Lemma preserves_transaction {A} (m : M A) : preserves R m -> preserves R (transaction m).
Proof.
  intros Hm flt st o st'. unfold transaction.
  destruct (m flt st) as [[a | r | e] st1] eqn:E; intro E'; inversion E'; subst.
  - eapply Hm; eauto.
  - eapply Hm; eauto.
  - apply R_refl.
Qed.

Lemma preserves_for_each {A} (l : list A) (body : A -> M unit) :
  (forall x, preserves R (body x)) -> preserves R (for_each l body).
Proof.
  intro Hb. induction l as [| x rest IH]; simpl.
  - apply preserves_ret.
  - apply preserves_bind; auto.
Qed.

Lemma preserves_handle (m : M Response) on_error flt db resp db' :
  preserves R m -> handle m on_error flt db = (resp, db') -> R db db'.
Proof.
  intros Hm. unfold handle.
  destruct (m flt (mkSt db 0)) as [[a | r | e] st1] eqn:E; intro E'; inversion E'; subst;
    apply (Hm _ _ _ _ E).
Qed.
End Preserves.

Ltac preserves_step Hr Ht :=
  match goal with
  | |- preserves _ (bind _ _) => apply preserves_bind; [exact Ht | | intros]
  | |- preserves _ (ret _) => apply preserves_ret; exact Hr
  | |- preserves _ (reply _) => apply preserves_reply; exact Hr
  | |- preserves _ (throw _) => apply preserves_throw; exact Hr
  | |- preserves _ (prepare _ _) => apply preserves_prepare; exact Hr
  | |- preserves _ (query _) => apply preserves_query; exact Hr
  | |- preserves _ (exec _) => apply preserves_exec; [exact Hr | intros]
  | |- preserves _ (stmt _) => apply preserves_stmt; [exact Hr | intros]
  | |- preserves _ (transaction _) => apply preserves_transaction; [exact Hr |]
  | |- preserves _ (for_each _ _) => apply preserves_for_each; [exact Hr | exact Ht | intros]
  | |- preserves _ (match ?x with _ => _ end) => destruct x
  end.

Ltac preserves_tac Hr Ht := repeat preserves_step Hr Ht.

(** *** A store failure can only turn an outcome into an exception *)

Lemma steady_ret {A} (a : A) : steady (ret a).
Proof. intros flt st o st' E _. exact E. Qed.

Lemma steady_reply {A} r : steady (@reply A r).
Proof. intros flt st o st' E _. exact E. Qed.

Lemma steady_throw {A} e : steady (@throw A e).
Proof. intros flt st o st' E _. exact E. Qed.

Lemma steady_prepare columns used : steady (prepare columns used).
Proof.
  unfold prepare. destruct (find _ used); [apply steady_throw | apply steady_ret].
Qed.

Lemma steady_stmt {A} (f : Db -> Exec A) : steady (stmt f).
Proof.
  intros flt st o st'. unfold stmt, no_faults.
  destruct (flt (st_tick st)); auto.
  intros E N. inversion E; subst. now elim (N IoError).
Qed.

Lemma steady_bind {A B} (m : M A) (k : A -> M B) :
  steady m -> (forall a, steady (k a)) -> steady (bind m k).
Proof.
  intros Hm Hk flt st o st' E N. unfold bind in *.
  destruct (m flt st) as [[a | r | e] st1] eqn:E1.
  - rewrite (Hm _ _ _ _ E1) by discriminate. now apply (Hk a flt).
  - rewrite (Hm _ _ _ _ E1) by discriminate. exact E.
  - inversion E; subst. now elim (N e).
Qed.

Lemma steady_transaction {A} (m : M A) : steady m -> steady (transaction m).
Proof.
  intros Hm flt st o st' E N. unfold transaction in *.
  destruct (m flt st) as [[a | r | e] st1] eqn:E1.
  - rewrite (Hm _ _ _ _ E1) by discriminate. exact E.
  - rewrite (Hm _ _ _ _ E1) by discriminate. exact E.
  - inversion E; subst. now elim (N e).
Qed.

Lemma steady_for_each {A} (l : list A) (body : A -> M unit) :
  (forall x, steady (body x)) -> steady (for_each l body).
Proof.
  intro Hb. induction l as [| x rest IH]; simpl.
  - apply steady_ret.
  - apply steady_bind; auto.
Qed.

(** Every catch clause answers 500 except the one of [POST /api/tables],
    which answers 409 or 500; a response with another status is the response
    of the run without store failures. *)
Lemma steady_handle (m : M Response) on_error flt db resp db' :
  steady m ->
  (forall e, http_status (on_error e) = 500 \/ http_status (on_error e) = 409) ->
  handle m on_error flt db = (resp, db') ->
  http_status resp <> 500 -> http_status resp <> 409 ->
  handle m on_error no_faults db = (resp, db').
Proof.
  intros Hm Herr. unfold handle.
  destruct (m flt (mkSt db 0)) as [[a | r | e] st1] eqn:E; intros E' N5 N9.
  - now rewrite (Hm _ _ _ _ E) by discriminate.
  - now rewrite (Hm _ _ _ _ E) by discriminate.
  - inversion E'; subst. destruct (Herr e); contradiction.
Qed.

(** *** All or nothing *)

Lemma transaction_atomic {A} (m : M A) flt st o st' :
  transaction m flt st = (o, st') ->
  (exists e, o = Throw e /\ st_db st' = st_db st)
  \/ ((forall e, o <> Throw e) /\ m flt st = (o, st')).
Proof.
  unfold transaction. destruct (m flt st) as [[a | r | e] st1]; intro E; inversion E; subst.
  - right. split; [discriminate | reflexivity].
  - right. split; [discriminate | reflexivity].
  - left. now exists e.
Qed.

Create HintDb steady.
#[global] Hint Resolve steady_ret steady_reply steady_throw steady_prepare steady_stmt
  steady_transaction steady_for_each : steady.

Ltac steady_step :=
  match goal with
  | |- steady (bind _ _) => apply steady_bind; [ | intros ]
  | |- steady (transaction _) => apply steady_transaction
  | |- steady (for_each _ _) => apply steady_for_each; intros
  | |- steady (query _) => apply steady_stmt
  | |- steady (exec _) => apply steady_stmt
  | |- steady (match ?x with _ => _ end) => destruct x
  | |- steady _ => solve [auto with steady]
  end.

Ltac steady_tac := repeat steady_step.

(* ================================================================= *)
(** ** Facts about lists and statements *)

Lemma count_pos_existsb {A} (p : A -> bool) (l : list A) :
  (0 <? Z.of_nat (List.length (filter p l))) = existsb p l.
Proof.
  induction l as [| x r IH]; simpl; [reflexivity |].
  destruct (p x); simpl; [| exact IH].
  apply Z.ltb_lt. lia.
Qed.

Lemma count_zero_nil {A} (l : list A) : (Z.of_nat (List.length l) =? 0) = true <-> l = [].
Proof.
  destruct l; simpl; split; try reflexivity; discriminate.
Qed.

Lemma existsb_orb {A} (p q : A -> bool) (l : list A) :
  existsb (fun x => p x || q x) l = existsb p l || existsb q l.
Proof.
  induction l as [| x r IH]; simpl; [reflexivity |].
  rewrite IH. destruct (p x), (q x), (existsb p r), (existsb q r); reflexivity.
Qed.

Lemma active_orders_In id db o :
  In o (active_orders id db) <->
  In o (rows (orders db)) /\ o_table_id o = id /\ o_status o <> Paid.
Proof.
  unfold active_orders, select_where, is_active. rewrite filter_In, andb_true_iff, Z.eqb_eq.
  destruct (o_status o); simpl; intuition congruence.
Qed.

(** The reads on orders do not look at [tables]. *)
Lemma active_orders_frame id db1 db2 :
  orders db1 = orders db2 -> active_orders id db1 = active_orders id db2.
Proof. unfold active_orders. now intros ->. Qed.

(* ================================================================= *)
(** ** Cancelling an order ([DELETE /api/orders/[id]]) *)

Lemma steady_DELETE_body now id : steady (OrderById.DELETE_body now id).
Proof. unfold OrderById.DELETE_body, OrderById.cancel. steady_tac. Qed.

Lemma DELETE_no_faults now db oid o :
  select_order oid db = Some o -> o_status o = Pending ->
  OrderById.DELETE no_faults now (Some oid) db =
    (json (MessageJson "Order cancelled successfully"), cancelled now oid (o_table_id o) db).
Proof.
  intros Ho Hs.
  unfold OrderById.DELETE, handle, OrderById.DELETE_body, OrderById.cancel, transaction,
    bind, query, exec, stmt, cancelled. simpl.
  rewrite Ho, Hs. simpl.
  destruct (count_active (o_table_id o) (delete_order oid db) =? 0); reflexivity.
Qed.

(** Under store failures a cancellation either answers 500 and leaves the
    store as it was, or is the cancellation without failures. *)
Lemma DELETE_all_or_nothing flt now db oid o resp db' :
  select_order oid db = Some o -> o_status o = Pending ->
  OrderById.DELETE flt now (Some oid) db = (resp, db') ->
  (http_status resp = 500 /\ db' = db)
  \/ (resp, db') = OrderById.DELETE no_faults now (Some oid) db.
Proof.
  intros Ho Hs E. rewrite (DELETE_no_faults now db oid Ho Hs). revert E.
  unfold OrderById.DELETE, handle, OrderById.DELETE_body, OrderById.cancel, transaction,
    bind, query, exec, stmt, cancelled. simpl.
  destruct (flt 0%nat); [intro E; inversion E; now left |].
  rewrite Ho, Hs. simpl.
  destruct (flt 1%nat); [intro E; inversion E; now left |]. simpl.
  destruct (flt 2%nat); [intro E; inversion E; now left |]. simpl.
  destruct (count_active (o_table_id o) (delete_order oid db) =? 0); simpl.
  - destruct (flt 3%nat); intro E; inversion E; [now left | now right].
  - intro E; inversion E. now right.
Qed.

Lemma cancel_success now db oid o flt resp db' :
  select_order oid db = Some o -> o_status o = Pending ->
  OrderById.DELETE flt now (Some oid) db = (resp, db') ->
  (http_status resp <> 200 -> db' = db) /\
  (http_status resp = 200 ->
     rows (orders db') = filter (fun x => negb (o_id x =? oid)) (rows (orders db)) /\
     rows (order_items db') =
       filter (fun i => negb (oi_order_id i =? oid)) (rows (order_items db)) /\
     menu_items db' = menu_items db /\ staff db' = staff db /\
     (active_orders (o_table_id o) db' = [] ->
        rows (tables db') =
          map (fun t => if t_id t =? o_table_id o
                        then mkTable (t_id t) (t_number t) Free None (t_created_at t) now
                        else t)
              (rows (tables db))) /\
     (active_orders (o_table_id o) db' <> [] -> tables db' = tables db)).
Proof.
  intros Ho Hs E.
  destruct (DELETE_all_or_nothing flt now db oid Ho Hs E) as [[H5 ->] | E'].
  - split; [reflexivity | intro H2; rewrite H2 in H5; discriminate].
  - rewrite (DELETE_no_faults now db oid Ho Hs) in E'. inversion E'; subst resp db'.
    split; [intro N; now elim N |]. intros _.
    unfold cancelled. cbv zeta.
    destruct (count_active (o_table_id o) (delete_order oid db) =? 0) eqn:C.
    + apply count_zero_nil in C.
      repeat split; try reflexivity.
      intro A. rewrite (active_orders_frame (o_table_id o) _ (delete_order oid db)) in A
        by reflexivity.
      now rewrite C in A.
    + repeat split; try reflexivity.
      intro A. unfold count_active in C. rewrite A in C. discriminate.
Qed.

(** C7: cancelling a Pending order deletes the order and, by the cascade,
    every line item of it; when the table is then left without a non-Paid
    order, its status becomes Free and its customer count is cleared; when
    other non-Paid orders remain, the rows of [tables] are as they were.
    Without store failures the cancellation succeeds; under store failures
    it either succeeds like that or leaves the whole store unchanged. *)
Theorem cancel_pending_order now db oid o :
  select_order oid db = Some o -> o_status o = Pending ->
  http_status (fst (OrderById.DELETE no_faults now (Some oid) db)) = 200 /\
  forall flt resp db',
    OrderById.DELETE flt now (Some oid) db = (resp, db') ->
    (http_status resp <> 200 -> db' = db) /\
    (http_status resp = 200 ->
       rows (orders db') = filter (fun x => negb (o_id x =? oid)) (rows (orders db)) /\
       rows (order_items db') =
         filter (fun i => negb (oi_order_id i =? oid)) (rows (order_items db)) /\
       menu_items db' = menu_items db /\ staff db' = staff db /\
       (active_orders (o_table_id o) db' = [] ->
          rows (tables db') =
            map (fun t => if t_id t =? o_table_id o
                          then mkTable (t_id t) (t_number t) Free None (t_created_at t) now
                          else t)
                (rows (tables db))) /\
       (active_orders (o_table_id o) db' <> [] -> tables db' = tables db)).
Proof.
  intros Ho Hs. split.
  - now rewrite (DELETE_no_faults now db oid Ho Hs).
  - intros flt resp db' E. exact (cancel_success now db oid flt Ho Hs E).
Qed.

Lemma cancel_pending_order_witness :
  http_status (fst (OrderById.DELETE no_faults 200 (Some 1) sample_db_order)) = 200.
Proof.
  exact (proj1 (cancel_pending_order 200 sample_db_order 1 (o := mkOrder 1 1 2500 Pending None 100 100)
                  eq_refl eq_refl)).
Defined.

(** C8: cancelling an order that is not Pending answers 400 with the message
    of the handler, and cancelling an order that does not exist answers 404;
    in both cases nothing is written (a store failure of the lookup turns
    the answer into a 500, the store still unchanged). *)
Theorem cancel_rejected flt now db oid :
  (forall o, select_order oid db = Some o -> o_status o <> Pending ->
     OrderById.DELETE flt now (Some oid) db =
       (if flt 0%nat then error_response "Failed to cancel order" 500
        else error_response "Can only cancel pending orders" 400, db))
  /\ (select_order oid db = None ->
     OrderById.DELETE flt now (Some oid) db =
       (if flt 0%nat then error_response "Failed to cancel order" 500
        else error_response "Order not found" 404, db)).
Proof.
  unfold OrderById.DELETE, handle, OrderById.DELETE_body, bind, query, stmt. simpl.
  split.
  - intros o Ho Hs. destruct (flt 0%nat); [reflexivity |]. rewrite Ho.
    destruct (o_status o); try contradiction; reflexivity.
  - intros Ho. destruct (flt 0%nat); [reflexivity |]. now rewrite Ho.
Qed.

Lemma cancel_rejected_witness :
  let db := snd (OrderById.PUT no_faults 150 (Some 1)
                   (OrderById.mkRequest (Some "Preparing") None) sample_db_order) in
  OrderById.DELETE no_faults 200 (Some 1) db =
    (error_response "Can only cancel pending orders" 400, db)
  /\ OrderById.DELETE no_faults 200 (Some 7) db = (error_response "Order not found" 404, db).
Proof.
  set (db := snd (OrderById.PUT no_faults 150 (Some 1)
                    (OrderById.mkRequest (Some "Preparing") None) sample_db_order)).
  destruct (cancel_rejected no_faults 200 db 1) as [Hbad _].
  destruct (cancel_rejected no_faults 200 db 7) as [_ Hnone].
  split.
  - apply (Hbad (mkOrder 1 1 2500 Preparing None 100 150)); [reflexivity | discriminate].
  - apply Hnone. reflexivity.
Defined.

(* ================================================================= *)
(** ** The bulk resync ([POST /api/tables/sync-status]) *)

Lemma for_each_sync now l st :
  for_each l (TablesSync.sync_table now) no_faults st =
    (Val tt, mkSt (fold_left (sync_step now) l (st_db st)) (3 * List.length l + st_tick st)).
Proof.
  revert st. induction l as [| t rest IH]; intro st.
  - destruct st; reflexivity.
  - cbn [for_each]. unfold bind at 1.
    unfold TablesSync.sync_table at 1. unfold bind, query, exec, stmt. cbn [no_faults st_db st_tick].
    destruct (TablesSync.derive _ _) as [s c] eqn:D. cbn beta iota delta [no_faults st_db st_tick].
    rewrite IH. cbn [st_db st_tick fold_left].
    replace (sync_step now (st_db st) t)
      with (update_table_status_count now s c (t_id t) (st_db st))
      by (unfold sync_step, derived; now rewrite D).
    f_equal. f_equal. cbn [List.length]. lia.
Qed.

Lemma sync_step_frame now db t :
  menu_items (sync_step now db t) = menu_items db /\
  staff (sync_step now db t) = staff db /\
  orders (sync_step now db t) = orders db /\
  order_items (sync_step now db t) = order_items db /\
  seq (tables (sync_step now db t)) = seq (tables db).
Proof. unfold sync_step. repeat split. Qed.

Lemma synced_frame now db1 db2 x :
  orders db1 = orders db2 -> order_items db1 = order_items db2 ->
  synced now db1 x = synced now db2 x.
Proof.
  intros Ho Hi. unfold synced, derived, active_by_status, sum_quantities, joined_quantities,
    active_orders. now rewrite Ho, Hi.
Qed.

Lemma synced_id now db x : t_id (synced now db x) = t_id x.
Proof. reflexivity. Qed.

Lemma synced_idem now db x : synced now db (synced now db x) = synced now db x.
Proof. reflexivity. Qed.

Lemma tables_sync_step now db t :
  rows (tables (sync_step now db t)) =
    map (fun x => if t_id x =? t_id t then synced now db x else x) (rows (tables db)).
Proof.
  unfold sync_step, synced. simpl.
  apply map_ext. intro x. destruct (t_id x =? t_id t) eqn:E; [| reflexivity].
  apply Z.eqb_eq in E. rewrite <- E. reflexivity.
Qed.

Lemma fold_sync now l : forall db,
  let db' := fold_left (sync_step now) l db in
  menu_items db' = menu_items db /\ staff db' = staff db /\
  orders db' = orders db /\ order_items db' = order_items db /\
  seq (tables db') = seq (tables db) /\
  rows (tables db') =
    map (fun x => if existsb (fun t => t_id x =? t_id t) l then synced now db x else x)
        (rows (tables db)).
Proof.
  induction l as [| t rest IH]; intro db; cbn [fold_left existsb].
  - repeat split. now rewrite map_id.
  - destruct (IH (sync_step now db t)) as (Hm & Hs & Ho & Hi & Hq & Hr).
    destruct (sync_step_frame now db t) as (Fm & Fs & Fo & Fi & Fq).
    cbv zeta. repeat split; try congruence.
    rewrite Hr, tables_sync_step, map_map. apply map_ext. intro x.
    destruct (t_id x =? t_id t) eqn:E; cbn [orb].
    + rewrite synced_id, (synced_frame now _ db) by assumption.
      rewrite synced_idem. now destruct (existsb _ rest).
    + now rewrite (synced_frame now _ db) by assumption.
Qed.

Lemma derived_status_eq id db :
  fst (derived id db) =
    match active_orders id db with
    | [] => Free
    | _ :: _ => if existsb cooking (active_orders id db) then Occupied else Serving
    end.
Proof.
  unfold derived, active_by_status, cooking. rewrite existsb_orb.
  cbn [map filter snd]. rewrite !count_pos_existsb.
  destruct (active_orders id db) as [| o r] eqn:A; [reflexivity |].
  assert (Ho : o_status o <> Paid).
  { apply (active_orders_In id db o). rewrite A. now left. }
  cbn [existsb].
  destruct (o_status o); try congruence; cbn [OrderStatus_eqb orb];
    repeat match goal with
           | |- context [existsb ?p r] => destruct (existsb p r)
           end; reflexivity.
Qed.

Lemma derived_count_eq id db :
  snd (derived id db) = or_nullZ (sum_quantities id db).
Proof.
  unfold derived, TablesSync.derive, or_nullZ.
  destruct (active_by_status id db) as [| g gs] eqn:G; [| reflexivity].
  cbn [snd].
  assert (A : active_orders id db = []).
  { revert G. unfold active_by_status. cbn [map filter snd]. rewrite !count_pos_existsb.
    destruct (active_orders id db) as [| o r] eqn:A; [reflexivity |].
    assert (Ho : o_status o <> Paid).
    { apply (active_orders_In id db o). rewrite A. now left. }
    cbn [existsb].
    destruct (o_status o); try congruence; cbn [OrderStatus_eqb orb];
      repeat match goal with
             | |- context [existsb ?p r] => destruct (existsb p r)
             end; discriminate. }
  unfold sum_quantities, joined_quantities. rewrite A. reflexivity.
Qed.

Lemma steady_sync_body now : steady (TablesSync.POST_body now).
Proof.
  unfold TablesSync.POST_body, TablesSync.sync_table. steady_tac.
Qed.

Lemma sync_no_faults now db :
  TablesSync.POST no_faults now db =
    (json (SyncedJson "Table statuses synced successfully"
                      (Z.of_nat (List.length (rows (tables db))))),
     fold_left (sync_step now) (rows (tables db)) db).
Proof.
  unfold TablesSync.POST, handle, TablesSync.POST_body.
  unfold bind at 1. unfold query at 1, stmt at 1. cbn beta iota delta [no_faults st_db st_tick].
  unfold bind. rewrite for_each_sync. reflexivity.
Qed.

Lemma sync_success flt now db resp db' :
  TablesSync.POST flt now db = (resp, db') -> http_status resp = 200 ->
  rows (tables db') = map (synced now db) (rows (tables db)) /\
  menu_items db' = menu_items db /\ staff db' = staff db /\
  orders db' = orders db /\ order_items db' = order_items db.
Proof.
  intros E H2.
  assert (E' : TablesSync.POST no_faults now db = (resp, db')).
  { eapply steady_handle;
      [apply steady_sync_body | intro e; now left | exact E | | ];
      rewrite H2; discriminate. }
  rewrite sync_no_faults in E'. inversion E'.
  destruct (fold_sync now (rows (tables db)) db) as (Hm & Hs & Ho & Hi & _ & Hr).
  repeat split; try assumption.
  rewrite Hr. apply map_ext_in. intros x Hx.
  replace (existsb (fun t => t_id x =? t_id t) (rows (tables db))) with true;
    [reflexivity |].
  symmetry. apply existsb_exists. exists x. split; [assumption | apply Z.eqb_refl].
Qed.

(** C3, as the code has it: one run of the bulk resync that succeeds rewrites
    every row of [tables] (and nothing else) with the status derived from
    the table's non-Paid orders: Free when there is none, Occupied when one
    of them is Pending or Preparing, Serving when there are some and all
    are Ready or Served, never Billing. The customer count written is the
    sum of the line-item quantities of the non-Paid orders when those
    orders have line items and the sum is not zero; it is cleared in every
    other case, which includes every Free table. Without store failures
    the run succeeds. *)
Theorem resync_table_status now db :
  http_status (fst (TablesSync.POST no_faults now db)) = 200 /\
  (forall flt resp db',
     TablesSync.POST flt now db = (resp, db') -> http_status resp = 200 ->
     rows (tables db') = map (synced now db) (rows (tables db)) /\
     menu_items db' = menu_items db /\ staff db' = staff db /\
     orders db' = orders db /\ order_items db' = order_items db) /\
  forall t,
    let t' := synced now db t in
    let active := active_orders (t_id t) db in
    t_id t' = t_id t /\ t_number t' = t_number t /\
    (active = [] -> t_status t' = Free /\ t_customer_count t' = None) /\
    (Exists (fun o => o_status o = Pending \/ o_status o = Preparing) active ->
       t_status t' = Occupied) /\
    (active <> [] -> Forall (fun o => o_status o = Ready \/ o_status o = Served) active ->
       t_status t' = Serving) /\
    t_status t' <> Billing /\
    t_customer_count t' =
      match joined_quantities (t_id t) db with
      | [] => None
      | l => if fold_left Z.add l 0 =? 0 then None else Some (fold_left Z.add l 0)
      end.
Proof.
  split; [now rewrite sync_no_faults |]. split.
  - intros flt resp db' E H2. exact (sync_success flt now db E H2).
  - intro t. cbv zeta. unfold synced. cbn [t_id t_number t_status t_customer_count].
    rewrite derived_status_eq, derived_count_eq.
    split; [reflexivity |]. split; [reflexivity |].
    split; [| split; [| split; [| split]]].
    + intros A. rewrite A. split; [reflexivity |].
      unfold or_nullZ, sum_quantities, joined_quantities. now rewrite A.
    + intro Hex. apply Exists_exists in Hex. destruct Hex as (o & Ho & Hst).
      destruct (active_orders (t_id t) db) as [| o' r] eqn:A; [contradiction |].
      replace (existsb cooking (o' :: r)) with true; [reflexivity |].
      symmetry. apply existsb_exists. exists o. split; [assumption |].
      unfold cooking. destruct Hst as [-> | ->]; reflexivity.
    + intros Hne Hall.
      destruct (active_orders (t_id t) db) as [| o' r] eqn:A; [congruence |].
      replace (existsb cooking (o' :: r)) with false; [reflexivity |].
      symmetry. apply not_true_is_false. intro Hex. apply existsb_exists in Hex.
      destruct Hex as (o & Ho & Hc). rewrite Forall_forall in Hall.
      unfold cooking in Hc. destruct (Hall o Ho) as [Hs | Hs]; rewrite Hs in Hc; discriminate.
    + destruct (active_orders (t_id t) db); [discriminate |].
      destruct (existsb cooking _); discriminate.
    + unfold or_nullZ, sum_quantities, truthyZ.
      destruct (joined_quantities (t_id t) db); [reflexivity |].
      destruct (fold_left Z.add _ 0 =? 0); reflexivity.
Qed.

Lemma resync_table_status_witness :
  rows (tables (snd (TablesSync.POST no_faults 200 sample_db_order))) =
    map (synced 200 sample_db_order) (rows (tables sample_db_order))
  /\ t_status (synced 200 sample_db_order (mkTable 1 5 Free None 10 10)) = Occupied.
Proof.
  destruct (resync_table_status 200 sample_db_order) as (_ & Hrun & Hrow).
  split.
  - apply (Hrun no_faults (fst (TablesSync.POST no_faults 200 sample_db_order))
                (snd (TablesSync.POST no_faults 200 sample_db_order))).
    + apply surjective_pairing.
    + reflexivity.
  - apply (Hrow (mkTable 1 5 Free None 10 10)).
    apply Exists_cons_hd. left. reflexivity.
Defined.

(** Against C3 as stated: a table whose only non-Paid order has lost its
    line items (both menu items were deleted, the deletion cascades), and a
    table whose only order has one line of quantity zero (accepted by the
    second create route). The resync makes both tables Occupied and clears
    the customer count instead of setting it to the sum, zero. *)
Lemma resync_clears_count_without_items :
  (let db := snd (MenuById.DELETE no_faults (Some 2)
                    (snd (MenuById.DELETE no_faults (Some 1) sample_db_order))) in
   let db' := snd (TablesSync.POST no_faults 200 db) in
   map o_status (active_orders 1 db) = [Pending] /\
   joined_quantities 1 db = [] /\
   map (fun t => (t_id t, t_status t, t_customer_count t)) (rows (tables db'))
     = [(1, Occupied, None)])
  /\
  (let db := snd (OrdersAlt.POST no_faults 100
                    (OrdersAlt.mkRequest (Some 1) (Some [mkItemReq (Some 1) (Some 0)]))
                    sample_db) in
   let db' := snd (TablesSync.POST no_faults 200 db) in
   map o_status (active_orders 1 db) = [Pending] /\
   joined_quantities 1 db = [0] /\
   map (fun t => (t_id t, t_status t, t_customer_count t)) (rows (tables db'))
     = [(1, Occupied, None)]).
Proof. vm_compute. repeat split. Qed.

(* ================================================================= *)
(** ** Listing the orders of a table ([GET /api/tables/[id]/orders]) *)

Lemma insert_desc_perm o l : Permutation (insert_desc o l) (o :: l).
Proof.
  induction l as [| x r IH]; simpl; [reflexivity |].
  destruct (o_created_at x <=? o_created_at o); [reflexivity |].
  rewrite IH. apply perm_swap.
Qed.

Lemma order_by_created_desc_perm l : Permutation (order_by_created_desc l) l.
Proof.
  induction l as [| x r IH]; simpl; [reflexivity |].
  rewrite insert_desc_perm. now constructor.
Qed.

Lemma insert_desc_sorted o l :
  StronglySorted newer_first l -> StronglySorted newer_first (insert_desc o l).
Proof.
  induction 1 as [| x r Hr IH Hx]; simpl.
  - repeat constructor.
  - destruct (o_created_at x <=? o_created_at o) eqn:E.
    + apply Z.leb_le in E. constructor; [now constructor |].
      constructor; [exact E |].
      eapply Forall_impl; [| exact Hx]. unfold newer_first. intros; lia.
    + apply Z.leb_gt in E. constructor; [exact IH |].
      eapply Permutation_Forall; [symmetry; apply insert_desc_perm |].
      constructor; [unfold newer_first; lia | exact Hx].
Qed.

Lemma order_by_created_desc_sorted l : StronglySorted newer_first (order_by_created_desc l).
Proof.
  induction l as [| x r IH]; simpl; [constructor | now apply insert_desc_sorted].
Qed.

Lemma with_items_no_faults l st :
  TableOrders.with_items l no_faults st =
    (Val (map (fun order => (order, select_item_views_price (o_id (ov_order order)) (st_db st))) l),
     mkSt (st_db st) (List.length l + st_tick st)).
Proof.
  revert st. induction l as [| x r IH]; intro st.
  - destruct st; reflexivity.
  - cbn [TableOrders.with_items]. unfold bind at 1, query at 1, stmt at 1.
    cbn beta iota delta [no_faults st_db st_tick].
    unfold bind at 1. rewrite IH. cbn [st_db st_tick map List.length ret].
    unfold ret. do 2 f_equal. lia.
Qed.

Lemma steady_with_items l : steady (TableOrders.with_items l).
Proof. induction l; simpl; steady_tac. Qed.

Lemma steady_GET_body id : steady (TableOrders.GET_body id).
Proof. unfold TableOrders.GET_body. steady_tac. apply steady_with_items. Qed.

Lemma readonly_with_items l : readonly (TableOrders.with_items l).
Proof.
  unfold readonly. induction l as [| x r IH]; simpl.
  - now apply preserves_ret.
  - apply preserves_bind; [congruence | now apply preserves_query |].
    intro a. apply preserves_bind; [congruence | exact IH |].
    intro b. now apply preserves_ret.
Qed.

Lemma readonly_GET_body id : readonly (TableOrders.GET_body id).
Proof.
  unfold readonly, TableOrders.GET_body. destruct id.
  - apply preserves_bind; [congruence | now apply preserves_query |].
    intro a. apply preserves_bind; [congruence | apply readonly_with_items |].
    intro b. now apply preserves_ret.
  - now apply preserves_reply.
Qed.

Lemma GET_no_faults tableId db :
  TableOrders.GET no_faults (Some tableId) db = (json (OrderListJson (listing tableId db)), db).
Proof.
  unfold TableOrders.GET, handle, TableOrders.GET_body.
  unfold bind at 1, query at 1, stmt at 1. cbn beta iota delta [no_faults st_db st_tick].
  unfold bind. rewrite with_items_no_faults. reflexivity.
Qed.

Lemma item_views_complete db orderId :
  items_have_menu_item db ->
  map (fun v => iv_item (fst v)) (select_item_views_price orderId db) =
    select_where (fun i => oi_order_id i =? orderId) (order_items db).
Proof.
  unfold items_have_menu_item, select_item_views_price, select_where.
  induction (rows (order_items db)) as [| i r IH]; intro H; [reflexivity |].
  inversion H as [| ? ? Hi Hr]; subst. cbn [filter].
  destruct (oi_order_id i =? orderId); [| now apply IH].
  cbn [flat_map]. rewrite map_app, (IH Hr). unfold join_menu_item at 1.
  destruct (select_menu_item (oi_menu_item_id i) db); [reflexivity | congruence].
Qed.

(** C10: the order listing of a table answers with exactly the non-Paid
    orders of that table (every order of the table that is not Paid, once,
    and no Paid order), newest first, each with all of its line items; it
    writes nothing. The completeness of the line items rests on the foreign
    key from line items to menu items, which the store enforces (it holds
    in every reachable store, lemma [reachable_well_formed]): the listing
    joins each line with its menu item. *)
Theorem table_orders_listing tableId db :
  TableOrders.GET no_faults (Some tableId) db = (json (OrderListJson (listing tableId db)), db) /\
  (forall flt resp db',
     TableOrders.GET flt (Some tableId) db = (resp, db') ->
     db' = db /\ (http_status resp = 200 -> resp = json (OrderListJson (listing tableId db)))) /\
  let returned := map (fun p => ov_order (fst p)) (listing tableId db) in
  Permutation returned (active_orders tableId db) /\
  (forall o, In o returned <->
             In o (rows (orders db)) /\ o_table_id o = tableId /\ o_status o <> Paid) /\
  StronglySorted newer_first returned /\
  (items_have_menu_item db ->
   Forall (fun p => map (fun v => iv_item (fst v)) (snd p) =
                    select_where (fun i => oi_order_id i =? o_id (ov_order (fst p)))
                                 (order_items db))
          (listing tableId db)).
Proof.
  assert (R : map (fun p => ov_order (fst p)) (listing tableId db) =
              order_by_created_desc (active_orders tableId db)).
  { unfold listing. rewrite !map_map. cbn [fst ov_order order_view]. apply map_id. }
  split; [apply GET_no_faults |]. split.
  - intros flt resp db' E. split.
    + symmetry. eapply preserves_handle; [apply readonly_GET_body | exact E].
    + intro H2.
      assert (E' : TableOrders.GET no_faults (Some tableId) db = (resp, db')).
      { eapply steady_handle;
          [apply steady_GET_body | intro e; now left | exact E | | ];
          rewrite H2; discriminate. }
      rewrite GET_no_faults in E'. now inversion E'.
  - cbv zeta. rewrite R. split; [apply order_by_created_desc_perm |].
    split; [| split].
    + intro o. rewrite <- active_orders_In. split; apply Permutation_in;
        [| symmetry]; apply order_by_created_desc_perm.
    + apply order_by_created_desc_sorted.
    + intro H. unfold listing. apply Forall_forall. intros p Hp.
      apply in_map_iff in Hp. destruct Hp as (ov & <- & _). cbn [fst snd].
      now apply item_views_complete.
Qed.

Lemma table_orders_listing_witness :
  Forall (fun p => map (fun v => iv_item (fst v)) (snd p) =
                   select_where (fun i => oi_order_id i =? o_id (ov_order (fst p)))
                                (order_items sample_db_order))
         (listing 1 sample_db_order)
  /\ map (fun p => o_id (ov_order (fst p))) (listing 1 sample_db_order) = [1].
Proof.
  split; [| reflexivity].
  apply (table_orders_listing 1 sample_db_order).
  repeat constructor; discriminate.
Defined.

(* ================================================================= *)
(** ** Creating an order ([POST /api/orders]) *)

Section RowFacts.
Context {A : Type} `{Row A}.

Lemma max_rowid_ge (l : list A) x : In x l -> rowid x <= max_rowid l.
Proof.
  induction l as [| y r IH]; simpl; [contradiction |].
  intros [-> | Hx]; [lia | specialize (IH Hx); lia].
Qed.

Lemma next_rowid_fresh (r : Rel A) x : In x (rows r) -> rowid x < next_rowid r.
Proof. intro Hx. apply max_rowid_ge in Hx. unfold next_rowid. lia. Qed.

Lemma has_rowid_true (i : Z) (r : Rel A) :
  has_rowid i r = true <-> exists x, In x (rows r) /\ rowid x = i.
Proof.
  unfold has_rowid. rewrite existsb_exists.
  split; intros (x & Hx & E); exists x; split; auto; now apply Z.eqb_eq.
Qed.

Lemma has_rowid_insert mk (r : Rel A) i :
  (forall k, rowid (mk k) = k) ->
  has_rowid i r = true -> has_rowid i (snd (insert_row mk r)) = true.
Proof.
  intros _ Hi. apply has_rowid_true in Hi. destruct Hi as (x & Hx & E).
  apply has_rowid_true. exists x. split; [| exact E].
  cbn. apply in_or_app. now left.
Qed.

Lemma has_rowid_inserted mk (r : Rel A) :
  (forall k, rowid (mk k) = k) ->
  has_rowid (fst (insert_row mk r)) (snd (insert_row mk r)) = true.
Proof.
  intro Hk. apply has_rowid_true. exists (mk (next_rowid r)). split; [| apply Hk].
  cbn. apply in_or_app. right. now left.
Qed.

Lemma find_fresh_insert mk (r : Rel A) :
  (forall k, rowid (mk k) = k) ->
  find (fun x => rowid x =? next_rowid r) (rows (snd (insert_row mk r)))
    = Some (mk (next_rowid r)).
Proof.
  intro Hk. cbn.
  assert (F : forall l, (forall x, In x l -> rowid x < next_rowid r) ->
                 find (fun x => rowid x =? next_rowid r) (l ++ [mk (next_rowid r)])
                   = Some (mk (next_rowid r))).
  { induction l as [| y l IH]; intro Hl; simpl.
    - now rewrite Hk, Z.eqb_refl.
    - destruct (rowid y =? next_rowid r) eqn:E.
      + apply Z.eqb_eq in E. specialize (Hl y (or_introl eq_refl)). lia.
      + apply IH. intros x Hx. apply Hl. now right. }
  apply F. intros x Hx. now apply next_rowid_fresh.
Qed.
End RowFacts.

Lemma select_has_rowid_menu id db :
  select_menu_item id db <> None -> has_rowid id (menu_items db) = true.
Proof.
  unfold select_menu_item, get_where. intro H.
  destruct (find _ (rows (menu_items db))) as [m |] eqn:F; [| congruence].
  apply find_some in F. apply has_rowid_true. exists m. split; [tauto |].
  now apply Z.eqb_eq.
Qed.

Lemma select_has_rowid_table id db :
  select_table id db <> None -> has_rowid id (tables db) = true.
Proof.
  unfold select_table, get_where. intro H.
  destruct (find _ (rows (tables db))) as [m |] eqn:F; [| congruence].
  apply find_some in F. apply has_rowid_true. exists m. split; [tauto |].
  now apply Z.eqb_eq.
Qed.

Lemma price_items_valid db l :
  Forall (valid_line db) l ->
  forall total acc tick,
    Orders.price_items l total acc no_faults (mkSt db tick) =
      (Val (fold_left PrimFloat.add (map (fun i => subtotal (priced_line db i)) l) total,
            acc ++ map (priced_line db) l),
       mkSt db (List.length l + tick)).
Proof.
  induction 1 as [| item rest Hv _ IH]; intros total acc tick.
  - cbn. now rewrite app_nil_r.
  - destruct Hv as (id & q & Hid & Hid0 & Hq & Hq0 & Hm).
    destruct (select_menu_item id db) as [m |] eqn:Sm; [clear Hm | congruence].
    cbn [Orders.price_items]. rewrite Hid, Hq.
    replace ((id =? 0) || (q =? 0) || (q <=? 0)) with false.
    2:{ symmetry. rewrite !orb_false_iff. repeat split.
        - now apply Z.eqb_neq.
        - apply Z.eqb_neq. lia.
        - apply Z.leb_gt. lia. }
    unfold bind at 1, query at 1, stmt at 1.
    cbn beta iota delta [no_faults st_db st_tick]. rewrite Sm.
    rewrite IH. 
    assert (P : priced_line db item =
                mkLine id (Some q) (mi_price m) (PrimFloat.mul (mi_price m) (number_of_Z q))).
    { unfold priced_line, price_of. now rewrite Hid, Hq, Sm. }
    cbn [map fold_left List.length]. rewrite P. cbn [subtotal].
    rewrite <- app_assoc. cbn [app]. do 2 f_equal. lia.
Qed.

Lemma steady_price_items l : forall total acc, steady (Orders.price_items l total acc).
Proof.
  induction l as [| item rest IH]; intros total acc; cbn [Orders.price_items].
  - apply steady_ret.
  - destruct (item_id item); [| apply steady_reply].
    destruct (item_quantity item); [| apply steady_reply].
    destruct (_ || _); [apply steady_reply |].
    apply steady_bind; [apply steady_stmt |].
    intros [m |]; [apply IH | apply steady_reply].
Qed.

Lemma steady_Orders_POST_body now req : steady (Orders.POST_body now req).
Proof.
  unfold Orders.POST_body, Orders.create.
  destruct (Orders.tableId req); [| apply steady_reply].
  destruct (Orders.items req) as [[| i l] |]; try apply steady_reply.
  destruct (_ =? 0); [apply steady_reply |].
  apply steady_bind; [apply steady_stmt |].
  intros [t |]; [| apply steady_reply].
  apply steady_bind; [apply steady_price_items |].
  intros [total data]. steady_tac.
Qed.

Lemma readonly_price_items l : forall total acc, readonly (Orders.price_items l total acc).
Proof.
  unfold readonly.
  induction l as [| item rest IH]; intros total acc; cbn [Orders.price_items].
  - now apply preserves_ret.
  - destruct (item_id item); [| now apply preserves_reply].
    destruct (item_quantity item); [| now apply preserves_reply].
    destruct (_ || _); [now apply preserves_reply |].
    apply preserves_bind; [congruence | now apply preserves_query |].
    intros [m |]; [apply IH | now apply preserves_reply].
Qed.

Lemma insert_order_item_ok now oid l db :
  has_rowid oid (orders db) = true ->
  quantity l <> None ->
  PrimFloat.is_nan (unitPrice l) = false -> PrimFloat.is_nan (subtotal l) = false ->
  has_rowid (menuItemId l) (menu_items db) = true ->
  insert_order_item now oid l db =
    Done tt (with_order_items (snd (insert_row (line_row now oid l) (order_items db))) db).
Proof.
  intros Ho Hq Hu Hs Hm. unfold insert_order_item, line_row.
  destruct (quantity l) as [q |]; [| congruence].
  rewrite (sql_real_number _ Hu), (sql_real_number _ Hs).
  rewrite Ho, Hm. reflexivity.
Qed.

Lemma insert_items_no_faults now oid lines : forall db tick,
  has_rowid oid (orders db) = true ->
  complete_lines db lines ->
  for_each lines (fun item => stmt (insert_order_item now oid item)) no_faults (mkSt db tick) =
    (Val tt, mkSt (with_order_items (add_lines now oid lines (order_items db)) db)
                  (List.length lines + tick)).
Proof.
  induction lines as [| l rest IH]; intros db tick Ho Hall.
  - destruct db; reflexivity.
  - inversion Hall as [| ? ? (Hq & Hu & Hs & Hm) Hrest]; subst.
    cbn [for_each]. unfold bind at 1, stmt at 1.
    cbn beta iota delta [no_faults st_db st_tick].
    rewrite (insert_order_item_ok now oid l db Ho Hq Hu Hs Hm).
    rewrite IH; [| exact Ho | exact Hrest].
    cbn [List.length]. unfold add_lines. cbn [fold_left order_items with_order_items].
    do 2 f_equal. lia.
Qed.

Lemma add_lines_rows now oid lines : forall r,
  rows (add_lines now oid lines r) = rows r ++ new_rows now oid lines r.
Proof.
  induction lines as [| l rest IH]; intro r.
  - cbn. now rewrite app_nil_r.
  - unfold add_lines in *. cbn [fold_left new_rows insert_row snd].
    rewrite IH. cbn [rows]. now rewrite <- app_assoc.
Qed.

Lemma new_rows_spec now oid lines : forall r,
  Forall2 (fun l row => exists i, row = line_row now oid l i) lines (new_rows now oid lines r).
Proof.
  induction lines as [| l rest IH]; intro r; cbn [new_rows insert_row].
  - constructor.
  - constructor; [eexists; reflexivity | apply IH].
Qed.

Lemma create_no_faults now tableId total staffId lines db tick :
  PrimFloat.is_nan total = false ->
  has_rowid tableId (tables db) = true ->
  staff_ref_ok (or_nullZ staffId) db = true ->
  complete_lines db lines ->
  Orders.create now tableId total staffId lines no_faults (mkSt db tick) =
    (Val (next_rowid (orders db)),
     mkSt (created now tableId total (or_nullZ staffId) lines db)
          (S (List.length lines + S tick))).
Proof.
  intros Hn Ht Hs Hl. unfold Orders.create.
  unfold bind at 1, stmt at 1. cbn beta iota delta [no_faults st_db st_tick].
  unfold insert_order. rewrite (sql_real_number _ Hn), Ht, Hs. cbn [negb insert_row].
  unfold bind at 1. rewrite insert_items_no_faults.
  - reflexivity.
  - apply (has_rowid_inserted (fun i => mkOrder i tableId total Pending (or_nullZ staffId) now now)).
    reflexivity.
  - exact Hl.
Qed.

Lemma priced_lines_complete db items :
  Forall (valid_line db) items ->
  PrimFloat.is_nan (order_total db items) = false ->
  complete_lines db (map (priced_line db) items).
Proof.
  unfold complete_lines, order_total. intros Hv Hn.
  apply fold_add_not_nan in Hn. destruct Hn as [_ Hn].
  induction Hv as [| item rest Hv _ IH]; cbn [map] in *; [constructor |].
  inversion Hn as [| ? ? Hs Hr]; subst. constructor; [| now apply IH].
  destruct Hv as (id & q & Hid & _ & Hq & _ & Hm).
  unfold priced_line in *. rewrite Hid, Hq in *. cbn [quantity unitPrice subtotal menuItemId] in *.
  split; [discriminate |]. split; [now apply mul_not_nan in Hs |].
  split; [exact Hs |]. now apply select_has_rowid_menu.
Qed.

Lemma Orders_POST_no_faults now db req tableId items :
  Orders.tableId req = Some tableId -> tableId <> 0 -> select_table tableId db <> None ->
  Orders.items req = Some items -> items <> [] ->
  Forall (valid_line db) items ->
  staff_ref_ok (or_nullZ (Orders.staffId req)) db = true ->
  PrimFloat.is_nan (order_total db items) = false ->
  let lines := map (priced_line db) items in
  let total := order_total db items in
  let oid := next_rowid (orders db) in
  let db' := created now tableId total (or_nullZ (Orders.staffId req)) lines db in
  Orders.POST no_faults now req db =
    (json_status (OrderJson (select_order_view oid db') (select_item_views oid db')) 201, db').
Proof.
  intros Ht Ht0 Hex Hi Hne Hv Hs Hn. cbv zeta.
  unfold Orders.POST, handle, Orders.POST_body. rewrite Ht, Hi.
  destruct items as [| i0 rest]; [congruence |].
  replace (tableId =? 0) with false by (symmetry; now apply Z.eqb_neq).
  unfold bind at 1, query at 1, stmt at 1. cbn beta iota delta [no_faults st_db st_tick].
  destruct (select_table tableId db) as [t |] eqn:St; [| congruence].
  unfold bind at 1. rewrite (@price_items_valid db _ Hv). cbn [app].
  unfold bind at 1, transaction.
  fold (order_total db (i0 :: rest)).
  rewrite create_no_faults;
    [| exact Hn | apply select_has_rowid_table; now rewrite St | exact Hs
     | now apply priced_lines_complete].
  unfold bind, query, stmt, ret. cbn beta iota delta [no_faults st_db st_tick].
  reflexivity.
Qed.

Lemma join_complete db l :
  Forall (fun i => select_menu_item (oi_menu_item_id i) db <> None) l ->
  map iv_item (flat_map (join_menu_item item_view db) l) = l.
Proof.
  induction 1 as [| i r Hi _ IH]; [reflexivity |].
  cbn [flat_map]. rewrite map_app, IH. unfold join_menu_item.
  destruct (select_menu_item (oi_menu_item_id i) db); [reflexivity | congruence].
Qed.

Lemma new_rows_priced now oid db items : forall r,
  Forall (valid_line db) items ->
  Forall2 (fun item row =>
             oi_order_id row = oid /\
             item_id item = Some (oi_menu_item_id row) /\
             item_quantity item = Some (oi_quantity row) /\
             oi_unit_price row = price_of db (oi_menu_item_id row) /\
             oi_subtotal row =
               PrimFloat.mul (oi_unit_price row) (number_of_Z (oi_quantity row)) /\
             oi_created_at row = now /\
             select_menu_item (oi_menu_item_id row) db <> None)
          items (new_rows now oid (map (priced_line db) items) r).
Proof.
  intros r H. revert r. induction H as [| item rest Hv _ IH]; intro r; cbn [map new_rows insert_row].
  - constructor.
  - constructor; [| apply IH].
    destruct Hv as (id & q & Hid & _ & Hq & _ & Hm).
    unfold line_row, priced_line. rewrite Hid, Hq. cbn. repeat split; assumption.
Qed.

Lemma new_rows_subtotals now oid lines : forall r,
  map oi_subtotal (new_rows now oid lines r) = map subtotal lines.
Proof.
  induction lines as [| l rest IH]; intro r; cbn [new_rows insert_row map]; [reflexivity |].
  now rewrite IH.
Qed.

Lemma old_items_not_selected db oid :
  items_have_order db -> oid = next_rowid (orders db) ->
  filter (fun i => oi_order_id i =? oid) (rows (order_items db)) = [].
Proof.
  unfold items_have_order. intros H ->.
  induction H as [| i r Hi _ IH]; [reflexivity |]. cbn [filter].
  apply has_rowid_true in Hi. destruct Hi as (o & Ho & E).
  apply next_rowid_fresh in Ho. unfold rowid, Row_Order in *.
  replace (oi_order_id i =? next_rowid (orders db)) with false; [exact IH |].
  symmetry. apply Z.eqb_neq.
  change (@rowid Order o_id o) with (o_id o) in *. lia.
Qed.

Lemma filter_all {A} (p : A -> bool) l : Forall (fun x => p x = true) l -> filter p l = l.
Proof. induction 1 as [| x r Hx _ IH]; simpl; [reflexivity |]. now rewrite Hx, IH. Qed.

Lemma same_orders_refl db : same_orders db db.
Proof. now split. Qed.

Lemma same_orders_trans a b c : same_orders a b -> same_orders b c -> same_orders a c.
Proof. unfold same_orders. intros [] []. split; congruence. Qed.

Lemma menu_PUT_same_orders now id req : preserves same_orders (MenuById.PUT_body now id req).
Proof.
  unfold MenuById.PUT_body.
  preserves_tac same_orders_refl same_orders_trans.
  all: now split.
Qed.

Lemma Orders_POST_nan now db req tableId items :
  Orders.tableId req = Some tableId -> tableId <> 0 -> select_table tableId db <> None ->
  Orders.items req = Some items -> items <> [] ->
  Forall (valid_line db) items ->
  PrimFloat.is_nan (order_total db items) = true ->
  Orders.POST no_faults now req db = (error_response "Failed to create order" 500, db).
Proof.
  intros Ht Ht0 Hex Hi Hne Hv Hn.
  unfold Orders.POST, handle, Orders.POST_body. rewrite Ht, Hi.
  destruct items as [| i0 rest]; [congruence |].
  replace (tableId =? 0) with false by (symmetry; now apply Z.eqb_neq).
  unfold bind at 1, query at 1, stmt at 1. cbn beta iota delta [no_faults st_db st_tick].
  destruct (select_table tableId db) as [t |] eqn:St; [| congruence].
  unfold bind at 1. rewrite (@price_items_valid db _ Hv). cbn [app].
  fold (order_total db (i0 :: rest)).
  unfold bind at 1, transaction, Orders.create.
  unfold bind at 1, stmt at 1. cbn beta iota delta [no_faults st_db st_tick].
  unfold insert_order, sql_real. rewrite Hn. reflexivity.
Qed.

(* ================================================================= *)
(** ** Creating an order: rejections and atomicity *)

Lemma price_items_inv l : forall total acc flt st o st',
  Orders.price_items l total acc flt st = (o, st') ->
  st_db st' = st_db st /\
  match o with
  | Val (_, data) => exists lines, data = acc ++ lines /\ lines_of (st_db st) l lines
  | Reply r => http_status r = 400 \/ http_status r = 404
  | Throw e => e = IoError
  end.
Proof.
  induction l as [| item rest IH]; intros total acc flt st o st'; cbn [Orders.price_items].
  - intro E. inversion E. split; [reflexivity |]. exists []. rewrite app_nil_r.
    split; [reflexivity | constructor].
  - destruct (item_id item) as [id |] eqn:Hid;
      [| intro E; inversion E; split; [reflexivity | now left]].
    destruct (item_quantity item) as [q |] eqn:Hq;
      [| intro E; inversion E; split; [reflexivity | now left]].
    destruct (_ || _); [intro E; inversion E; split; [reflexivity | now left] |].
    intro E. apply bind_inv in E.
    destruct E as [(m & st1 & E1 & E2) | [(r & E1 & ->) | (e & E1 & ->)]];
      apply stmt_inv in E1; destruct E1 as [_ E1].
    + destruct E1 as [(_ & D & _) | [(_ & a & F & V) | (_ & e & _ & D & _)]]; try discriminate.
      cbv beta in F. injection F as Fm Fd. injection V as <-.
      destruct m as [m |].
      * apply IH in E2. rewrite <- Fd in E2. destruct E2 as [Hdb Ho].
        split; [exact Hdb |].
        destruct o as [[t data] | r | e]; try exact Ho.
        destruct Ho as (lines & -> & Hl).
        exists (mkLine id (Some q) (mi_price m)
                       (PrimFloat.mul (mi_price m) (number_of_Z q)) :: lines).
        rewrite <- app_assoc. split; [reflexivity |].
        constructor; [| exact Hl]. cbn. rewrite Fm. repeat split; congruence.
      * inversion E2; subst. split; [now symmetry |]. now right.
    + destruct E1 as [(_ & D & _) | [(_ & a & F & V) | (_ & e & _ & D & _)]]; discriminate.
    + destruct E1 as [(_ & D & Hdb) | [(_ & a & F & V) | (_ & e' & F & D & _)]];
        try discriminate.
      split; [exact Hdb | congruence].
Qed.


Lemma insert_order_item_done now oid l db a db' :
  insert_order_item now oid l db = Done a db' ->
  db' = with_order_items (snd (insert_row (line_row now oid l) (order_items db))) db.
Proof.
  unfold insert_order_item, line_row.
  destruct (quantity l); [| discriminate].
  destruct (sql_real (unitPrice l)) as [price |] eqn:Eu; [| discriminate].
  destruct (sql_real (subtotal l)) as [sub |] eqn:Es; [| discriminate].
  apply sql_real_inv in Eu, Es. destruct Eu as [-> _], Es as [-> _].
  destruct (negb _); [discriminate |].
  destruct (negb _); [discriminate |].
  cbn. intro E. injection E as _ <-. reflexivity.
Qed.

Lemma insert_items_val now oid lines : forall flt st v st',
  for_each lines (fun item => stmt (insert_order_item now oid item)) flt st = (Val v, st') ->
  st_db st' = with_order_items (add_lines now oid lines (order_items (st_db st))) (st_db st).
Proof.
  induction lines as [| l rest IH]; intros flt st v st' E.
  - inversion E; subst. destruct (st_db st'); reflexivity.
  - cbn [for_each] in E. apply bind_inv in E.
    destruct E as [(a & st1 & E1 & E2) | [(r & _ & D) | (e & _ & D)]]; try discriminate.
    apply stmt_inv in E1.
    destruct E1 as [_ [(_ & D & _) | [(_ & a' & F & _) | (_ & e & _ & D & _)]]];
      try discriminate.
    apply insert_order_item_done in F. apply IH in E2. rewrite E2, F.
    reflexivity.
Qed.

Lemma insert_order_done now tableId total staffId db a db' :
  insert_order now tableId total staffId db = Done a db' ->
  PrimFloat.is_nan total = false /\ a = next_rowid (orders db) /\
    db' = with_orders (snd (insert_row
                              (fun i => mkOrder i tableId total Pending staffId now now)
                              (orders db))) db.
Proof.
  unfold insert_order. destruct (sql_real total) as [amount |] eqn:Et; [| discriminate].
  apply sql_real_inv in Et. destruct Et as [-> Hn].
  destruct (negb _); [discriminate |].
  destruct (negb _); [discriminate |].
  cbn. intro E. injection E as <- <-. auto.
Qed.

Lemma create_val now tableId total staffId lines flt st oid st' :
  Orders.create now tableId total staffId lines flt st = (Val oid, st') ->
  st_db st' = created now tableId total (or_nullZ staffId) lines (st_db st).
Proof.
  unfold Orders.create. intro E.
  apply bind_inv in E.
  destruct E as [(a & st1 & E1 & E2) | [(r & _ & D) | (e & _ & D)]]; try discriminate.
  apply stmt_inv in E1.
  destruct E1 as [_ [(_ & D & _) | [(_ & a' & F & V) | (_ & e & _ & D & _)]]];
    try discriminate.
  injection V as V. subst a'.
  apply insert_order_done in F. destruct F as (_ & Hid & F). subst a.
  apply bind_inv in E2.
  destruct E2 as [(u & st2 & E2 & E3) | [(r & _ & D) | (e & _ & D)]]; try discriminate.
  apply insert_items_val in E2.
  apply bind_inv in E3.
  destruct E3 as [(u' & st3 & E3 & E4) | [(r & _ & D) | (e & _ & D)]]; try discriminate.
  apply stmt_inv in E3.
  destruct E3 as [_ [(_ & D & _) | [(_ & a' & G & _) | (_ & e & _ & D & _)]]];
    try discriminate.
  cbv beta in G. injection G as _ G. inversion E4; subst st3.
  rewrite <- G, E2, F. reflexivity.
Qed.

Lemma alt_create_val now tableId total lines flt st oid st' :
  OrdersAlt.create now tableId total lines flt st = (Val oid, st') ->
  PrimFloat.is_nan total = false /\
    st_db st' = created now tableId total None lines (st_db st).
Proof.
  unfold OrdersAlt.create. intro E.
  apply bind_inv in E.
  destruct E as [(a & st1 & E1 & E2) | [(r & _ & D) | (e & _ & D)]]; try discriminate.
  apply stmt_inv in E1.
  destruct E1 as [_ [(_ & D & _) | [(_ & a' & F & V) | (_ & e & _ & D & _)]]];
    try discriminate.
  injection V as V. subst a'.
  apply insert_order_done in F. destruct F as (Ha & Hid & F). subst a.
  split; [exact Ha |].
  apply bind_inv in E2.
  destruct E2 as [(u & st2 & E2 & E3) | [(r & _ & D) | (e & _ & D)]]; try discriminate.
  apply insert_items_val in E2.
  apply bind_inv in E3.
  destruct E3 as [(u' & st3 & E3 & E4) | [(r & _ & D) | (e & _ & D)]]; try discriminate.
  apply stmt_inv in E3.
  destruct E3 as [_ [(_ & D & _) | [(_ & a' & G & _) | (_ & e & _ & D & _)]]];
    try discriminate.
  cbv beta in G. injection G as _ G. inversion E4; subst st3.
  rewrite <- G, E2, F. reflexivity.
Qed.

Lemma query_inv {A} (f : Db -> A) flt st o st' :
  query f flt st = (o, st') ->
  st_db st' = st_db st /\ (o = Val (f (st_db st)) \/ o = Throw IoError).
Proof.
  intro E. apply stmt_inv in E.
  destruct E as [_ [(_ & -> & ->) | [(_ & a & F & ->) | (_ & e & F & _)]]].
  - split; auto.
  - cbv beta in F. injection F as <- <-. split; auto.
  - discriminate.
Qed.

Lemma Orders_POST_body_inv now req flt st o st' :
  Orders.POST_body now req flt st = (o, st') ->
  (st_db st' = st_db st /\
   match o with
   | Val _ => False
   | Reply r => http_status r = 400 \/ http_status r = 404
   | Throw _ => True
   end)
  \/ (exists tableId items,
        Orders.tableId req = Some tableId /\ Orders.items req = Some items /\
        fully_created now tableId items (st_db st) (st_db st') /\
        match o with
        | Val r => http_status r = 201
        | Reply _ => False
        | Throw _ => True
        end).
Proof.
  unfold Orders.POST_body.
  destruct (Orders.tableId req) as [tableId |];
    [| intro E; inversion E; left; split; [reflexivity | now left]].
  destruct (Orders.items req) as [[| i0 rest] |];
    try (intro E; inversion E; left; split; [reflexivity | now left]).
  destruct (tableId =? 0); [intro E; inversion E; left; split; [reflexivity | now left] |].
  intro E. apply bind_inv in E.
  destruct E as [(t & st1 & E1 & E2) | [(r & E1 & ->) | (e & E1 & ->)]];
    apply query_inv in E1; destruct E1 as [D1 [V | V]]; try discriminate;
    [| left; split; [exact D1 | exact I]].
  injection V as ->.
  destruct (select_table tableId (st_db st)) as [t |];
    [| inversion E2; subst; left; split; [exact D1 | now right]].
  apply bind_inv in E2.
  destruct E2 as [([total data] & st2 & E2 & E3) | [(r & E2 & ->) | (e & E2 & ->)]];
    apply price_items_inv in E2; destruct E2 as [D2 H2];
    [| left; split; [congruence | exact H2] | left; split; [congruence | exact I]].
  destruct H2 as (lines & Hd & Hl). cbn [app] in Hd. subst data.
  apply bind_inv in E3.
  destruct E3 as [(oid & st3 & E3 & E4) | [(r & E3 & ->) | (e & E3 & ->)]];
    apply transaction_atomic in E3;
    destruct E3 as [(e' & V & D3) | (N & E3)]; try discriminate;
    try (now elim (N e)).
  - (* committed *)
    apply create_val in E3.
    assert (F : fully_created now tableId (i0 :: rest) (st_db st) (st_db st3)).
    { exists total, (or_nullZ (Orders.staffId req)), lines. split; [congruence | congruence]. }
    right. exists tableId, (i0 :: rest). split; [reflexivity |]. split; [reflexivity |].
    apply bind_inv in E4.
    destruct E4 as [(v1 & st4 & E4 & E5) | [(r & E4 & ->) | (e & E4 & ->)]];
      apply query_inv in E4; destruct E4 as [D4 [V | V]]; try discriminate;
      [| split; [congruence | exact I]].
    apply bind_inv in E5.
    destruct E5 as [(v2 & st5 & E5 & E6) | [(r & E5 & ->) | (e & E5 & ->)]];
      apply query_inv in E5; destruct E5 as [D5 [V' | V']]; try discriminate;
      [| split; [congruence | exact I]].
    inversion E6; subst. split; [congruence | reflexivity].
  - (* a reply from inside the transaction cannot happen *)
    exfalso. clear - E3. unfold Orders.create in E3.
    apply bind_inv in E3.
    destruct E3 as [(a & st1 & E1 & E2) | [(r' & E1 & D) | (e & _ & D)]]; try discriminate.
    + apply bind_inv in E2.
      destruct E2 as [(u & st2' & E2 & E3) | [(r' & E2 & D) | (e & _ & D)]]; try discriminate.
      * apply bind_inv in E3.
        destruct E3 as [(u' & st3' & E3 & E4) | [(r' & E3 & D) | (e & _ & D)]];
          try discriminate.
        apply stmt_inv in E3.
        destruct E3 as [_ [(_ & D' & _) | [(_ & a' & _ & D') | (_ & e & _ & D' & _)]]];
          discriminate.
      * clear - E2. revert st1 E2. induction lines as [| l ls IH]; intros st1 E2.
        -- discriminate.
        -- cbn [for_each] in E2. apply bind_inv in E2.
           destruct E2 as [(u & sta & Ea & Eb) | [(r'' & Ea & D) | (e & _ & D)]];
             try discriminate.
           ++ eapply IH; eauto.
           ++ apply stmt_inv in Ea.
              destruct Ea as [_ [(_ & D' & _) | [(_ & a' & _ & D') | (_ & e & _ & D' & _)]]];
                discriminate.
    + apply stmt_inv in E1.
      destruct E1 as [_ [(_ & D' & _) | [(_ & a' & _ & D') | (_ & e & _ & D' & _)]]];
        discriminate.
  - (* rolled back *)
    left. split; [congruence | exact I].
Qed.

Lemma alt_price_items_inv l : forall total acc flt st o st',
  OrdersAlt.price_items l total acc flt st = (o, st') ->
  st_db st' = st_db st /\
  match o with
  | Val (_, data) => exists lines, data = acc ++ lines /\ lines_of (st_db st) l lines
  | Reply r => http_status r = 400
  | Throw e => True
  end.
Proof.
  induction l as [| item rest IH]; intros total acc flt st o st'; cbn [OrdersAlt.price_items].
  - intro E. inversion E. split; [reflexivity |]. exists []. rewrite app_nil_r.
    split; [reflexivity | constructor].
  - destruct (item_id item) as [id |] eqn:Hid;
      [| intro E; inversion E; split; [reflexivity | exact I]].
    intro E. apply bind_inv in E.
    destruct E as [(m & st1 & E1 & E2) | [(r & E1 & ->) | (e & E1 & ->)]];
      apply query_inv in E1; destruct E1 as [D1 [V | V]]; try discriminate;
      [| split; [exact D1 | exact I]].
    injection V as ->.
    destruct (select_menu_item id (st_db st)) as [m |] eqn:Sm.
    + apply IH in E2. rewrite D1 in E2. destruct E2 as [Hdb Ho].
      split; [congruence |].
      destruct o as [[t data] | r | e]; try exact Ho.
      destruct Ho as (lines & -> & Hl).
      eexists (_ :: lines). rewrite <- app_assoc. split; [reflexivity |].
      constructor; [| exact Hl]. cbn. rewrite Sm. repeat split; congruence.
    + inversion E2; subst. split; [exact D1 | reflexivity].
Qed.

Lemma for_each_insert_no_reply now oid lines : forall flt st r st',
  for_each lines (fun item => stmt (insert_order_item now oid item)) flt st <> (Reply r, st').
Proof.
  induction lines as [| l ls IH]; intros flt st r st' E.
  - discriminate.
  - cbn [for_each] in E. apply bind_inv in E.
    destruct E as [(u & sta & Ea & Eb) | [(r'' & Ea & D) | (e & _ & D)]]; try discriminate.
    + eapply IH; eauto.
    + apply stmt_inv in Ea.
      destruct Ea as [_ [(_ & D' & _) | [(_ & a' & _ & D') | (_ & e & _ & D' & _)]]];
        discriminate.
Qed.

Lemma alt_create_no_reply now tableId total lines flt st r st' :
  OrdersAlt.create now tableId total lines flt st <> (Reply r, st').
Proof.
  unfold OrdersAlt.create. intro E3.
  apply bind_inv in E3.
  destruct E3 as [(a & st1 & E1 & E2) | [(r' & E1 & D) | (e & _ & D)]]; try discriminate.
  - apply bind_inv in E2.
    destruct E2 as [(u & st2' & E2 & E3) | [(r' & E2 & D) | (e & _ & D)]]; try discriminate.
    + apply bind_inv in E3.
      destruct E3 as [(u' & st3' & E3 & E4) | [(r' & E3 & D) | (e & _ & D)]];
        try discriminate.
      apply stmt_inv in E3.
      destruct E3 as [_ [(_ & D' & _) | [(_ & a' & _ & D') | (_ & e & _ & D' & _)]]];
        discriminate.
    + now apply for_each_insert_no_reply in E2.
  - apply stmt_inv in E1.
    destruct E1 as [_ [(_ & D' & _) | [(_ & a' & _ & D') | (_ & e & _ & D' & _)]]];
      discriminate.
Qed.

Lemma OrdersAlt_POST_body_inv now req flt st o st' :
  OrdersAlt.POST_body now req flt st = (o, st') ->
  (st_db st' = st_db st /\
   match o with
   | Val _ => False
   | Reply r => http_status r = 400
   | Throw _ => True
   end)
  \/ (exists tableId items,
        OrdersAlt.tableId req = Some tableId /\ OrdersAlt.items req = Some items /\
        fully_created now tableId items (st_db st) (st_db st') /\
        match o with
        | Val r => http_status r = 201
        | Reply _ => False
        | Throw _ => False
        end).
Proof.
  unfold OrdersAlt.POST_body.
  destruct (OrdersAlt.tableId req) as [tableId |];
    [| intro E; inversion E; left; split; reflexivity].
  destruct (OrdersAlt.items req) as [[| i0 rest] |];
    try (intro E; inversion E; left; split; reflexivity).
  destruct (tableId =? 0); [intro E; inversion E; left; split; reflexivity |].
  intro E. apply bind_inv in E.
  destruct E as [([total data] & st2 & E2 & E3) | [(r & E2 & ->) | (e & E2 & ->)]];
    apply alt_price_items_inv in E2; destruct E2 as [D2 H2];
    [| left; split; [congruence | exact H2] | left; split; [congruence | exact I]].
  destruct H2 as (lines & Hd & Hl). cbn [app] in Hd. subst data.
  apply bind_inv in E3.
  destruct E3 as [(oid & st3 & E3 & E4) | [(r & E3 & ->) | (e & E3 & ->)]];
    apply transaction_atomic in E3;
    destruct E3 as [(e' & V & D3) | (N & E3)]; try discriminate;
    try (now elim (N e)).
  - apply alt_create_val in E3. destruct E3 as (_ & E3).
    right. exists tableId, (i0 :: rest). split; [reflexivity |]. split; [reflexivity |].
    inversion E4; subst. split; [| reflexivity].
    exists total, None, lines. split; congruence.
  - now apply alt_create_no_reply in E3.
  - left. split; [congruence | exact I].
Qed.

Lemma lines_of_new_rows now oid db items lines : forall r,
  lines_of db items lines ->
  Forall2 (fun item row => oi_order_id row = oid /\ item_id item = Some (oi_menu_item_id row))
          items (new_rows now oid lines r).
Proof.
  intros r H. revert r. induction H as [| item line items lines (Hid & _) _ IH]; intro r;
    cbn [new_rows insert_row]; constructor; auto.
Qed.

Lemma created_tables now tableId total staffId lines db :
  rows (tables (created now tableId total staffId lines db)) =
    map (fun t => if t_id t =? tableId
                  then mkTable (t_id t) (t_number t) Occupied (t_customer_count t)
                               (t_created_at t) now
                  else t)
        (rows (tables db)).
Proof. reflexivity. Qed.

Lemma fully_created_complete now tableId items db db' :
  fully_created now tableId items db db' ->
  exists order new_items,
    rows (orders db') = rows (orders db) ++ [order] /\
    o_table_id order = tableId /\ o_status order = Pending /\
    rows (order_items db') = rows (order_items db) ++ new_items /\
    Forall2 (fun item row => oi_order_id row = o_id order
                             /\ item_id item = Some (oi_menu_item_id row))
            items new_items /\
    Forall (fun t => t_id t = tableId -> t_status t = Occupied) (rows (tables db')).
Proof.
  intros (total & staffId & lines & Hl & ->).
  exists (mkOrder (next_rowid (orders db)) tableId total Pending staffId now now),
         (new_rows now (next_rowid (orders db)) lines (order_items db)).
  split; [reflexivity |]. split; [reflexivity |]. split; [reflexivity |].
  split; [| split].
  - unfold created. cbn [order_items update_table_status update_tables with_tables
                          with_order_items with_orders]. apply add_lines_rows.
  - eapply lines_of_new_rows; exact Hl.
  - rewrite created_tables. apply Forall_forall. intros t Ht.
    apply in_map_iff in Ht. destruct Ht as (t0 & <- & _).
    destruct (t_id t0 =? tableId) eqn:E; cbn; [reflexivity |].
    apply Z.eqb_neq in E. congruence.
Qed.















Lemma Orders_POST_all_or_nothing now db flt req resp db' :
  Orders.POST flt now req db = (resp, db') ->
  (db' = db /\ http_status resp <> 201)
  \/ exists tableId items,
       Orders.tableId req = Some tableId /\ Orders.items req = Some items /\
       fully_created now tableId items db db' /\
       (http_status resp = 201 \/ http_status resp = 500).
Proof.
  unfold Orders.POST, handle.
  destruct (Orders.POST_body now req flt (mkSt db 0)) as [o st1] eqn:B.
  apply Orders_POST_body_inv in B. cbn [st_db] in B.
  destruct B as [[D Ho] | (t & it & Ht & Hi & F & Ho)].
  - destruct o; intro E; inversion E; subst; left; (split; [reflexivity |]);
      [contradiction | destruct Ho as [-> | ->]; discriminate | discriminate].
  - intro E. right. exists t, it. split; [exact Ht |]. split; [exact Hi |].
    destruct o; inversion E; subst; [| contradiction |]; split; auto.
Qed.

Lemma OrdersAlt_POST_all_or_nothing now db flt req resp db' :
  OrdersAlt.POST flt now req db = (resp, db') ->
  (db' = db /\ http_status resp <> 201)
  \/ exists tableId items,
       OrdersAlt.tableId req = Some tableId /\ OrdersAlt.items req = Some items /\
       fully_created now tableId items db db' /\ http_status resp = 201.
Proof.
  unfold OrdersAlt.POST, handle.
  destruct (OrdersAlt.POST_body now req flt (mkSt db 0)) as [o st1] eqn:B.
  apply OrdersAlt_POST_body_inv in B. cbn [st_db] in B.
  destruct B as [[D Ho] | (t & it & Ht & Hi & F & Ho)].
  - destruct o; intro E; inversion E; subst; left; (split; [reflexivity |]);
      [contradiction | rewrite Ho; discriminate | discriminate].
  - intro E. right. exists t, it. split; [exact Ht |]. split; [exact Hi |].
    destruct o; inversion E; subst; [| contradiction | contradiction]; split; auto.
Qed.




(* ================================================================= *)
(** ** What a request may change in [tables] *)

Lemma same_counts_refl db : same_counts db db.
Proof. reflexivity. Qed.

Lemma same_counts_trans a b c : same_counts a b -> same_counts b c -> same_counts a c.
Proof. unfold same_counts. congruence. Qed.

Lemma preserves_readonly (R : Db -> Db -> Prop) {A} (m : M A) :
  (forall db, R db db) -> readonly m -> preserves R m.
Proof. intros Hr Hm flt st o st' E. rewrite <- (Hm _ _ _ _ E). apply Hr. Qed.

Lemma counts_update_table_status now s id db :
  same_counts db (update_table_status now s id db).
Proof.
  unfold same_counts, customer_counts, update_table_status, update_tables. cbn.
  rewrite map_map. apply map_ext. intro t. now destruct (t_id t =? id).
Qed.

Lemma counts_insert_order now tableId total staffId db a db' :
  insert_order now tableId total staffId db = Done a db' -> same_counts db db'.
Proof. intro E. apply insert_order_done in E. destruct E as (_ & _ & ->). reflexivity. Qed.

Lemma counts_insert_order_item now oid l db a db' :
  insert_order_item now oid l db = Done a db' -> same_counts db db'.
Proof. intro E. apply insert_order_item_done in E. now subst. Qed.

Lemma counts_update_order now s staffId id db a db' :
  update_order now s staffId id db = Done a db' -> same_counts db db'.
Proof. unfold update_order. destruct (_ && _); intro E; inversion E. reflexivity. Qed.

Lemma counts_update_order_status now s id db a db' :
  update_order_status now s id db = Done a db' -> same_counts db db'.
Proof. unfold update_order_status. destruct id; intro E; inversion E; reflexivity. Qed.

Lemma counts_insert_menu_item now n p c i av db a db' :
  insert_menu_item now n p c i av db = Done a db' -> same_counts db db'.
Proof.
  unfold insert_menu_item. destruct (sql_real p); [| discriminate].
  cbn. intro E. inversion E. reflexivity.
Qed.

Lemma counts_insert_staff now n r sh s av db a db' :
  insert_staff now n r sh s av db = Done a db' -> same_counts db db'.
Proof. unfold insert_staff. cbn. intro E. inversion E. reflexivity. Qed.

Create HintDb counts.
#[local] Hint Resolve same_counts_refl counts_update_table_status counts_insert_order
  counts_insert_order_item counts_update_order counts_update_order_status
  counts_insert_menu_item counts_insert_staff : counts.

Ltac counts_tac :=
  preserves_tac same_counts_refl same_counts_trans;
  eauto with counts; try reflexivity.

Lemma alt_readonly_price_items l : forall total acc, readonly (OrdersAlt.price_items l total acc).
Proof.
  unfold readonly.
  induction l as [| item rest IH]; intros total acc; cbn [OrdersAlt.price_items].
  - now apply preserves_ret.
  - destruct (item_id item); [| now apply preserves_throw].
    apply preserves_bind; [congruence | now apply preserves_query |].
    intros [m |]; [apply IH | now apply preserves_reply].
Qed.

Lemma counts_Orders_POST now req : preserves same_counts (Orders.POST_body now req).
Proof.
  unfold Orders.POST_body, Orders.create.
  destruct (Orders.tableId req); [| counts_tac].
  destruct (Orders.items req) as [[| i l] |]; try solve [counts_tac].
  destruct (_ =? 0); [counts_tac |].
  apply preserves_bind; [exact same_counts_trans | counts_tac |].
  intros [t |]; [| counts_tac].
  apply preserves_bind;
    [exact same_counts_trans
    | apply preserves_readonly; [exact same_counts_refl | apply readonly_price_items] |].
  intros [total data]. counts_tac.
Qed.

Lemma counts_OrdersAlt_POST now req : preserves same_counts (OrdersAlt.POST_body now req).
Proof.
  unfold OrdersAlt.POST_body, OrdersAlt.create.
  destruct (OrdersAlt.tableId req); [| counts_tac].
  destruct (OrdersAlt.items req) as [[| i l] |]; try solve [counts_tac].
  destruct (_ =? 0); [counts_tac |].
  apply preserves_bind;
    [exact same_counts_trans
    | apply preserves_readonly; [exact same_counts_refl | apply alt_readonly_price_items] |].
  intros [total data]. counts_tac.
Qed.

Lemma counts_OrderById_PUT now id req : preserves same_counts (OrderById.PUT_body now id req).
Proof.
  unfold OrderById.PUT_body, OrderById.update, OrderById.table_status_for. counts_tac.
Qed.

Lemma counts_PATCH columns now id status :
  preserves same_counts (OrderStatusRoute.PATCH_body columns now id status).
Proof.
  unfold OrderStatusRoute.PATCH_body, OrderStatusRoute.free_table_when_paid. counts_tac.
Qed.

Lemma counts_Menu_POST now req : preserves same_counts (Menu.POST_body now req).
Proof. unfold Menu.POST_body. counts_tac. Qed.

Lemma counts_MenuById_PUT now id req : preserves same_counts (MenuById.PUT_body now id req).
Proof. unfold MenuById.PUT_body. counts_tac. Qed.

Lemma counts_MenuById_DELETE id : preserves same_counts (MenuById.DELETE_body id).
Proof. unfold MenuById.DELETE_body. counts_tac. Qed.

Lemma counts_Staff_POST now req : preserves same_counts (StaffRoute.POST_body now req).
Proof. unfold StaffRoute.POST_body. counts_tac. Qed.

Lemma counts_StaffById_PUT now id req : preserves same_counts (StaffById.PUT_body now id req).
Proof. unfold StaffById.PUT_body. counts_tac. Qed.

Lemma counts_StaffById_DELETE now id : preserves same_counts (StaffById.DELETE_body now id).
Proof. unfold StaffById.DELETE_body. counts_tac. Qed.

Lemma same_counts_untouched db db' : same_counts db db' -> counts_untouched db db'.
Proof. unfold same_counts, counts_untouched. intros -> id c H _. exact H. Qed.

Lemma insert_table_untouched now number status c db a db' :
  insert_table now number status c db = Done a db' -> counts_untouched db db'.
Proof.
  unfold insert_table. destruct (TableStatus_of_string status) as [s |]; [| discriminate].
  destruct (existsb _ _); [discriminate |]. cbn. intro E. injection E as _ <-.
  unfold counts_untouched, customer_counts. cbn. intros id c' Hin Hex.
  rewrite map_app in Hin. apply in_app_or in Hin. destruct Hin as [Hin | [Hin | []]];
    [exact Hin |].
  injection Hin as <- _. apply has_rowid_true in Hex. destruct Hex as (t & Ht & E).
  apply next_rowid_fresh in Ht. unfold rowid, Row_Table in *.
  change (@rowid Table t_id t) with (t_id t) in *. lia.
Qed.

Lemma Tables_POST_untouched flt now req db resp db' :
  Tables.POST flt now req db = (resp, db') -> counts_untouched db db'.
Proof.
  unfold Tables.POST, handle, Tables.POST_body.
  destruct (negb _).
  - intro E. inversion E. now apply same_counts_untouched.
  - destruct (bind _ _ flt (mkSt db 0)) as [o st1] eqn:B. intro E.
    assert (D : db' = st_db st1) by (destruct o; inversion E; reflexivity). subst db'.
    clear E. apply bind_inv in B.
    destruct B as [(a & st2 & E1 & E2) | [(r & E1 & _) | (e & E1 & _)]];
      apply stmt_inv in E1;
      destruct E1 as [_ [(_ & V0 & D1) | [(_ & a' & F & V) | (_ & e' & _ & V1 & D1)]]];
      try discriminate V; try discriminate V0; try discriminate V1;
      try (cbn [st_db] in D1; rewrite D1; now apply same_counts_untouched).
    apply insert_table_untouched in F. cbn [st_db] in F.
    apply bind_inv in E2.
    destruct E2 as [(v & st3 & E2 & E3) | [(r & E2 & _) | (e & E2 & _)]];
      apply query_inv in E2; destruct E2 as [D2 _];
      [| rewrite D2; exact F | rewrite D2; exact F].
    inversion E3; subst. rewrite D2. exact F.
Qed.

Lemma counts_shrink_refl db : counts_shrink db db.
Proof. apply incl_refl. Qed.

Lemma counts_shrink_trans a b c : counts_shrink a b -> counts_shrink b c -> counts_shrink a c.
Proof. unfold counts_shrink. intros H1 H2. eapply incl_tran; eauto. Qed.

Lemma TableById_DELETE_shrink id : preserves counts_shrink (TableById.DELETE_body id).
Proof.
  unfold TableById.DELETE_body.
  preserves_tac counts_shrink_refl counts_shrink_trans.
  unfold counts_shrink, customer_counts, delete_table. cbn.
  intros p Hp. apply in_map_iff in Hp. destruct Hp as (t' & <- & Ht).
  apply filter_In in Ht.
  apply (in_map (fun x => (t_id x, t_customer_count x))). tauto.
Qed.

Lemma run_counts_untouched flt now op db resp db' :
  writes_customer_count op = false ->
  run flt now op db = (resp, db') -> counts_untouched db db'.
Proof.
  destruct op; cbn [writes_customer_count run]; try discriminate; intros _ E.
  - apply same_counts_untouched.
    exact (@preserves_handle same_counts _ _ _ _ _ _ (counts_Orders_POST now req) E).
  - apply same_counts_untouched.
    exact (@preserves_handle same_counts _ _ _ _ _ _ (counts_OrdersAlt_POST now req) E).
  - apply same_counts_untouched.
    exact (@preserves_handle same_counts _ _ _ _ _ _ (counts_OrderById_PUT now id req) E).
  - apply same_counts_untouched.
    exact (@preserves_handle same_counts _ _ _ _ _ _ (counts_PATCH orders_columns now id status) E).
  - apply same_counts_untouched. unfold same_counts.
    now rewrite (@preserves_handle eq _ _ _ _ _ _ (readonly_GET_body id) E).
  - now apply Tables_POST_untouched in E.
  - pose proof (@preserves_handle counts_shrink _ _ _ _ _ _ (TableById_DELETE_shrink id) E) as S.
    intros i c Hin _. now apply S.
  - apply same_counts_untouched.
    exact (@preserves_handle same_counts _ _ _ _ _ _ (counts_Menu_POST now req) E).
  - apply same_counts_untouched.
    exact (@preserves_handle same_counts _ _ _ _ _ _ (counts_MenuById_PUT now id req) E).
  - apply same_counts_untouched.
    exact (@preserves_handle same_counts _ _ _ _ _ _ (counts_MenuById_DELETE id) E).
  - apply same_counts_untouched.
    exact (@preserves_handle same_counts _ _ _ _ _ _ (counts_Staff_POST now req) E).
  - apply same_counts_untouched.
    exact (@preserves_handle same_counts _ _ _ _ _ _ (counts_StaffById_PUT now id req) E).
  - apply same_counts_untouched.
    exact (@preserves_handle same_counts _ _ _ _ _ _ (counts_StaffById_DELETE now id) E).
Qed.

Lemma Orders_POST_tables flt now req db resp db' :
  Orders.POST flt now req db = (resp, db') -> http_status resp = 201 ->
  exists tableId, Orders.tableId req = Some tableId /\
    rows (tables db') = map (occupy now tableId) (rows (tables db)).
Proof.
  intros E H. apply Orders_POST_all_or_nothing in E.
  destruct E as [[_ N] | (t & it & Ht & _ & (total & sid & lines & _ & ->) & _)];
    [contradiction |].
  exists t. split; [exact Ht | apply created_tables].
Qed.

Lemma OrdersAlt_POST_tables flt now req db resp db' :
  OrdersAlt.POST flt now req db = (resp, db') -> http_status resp = 201 ->
  exists tableId, OrdersAlt.tableId req = Some tableId /\
    rows (tables db') = map (occupy now tableId) (rows (tables db)).
Proof.
  intros E H. apply OrdersAlt_POST_all_or_nothing in E.
  destruct E as [[_ N] | (t & it & Ht & _ & (total & sid & lines & _ & ->) & _)];
    [contradiction |].
  exists t. split; [exact Ht | apply created_tables].
Qed.

(** C9, as the code has it: a successful order creation, on either route,
    rewrites the rows of the owning table and no other row of [tables]: the
    status becomes Occupied whatever it was, the number, the customer count
    and the creation time stay, and [updated_at] becomes the time of the
    request (the update trigger). And no request other than the bulk
    resync, the cancellation of an order and the direct table update
    changes the customer count of a table the store already has (creating
    a table adds a row with its initial count, deleting one removes it). *)
Theorem create_order_table_frame now db :
  (forall flt req resp db',
     Orders.POST flt now req db = (resp, db') -> http_status resp = 201 ->
     exists tableId, Orders.tableId req = Some tableId /\
       rows (tables db') = map (occupy now tableId) (rows (tables db))) /\
  (forall flt req resp db',
     OrdersAlt.POST flt now req db = (resp, db') -> http_status resp = 201 ->
     exists tableId, OrdersAlt.tableId req = Some tableId /\
       rows (tables db') = map (occupy now tableId) (rows (tables db))) /\
  (forall tableId t,
     let t' := occupy now tableId t in
     t_id t' = t_id t /\ t_number t' = t_number t /\
     t_customer_count t' = t_customer_count t /\ t_created_at t' = t_created_at t /\
     (t_id t = tableId -> t_status t' = Occupied /\ t_updated_at t' = now) /\
     (t_id t <> tableId -> t' = t)) /\
  (forall flt op resp db',
     writes_customer_count op = false ->
     run flt now op db = (resp, db') -> counts_untouched db db').
Proof.
  split; [intros; eapply Orders_POST_tables; eauto |].
  split; [intros; eapply OrdersAlt_POST_tables; eauto |].
  split.
  - intros tableId t. cbv zeta. unfold occupy.
    destruct (t_id t =? tableId) eqn:E; cbn.
    + apply Z.eqb_eq in E. repeat split; congruence.
    + apply Z.eqb_neq in E. repeat split; congruence.
  - intros. eapply run_counts_untouched; eauto.
Qed.

Lemma create_order_table_frame_witness :
  rows (tables sample_db_order) = map (occupy 100 1) (rows (tables sample_db)).
Proof.
  destruct (create_order_table_frame 100 sample_db) as (Hpost & _).
  destruct (Hpost no_faults sample_request
                  (fst (Orders.POST no_faults 100 sample_request sample_db))
                  sample_db_order) as (tableId & Ht & Hrows).
  - apply surjective_pairing.
  - reflexivity.
  - injection Ht as <-. exact Hrows.
Defined.

(** Against C9 as stated: the creation of an order at time 100 succeeds and
    changes another field of the table, [updated_at], from 10 to 100. *)
Lemma create_order_touches_updated_at :
  http_status (fst (Orders.POST no_faults 100 sample_request sample_db)) = 201 /\
  map t_updated_at (rows (tables sample_db)) = [10] /\
  map t_updated_at (rows (tables (snd (Orders.POST no_faults 100 sample_request sample_db))))
    = [100].
Proof. repeat split. Qed.

(* ================================================================= *)
(** ** Updating an order ([PUT /api/orders/[id]], [PATCH /api/orders/[id]/status]) *)

Lemma other_active_update tableId oid (f : Order -> Order) db db1 :
  (forall o, o_id (f o) = o_id o) ->
  rows (orders db1) = map (fun o => if o_id o =? oid then f o else o) (rows (orders db)) ->
  other_active tableId oid db1 = other_active tableId oid db.
Proof.
  intros Hf Hr. unfold other_active, active_orders, select_where. rewrite Hr. clear Hr.
  induction (rows (orders db)) as [| o r IH]; [reflexivity |].
  cbn [map filter]. destruct (o_id o =? oid) eqn:E.
  - destruct ((o_table_id (f o) =? tableId) && is_active (f o));
      destruct ((o_table_id o =? tableId) && is_active o); cbn [filter];
      rewrite ?Hf, ?E; cbn [negb]; exact IH.
  - destruct ((o_table_id o =? tableId) && is_active o); cbn [filter]; rewrite ?E, IH;
      reflexivity.
Qed.

Lemma update_order_done now s staffId id db a db' :
  update_order now s staffId id db = Done a db' ->
  db' = with_orders (update_where (fun o => o_id o =? id)
                                  (update_order_row now s staffId) (orders db)) db.
Proof.
  unfold update_order. destruct (_ && _); [discriminate |]. intro E. now injection E as _ <-.
Qed.

Lemma table_status_for_inv s tableId oid flt st o st' :
  OrderById.table_status_for s tableId oid flt st = (o, st') ->
  st_db st' = st_db st /\
  (o = Val (table_status_after s (other_active tableId oid (st_db st))) \/ o = Throw IoError).
Proof.
  destruct s; cbn [OrderById.table_status_for table_status_after];
    try solve [intro E; inversion E; split; auto].
  intro E. apply bind_inv in E.
  destruct E as [(c & st1 & E1 & E2) | [(r & E1 & ->) | (e & E1 & ->)]];
    apply query_inv in E1; destruct E1 as [D [V | V]]; try discriminate.
  - injection V as ->. inversion E2; subst. split; [exact D |]. left. f_equal.
    unfold count_other_active. fold (other_active tableId oid (st_db st)).
    now destruct (other_active tableId oid (st_db st)).
  - split; [exact D |]. right. congruence.
Qed.

Lemma update_inv now oid s staffId tableId flt st o st' :
  OrderById.update now oid s staffId tableId flt st = (o, st') ->
  (o = Val tt /\ st_db st' = updated now oid s (or_nullZ staffId) tableId (st_db st))
  \/ exists e, o = Throw e.
Proof.
  unfold OrderById.update. intro E. apply bind_inv in E.
  destruct E as [(u & st1 & E1 & E2) | [(r & E1 & ->) | (e & E1 & ->)]];
    apply stmt_inv in E1;
    destruct E1 as [_ [(_ & V0 & D1) | [(_ & a' & F & V) | (_ & e' & _ & V1 & D1)]]];
    try discriminate V; try discriminate V0; try discriminate V1;
    try (right; eexists; reflexivity).
  apply update_order_done in F.
  destruct s as [s |].
  - apply bind_inv in E2.
    destruct E2 as [(ts & st2 & E2 & E3) | [(r & E2 & ->) | (e & E2 & ->)]];
      apply table_status_for_inv in E2; destruct E2 as [D2 [V2 | V2]]; try discriminate;
      try (right; eexists; reflexivity).
    injection V2 as ->.
    apply stmt_inv in E3.
    destruct E3 as [_ [(_ & -> & _) | [(_ & a'' & G & ->) | (_ & e' & _ & -> & _)]]];
      try (right; eexists; reflexivity).
    left. cbv beta in G. injection G as <- G. split; [reflexivity |].
    rewrite <- G, D2. unfold updated. rewrite <- F.
    rewrite (@other_active_update tableId oid (update_order_row now (Some s) (or_nullZ staffId))
               (st_db st) (st_db st1)); [reflexivity | reflexivity | now rewrite F].
  - inversion E2; subst. left. destruct u. split; [reflexivity |]. exact F.
Qed.

Lemma PUT_tail_inv now oid s staffId tableId flt st o st' :
  (transaction (OrderById.update now oid s staffId tableId) ;;;
   updatedOrder <- query (select_order_view oid) ;;
   items <- query (select_item_views oid) ;;
   ret (json (OrderJson updatedOrder items)))%handler flt st = (o, st') ->
  (st_db st' = st_db st /\ exists e, o = Throw e)
  \/ (st_db st' = updated now oid s (or_nullZ staffId) tableId (st_db st) /\
      ((exists e, o = Throw e) \/
       o = Val (json (OrderJson (select_order_view oid (st_db st'))
                                (select_item_views oid (st_db st')))))).
Proof.
  intro E. apply bind_inv in E.
  destruct E as [(u & st1 & E1 & E2) | [(r & E1 & ->) | (e & E1 & ->)]];
    apply transaction_atomic in E1;
    destruct E1 as [(e' & V & D1) | (N & E1)]; try discriminate V.
  - apply update_inv in E1. destruct E1 as [[_ D1] | (e & V)]; [| discriminate].
    right. apply bind_inv in E2.
    destruct E2 as [(v1 & st2 & E2 & E3) | [(r & E2 & ->) | (e & E2 & ->)]];
      apply query_inv in E2; destruct E2 as [D2 [V | V]]; try discriminate;
      [| split; [congruence | left; eexists; reflexivity]].
    injection V as ->.
    apply bind_inv in E3.
    destruct E3 as [(v2 & st3 & E3 & E4) | [(r & E3 & ->) | (e & E3 & ->)]];
      apply query_inv in E3; destruct E3 as [D3 [V | V]]; try discriminate;
      [| split; [congruence | left; eexists; reflexivity]].
    injection V as ->. inversion E4; subst.
    split; [congruence |]. right. now rewrite D3, D2.
  - apply update_inv in E1. destruct E1 as [[V _] | (e & V)]; discriminate.
  - left. split; [exact D1 | eexists; reflexivity].
  - now elim (N e).
Qed.

Lemma PUT_all_or_nothing flt now id req db resp db' :
  OrderById.PUT flt now id req db = (resp, db') ->
  (db' = db /\ http_status resp <> 200)
  \/ exists oid existing,
       id = Some oid /\ select_order oid db = Some existing /\
       (or_nullS (OrderById.status req) <> None -> requested_status req <> None) /\
       db' = updated now oid (requested_status req) (or_nullZ (OrderById.staffId req))
                     (o_table_id existing) db /\
       (http_status resp = 500 \/
        resp = json (OrderJson (select_order_view oid db') (select_item_views oid db'))).
Proof.
  unfold OrderById.PUT, handle, OrderById.PUT_body, requested_status.
  destruct id as [oid |]; [| intro E; inversion E; left; split; [reflexivity | discriminate]].
  destruct (or_nullS (OrderById.status req)) as [given |] eqn:G.
  - destruct (OrderStatus_of_string given) as [s |] eqn:P;
      [| intro E; inversion E; left; split; [reflexivity | discriminate]].
    destruct (bind _ _ flt (mkSt db 0)) as [o st1] eqn:B. intro E.
    apply bind_inv in B.
    destruct B as [(ex & st2 & E1 & E2) | [(r & E1 & ->) | (e & E1 & ->)]];
      apply query_inv in E1; destruct E1 as [D1 [V | V]]; try discriminate;
      [| inversion E; subst; left; split; [first [assumption | reflexivity | congruence] | discriminate]].
    injection V as ->. cbn [st_db] in *.
    destruct (select_order oid db) as [existing |] eqn:S;
      [| inversion E2; subst; inversion E; subst; left; split; [first [assumption | reflexivity | congruence] | discriminate]].
    apply PUT_tail_inv in E2. rewrite D1 in E2.
    destruct E2 as [[D2 (e & ->)] | [D2 [(e & ->) | ->]]]; inversion E; subst.
    + left. split; [first [assumption | reflexivity | congruence] | discriminate].
    + right. exists oid, existing. repeat split; try congruence. now left.
    + right. exists oid, existing. repeat split; try congruence. now right.
  - destruct (bind _ _ flt (mkSt db 0)) as [o st1] eqn:B. intro E.
    apply bind_inv in B.
    destruct B as [(ex & st2 & E1 & E2) | [(r & E1 & ->) | (e & E1 & ->)]];
      apply query_inv in E1; destruct E1 as [D1 [V | V]]; try discriminate;
      [| inversion E; subst; left; split; [first [assumption | reflexivity | congruence] | discriminate]].
    injection V as ->. cbn [st_db] in *.
    destruct (select_order oid db) as [existing |] eqn:S;
      [| inversion E2; subst; inversion E; subst; left; split; [first [assumption | reflexivity | congruence] | discriminate]].
    apply PUT_tail_inv in E2. rewrite D1 in E2.
    destruct E2 as [[D2 (e & ->)] | [D2 [(e & ->) | ->]]]; inversion E; subst.
    + left. split; [first [assumption | reflexivity | congruence] | discriminate].
    + right. exists oid, existing. repeat split; try congruence. now left.
    + right. exists oid, existing. repeat split; try congruence. now right.
Qed.



(** *** The PATCH handler *)

Lemma PATCH_store_columns flt now id status db :
  OrderStatusRoute.PATCH orders_columns flt now id status db =
    (match or_nullS status with
     | None => error_response "Status is required" 400
     | Some given =>
         match OrderStatus_of_string given with
         | None => error_response "Invalid status" 400
         | Some _ => error_response "Failed to update order status" 500
         end
     end, db).
Proof.
  unfold OrderStatusRoute.PATCH, handle, OrderStatusRoute.PATCH_body.
  destruct (or_nullS status) as [given |]; [| reflexivity].
  destruct (OrderStatus_of_string given); reflexivity.
Qed.






Lemma updated_orders now oid s staffId tableId db :
  rows (orders (updated now oid s staffId tableId db)) =
    map (fun o => if o_id o =? oid then update_order_row now s staffId o else o)
        (rows (orders db)).
Proof. unfold updated. destruct s; reflexivity. Qed.

Lemma updated_tables now oid s staffId tableId db :
  rows (tables (updated now oid (Some s) staffId tableId db)) =
    map (fun t => if t_id t =? tableId
                  then mkTable (t_id t) (t_number t)
                               (table_status_after s (other_active tableId oid db))
                               (t_customer_count t) (t_created_at t) now
                  else t)
        (rows (tables db)).
Proof. reflexivity. Qed.

Lemma updated_frame now oid s staffId tableId db :
  menu_items (updated now oid s staffId tableId db) = menu_items db /\
  staff (updated now oid s staffId tableId db) = staff db /\
  order_items (updated now oid s staffId tableId db) = order_items db.
Proof. unfold updated. destruct s; repeat split. Qed.


(** C6: an order update through [PUT /api/orders/[id]] is all or nothing
    under every store failure: the store afterwards is the store before, or
    it has the order row written and, when the request gave a status, the
    table row written with the status derived from it. A failure at the
    n-th statement leaves what a reader would see at that moment, so the
    order is never seen with its new status and the table without its own.
    [PATCH /api/orders/[id]/status] changes no order at all in this store:
    its statements name columns that [orders] does not have, and it answers
    400 or 500 with the store unchanged. *)
Theorem status_update_atomic flt now db :
  (forall id req resp db',
     OrderById.PUT flt now id req db = (resp, db') ->
     db' = db \/
     exists oid existing,
       id = Some oid /\ select_order oid db = Some existing /\
       rows (orders db') =
         map (fun o => if o_id o =? oid
                       then update_order_row now (requested_status req)
                                             (or_nullZ (OrderById.staffId req)) o
                       else o) (rows (orders db)) /\
       (forall s, requested_status req = Some s ->
          rows (tables db') =
            map (fun t => if t_id t =? o_table_id existing
                          then mkTable (t_id t) (t_number t)
                                 (table_status_after s
                                    (other_active (o_table_id existing) oid db))
                                 (t_customer_count t) (t_created_at t) now
                          else t)
                (rows (tables db)))) /\
  (forall id status resp db',
     OrderStatusRoute.PATCH orders_columns flt now id status db = (resp, db') ->
     db' = db).
Proof.
  split.
  - intros id req resp db' E. apply PUT_all_or_nothing in E.
    destruct E as [[-> _] | (oid & ex & Hid & S & _ & D & _)]; [now left | right].
    exists oid, ex. split; [exact Hid |]. split; [exact S |]. subst db'.
    split; [apply updated_orders |].
    intros s R. rewrite R. apply updated_tables.
  - intros id status resp db' E. rewrite PATCH_store_columns in E. now injection E as _ <-.
Qed.



Lemma status_update_atomic_witness :
  let r := OrderById.PUT (fun n => Nat.eqb n 2) 300 (Some 1)
             (OrderById.mkRequest (Some "Ready") None) sample_db_order in
  snd r = sample_db_order.
Proof.
  cbv zeta.
  destruct (status_update_atomic (fun n => Nat.eqb n 2) 300 sample_db_order) as (Hput & _).
  destruct (Hput (Some 1) (OrderById.mkRequest (Some "Ready") None)
                 (fst (OrderById.PUT (fun n => Nat.eqb n 2) 300 (Some 1)
                         (OrderById.mkRequest (Some "Ready") None) sample_db_order))
                 (snd (OrderById.PUT (fun n => Nat.eqb n 2) 300 (Some 1)
                         (OrderById.mkRequest (Some "Ready") None) sample_db_order))
                 (surjective_pairing _))
    as [E | (oid & ex & _ & _ & _ & Ht)].
  - exact E.
  - reflexivity.
Defined.

(** Were the column names of the PATCH handler those of the store, a store
    failure at its table update would leave the order Paid and the table
    as it was: the handler has no transaction. *)
Lemma patch_without_transaction :
  let r := OrderStatusRoute.PATCH camel_columns (fun n => Nat.eqb n 3) 300 (Some 1)
             (Some "Paid") sample_db_order in
  http_status (fst r) = 500 /\
  map o_status (rows (orders (snd r))) = [Paid] /\
  map t_status (rows (tables (snd r))) = [Occupied].
Proof. vm_compute. repeat split. Qed.

(* ================================================================= *)
(** ** Table status and the non-Paid orders *)

Lemma expected_status_cooking active o :
  In o active -> cooking o = true -> expected_status active = Occupied.
Proof.
  intros Hin Hc. destruct active as [| x r]; [contradiction |].
  unfold expected_status. replace (existsb cooking (x :: r)) with true; [reflexivity |].
  symmetry. apply existsb_exists. now exists o.
Qed.

Lemma sync_consistent flt now db resp db' :
  TablesSync.POST flt now db = (resp, db') -> http_status resp = 200 ->
  Forall (consistent db') (rows (tables db')).
Proof.
  intros E H. destruct (sync_success flt now db E H) as (Hr & _ & _ & Ho & _).
  rewrite Hr. apply Forall_forall. intros t Ht. apply in_map_iff in Ht.
  destruct Ht as (t0 & <- & _). unfold consistent, synced. cbn [t_status t_id].
  rewrite derived_status_eq. unfold expected_status.
  now rewrite (active_orders_frame (t_id t0) db' db Ho).
Qed.

Lemma created_consistent now tableId items db db' :
  fully_created now tableId items db db' ->
  Forall (fun t => t_id t = tableId -> t_status t = Occupied /\ consistent db' t)
         (rows (tables db')).
Proof.
  intro F. apply fully_created_complete in F.
  destruct F as (order & new_items & Ro & Ht & Hs & _ & _ & Hocc).
  eapply Forall_impl; [| exact Hocc]. intros t Hst Hid. specialize (Hst Hid).
  split; [exact Hst |]. unfold consistent. rewrite Hst. symmetry.
  apply (expected_status_cooking (active_orders (t_id t) db') order).
  - apply active_orders_In. rewrite Ro. split; [apply in_or_app; right; now left |].
    split; [congruence | rewrite Hs; discriminate].
  - unfold cooking. now rewrite Hs.
Qed.

(** C1, as the code has it. After a bulk resync that succeeds, the stored
    status of every table is the one derived from its non-Paid orders.
    After a successful order creation the owning table is Occupied, which
    is the derived status (the new order is Pending). After a successful
    order update that gives a status, the owning table has the status the
    update derives from the new status of that one order: Occupied for
    Pending or Preparing, Serving for Ready or Served, and for Paid
    Billing when no other non-Paid order of the table remains, Occupied
    otherwise. After a successful cancellation the owning table is Free,
    the derived status, when no non-Paid order remains, and [tables] is
    left as it was otherwise. *)
Theorem table_status_after_operations now db :
  (forall flt resp db',
     TablesSync.POST flt now db = (resp, db') -> http_status resp = 200 ->
     Forall (consistent db') (rows (tables db'))) /\
  (forall flt req resp db',
     Orders.POST flt now req db = (resp, db') -> http_status resp = 201 ->
     exists tableId, Orders.tableId req = Some tableId /\
       Forall (fun t => t_id t = tableId -> t_status t = Occupied /\ consistent db' t)
              (rows (tables db'))) /\
  (forall flt req resp db',
     OrdersAlt.POST flt now req db = (resp, db') -> http_status resp = 201 ->
     exists tableId, OrdersAlt.tableId req = Some tableId /\
       Forall (fun t => t_id t = tableId -> t_status t = Occupied /\ consistent db' t)
              (rows (tables db'))) /\
  (forall flt oid existing req s resp db',
     select_order oid db = Some existing -> requested_status req = Some s ->
     OrderById.PUT flt now (Some oid) req db = (resp, db') -> http_status resp = 200 ->
     Forall (fun t => t_id t = o_table_id existing ->
                      t_status t =
                        match s with
                        | Pending | Preparing => Occupied
                        | Ready | Served => Serving
                        | Paid => match other_active (o_table_id existing) oid db with
                                  | [] => Billing
                                  | _ :: _ => Occupied
                                  end
                        end)
            (rows (tables db'))) /\
  (forall flt oid existing resp db',
     select_order oid db = Some existing -> o_status existing = Pending ->
     OrderById.DELETE flt now (Some oid) db = (resp, db') -> http_status resp = 200 ->
     (active_orders (o_table_id existing) db' = [] ->
        Forall (fun t => t_id t = o_table_id existing -> t_status t = Free /\ consistent db' t)
               (rows (tables db'))) /\
     (active_orders (o_table_id existing) db' <> [] -> tables db' = tables db)).
Proof.
  split; [intros; eapply sync_consistent; eauto |].
  split; [| split; [| split]].
  - intros flt req resp db' E H. apply Orders_POST_all_or_nothing in E.
    destruct E as [[_ N] | (t & it & Ht & _ & F & _)]; [contradiction |].
    exists t. split; [exact Ht | eapply created_consistent; exact F].
  - intros flt req resp db' E H. apply OrdersAlt_POST_all_or_nothing in E.
    destruct E as [[_ N] | (t & it & Ht & _ & F & _)]; [contradiction |].
    exists t. split; [exact Ht | eapply created_consistent; exact F].
  - intros flt oid existing req s resp db' S R E H.
    apply PUT_all_or_nothing in E.
    destruct E as [[_ N] | (oid' & ex' & Hid & S' & _ & D & _)]; [contradiction |].
    injection Hid as <-. rewrite S in S'. injection S' as <-. rewrite R in D. subst db'.
    rewrite updated_tables. apply Forall_forall. intros t Ht.
    apply in_map_iff in Ht. destruct Ht as (t0 & <- & _).
    destruct (t_id t0 =? o_table_id existing) eqn:E; cbn [t_status t_id].
    + intros _. reflexivity.
    + apply Z.eqb_neq in E. intro. contradiction.
  - intros flt oid existing resp db' S P E H.
    destruct (cancel_success now db oid flt S P E) as (_ & Hok).
    destruct (Hok H) as (_ & _ & _ & _ & Hfree & Hkeep).
    split; [| exact Hkeep].
    intro A. specialize (Hfree A). rewrite Hfree. apply Forall_forall. intros t Ht.
    apply in_map_iff in Ht. destruct Ht as (t0 & <- & _).
    destruct (t_id t0 =? o_table_id existing) eqn:E'; cbn [t_status t_id].
    + intros _. split; [reflexivity |]. unfold consistent. cbn [t_status t_id].
      apply Z.eqb_eq in E'. rewrite E', A. reflexivity.
    + apply Z.eqb_neq in E'. intro. contradiction.
Qed.

Lemma table_status_after_operations_witness :
  Forall (consistent (snd (TablesSync.POST no_faults 200 sample_db_order)))
         (rows (tables (snd (TablesSync.POST no_faults 200 sample_db_order)))).
Proof.
  destruct (table_status_after_operations 200 sample_db_order) as (Hsync & _).
  apply (Hsync no_faults (fst (TablesSync.POST no_faults 200 sample_db_order))).
  - apply surjective_pairing.
  - reflexivity.
Defined.

(** Against C1 as stated. The only order of table 5 is updated to Paid: the
    table is stored as Billing; a resync of that store makes it Free. Both
    stores are left by a completed operation and give the table the same
    non-Paid orders, none. And with two orders on the table, updating the
    first to Ready stores the table as Serving although the second is
    Pending. *)
Lemma table_status_not_derivable :
  (let paid := OrderById.PUT no_faults 300 (Some 1)
                 (OrderById.mkRequest (Some "Paid") None) sample_db_order in
   let resynced := TablesSync.POST no_faults 400 (snd paid) in
   http_status (fst paid) = 200 /\ http_status (fst resynced) = 200 /\
   active_orders 1 (snd paid) = [] /\ active_orders 1 (snd resynced) = [] /\
   map t_status (rows (tables (snd paid))) = [Billing] /\
   map t_status (rows (tables (snd resynced))) = [Free]) /\
  (let two := snd (Orders.POST no_faults 110 sample_request sample_db_order) in
   let ready := OrderById.PUT no_faults 300 (Some 1)
                  (OrderById.mkRequest (Some "Ready") None) two in
   http_status (fst ready) = 200 /\
   map o_status (active_orders 1 (snd ready)) = [Ready; Pending] /\
   map t_status (rows (tables (snd ready))) = [Serving] /\
   expected_status (active_orders 1 (snd ready)) = Occupied).
Proof. vm_compute. repeat split. Qed.

(* ================================================================= *)
(** ** The foreign keys of line items hold in every reachable store

    The store enforces them; here every statement of every handler is shown
    to keep them, so the theorems that assume them speak of every store
    the application can be in. *)

Lemma keeps_refl db : keeps_well_formed db db.
Proof. intro H. exact H. Qed.

Lemma keeps_trans a b c : keeps_well_formed a b -> keeps_well_formed b c -> keeps_well_formed a c.
Proof. unfold keeps_well_formed. auto. Qed.

Lemma select_menu_item_has_rowid id db :
  select_menu_item id db <> None <-> has_rowid id (menu_items db) = true.
Proof.
  split; [apply select_has_rowid_menu |].
  intro H. apply has_rowid_true in H. destruct H as (m & Hm & E).
  unfold select_menu_item, get_where. intro N.
  apply (find_none _ _ N) in Hm. unfold rowid, Row_MenuItem in E.
  change (@rowid MenuItem mi_id m) with (mi_id m) in E. rewrite E, Z.eqb_refl in Hm.
  discriminate.
Qed.

Lemma well_formed_ext a b :
  (forall i, In i (rows (order_items b)) ->
             In i (rows (order_items a)) /\
             (has_rowid (oi_order_id i) (orders a) = true ->
              has_rowid (oi_order_id i) (orders b) = true) /\
             (has_rowid (oi_menu_item_id i) (menu_items a) = true ->
              has_rowid (oi_menu_item_id i) (menu_items b) = true)) ->
  keeps_well_formed a b.
Proof.
  intros H. unfold keeps_well_formed. intros [Ho Hm].
  unfold well_formed, items_have_order, items_have_menu_item in *.
  rewrite Forall_forall in Ho, Hm.
  split; apply Forall_forall; intros i Hi; destruct (H i Hi) as (Ha & Hko & Hkm).
  - apply Hko, Ho, Ha.
  - apply select_menu_item_has_rowid, Hkm, select_menu_item_has_rowid, Hm, Ha.
Qed.

Section RowUpdates.
Context {A : Type} `{Row A}.

Lemma has_rowid_update (p : A -> bool) (f : A -> A) (r : Rel A) i :
  (forall x, rowid (f x) = rowid x) ->
  has_rowid i r = true -> has_rowid i (update_where p f r) = true.
Proof.
  intros Hf Hi. apply has_rowid_true in Hi. destruct Hi as (x & Hx & E).
  apply has_rowid_true. exists (if p x then f x else x). split.
  - cbn. apply (in_map (fun x => if p x then f x else x)). exact Hx.
  - destruct (p x); [rewrite Hf |]; exact E.
Qed.

Lemma has_rowid_append mk (r : Rel A) i :
  has_rowid i r = true -> has_rowid i (snd (insert_row mk r)) = true.
Proof.
  intro Hi. apply has_rowid_true in Hi. destruct Hi as (x & Hx & E).
  apply has_rowid_true. exists x. split; [| exact E].
  cbn. apply in_or_app. now left.
Qed.

Lemma has_rowid_delete (p : A -> bool) (r : Rel A) i :
  (forall x, In x (rows r) -> rowid x = i -> p x = false) ->
  has_rowid i r = true -> has_rowid i (delete_where p r) = true.
Proof.
  intros Hp Hi. apply has_rowid_true in Hi. destruct Hi as (x & Hx & E).
  apply has_rowid_true. exists x. split; [| exact E].
  cbn. apply filter_In. split; [exact Hx |]. now rewrite (Hp x Hx E).
Qed.
End RowUpdates.

Lemma keeps_same_keys a b :
  order_items b = order_items a -> orders b = orders a -> menu_items b = menu_items a ->
  keeps_well_formed a b.
Proof.
  intros Hi Ho Hm. apply well_formed_ext. intros i H. rewrite Hi in H.
  rewrite Ho, Hm. auto.
Qed.

Lemma keeps_update_tables now id f db : keeps_well_formed db (update_tables now id f db).
Proof. now apply keeps_same_keys. Qed.

Lemma keeps_insert_table now n s c db a db' :
  insert_table now n s c db = Done a db' -> keeps_well_formed db db'.
Proof.
  unfold insert_table. destruct (TableStatus_of_string s); [| discriminate].
  destruct (existsb _ _); [discriminate |]. cbn. intro E. injection E as _ <-.
  now apply keeps_same_keys.
Qed.

Lemma keeps_insert_staff now n r sh s av db a db' :
  insert_staff now n r sh s av db = Done a db' -> keeps_well_formed db db'.
Proof. unfold insert_staff. cbn. intro E. injection E as _ <-. now apply keeps_same_keys. Qed.

Lemma keeps_update_staff now n r sh s av id db :
  keeps_well_formed db (update_staff now n r sh s av id db).
Proof. now apply keeps_same_keys. Qed.

Lemma keeps_insert_menu_item now n p c i av db a db' :
  insert_menu_item now n p c i av db = Done a db' -> keeps_well_formed db db'.
Proof.
  intro E. apply insert_menu_item_done in E. destruct E as (_ & _ & ->).
  apply well_formed_ext. intros x Hx. split; [exact Hx |]. split; [auto |].
  apply (has_rowid_append (fun k => mkMenuItem k n p c i av now now)).
Qed.

Lemma keeps_update_menu_item now n p c i av id db :
  keeps_well_formed db (update_menu_item now n p c i av id db).
Proof.
  apply well_formed_ext. intros x Hx. split; [exact Hx |]. split; [auto |].
  apply has_rowid_update. reflexivity.
Qed.

Lemma keeps_insert_order now tableId total staffId db a db' :
  insert_order now tableId total staffId db = Done a db' -> keeps_well_formed db db'.
Proof.
  intro E. apply insert_order_done in E. destruct E as (_ & _ & ->).
  apply well_formed_ext. intros x Hx. split; [exact Hx |]. split; [| auto].
  apply (has_rowid_append (fun k => mkOrder k tableId total Pending staffId now now)).
Qed.

Lemma keeps_update_order now s staffId id db a db' :
  update_order now s staffId id db = Done a db' -> keeps_well_formed db db'.
Proof.
  intro E. apply update_order_done in E. subst db'.
  apply well_formed_ext. intros x Hx. split; [exact Hx |]. split; [| auto].
  apply has_rowid_update. reflexivity.
Qed.

Lemma keeps_update_order_status now s id db a db' :
  update_order_status now s id db = Done a db' -> keeps_well_formed db db'.
Proof.
  unfold update_order_status. destruct id; intro E; injection E as _ <-;
    [| apply keeps_refl].
  apply well_formed_ext. intros x Hx. split; [exact Hx |]. split; [| auto].
  apply has_rowid_update. reflexivity.
Qed.

Lemma keeps_delete_staff now id db : keeps_well_formed db (delete_staff now id db).
Proof.
  apply well_formed_ext. intros x Hx. split; [exact Hx |]. split; [| auto].
  apply has_rowid_update. reflexivity.
Qed.

Lemma keeps_insert_order_item now oid l db a db' :
  insert_order_item now oid l db = Done a db' -> keeps_well_formed db db'.
Proof.
  unfold insert_order_item.
  destruct (quantity l) as [q |]; [| discriminate].
  destruct (sql_real (unitPrice l)) as [price |]; [| discriminate].
  destruct (sql_real (subtotal l)) as [s |]; [| discriminate].
  destruct (has_rowid oid (orders db)) eqn:Ho; [| discriminate].
  destruct (has_rowid (menuItemId l) (menu_items db)) eqn:Hm; [| discriminate].
  cbn. intro E. injection E as _ <-.
  unfold keeps_well_formed. intros [Wo Wm].
  unfold well_formed, items_have_order, items_have_menu_item in *. cbn.
  split; apply Forall_app; split; try assumption; repeat constructor; cbn.
  - exact Ho.
  - now apply select_menu_item_has_rowid.
Qed.

Lemma keeps_delete_order id db : keeps_well_formed db (delete_order id db).
Proof.
  apply well_formed_ext. unfold delete_order. cbn. intros x Hx.
  apply filter_In in Hx. destruct Hx as [Hx Hn]. split; [exact Hx |]. split; [| auto].
  apply has_rowid_delete. intros o _ E. unfold rowid, Row_Order in E.
  change (@rowid Order o_id o) with (o_id o) in E. rewrite E.
  now apply negb_true_iff in Hn.
Qed.

Lemma keeps_delete_menu_item id db : keeps_well_formed db (delete_menu_item id db).
Proof.
  apply well_formed_ext. unfold delete_menu_item. cbn. intros x Hx.
  apply filter_In in Hx. destruct Hx as [Hx Hn]. split; [exact Hx |]. split; [auto |].
  apply has_rowid_delete. intros m _ E. unfold rowid, Row_MenuItem in E.
  change (@rowid MenuItem mi_id m) with (mi_id m) in E. rewrite E.
  now apply negb_true_iff in Hn.
Qed.

Lemma keeps_delete_table id db : keeps_well_formed db (delete_table id db).
Proof.
  apply well_formed_ext. unfold delete_table. cbn. intros x Hx.
  apply filter_In in Hx. destruct Hx as [Hx Hn]. split; [exact Hx |]. split; [| auto].
  apply has_rowid_delete. intros o Ho E. unfold rowid, Row_Order in E.
  change (@rowid Order o_id o) with (o_id o) in E.
  destruct (o_table_id o =? id) eqn:T; [| reflexivity].
  apply negb_true_iff in Hn. rewrite <- Hn. symmetry. apply existsb_exists.
  exists (o_id o). split; [| rewrite E; apply Z.eqb_refl].
  apply in_map. unfold select_where. apply filter_In. now split.
Qed.

Create HintDb keeps.
#[local] Hint Resolve keeps_refl keeps_update_tables keeps_insert_table keeps_insert_staff
  keeps_update_staff keeps_insert_menu_item keeps_update_menu_item keeps_insert_order
  keeps_update_order keeps_update_order_status keeps_delete_staff keeps_insert_order_item
  keeps_delete_order keeps_delete_menu_item keeps_delete_table : keeps.

Ltac keeps_tac :=
  preserves_tac keeps_refl keeps_trans;
  try (unfold update_table_status, update_table_status_count, update_table_coalesce);
  eauto with keeps.

Lemma keeps_readonly {A} (m : M A) : readonly m -> preserves keeps_well_formed m.
Proof. apply preserves_readonly. exact keeps_refl. Qed.

Lemma run_keeps_well_formed flt now op db resp db' :
  run flt now op db = (resp, db') -> well_formed db -> well_formed db'.
Proof.
  intro E. change (keeps_well_formed db db').
  destruct op; cbn [run] in E;
    (eapply preserves_handle; [| exact E]).
  - unfold Orders.POST_body, Orders.create.
    destruct (Orders.tableId req); [| keeps_tac].
    destruct (Orders.items req) as [[| i l] |]; try solve [keeps_tac].
    destruct (_ =? 0); [keeps_tac |].
    apply preserves_bind; [exact keeps_trans | keeps_tac |].
    intros [t |]; [| keeps_tac].
    apply preserves_bind;
      [exact keeps_trans | apply keeps_readonly, readonly_price_items |].
    intros [total data]. keeps_tac.
  - unfold OrdersAlt.POST_body, OrdersAlt.create.
    destruct (OrdersAlt.tableId req); [| keeps_tac].
    destruct (OrdersAlt.items req) as [[| i l] |]; try solve [keeps_tac].
    destruct (_ =? 0); [keeps_tac |].
    apply preserves_bind;
      [exact keeps_trans | apply keeps_readonly, alt_readonly_price_items |].
    intros [total data]. keeps_tac.
  - unfold OrderById.PUT_body, OrderById.update, OrderById.table_status_for. keeps_tac.
  - unfold OrderById.DELETE_body, OrderById.cancel. keeps_tac.
  - unfold OrderStatusRoute.PATCH_body, OrderStatusRoute.free_table_when_paid. keeps_tac.
  - apply keeps_readonly, readonly_GET_body.
  - unfold TablesSync.POST_body, TablesSync.sync_table. keeps_tac.
  - unfold Tables.POST_body. keeps_tac.
  - unfold TableById.PUT_body. keeps_tac.
  - unfold TableById.DELETE_body. keeps_tac.
  - unfold Menu.POST_body. keeps_tac.
  - unfold MenuById.PUT_body. keeps_tac.
  - unfold MenuById.DELETE_body. keeps_tac.
  - unfold StaffRoute.POST_body. keeps_tac.
  - unfold StaffById.PUT_body. keeps_tac.
  - unfold StaffById.DELETE_body. keeps_tac.
Qed.

Lemma reachable_well_formed db : reachable db -> well_formed db.
Proof.
  induction 1 as [| flt now op db _ IH].
  - split; constructor.
  - eapply run_keeps_well_formed; [apply surjective_pairing | exact IH].
Qed.

(* ================================================================= *)
(** ** The prices of the menu are positive in every reachable store

    No constraint of the schema says so: the two handlers that write a
    price refuse one that is not above zero, and the store takes no NaN.
    With positive prices the amounts of an order are numbers. *)

Lemma prices_refl db : keeps prices_positive db db.
Proof. intro H. exact H. Qed.

Lemma prices_trans a b c :
  keeps prices_positive a b -> keeps prices_positive b c -> keeps prices_positive a c.
Proof. unfold keeps. auto. Qed.

Lemma prices_same a b : menu_items b = menu_items a -> keeps prices_positive a b.
Proof. intros E H. unfold prices_positive. now rewrite E. Qed.

Lemma prices_update_tables now id f db : keeps prices_positive db (update_tables now id f db).
Proof. now apply prices_same. Qed.

Lemma prices_insert_table now n s c db a db' :
  insert_table now n s c db = Done a db' -> keeps prices_positive db db'.
Proof.
  unfold insert_table. destruct (TableStatus_of_string s); [| discriminate].
  destruct (existsb _ _); [discriminate |]. cbn. intro E. injection E as _ <-.
  now apply prices_same.
Qed.

Lemma prices_delete_table id db : keeps prices_positive db (delete_table id db).
Proof. now apply prices_same. Qed.

Lemma prices_insert_order now tableId total staffId db a db' :
  insert_order now tableId total staffId db = Done a db' -> keeps prices_positive db db'.
Proof.
  intro E. apply insert_order_done in E. destruct E as (_ & _ & ->). now apply prices_same.
Qed.

Lemma prices_insert_order_item now oid l db a db' :
  insert_order_item now oid l db = Done a db' -> keeps prices_positive db db'.
Proof. intro E. apply insert_order_item_done in E. subst db'. now apply prices_same. Qed.

Lemma prices_update_order now s staffId id db a db' :
  update_order now s staffId id db = Done a db' -> keeps prices_positive db db'.
Proof. intro E. apply update_order_done in E. subst db'. now apply prices_same. Qed.

Lemma prices_update_order_status now s id db a db' :
  update_order_status now s id db = Done a db' -> keeps prices_positive db db'.
Proof.
  unfold update_order_status. destruct id; intro E; injection E as _ <-;
    [| apply prices_refl].
  now apply prices_same.
Qed.

Lemma prices_delete_order id db : keeps prices_positive db (delete_order id db).
Proof. now apply prices_same. Qed.

Lemma prices_insert_staff now n r sh s av db a db' :
  insert_staff now n r sh s av db = Done a db' -> keeps prices_positive db db'.
Proof. unfold insert_staff. cbn. intro E. injection E as _ <-. now apply prices_same. Qed.

Lemma prices_update_staff now n r sh s av id db :
  keeps prices_positive db (update_staff now n r sh s av id db).
Proof. now apply prices_same. Qed.

Lemma prices_delete_staff now id db : keeps prices_positive db (delete_staff now id db).
Proof. now apply prices_same. Qed.

Lemma prices_delete_menu_item id db : keeps prices_positive db (delete_menu_item id db).
Proof.
  unfold keeps, prices_positive, delete_menu_item. cbn. rewrite !Forall_forall.
  intros H m Hm. apply filter_In in Hm. now apply H.
Qed.

(** A price above zero is written as it is. *)
Lemma prices_insert_menu_item now n p c i av db a db' :
  PrimFloat.ltb 0 p = true ->
  insert_menu_item now n p c i av db = Done a db' -> keeps prices_positive db db'.
Proof.
  intros Hp E. apply insert_menu_item_done in E. destruct E as (_ & _ & ->).
  unfold keeps, prices_positive. cbn. intro H. apply Forall_app. split; [exact H |].
  now repeat constructor.
Qed.

(** An update writes a price above zero or keeps the price there was. *)
Lemma prices_update_menu_item now n p c i av id db :
  (forall v, p = Some v -> PrimFloat.ltb 0 v = true) ->
  keeps prices_positive db (update_menu_item now n p c i av id db).
Proof.
  intros Hp. unfold keeps, prices_positive, update_menu_item. cbn. rewrite !Forall_forall.
  intros H m' Hm'. apply in_map_iff in Hm'. destruct Hm' as (m & <- & Hm).
  destruct (mi_id m =? id); [| now apply H]. cbn.
  destruct p as [v |]; cbn; [| now apply H].
  unfold sql_real. destruct (PrimFloat.is_nan v); cbn; [now apply H | now apply Hp].
Qed.

Create HintDb prices.
#[local] Hint Resolve prices_refl prices_update_tables prices_insert_table prices_delete_table
  prices_insert_order prices_insert_order_item prices_update_order
  prices_update_order_status prices_delete_order prices_insert_staff prices_update_staff
  prices_delete_staff prices_delete_menu_item : prices.

Ltac prices_tac :=
  preserves_tac prices_refl prices_trans;
  try (unfold update_table_status, update_table_status_count, update_table_coalesce);
  eauto with prices.

Lemma prices_readonly {A} (m : M A) : readonly m -> preserves (keeps prices_positive) m.
Proof. apply preserves_readonly. exact prices_refl. Qed.

Lemma run_keeps_prices flt now op db resp db' :
  run flt now op db = (resp, db') -> prices_positive db -> prices_positive db'.
Proof.
  intro E. change (keeps prices_positive db db').
  destruct op; cbn [run] in E;
    (eapply preserves_handle; [| exact E]).
  - unfold Orders.POST_body, Orders.create.
    destruct (Orders.tableId req); [| prices_tac].
    destruct (Orders.items req) as [[| i l] |]; try solve [prices_tac].
    destruct (_ =? 0); [prices_tac |].
    apply preserves_bind; [exact prices_trans | prices_tac |].
    intros [t |]; [| prices_tac].
    apply preserves_bind;
      [exact prices_trans | apply prices_readonly, readonly_price_items |].
    intros [total data]. prices_tac.
  - unfold OrdersAlt.POST_body, OrdersAlt.create.
    destruct (OrdersAlt.tableId req); [| prices_tac].
    destruct (OrdersAlt.items req) as [[| i l] |]; try solve [prices_tac].
    destruct (_ =? 0); [prices_tac |].
    apply preserves_bind;
      [exact prices_trans | apply prices_readonly, alt_readonly_price_items |].
    intros [total data]. prices_tac.
  - unfold OrderById.PUT_body, OrderById.update, OrderById.table_status_for. prices_tac.
  - unfold OrderById.DELETE_body, OrderById.cancel. prices_tac.
  - unfold OrderStatusRoute.PATCH_body, OrderStatusRoute.free_table_when_paid. prices_tac.
  - apply prices_readonly, readonly_GET_body.
  - unfold TablesSync.POST_body, TablesSync.sync_table. prices_tac.
  - unfold Tables.POST_body. prices_tac.
  - unfold TableById.PUT_body. prices_tac.
  - unfold TableById.DELETE_body. prices_tac.
  - unfold Menu.POST_body.
    destruct (or_nullS (Menu.name req)); [| prices_tac].
    destruct (or_nullF (Menu.price req)) as [p |] eqn:Ep; [| prices_tac].
    destruct (or_nullS (Menu.category req)); [| prices_tac].
    destruct (or_nullS (Menu.image req)); [| prices_tac].
    destruct (MenuCategory_of_string _); [| prices_tac].
    destruct (PrimFloat.leb p 0) eqn:L; [prices_tac |].
    apply or_nullF_inv in Ep. destruct Ep as (_ & N & Z).
    pose proof (number_positive N Z L) as Hp.
    pose proof (fun n c i av d a d' =>
                  @prices_insert_menu_item now n p c i av d a d' Hp) as Hi.
    prices_tac.
  - unfold MenuById.PUT_body.
    assert (Hu : (match Menu.price req with
                  | Some p => PrimFloat.leb p 0
                  | None => false
                  end) = false ->
                 forall n c i av k d,
                   keeps prices_positive d
                     (update_menu_item now n (or_nullF (Menu.price req)) c i av k d)).
    { intros L n c i av k d. apply prices_update_menu_item. intros v Ev.
      apply or_nullF_inv in Ev. destruct Ev as (Ev & N & Z). rewrite Ev in L.
      exact (number_positive N Z L). }
    destruct id as [itemId |]; [| prices_tac].
    destruct (or_nullS (Menu.category req)) as [c |];
      [destruct (MenuCategory_of_string c); [| prices_tac] |];
      (destruct (match Menu.price req with Some p => PrimFloat.leb p 0 | None => false end)
         eqn:L; [prices_tac |]; specialize (Hu eq_refl); prices_tac).
  - unfold MenuById.DELETE_body. prices_tac.
  - unfold StaffRoute.POST_body. prices_tac.
  - unfold StaffById.PUT_body. prices_tac.
  - unfold StaffById.DELETE_body. prices_tac.
Qed.

Lemma reachable_prices db : reachable db -> prices_positive db.
Proof.
  induction 1 as [| flt now op db _ IH].
  - constructor.
  - eapply run_keeps_prices; [apply surjective_pairing | exact IH].
Qed.

(** With positive prices, the subtotal of a valid line and the total of
    valid lines are numbers, zero or above. *)
Lemma subtotal_nonneg db item :
  prices_positive db -> valid_line db item ->
  SFnonneg (Prim2SF (subtotal (priced_line db item))) = true.
Proof.
  intros Hp (id & q & Hid & _ & Hq & Hpos & Hm).
  unfold priced_line, price_of. rewrite Hid, Hq. cbn [subtotal].
  destruct (select_menu_item id db) as [m |] eqn:Sm; [| congruence].
  apply mul_nonneg; [| now apply number_of_Z_positive].
  unfold select_menu_item, get_where in Sm. apply find_some in Sm.
  unfold prices_positive in Hp. rewrite Forall_forall in Hp. now apply Hp.
Qed.

Lemma order_total_number db items :
  prices_positive db -> Forall (valid_line db) items ->
  PrimFloat.is_nan (order_total db items) = false.
Proof.
  intros Hp Hv. apply nonneg_number. unfold order_total.
  apply fold_add_nonneg; [reflexivity |].
  induction Hv as [| item rest H _ IH]; cbn [map]; constructor; [| exact IH].
  now apply subtotal_nonneg.
Qed.

(* ================================================================= *)
(** ** The scenario of the specification, run on the handlers

    Table 5 is Free; an order of item A twice and item B once is created
    (the sample store has them at 1000 and at 500, where the specification
    has 10.00 and 5.00): the total is 2500 and the table Occupied. The order is
    marked Ready and the tables are resynced: the table is Serving. The
    order is marked Paid through [PUT /api/orders/[id]]: the table is
    Billing, and Free after the next resync. *)

Example scenario_table_5 :
  let created := Orders.POST no_faults 100 sample_request sample_db in
  let ready := OrderById.PUT no_faults 200 (Some 1)
                 (OrderById.mkRequest (Some "Ready") None) (snd created) in
  let resynced := TablesSync.POST no_faults 210 (snd ready) in
  let paid := OrderById.PUT no_faults 300 (Some 1)
                (OrderById.mkRequest (Some "Paid") None) (snd resynced) in
  let closed := TablesSync.POST no_faults 310 (snd paid) in
  map t_status (rows (tables sample_db)) = [Free] /\
  http_status (fst created) = 201 /\
  map o_total_amount (rows (orders (snd created))) = [2500%float] /\
  map t_status (rows (tables (snd created))) = [Occupied] /\
  map t_status (rows (tables (snd resynced))) = [Serving] /\
  map t_customer_count (rows (tables (snd resynced))) = [Some 3] /\
  map t_status (rows (tables (snd paid))) = [Billing] /\
  map t_status (rows (tables (snd closed))) = [Free] /\
  map t_customer_count (rows (tables (snd closed))) = [None].
Proof. vm_compute. repeat split. Qed.

(** The sample store is reachable: it is what four requests leave of the
    empty store. *)
Example sample_db_reachable :
  let db1 := snd (run no_faults 10 (CreateTable (Tables.mkRequest (Some 5) None None))
                      empty_db) in
  let db2 := snd (run no_faults 10
                      (CreateMenuItem (Menu.mkRequest (Some "Bruschetta") (Some 1000%float)
                                         (Some "Starters") (Some "a.png") None)) db1) in
  let db3 := snd (run no_faults 10
                      (CreateMenuItem (Menu.mkRequest (Some "Espresso") (Some 500%float)
                                         (Some "Drinks") (Some "b.png") None)) db2) in
  let db4 := snd (run no_faults 10
                      (CreateStaff (StaffRoute.mkRequest (Some "Maria Garcia") (Some "Waiter")
                                      (Some "9am - 5pm") (Some "On Shift") (Some "m.png")))
                      db3) in
  db4 = sample_db /\ reachable sample_db.
Proof.
  cbv zeta.
  assert (E : snd (run no_faults 10
                      (CreateStaff (StaffRoute.mkRequest (Some "Maria Garcia") (Some "Waiter")
                                      (Some "9am - 5pm") (Some "On Shift") (Some "m.png")))
              (snd (run no_faults 10
                      (CreateMenuItem (Menu.mkRequest (Some "Espresso") (Some 500%float)
                                         (Some "Drinks") (Some "b.png") None))
              (snd (run no_faults 10
                      (CreateMenuItem (Menu.mkRequest (Some "Bruschetta") (Some 1000%float)
                                         (Some "Starters") (Some "a.png") None))
              (snd (run no_faults 10 (CreateTable (Tables.mkRequest (Some 5) None None))
                      empty_db))))))) = sample_db) by (vm_compute; reflexivity).
  split; [exact E |]. rewrite <- E. repeat apply reach_run. apply reach_empty.
Qed.

(* ================================================================= *)
(** ** Creating an order: the amounts of the order *)

(** C4: for a valid create-order request (the table exists, every line
    names an existing menu item and has a positive quantity, the list is
    not empty; the staff member, when one is given, exists) the amounts are
    computed on doubles. In a reachable store the total computed is a
    number, since the prices of the menu are above zero. When the total
    computed is a number, the request succeeds if the store does not fail,
    and whenever it answers 201 the order persisted and returned is this
    one: one row per line in request order, with the unit price the menu
    item has in the store at creation, the subtotal the double product of
    unit price and quantity, and a total that is the double sum of the
    subtotals, added from left to right. When the total computed is NaN
    the request is answered 500 and nothing is stored. An update of a menu
    item, price included, leaves the rows of orders and of line items as
    they are. The hypothesis on the line items of the store is the foreign
    key to orders; it holds in every reachable store (lemma
    [reachable_well_formed]). *)
Theorem create_order_prices_snapshot now db req tableId items :
  Orders.tableId req = Some tableId -> tableId <> 0 -> select_table tableId db <> None ->
  Orders.items req = Some items -> items <> [] ->
  Forall (valid_line db) items ->
  staff_ref_ok (or_nullZ (Orders.staffId req)) db = true ->
  items_have_order db ->
  (reachable db -> PrimFloat.is_nan (order_total db items) = false) /\
  (PrimFloat.is_nan (order_total db items) = false ->
   exists order new_items returned views db',
     Orders.POST no_faults now req db =
       (json_status (OrderJson (Some returned) views) 201, db') /\
     (forall flt resp1 db1,
        Orders.POST flt now req db = (resp1, db1) -> http_status resp1 = 201 ->
        resp1 = json_status (OrderJson (Some returned) views) 201 /\ db1 = db') /\
     rows (orders db') = rows (orders db) ++ [order] /\
     rows (order_items db') = rows (order_items db) ++ new_items /\
     ov_order returned = order /\ map iv_item views = new_items /\
     o_table_id order = tableId /\ o_status order = Pending /\
     Forall2 (fun item row =>
                oi_order_id row = o_id order /\
                item_id item = Some (oi_menu_item_id row) /\
                item_quantity item = Some (oi_quantity row) /\
                oi_unit_price row = price_of db (oi_menu_item_id row) /\
                oi_subtotal row =
                  PrimFloat.mul (oi_unit_price row) (number_of_Z (oi_quantity row)))
             items new_items /\
     o_total_amount order = fold_left PrimFloat.add (map oi_subtotal new_items) 0%float) /\
  (PrimFloat.is_nan (order_total db items) = true ->
   Orders.POST no_faults now req db = (error_response "Failed to create order" 500, db) /\
   forall flt resp1 db1,
     Orders.POST flt now req db = (resp1, db1) -> http_status resp1 <> 201) /\
  (forall flt' now' id' req' db1 resp2 db2,
     MenuById.PUT flt' now' id' req' db1 = (resp2, db2) ->
     orders db2 = orders db1 /\ order_items db2 = order_items db1).
Proof.
  intros Ht Ht0 Hex Hi Hne Hv Hs Hfk. split; [| split; [| split]].
  - intro Hr. apply order_total_number; [now apply reachable_prices | exact Hv].
  - intro Hn.
    pose proof (@Orders_POST_no_faults now db req tableId items Ht Ht0 Hex Hi Hne Hv Hs Hn) as E.
    cbv zeta in E.
    set (lines := map (priced_line db) items) in *.
    set (total := order_total db items) in *.
    set (oid := next_rowid (orders db)) in *.
    set (staffId := or_nullZ (Orders.staffId req)) in *.
    set (db' := created now tableId total staffId lines db) in *.
    set (order := mkOrder oid tableId total Pending staffId now now).
    set (new_items := new_rows now oid lines (order_items db)).
    assert (Ro : rows (orders db') = rows (orders db) ++ [order]) by reflexivity.
    assert (Ri : rows (order_items db') = rows (order_items db) ++ new_items).
    { unfold db', created. cbn [order_items update_table_status update_tables with_tables
                                with_order_items with_orders]. apply add_lines_rows. }
    assert (Hnew : Forall2 (fun item row =>
               oi_order_id row = oid /\
               item_id item = Some (oi_menu_item_id row) /\
               item_quantity item = Some (oi_quantity row) /\
               oi_unit_price row = price_of db (oi_menu_item_id row) /\
               oi_subtotal row =
                 PrimFloat.mul (oi_unit_price row) (number_of_Z (oi_quantity row)) /\
               oi_created_at row = now /\
               select_menu_item (oi_menu_item_id row) db <> None) items new_items)
      by (apply new_rows_priced; exact Hv).
    assert (So : select_order oid db' = Some order).
    { unfold select_order, get_where.
      exact (find_fresh_insert (fun i => mkOrder i tableId total Pending staffId now now)
                               (orders db) (fun k => eq_refl)). }
    assert (Sv : map iv_item (select_item_views oid db') = new_items).
    { unfold select_item_views, select_where. rewrite Ri, filter_app.
      rewrite (@old_items_not_selected db oid Hfk eq_refl). cbn [app].
      rewrite filter_all.
      - apply join_complete. clear - Hnew.
        induction Hnew as [| ? ? ? ? H _ IH]; constructor; auto.
        now decompose [and] H.
      - clear - Hnew. induction Hnew as [| ? ? ? ? H _ IH]; constructor; auto.
        destruct H as [H _]. rewrite H. apply Z.eqb_refl. }
    exists order, new_items, (order_view db' order), (select_item_views oid db'), db'.
    assert (E' : Orders.POST no_faults now req db =
                 (json_status (OrderJson (Some (order_view db' order))
                                         (select_item_views oid db')) 201, db')).
    { rewrite E. unfold select_order_view. now rewrite So. }
    split; [exact E' |]. split.
    { intros flt resp1 db1 E1 H1.
      assert (E2 : Orders.POST no_faults now req db = (resp1, db1)).
      { eapply steady_handle;
          [apply steady_Orders_POST_body | intro e; now left | exact E1 | | ];
          rewrite H1; discriminate. }
      rewrite E' in E2. inversion E2. now split. }
    repeat (split; [first [assumption | reflexivity] |]).
    split.
    { clear - Hnew. induction Hnew as [| ? ? ? ? H _ IH]; constructor; auto.
      decompose [and] H. repeat split; assumption. }
    unfold new_items. rewrite new_rows_subtotals. unfold lines. rewrite map_map. reflexivity.
  - intro Hn.
    pose proof (@Orders_POST_nan now db req tableId items Ht Ht0 Hex Hi Hne Hv Hn) as E.
    split; [exact E |].
    intros flt resp1 db1 E1 H1.
    assert (E2 : Orders.POST no_faults now req db = (resp1, db1)).
    { eapply steady_handle;
        [apply steady_Orders_POST_body | intro e; now left | exact E1 | | ];
        rewrite H1; discriminate. }
    rewrite E in E2. inversion E2; subst. discriminate.
  - intros flt' now' id' req' db1 resp2 db2 E2.
    exact (@preserves_handle same_orders _ _ _ _ _ _ (menu_PUT_same_orders now' id' req') E2).
Qed.

Lemma create_order_prices_snapshot_witness :
  exists order new_items,
    rows (orders sample_db_order) = [order] /\
    rows (order_items sample_db_order) = new_items /\
    o_total_amount order = fold_left PrimFloat.add (map oi_subtotal new_items) 0%float /\
    map oi_unit_price new_items = [1000%float; 500%float].
Proof.
  destruct (@create_order_prices_snapshot 100 sample_db sample_request 1
              [mkItemReq (Some 1) (Some 2); mkItemReq (Some 2) (Some 1)])
    as (N & H & _).
  - reflexivity.
  - discriminate.
  - discriminate.
  - reflexivity.
  - discriminate.
  - repeat constructor.
    + exists 1, 2. repeat split; try reflexivity; discriminate.
    + exists 2, 1. repeat split; try reflexivity; discriminate.
  - reflexivity.
  - constructor.
  - destruct H as (order & new_items & returned & views & db' & E & _ & Ro & Ri & _ & _ & _ & _
                   & F & T).
    + exact (N (proj2 sample_db_reachable)).
    + assert (D : db' = sample_db_order) by (unfold sample_db_order; now rewrite E).
      subst db'. exists order, new_items. repeat split; try assumption.
      inversion F as [| i1 r1 l1 l1' H1 F1]; subst.
      inversion F1 as [| i2 r2 l2 l2' H2 F2]; subst.
      inversion F2; subst.
      destruct H1 as (_ & I1 & _ & P1 & _). destruct H2 as (_ & I2 & _ & P2 & _).
      cbn in I1, I2. inversion I1 as [J1]. inversion I2 as [J2].
      cbn [map]. rewrite P1, P2, <- J1, <- J2. reflexivity.
Defined.

(** Against C4 as stated, with the product and the sum read as exact. A
    dish is put on the menu at 0.1 and ordered three times: the subtotal
    stored and returned is the double 0.30000000000000004; it is not the
    double 0.3, and it is not three times the unit price stored, which no
    double is. With a second dish at 0.2, one of each is ordered: the total
    stored is 0.30000000000000004, which is not the sum of the two
    subtotals stored, 0.1 and 0.2. *)
Lemma subtotal_is_rounded :
  (let menu := Menu.POST no_faults 20
                 (Menu.mkRequest (Some "Olives") (Some 0.1%float) (Some "Starters")
                                 (Some "o.png") None) sample_db in
   let created := Orders.POST no_faults 100
                    (Orders.mkRequest (Some 1) (Some [mkItemReq (Some 3) (Some 3)]) None)
                    (snd menu) in
   http_status (fst menu) = 201 /\ http_status (fst created) = 201 /\
   map (fun i => (oi_unit_price i, oi_quantity i, oi_subtotal i))
       (rows (order_items (snd created)))
     = [(0.1%float, 3, 0.30000000000000004%float)] /\
   map o_total_amount (rows (orders (snd created))) = [0.30000000000000004%float] /\
   PrimFloat.eqb 0.30000000000000004 0.3 = false /\
   exact 0.30000000000000004 <> option_map (Z.mul 3) (exact 0.1)) /\
  (let menu1 := Menu.POST no_faults 20
                  (Menu.mkRequest (Some "Olives") (Some 0.1%float) (Some "Starters")
                                  (Some "o.png") None) sample_db in
   let menu2 := Menu.POST no_faults 21
                  (Menu.mkRequest (Some "Bread") (Some 0.2%float) (Some "Starters")
                                  (Some "p.png") None) (snd menu1) in
   let created := Orders.POST no_faults 100
                    (Orders.mkRequest (Some 1)
                       (Some [mkItemReq (Some 3) (Some 1); mkItemReq (Some 4) (Some 1)]) None)
                    (snd menu2) in
   http_status (fst created) = 201 /\
   map oi_subtotal (rows (order_items (snd created))) = [0.1%float; 0.2%float] /\
   map o_total_amount (rows (orders (snd created))) = [0.30000000000000004%float] /\
   exact 0.30000000000000004 <>
     match exact 0.1, exact 0.2 with
     | Some a, Some b => Some (a + b)
     | _, _ => None
     end).
Proof.
  split; cbv zeta.
  - repeat split; try (vm_compute; reflexivity). vm_compute. discriminate.
  - repeat split; try (vm_compute; reflexivity). vm_compute. discriminate.
Qed.
(* ================================================================= *)
(** ** The sample store, reachable *)

Lemma sample_db_order_reachable : reachable sample_db_order.
Proof.
  exact (reach_run no_faults 100 (CreateOrder sample_request) (proj2 sample_db_reachable)).
Qed.

(* ================================================================= *)
(** ** A request that is refused changes nothing

    Every handler checks before it writes: a response other than 200, 201
    and 500 comes with the store as it was. *)

Lemma readonly_query {A} (f : Db -> A) : readonly (query f).
Proof. apply preserves_query. reflexivity. Qed.

Lemma quiet_ret {A} (a : A) : quiet (ret a).
Proof. intros flt st o st' E r. inversion E. discriminate. Qed.

Lemma quiet_throw {A} e : quiet (@throw A e).
Proof. intros flt st o st' E r. inversion E. discriminate. Qed.

Lemma quiet_prepare columns used : quiet (prepare columns used).
Proof. unfold prepare. destruct (find _ used); [apply quiet_throw | apply quiet_ret]. Qed.

Lemma quiet_stmt {A} (f : Db -> Exec A) : quiet (stmt f).
Proof.
  intros flt st o st' E r. apply stmt_inv in E.
  destruct E as [_ [(_ & -> & _) | [(_ & a & _ & ->) | (_ & e & _ & -> & _)]]]; discriminate.
Qed.

Lemma quiet_bind {A B} (m : M A) (k : A -> M B) :
  quiet m -> (forall a, quiet (k a)) -> quiet (bind m k).
Proof.
  intros Hm Hk flt st o st' E r. apply bind_inv in E.
  destruct E as [(a & st1 & _ & E2) | [(r1 & E1 & _) | (e & _ & ->)]].
  - exact (Hk a _ _ _ _ E2 r).
  - now elim (Hm _ _ _ _ E1 r1).
  - discriminate.
Qed.

Lemma quiet_transaction {A} (m : M A) : quiet m -> quiet (transaction m).
Proof.
  intros Hm flt st o st'. unfold transaction.
  destruct (m flt st) as [[a | r1 | e] st1] eqn:E; intros E' r; inversion E'; subst;
    try discriminate.
  now elim (Hm _ _ _ _ E r1).
Qed.

Lemma quiet_for_each {A} (l : list A) (body : A -> M unit) :
  (forall x, quiet (body x)) -> quiet (for_each l body).
Proof.
  intro Hb. induction l as [| x rest IH]; simpl.
  - apply quiet_ret.
  - apply quiet_bind; auto.
Qed.

Ltac quiet_step :=
  match goal with
  | |- quiet (bind _ _) => apply quiet_bind; [ | intros ]
  | |- quiet (transaction _) => apply quiet_transaction
  | |- quiet (for_each _ _) => apply quiet_for_each; intros
  | |- quiet (query _) => apply quiet_stmt
  | |- quiet (exec _) => apply quiet_stmt
  | |- quiet (stmt _) => apply quiet_stmt
  | |- quiet (ret _) => apply quiet_ret
  | |- quiet (throw _) => apply quiet_throw
  | |- quiet (prepare _ _) => apply quiet_prepare
  | |- quiet (match ?x with _ => _ end) => destruct x
  end.

Ltac quiet_tac := repeat quiet_step.

Lemma settled_ret r : http_status r = 200 \/ http_status r = 201 -> settled (ret r).
Proof. intros H flt st o st' E. inversion E. exact H. Qed.

Lemma settled_bind {A} (m : M A) (k : A -> M Response) :
  quiet m -> (forall a, settled (k a)) -> settled (bind m k).
Proof.
  intros Hm Hk flt st o st' E. apply bind_inv in E.
  destruct E as [(a & st1 & _ & E2) | [(r1 & E1 & _) | (e & _ & ->)]].
  - exact (Hk a _ _ _ _ E2).
  - now elim (Hm _ _ _ _ E1 r1).
  - exact I.
Qed.

Lemma settled_refuses m : settled m -> refuses_early m.
Proof.
  intros H flt st o st' E. specialize (H _ _ _ _ E). destruct o; auto. contradiction.
Qed.

Lemma refuses_reply r : refuses_early (reply r).
Proof. intros flt st o st' E. inversion E. reflexivity. Qed.

Lemma refuses_bind {A} (m : M A) (k : A -> M Response) :
  readonly m -> (forall a, refuses_early (k a)) -> refuses_early (bind m k).
Proof.
  intros Hm Hk flt st o st' E. apply bind_inv in E.
  destruct E as [(a & st1 & E1 & E2) | [(r1 & E1 & ->) | (e & _ & ->)]].
  - specialize (Hk a _ _ _ _ E2). destruct o; auto.
    rewrite Hk. symmetry. exact (Hm _ _ _ _ E1).
  - symmetry. exact (Hm _ _ _ _ E1).
  - exact I.
Qed.

Ltac settled_step :=
  match goal with
  | |- settled (bind _ _) => apply settled_bind; [ quiet_tac | intros ]
  | |- settled (ret _) => apply settled_ret; cbn; auto
  | |- settled (match ?x with _ => _ end) => destruct x
  end.

Ltac refuses_step :=
  match goal with
  | |- refuses_early (reply _) => apply refuses_reply
  | |- refuses_early (bind (query _) _) =>
      apply refuses_bind; [ apply readonly_query | intros ]
  | |- refuses_early (match ?x with _ => _ end) => destruct x
  | |- refuses_early _ => apply settled_refuses; repeat settled_step
  end.

Ltac refuses_tac := repeat refuses_step.

Lemma refused_handle m msg flt db resp db' :
  refuses_early m ->
  handle m (internal_error msg) flt db = (resp, db') ->
  http_status resp <> 200 -> http_status resp <> 201 -> http_status resp <> 500 ->
  db' = db.
Proof.
  intros Hm. unfold handle.
  destruct (m flt (mkSt db 0)) as [[r | r | e] st1] eqn:E; intros E' N2 N1 N5;
    inversion E'; subst; specialize (Hm _ _ _ _ E); cbn in *.
  - destruct Hm; contradiction.
  - exact Hm.
  - now elim N5.
Qed.

Lemma refuses_Orders_POST now req : refuses_early (Orders.POST_body now req).
Proof.
  unfold Orders.POST_body, Orders.create.
  destruct (Orders.tableId req); [| refuses_tac].
  destruct (Orders.items req) as [[| i l] |]; try solve [refuses_tac].
  destruct (_ =? 0); [refuses_tac |].
  apply refuses_bind; [apply readonly_query |].
  intros [t |]; [| refuses_tac].
  apply refuses_bind; [apply readonly_price_items |].
  intros [total data]. refuses_tac.
Qed.

Lemma refuses_OrdersAlt_POST now req : refuses_early (OrdersAlt.POST_body now req).
Proof.
  unfold OrdersAlt.POST_body, OrdersAlt.create.
  destruct (OrdersAlt.tableId req); [| refuses_tac].
  destruct (OrdersAlt.items req) as [[| i l] |]; try solve [refuses_tac].
  destruct (_ =? 0); [refuses_tac |].
  apply refuses_bind; [apply alt_readonly_price_items |].
  intros [total data]. refuses_tac.
Qed.

Lemma Tables_POST_body_inv now req flt st o st' :
  Tables.POST_body now req flt st = (o, st') ->
  match o with
  | Val r => http_status r = 201
  | Reply _ => st_db st' = st_db st
  | Throw e => e = IoError \/ st_db st' = st_db st
  end.
Proof.
  unfold Tables.POST_body. destruct (negb (truthyZ (Tables.number req))).
  - intro E. now inversion E.
  - intro E. apply bind_inv in E.
    destruct E as [(a & st1 & _ & E2) | [(r1 & E1 & _) | (e & E1 & ->)]].
    + apply bind_inv in E2.
      destruct E2 as [(b & st2 & _ & E3) | [(r1 & E2 & _) | (e & E2 & ->)]].
      * now inversion E3.
      * now elim (@quiet_stmt _ _ _ _ _ _ E2 r1).
      * apply query_inv in E2. destruct E2 as [_ [E2 | E2]]; [discriminate |].
        left. congruence.
    + now elim (@quiet_stmt _ _ _ _ _ _ E1 r1).
    + apply stmt_inv in E1.
      destruct E1 as [_ [(_ & H & _) | [(_ & a & _ & H) | (_ & e2 & _ & _ & H)]]].
      * left. congruence.
      * discriminate.
      * now right.
Qed.

Lemma Tables_POST_refused flt now req db resp db' :
  Tables.POST flt now req db = (resp, db') ->
  http_status resp <> 201 -> http_status resp <> 500 -> db' = db.
Proof.
  unfold Tables.POST, handle.
  destruct (Tables.POST_body now req flt (mkSt db 0)) as [[r | r | e] st1] eqn:E;
    intros E' N1 N5; inversion E'; subst; apply Tables_POST_body_inv in E; cbn in *.
  - contradiction.
  - exact E.
  - destruct E as [-> | E]; [now elim N5 | exact E].
Qed.

(** X1: a request that is refused writes nothing. Whatever the request,
    the time and the failures of the store, an answer whose status is not
    200, 201 or 500 (so a 400, a 404 or a 409) leaves the store exactly as
    it was. *)
Theorem refused_changes_nothing flt now op db resp db' :
  run flt now op db = (resp, db') ->
  http_status resp <> 200 -> http_status resp <> 201 -> http_status resp <> 500 ->
  db' = db.
Proof.
  intros E N2 N1 N5. destruct op; cbn [run] in E.
  - eapply refused_handle; [apply refuses_Orders_POST | exact E | | |]; assumption.
  - eapply refused_handle; [apply refuses_OrdersAlt_POST | exact E | | |]; assumption.
  - eapply refused_handle; [| exact E | | |]; try assumption.
    unfold OrderById.PUT_body, OrderById.update, OrderById.table_status_for. refuses_tac.
  - eapply refused_handle; [| exact E | | |]; try assumption.
    unfold OrderById.DELETE_body, OrderById.cancel. refuses_tac.
  - rewrite PATCH_store_columns in E. now inversion E.
  - symmetry. exact (@preserves_handle eq _ _ _ _ _ _ (readonly_GET_body id) E).
  - eapply refused_handle; [| exact E | | |]; try assumption.
    unfold TablesSync.POST_body, TablesSync.sync_table. refuses_tac.
  - eapply Tables_POST_refused; eassumption.
  - eapply refused_handle; [| exact E | | |]; try assumption.
    unfold TableById.PUT_body. refuses_tac.
  - eapply refused_handle; [| exact E | | |]; try assumption.
    unfold TableById.DELETE_body. refuses_tac.
  - eapply refused_handle; [| exact E | | |]; try assumption.
    unfold Menu.POST_body. refuses_tac.
  - eapply refused_handle; [| exact E | | |]; try assumption.
    unfold MenuById.PUT_body. refuses_tac.
  - eapply refused_handle; [| exact E | | |]; try assumption.
    unfold MenuById.DELETE_body. refuses_tac.
  - eapply refused_handle; [| exact E | | |]; try assumption.
    unfold StaffRoute.POST_body. refuses_tac.
  - eapply refused_handle; [| exact E | | |]; try assumption.
    unfold StaffById.PUT_body. refuses_tac.
  - eapply refused_handle; [| exact E | | |]; try assumption.
    unfold StaffById.DELETE_body. refuses_tac.
Qed.

Lemma refused_changes_nothing_witness :
  snd (run no_faults 200 (CancelOrder (Some 7)) sample_db_order) = sample_db_order.
Proof.
  apply (@refused_changes_nothing no_faults 200 (CancelOrder (Some 7)) sample_db_order
           (fst (run no_faults 200 (CancelOrder (Some 7)) sample_db_order))).
  - apply surjective_pairing.
  - vm_compute. discriminate.
  - vm_compute. discriminate.
  - vm_compute. discriminate.
Defined.

(* ================================================================= *)
(** ** Keys: every reachable store has distinct, positive ids and distinct
    table numbers *)

Lemma keeps_reflexive I db : keeps I db db.
Proof. intro H. exact H. Qed.

Lemma keeps_transitive I a b c : keeps I a b -> keeps I b c -> keeps I a c.
Proof. unfold keeps. auto. Qed.

Section KeyFacts.
Context {A : Type} `{Row A}.

Lemma keyed_insert mk (r : Rel A) :
  (forall k, rowid (mk k) = k) -> keyed r -> keyed (snd (insert_row mk r)).
Proof.
  intros Hk [Hn Hb]. unfold keyed. cbn [insert_row snd rows seq]. split.
  - rewrite map_app. cbn [map]. rewrite Hk.
    apply NoDup_app_remove_l with (l := []). cbn.
    apply Permutation_NoDup with (l := next_rowid r :: map rowid (rows r)).
    + apply Permutation_cons_append.
    + constructor; [| exact Hn]. intro Hin. apply in_map_iff in Hin.
      destruct Hin as (x & E & Hx). apply next_rowid_fresh in Hx. lia.
  - apply Forall_app. split.
    + rewrite Forall_forall in *. intros x Hx.
      specialize (Hb x Hx). apply next_rowid_fresh in Hx. lia.
    + constructor; [| constructor]. rewrite Hk.
      assert (0 <= max_rowid (rows r)).
      { clear. induction (rows r) as [| y l IH]; simpl; lia. }
      unfold next_rowid. lia.
Qed.

Lemma keyed_update (p : A -> bool) (f : A -> A) (r : Rel A) :
  (forall x, rowid (f x) = rowid x) -> keyed r -> keyed (update_where p f r).
Proof.
  intros Hf [Hn Hb]. unfold keyed. cbn [update_where rows seq].
  assert (E : map rowid (map (fun x => if p x then f x else x) (rows r))
              = map rowid (rows r)).
  { rewrite map_map. apply map_ext. intro x. destruct (p x); [apply Hf | reflexivity]. }
  split; [now rewrite E |].
  rewrite Forall_forall in *. intros y Hy. apply in_map_iff in Hy.
  destruct Hy as (x & <- & Hx). specialize (Hb x Hx).
  destruct (p x); [rewrite Hf |]; exact Hb.
Qed.

Lemma NoDup_map_filter {B} (g : A -> B) (p : A -> bool) (l : list A) :
  NoDup (map g l) -> NoDup (map g (filter p l)).
Proof.
  induction l as [| x l IH]; simpl; [auto |]. intro Hn. inversion Hn; subst.
  destruct (p x); simpl; [| auto].
  constructor; [| auto]. intro Hin. apply in_map_iff in Hin.
  destruct Hin as (y & E & Hy). apply filter_In in Hy. destruct Hy as [Hy _].
  apply H2. rewrite <- E. now apply in_map.
Qed.

Lemma keyed_delete (p : A -> bool) (r : Rel A) : keyed r -> keyed (delete_where p r).
Proof.
  intros [Hn Hb]. unfold keyed. cbn [delete_where rows seq]. split.
  - now apply NoDup_map_filter.
  - rewrite Forall_forall in *. intros x Hx. apply filter_In in Hx. now apply Hb.
Qed.

(** With distinct ids, a row is the one its id retrieves. *)
Lemma keyed_find (r : Rel A) x :
  keyed r -> In x (rows r) -> find (fun y => rowid y =? rowid x) (rows r) = Some x.
Proof.
  intros [Hn _]. induction (rows r) as [| y l IH]; simpl; [contradiction |].
  inversion Hn; subst. intros [-> | Hx].
  - now rewrite Z.eqb_refl.
  - destruct (rowid y =? rowid x) eqn:E; [| auto].
    apply Z.eqb_eq in E. elim H2. rewrite E. now apply in_map.
Qed.
End KeyFacts.

Ltac keys_goal :=
  unfold keeps, keys_hold;
  cbn [tables menu_items staff orders order_items
       with_tables with_menu_items with_staff with_orders with_order_items];
  intros (Kt & Km & Ks & Ko & Ki & Kn);
  refine (conj _ (conj _ (conj _ (conj _ (conj _ _))))); try assumption.

Lemma keys_update_tables now id f db :
  (forall t, t_id (f t) = t_id t /\ t_number (f t) = t_number t) ->
  keeps keys_hold db (update_tables now id f db).
Proof.
  intro Hf. unfold update_tables. keys_goal.
  - apply keyed_update; [| exact Kt]. intro t. apply (Hf t).
  - cbn [update_where rows]. rewrite map_map.
    erewrite map_ext; [exact Kn |]. intro t. cbn.
    destruct (t_id t =? id); [| reflexivity]. apply (Hf t).
Qed.

Lemma keys_update_table_status now s id db :
  keeps keys_hold db (update_table_status now s id db).
Proof. apply keys_update_tables. now split. Qed.

Lemma keys_update_table_status_count now s c id db :
  keeps keys_hold db (update_table_status_count now s c id db).
Proof. apply keys_update_tables. now split. Qed.

Lemma keys_update_table_coalesce now s c id db :
  keeps keys_hold db (update_table_coalesce now s c id db).
Proof. apply keys_update_tables. now split. Qed.

Lemma keys_insert_table now n s c db a db' :
  insert_table now n s c db = Done a db' -> keeps keys_hold db db'.
Proof.
  unfold insert_table. destruct (TableStatus_of_string s) as [st |]; [| discriminate].
  destruct (existsb _ _) eqn:Ex; [discriminate |]. cbn. intro E. injection E as _ <-.
  keys_goal.
  - apply (keyed_insert (fun i => mkTable i n st c now now)); [reflexivity | exact Kt].
  - cbn [rows]. rewrite map_app. cbn [map t_number].
    apply Permutation_NoDup with (l := n :: map t_number (rows (tables db))).
    + apply Permutation_cons_append.
    + constructor; [| exact Kn]. intro Hin. apply in_map_iff in Hin.
      destruct Hin as (t & E & Ht).
      assert (X : existsb (fun t => t_number t =? n) (rows (tables db)) = true).
      { apply existsb_exists. exists t. split; [exact Ht |]. now apply Z.eqb_eq. }
      congruence.
Qed.

Lemma keys_delete_table id db : keeps keys_hold db (delete_table id db).
Proof.
  unfold delete_table. keys_goal; try (now apply keyed_delete).
  cbn [delete_where rows]. now apply NoDup_map_filter.
Qed.

Lemma keys_insert_order now tableId total staffId db a db' :
  insert_order now tableId total staffId db = Done a db' -> keeps keys_hold db db'.
Proof.
  intro E. apply insert_order_done in E. destruct E as (_ & _ & ->).
  keys_goal.
  now apply (keyed_insert (fun i => mkOrder i tableId total Pending staffId now now)).
Qed.

Lemma keys_insert_order_item now oid l db a db' :
  insert_order_item now oid l db = Done a db' -> keeps keys_hold db db'.
Proof.
  intro E. apply insert_order_item_done in E. subst db'. keys_goal.
  now apply (keyed_insert (line_row now oid l)).
Qed.

Lemma keys_update_order now s staffId id db a db' :
  update_order now s staffId id db = Done a db' -> keeps keys_hold db db'.
Proof.
  intro E. apply update_order_done in E. subst db'. keys_goal.
  now apply keyed_update.
Qed.

Lemma keys_update_order_status now s id db a db' :
  update_order_status now s id db = Done a db' -> keeps keys_hold db db'.
Proof.
  unfold update_order_status. destruct id; intro E; injection E as _ <-;
    [| apply keeps_reflexive].
  keys_goal. now apply keyed_update.
Qed.

Lemma keys_delete_order id db : keeps keys_hold db (delete_order id db).
Proof. unfold delete_order. keys_goal; now apply keyed_delete. Qed.

Lemma keys_insert_menu_item now n p c i av db a db' :
  insert_menu_item now n p c i av db = Done a db' -> keeps keys_hold db db'.
Proof.
  intro E. apply insert_menu_item_done in E. destruct E as (_ & _ & ->). keys_goal.
  now apply (keyed_insert (fun k => mkMenuItem k n p c i av now now)).
Qed.

Lemma keys_update_menu_item now n p c i av id db :
  keeps keys_hold db (update_menu_item now n p c i av id db).
Proof. unfold update_menu_item. keys_goal. now apply keyed_update. Qed.

Lemma keys_delete_menu_item id db : keeps keys_hold db (delete_menu_item id db).
Proof. unfold delete_menu_item. keys_goal; now apply keyed_delete. Qed.

Lemma keys_insert_staff now n r sh s av db a db' :
  insert_staff now n r sh s av db = Done a db' -> keeps keys_hold db db'.
Proof.
  unfold insert_staff. cbn. intro E. injection E as _ <-. keys_goal.
  now apply (keyed_insert (fun k => mkStaff k n r sh s av now now)).
Qed.

Lemma keys_update_staff now n r sh s av id db :
  keeps keys_hold db (update_staff now n r sh s av id db).
Proof. unfold update_staff. keys_goal. now apply keyed_update. Qed.

Lemma keys_delete_staff now id db : keeps keys_hold db (delete_staff now id db).
Proof.
  unfold delete_staff. keys_goal; [now apply keyed_delete | now apply keyed_update].
Qed.

Create HintDb keys.
#[local] Hint Resolve keeps_reflexive keys_update_table_status keys_update_table_status_count
  keys_update_table_coalesce keys_insert_table keys_delete_table keys_insert_order
  keys_insert_order_item keys_update_order keys_update_order_status keys_delete_order
  keys_insert_menu_item keys_update_menu_item keys_delete_menu_item keys_insert_staff
  keys_update_staff keys_delete_staff : keys.

Ltac invariant_tac db :=
  match goal with
  | |- preserves (keeps ?I) _ =>
      preserves_tac (@keeps_reflexive I) (@keeps_transitive I); eauto with db
  end.

(** Every handler body keeps an invariant that each of its statements
    keeps. *)
Ltac run_invariant_tac db :=
  match goal with
  | |- preserves (keeps ?I) _ =>
      let Hr := constr:(@keeps_reflexive I) in
      let Ht := constr:(@keeps_transitive I) in
      first
        [ unfold Orders.POST_body, Orders.create;
          destruct (Orders.tableId _); [| invariant_tac db];
          destruct (Orders.items _) as [[| ? ?] |]; try solve [invariant_tac db];
          destruct (_ =? 0); [invariant_tac db |];
          apply preserves_bind; [exact Ht | invariant_tac db |];
          intros [? |]; [| invariant_tac db];
          apply preserves_bind;
            [exact Ht | apply preserves_readonly; [exact Hr | apply readonly_price_items] |];
          intros [? ?]; invariant_tac db
        | unfold OrdersAlt.POST_body, OrdersAlt.create;
          destruct (OrdersAlt.tableId _); [| invariant_tac db];
          destruct (OrdersAlt.items _) as [[| ? ?] |]; try solve [invariant_tac db];
          destruct (_ =? 0); [invariant_tac db |];
          apply preserves_bind;
            [exact Ht | apply preserves_readonly; [exact Hr | apply alt_readonly_price_items] |];
          intros [? ?]; invariant_tac db ]
  end.

Lemma run_keeps_keys flt now op db resp db' :
  run flt now op db = (resp, db') -> keys_hold db -> keys_hold db'.
Proof.
  intro E. change (keeps keys_hold db db').
  destruct op; cbn [run] in E;
    (eapply preserves_handle; [| exact E]).
  - run_invariant_tac keys.
  - run_invariant_tac keys.
  - unfold OrderById.PUT_body, OrderById.update, OrderById.table_status_for.
    invariant_tac keys.
  - unfold OrderById.DELETE_body, OrderById.cancel. invariant_tac keys.
  - unfold OrderStatusRoute.PATCH_body, OrderStatusRoute.free_table_when_paid.
    invariant_tac keys.
  - apply preserves_readonly; [exact (@keeps_reflexive keys_hold) | apply readonly_GET_body].
  - unfold TablesSync.POST_body, TablesSync.sync_table. invariant_tac keys.
  - unfold Tables.POST_body. invariant_tac keys.
  - unfold TableById.PUT_body. invariant_tac keys.
  - unfold TableById.DELETE_body. invariant_tac keys.
  - unfold Menu.POST_body. invariant_tac keys.
  - unfold MenuById.PUT_body. invariant_tac keys.
  - unfold MenuById.DELETE_body. invariant_tac keys.
  - unfold StaffRoute.POST_body. invariant_tac keys.
  - unfold StaffById.PUT_body. invariant_tac keys.
  - unfold StaffById.DELETE_body. invariant_tac keys.
Qed.

(* ================================================================= *)
(** ** References: every reachable store satisfies the four foreign keys *)

Lemma staff_ref_ok_frame x a b : staff b = staff a -> staff_ref_ok x b = staff_ref_ok x a.
Proof. intro E. unfold staff_ref_ok. now rewrite E. Qed.

(** The orders are the same, and the tables and staff they refer to are
    still there. *)
Lemma refer_same_orders a b :
  orders b = orders a ->
  (forall i, has_rowid i (tables a) = true -> has_rowid i (tables b) = true) ->
  (forall i, has_rowid i (staff a) = true -> has_rowid i (staff b) = true) ->
  keeps orders_refer a b.
Proof.
  intros Eo Ht Hs [Ha Hb]. unfold orders_refer, orders_have_table, orders_have_staff in *.
  rewrite Eo. rewrite Forall_forall in Ha, Hb. split; apply Forall_forall; intros o Ho.
  - apply Ht, Ha, Ho.
  - specialize (Hb o Ho). unfold staff_ref_ok in *. destruct (o_staff_id o); auto.
Qed.

Lemma refer_update_tables now id f db :
  (forall t, t_id (f t) = t_id t) -> keeps orders_refer db (update_tables now id f db).
Proof.
  intro Hf. apply refer_same_orders; cbn; auto.
  intro i. apply has_rowid_update. intro t. apply (Hf t).
Qed.

Lemma refer_update_table_status now s id db :
  keeps orders_refer db (update_table_status now s id db).
Proof. now apply refer_update_tables. Qed.

Lemma refer_update_table_status_count now s c id db :
  keeps orders_refer db (update_table_status_count now s c id db).
Proof. now apply refer_update_tables. Qed.

Lemma refer_update_table_coalesce now s c id db :
  keeps orders_refer db (update_table_coalesce now s c id db).
Proof. now apply refer_update_tables. Qed.

Lemma refer_insert_table now n s c db a db' :
  insert_table now n s c db = Done a db' -> keeps orders_refer db db'.
Proof.
  unfold insert_table. destruct (TableStatus_of_string s) as [st |]; [| discriminate].
  destruct (existsb _ _); [discriminate |]. cbn. intro E. injection E as _ <-.
  apply refer_same_orders; cbn; auto.
  intro i. apply (has_rowid_append (fun k => mkTable k n st c now now)).
Qed.

Lemma refer_insert_staff now n r sh s av db a db' :
  insert_staff now n r sh s av db = Done a db' -> keeps orders_refer db db'.
Proof.
  unfold insert_staff. cbn. intro E. injection E as _ <-.
  apply refer_same_orders; cbn; auto.
  intro i. apply (has_rowid_append (fun k => mkStaff k n r sh s av now now)).
Qed.

Lemma refer_update_staff now n r sh s av id db :
  keeps orders_refer db (update_staff now n r sh s av id db).
Proof.
  apply refer_same_orders; cbn; auto. intro i. apply has_rowid_update. reflexivity.
Qed.

Lemma refer_insert_menu_item now n p c i av db a db' :
  insert_menu_item now n p c i av db = Done a db' -> keeps orders_refer db db'.
Proof.
  intro E. apply insert_menu_item_done in E. destruct E as (_ & _ & ->).
  apply refer_same_orders; cbn; auto.
Qed.

Lemma refer_update_menu_item now n p c i av id db :
  keeps orders_refer db (update_menu_item now n p c i av id db).
Proof. apply refer_same_orders; cbn; auto. Qed.

Lemma refer_delete_menu_item id db : keeps orders_refer db (delete_menu_item id db).
Proof. apply refer_same_orders; cbn; auto. Qed.

Lemma refer_insert_order_item now oid l db a db' :
  insert_order_item now oid l db = Done a db' -> keeps orders_refer db db'.
Proof.
  intro E. apply insert_order_item_done in E. subst db'.
  apply refer_same_orders; cbn; auto.
Qed.

Lemma refer_insert_order now tableId total staffId db a db' :
  insert_order now tableId total staffId db = Done a db' -> keeps orders_refer db db'.
Proof.
  unfold insert_order. destruct (sql_real total) as [amount |]; [| discriminate].
  destruct (has_rowid tableId (tables db)) eqn:Ht; [| discriminate].
  destruct (staff_ref_ok staffId db) eqn:Hs; [| discriminate].
  cbn. intro E. injection E as _ <-.
  intros [Ha Hb]. unfold orders_refer, orders_have_table, orders_have_staff in *. cbn.
  split; apply Forall_app; split; try assumption; repeat constructor; cbn; assumption.
Qed.

Lemma refer_update_order now s staffId id db a db' :
  update_order now s staffId id db = Done a db' -> keeps orders_refer db db'.
Proof.
  unfold update_order.
  destruct (has_rowid id (orders db) && negb (staff_ref_ok staffId db)) eqn:C;
    [discriminate |].
  intro E. injection E as _ <-.
  intros [Ha Hb]. unfold orders_refer, orders_have_table, orders_have_staff in *.
  cbn [orders tables with_orders update_where rows].
  rewrite Forall_forall in Ha, Hb.
  split; apply Forall_forall; intros o' Ho'; apply in_map_iff in Ho';
    destruct Ho' as (o & <- & Ho);
    destruct (o_id o =? id) eqn:Eid; try exact (Ha o Ho); try exact (Hb o Ho); cbn.
  destruct staffId as [v |]; [| exact (Hb o Ho)].
  assert (Hid : has_rowid id (orders db) = true).
  { apply has_rowid_true. exists o. split; [exact Ho |]. now apply Z.eqb_eq. }
  rewrite Hid in C. cbn in C. apply negb_false_iff in C. exact C.
Qed.

Lemma refer_update_order_status now s id db a db' :
  update_order_status now s id db = Done a db' -> keeps orders_refer db db'.
Proof.
  unfold update_order_status. destruct id as [i |]; intro E; injection E as _ <-;
    [| apply keeps_reflexive].
  intros [Ha Hb]. unfold orders_refer, orders_have_table, orders_have_staff in *.
  cbn [orders tables with_orders update_where rows].
  rewrite Forall_forall in Ha, Hb.
  split; apply Forall_forall; intros o' Ho'; apply in_map_iff in Ho';
    destruct Ho' as (o & <- & Ho);
    destruct (o_id o =? i); first [exact (Ha o Ho) | exact (Hb o Ho)].
Qed.

Lemma refer_delete_order id db : keeps orders_refer db (delete_order id db).
Proof.
  intros [Ha Hb]. unfold orders_refer, orders_have_table, orders_have_staff in *.
  cbn [delete_order orders tables with_orders with_order_items delete_where rows].
  rewrite Forall_forall in Ha, Hb.
  split; apply Forall_forall; intros o Ho; apply filter_In in Ho; destruct Ho as [Ho _];
    [now apply Ha | now apply Hb].
Qed.

Lemma refer_delete_table id db : keeps orders_refer db (delete_table id db).
Proof.
  intros [Ha Hb]. unfold orders_refer, orders_have_table, orders_have_staff in *.
  cbn [delete_table orders tables with_orders with_order_items with_tables
       delete_where rows].
  rewrite Forall_forall in Ha, Hb.
  split; apply Forall_forall; intros o Ho; apply filter_In in Ho; destruct Ho as [Ho Hn].
  - apply has_rowid_delete; [| now apply Ha].
    intros t _ E. change (@rowid Table _ t) with (t_id t) in E. rewrite E.
    now apply negb_true_iff in Hn.
  - now apply Hb.
Qed.

Lemma refer_delete_staff now id db : keeps orders_refer db (delete_staff now id db).
Proof.
  intros [Ha Hb]. unfold orders_refer, orders_have_table, orders_have_staff in *.
  cbn [delete_staff orders tables with_orders with_staff update_where rows].
  rewrite Forall_forall in Ha, Hb.
  split; apply Forall_forall; intros o' Ho'; apply in_map_iff in Ho';
    destruct Ho' as (o & <- & Ho).
  - destruct (match o_staff_id o with Some s => s =? id | None => false end);
      exact (Ha o Ho).
  - specialize (Hb o Ho). unfold staff_ref_ok in *.
    destruct (o_staff_id o) as [s |] eqn:Es; [| now rewrite Es].
    destruct (s =? id) eqn:Eid; [reflexivity |]. rewrite Es.
    cbn [staff with_orders with_staff].
    apply has_rowid_delete; [| exact Hb].
    intros x _ E. change (@rowid Staff _ x) with (s_id x) in E. now rewrite E.
Qed.

Create HintDb refer.
#[local] Hint Resolve keeps_reflexive refer_update_table_status
  refer_update_table_status_count refer_update_table_coalesce refer_insert_table
  refer_delete_table refer_insert_order refer_insert_order_item refer_update_order
  refer_update_order_status refer_delete_order refer_insert_menu_item
  refer_update_menu_item refer_delete_menu_item refer_insert_staff refer_update_staff
  refer_delete_staff : refer.

Lemma run_keeps_orders_refer flt now op db resp db' :
  run flt now op db = (resp, db') -> orders_refer db -> orders_refer db'.
Proof.
  intro E. change (keeps orders_refer db db').
  destruct op; cbn [run] in E; (eapply preserves_handle; [| exact E]).
  - run_invariant_tac refer.
  - run_invariant_tac refer.
  - unfold OrderById.PUT_body, OrderById.update, OrderById.table_status_for.
    invariant_tac refer.
  - unfold OrderById.DELETE_body, OrderById.cancel. invariant_tac refer.
  - unfold OrderStatusRoute.PATCH_body, OrderStatusRoute.free_table_when_paid.
    invariant_tac refer.
  - apply preserves_readonly; [exact (@keeps_reflexive orders_refer) | apply readonly_GET_body].
  - unfold TablesSync.POST_body, TablesSync.sync_table. invariant_tac refer.
  - unfold Tables.POST_body. invariant_tac refer.
  - unfold TableById.PUT_body. invariant_tac refer.
  - unfold TableById.DELETE_body. invariant_tac refer.
  - unfold Menu.POST_body. invariant_tac refer.
  - unfold MenuById.PUT_body. invariant_tac refer.
  - unfold MenuById.DELETE_body. invariant_tac refer.
  - unfold StaffRoute.POST_body. invariant_tac refer.
  - unfold StaffById.PUT_body. invariant_tac refer.
  - unfold StaffById.DELETE_body. invariant_tac refer.
Qed.

Lemma reachable_sound db : reachable db -> keys_hold db /\ references_hold db.
Proof.
  induction 1 as [| flt now op db Hr [Hk [Ho Hw]]].
  - repeat split; constructor.
  - split; [| split].
    + eapply run_keeps_keys; [apply surjective_pairing | exact Hk].
    + eapply run_keeps_orders_refer; [apply surjective_pairing | exact Ho].
    + eapply run_keeps_well_formed; [apply surjective_pairing | exact Hw].
Qed.

(* ================================================================= *)
(** ** Reading back what was written *)

Ltac bind_val E a st1 E1 E2 :=
  apply bind_inv in E;
  destruct E as [(a & st1 & E1 & E2) | [(? & _ & ?) | (? & _ & ?)]]; try discriminate.

Ltac query_val E :=
  apply query_inv in E; destruct E as [? [E | E]]; try discriminate; injection E as E.

Lemma create_val_id now tableId total staffId lines flt st oid st' :
  Orders.create now tableId total staffId lines flt st = (Val oid, st') ->
  oid = next_rowid (orders (st_db st)).
Proof.
  unfold Orders.create. intro E.
  bind_val E a st1 E1 E2.
  apply stmt_inv in E1.
  destruct E1 as [_ [(_ & D & _) | [(_ & a' & F & V) | (_ & e & _ & D & _)]]];
    try discriminate.
  injection V as V. subst a'.
  apply insert_order_done in F. destruct F as (_ & Hid & _).
  bind_val E2 u st2 E2 E3. bind_val E3 u' st3 E3 E4. inversion E4. congruence.
Qed.

Lemma alt_create_val_id now tableId total lines flt st oid st' :
  OrdersAlt.create now tableId total lines flt st = (Val oid, st') ->
  oid = next_rowid (orders (st_db st)).
Proof.
  unfold OrdersAlt.create. intro E.
  bind_val E a st1 E1 E2.
  apply stmt_inv in E1.
  destruct E1 as [_ [(_ & D & _) | [(_ & a' & F & V) | (_ & e & _ & D & _)]]];
    try discriminate.
  injection V as V. subst a'.
  apply insert_order_done in F. destruct F as (_ & Hid & _).
  bind_val E2 u st2 E2 E3. bind_val E3 u' st3 E3 E4. inversion E4. congruence.
Qed.

Lemma transaction_val {A} (m : M A) flt st a st' :
  transaction m flt st = (Val a, st') -> m flt st = (Val a, st').
Proof.
  intro E. apply transaction_atomic in E.
  destruct E as [(e & D & _) | [_ E]]; [discriminate | exact E].
Qed.

(** A creation that answers at all answers with the order as stored. *)
Lemma Orders_POST_body_val now req flt st r st' :
  Orders.POST_body now req flt st = (Val r, st') ->
  exists tableId total staffId lines,
    let oid := next_rowid (orders (st_db st)) in
    Orders.tableId req = Some tableId /\
    st_db st' = created now tableId total staffId lines (st_db st) /\
    r = json_status (OrderJson (select_order_view oid (st_db st'))
                               (select_item_views oid (st_db st'))) 201.
Proof.
  unfold Orders.POST_body.
  destruct (Orders.tableId req) as [tableId |]; [| discriminate].
  destruct (Orders.items req) as [[| i l] |]; try discriminate.
  destruct (tableId =? 0); [discriminate |].
  intro E. bind_val E t st1 E1 E2. query_val E1.
  destruct t as [t |]; [| discriminate].
  bind_val E2 priced st2 E2 E3. destruct priced as [total data].
  apply price_items_inv in E2. destruct E2 as [D2 _].
  bind_val E3 oid st3 E3 E4. apply transaction_val in E3.
  pose proof (create_val_id _ _ _ _ _ _ _ E3) as Hid.
  apply create_val in E3.
  bind_val E4 v st4 E4 E5. query_val E4. bind_val E5 w st5 E5 E6. query_val E5.
  inversion E6; subst. clear E6.
  exists tableId, total, (or_nullZ (Orders.staffId req)), data. cbv zeta.
  assert (D : st_db st' = created now tableId total (or_nullZ (Orders.staffId req)) data
                                  (st_db st)) by congruence.
  split; [reflexivity |]. split; [exact D | congruence].
Qed.

Lemma OrdersAlt_POST_body_val now req flt st r st' :
  OrdersAlt.POST_body now req flt st = (Val r, st') ->
  exists tableId total lines,
    OrdersAlt.tableId req = Some tableId /\
    st_db st' = created now tableId total None lines (st_db st) /\
    r = json_status (OrderCreatedJson "Order created successfully"
                                      (next_rowid (orders (st_db st))) total) 201.
Proof.
  unfold OrdersAlt.POST_body.
  destruct (OrdersAlt.tableId req) as [tableId |]; [| discriminate].
  destruct (OrdersAlt.items req) as [[| i l] |]; try discriminate.
  destruct (tableId =? 0); [discriminate |].
  intro E. bind_val E priced st2 E2 E3. destruct priced as [total data].
  apply alt_price_items_inv in E2. destruct E2 as [D2 _].
  bind_val E3 oid st3 E3 E4. apply transaction_val in E3.
  pose proof (alt_create_val_id _ _ _ _ _ _ E3) as Hid.
  apply alt_create_val in E3. destruct E3 as (_ & E3).
  inversion E4; subst. clear E4.
  exists tableId, total, data. split; [reflexivity |]. split; congruence.
Qed.

Lemma handle_val m on_error flt db resp db' code :
  handle m on_error flt db = (resp, db') ->
  http_status resp = code ->
  (forall r st, m flt (mkSt db 0) = (Reply r, st) -> http_status r <> code) ->
  (forall e, http_status (on_error e) <> code) ->
  exists st, m flt (mkSt db 0) = (Val resp, st) /\ st_db st = db'.
Proof.
  unfold handle. destruct (m flt (mkSt db 0)) as [[r | r | e] st1] eqn:E;
    intros E' Hc Hr He; inversion E'; subst.
  - now exists st1.
  - now elim (Hr _ _ eq_refl).
  - now elim (He e).
Qed.

Lemma created_order_found now tableId total staffId lines db :
  select_order (next_rowid (orders db)) (created now tableId total staffId lines db)
    = Some (mkOrder (next_rowid (orders db)) tableId total Pending staffId now now).
Proof.
  unfold select_order, get_where.
  exact (find_fresh_insert (fun i => mkOrder i tableId total Pending staffId now now)
                           (orders db) (fun k => eq_refl)).
Qed.

Lemma readonly_OrderById_GET id : readonly (Get.OrderById.GET_body id).
Proof.
  unfold Get.OrderById.GET_body, readonly.
  preserves_tac (@eq_refl Db) (@eq_trans Db).
Qed.

Lemma OrderById_GET_no_faults oid db :
  Get.OrderById.GET no_faults (Some oid) db =
    (match select_order_view oid db with
     | Some view => json (OrderJson (Some view) (select_item_views oid db))
     | None => error_response "Order not found" 404
     end, db).
Proof.
  unfold Get.OrderById.GET, handle, Get.OrderById.GET_body, bind, query, stmt.
  cbn [no_faults st_db st_tick]. destruct (select_order_view oid db); reflexivity.
Qed.

(** X5: an order that was created can be fetched. When either creation
    route answers 201, [GET /api/orders/{id}] on the store it leaves, with
    the id it answered, gives the order; for the first route it is the very
    body of the 201 answer, for the second it is a Pending order of the
    requested table whose total is the one answered. *)
Theorem created_order_is_fetched now db :
  (forall flt req resp db',
     Orders.POST flt now req db = (resp, db') -> http_status resp = 201 ->
     exists view views,
       resp = json_status (OrderJson (Some view) views) 201 /\
       Get.OrderById.GET no_faults (Some (o_id (ov_order view))) db'
         = (json (OrderJson (Some view) views), db')) /\
  (forall flt req resp db',
     OrdersAlt.POST flt now req db = (resp, db') -> http_status resp = 201 ->
     exists orderId total view views,
       resp = json_status (OrderCreatedJson "Order created successfully" orderId total)
                          201 /\
       Get.OrderById.GET no_faults (Some orderId) db'
         = (json (OrderJson (Some view) views), db') /\
       o_id (ov_order view) = orderId /\ o_total_amount (ov_order view) = total /\
       o_status (ov_order view) = Pending /\
       OrdersAlt.tableId req = Some (o_table_id (ov_order view))).
Proof.
  split.
  - intros flt req resp db' E H.
    destruct (@handle_val _ _ _ _ _ _ 201 E H) as (st & Ev & <-).
    { intros r st Er. apply Orders_POST_body_inv in Er.
      destruct Er as [[_ Er] | (? & ? & _ & _ & _ & [])]. destruct Er as [-> | ->]; discriminate. }
    { discriminate. }
    apply Orders_POST_body_val in Ev.
    destruct Ev as (tableId & total & staffId & lines & _ & D & ->). cbn [st_db] in *.
    assert (So : select_order (next_rowid (orders db)) (st_db st)
                 = Some (mkOrder (next_rowid (orders db)) tableId total Pending staffId now now))
      by (rewrite D; apply created_order_found).
    exists (order_view (st_db st) (mkOrder (next_rowid (orders db)) tableId total Pending
                                           staffId now now)),
           (select_item_views (next_rowid (orders db)) (st_db st)).
    cbn [ov_order order_view o_id]. rewrite OrderById_GET_no_faults.
    unfold select_order_view. rewrite So. now split.
  - intros flt req resp db' E H.
    destruct (@handle_val _ _ _ _ _ _ 201 E H) as (st & Ev & <-).
    { intros r st Er. apply OrdersAlt_POST_body_inv in Er.
      destruct Er as [[_ Er] | (? & ? & _ & _ & _ & [])]. rewrite Er. discriminate. }
    { discriminate. }
    apply OrdersAlt_POST_body_val in Ev.
    destruct Ev as (tableId & total & lines & Ht & D & ->). cbn [st_db] in *.
    assert (So : select_order (next_rowid (orders db)) (st_db st)
                 = Some (mkOrder (next_rowid (orders db)) tableId total Pending None now now))
      by (rewrite D; apply created_order_found).
    exists (next_rowid (orders db)), total,
           (order_view (st_db st) (mkOrder (next_rowid (orders db)) tableId total Pending
                                           None now now)),
           (select_item_views (next_rowid (orders db)) (st_db st)).
    rewrite OrderById_GET_no_faults. unfold select_order_view. rewrite So.
    cbn. repeat split. exact Ht.
Qed.

Lemma created_order_is_fetched_witness :
  exists view views,
    fst (Orders.POST no_faults 100 sample_request sample_db)
      = json_status (OrderJson (Some view) views) 201 /\
    Get.OrderById.GET no_faults (Some (o_id (ov_order view))) sample_db_order
      = (json (OrderJson (Some view) views), sample_db_order).
Proof.
  apply (proj1 (created_order_is_fetched 100 sample_db) no_faults sample_request).
  - apply surjective_pairing.
  - vm_compute. reflexivity.
Defined.

Lemma DELETE_body_val now oid flt st r st' :
  OrderById.DELETE_body now (Some oid) flt st = (Val r, st') ->
  exists o, select_order oid (st_db st) = Some o /\ o_status o = Pending.
Proof.
  unfold OrderById.DELETE_body. intro E. bind_val E existing st1 E1 E2. query_val E1.
  destruct existing as [o |]; [| discriminate].
  destruct (OrderStatus_eqb (o_status o) Pending) eqn:P; [| discriminate].
  exists o. split; [congruence |]. now apply OrderStatus_eqb_eq.
Qed.

Lemma DELETE_body_reply now id flt st r st' :
  OrderById.DELETE_body now id flt st = (Reply r, st') ->
  http_status r = 400 \/ http_status r = 404.
Proof.
  unfold OrderById.DELETE_body. destruct id as [oid |];
    [| intro E; inversion E; now left].
  intro E. apply bind_inv in E.
  destruct E as [(existing & st1 & _ & E2) | [(r1 & E1 & _) | (e & _ & D)]];
    [| now elim (@quiet_stmt _ _ _ _ _ _ E1 r1) | discriminate].
  destruct existing as [o |]; [| inversion E2; now right].
  destruct (negb (OrderStatus_eqb (o_status o) Pending)); [inversion E2; now left |].
  exfalso. revert E2. unfold OrderById.cancel.
  match goal with |- ?m flt st1 = _ -> _ => assert (Q : quiet m) by quiet_tac end.
  intro E2. exact (Q _ _ _ _ E2 r eq_refl).
Qed.

Lemma find_filter_none {A} (p : A -> bool) (l : list A) :
  find p (filter (fun x => negb (p x)) l) = None.
Proof.
  induction l as [| x l IH]; simpl; [reflexivity |].
  destruct (p x) eqn:E; simpl; [exact IH | now rewrite E].
Qed.

Lemma filter_filter_none {A} (p : A -> bool) (l : list A) :
  filter p (filter (fun x => negb (p x)) l) = [].
Proof.
  induction l as [| x l IH]; simpl; [reflexivity |].
  destruct (p x) eqn:E; simpl; [exact IH | now rewrite E].
Qed.

(** X6: an order that was cancelled is gone. When [DELETE /api/orders/{id}]
    answers 200 the order was there before, [GET /api/orders/{id}] answers
    404 afterwards, no line of the order is left, and the order is in the
    order listing of no table. *)
Theorem cancelled_order_is_gone flt now oid db resp db' :
  OrderById.DELETE flt now (Some oid) db = (resp, db') -> http_status resp = 200 ->
  select_order oid db <> None /\
  Get.OrderById.GET no_faults (Some oid) db' = (error_response "Order not found" 404, db') /\
  select_item_views oid db' = [] /\
  forall tableId, ~ In oid (map (fun p => o_id (ov_order (fst p))) (listing tableId db')).
Proof.
  intros E H.
  destruct (@handle_val _ _ _ _ _ _ 200 E H) as (st & Ev & _).
  { intros r st Er. apply DELETE_body_reply in Er. destruct Er as [-> | ->]; discriminate. }
  { discriminate. }
  apply DELETE_body_val in Ev. destruct Ev as (o & So & Po). cbn [st_db] in So.
  destruct (@cancel_success now db oid o flt resp db' So Po E) as [_ C]. specialize (C H).
  destruct C as (Ro & Ri & _).
  assert (N : select_order oid db' = None).
  { unfold select_order, get_where. rewrite Ro. apply find_filter_none. }
  split; [congruence |]. split.
  - rewrite OrderById_GET_no_faults. unfold select_order_view. now rewrite N.
  - split.
    + unfold select_item_views, select_where. rewrite Ri.
      now rewrite (filter_filter_none (fun i => oi_order_id i =? oid)).
    + intros tableId Hin. unfold listing in Hin. rewrite !map_map in Hin. cbn in Hin.
      apply in_map_iff in Hin. destruct Hin as (x & Ex & Hx).
      apply (Permutation_in _ (order_by_created_desc_perm _)) in Hx.
      apply active_orders_In in Hx. destruct Hx as [Hx _]. rewrite Ro in Hx.
      apply filter_In in Hx. destruct Hx as [_ Hx]. rewrite Ex, Z.eqb_refl in Hx.
      discriminate.
Qed.

Lemma cancelled_order_is_gone_witness :
  let db' := snd (OrderById.DELETE no_faults 200 (Some 1) sample_db_order) in
  Get.OrderById.GET no_faults (Some 1) db' = (error_response "Order not found" 404, db').
Proof.
  cbv zeta.
  apply (@cancelled_order_is_gone no_faults 200 1 sample_db_order
           (fst (OrderById.DELETE no_faults 200 (Some 1) sample_db_order))).
  - apply surjective_pairing.
  - vm_compute. reflexivity.
Defined.

(* ================================================================= *)
(** ** [GET /api/orders]: the filtered listing *)

Lemma Orders_with_items_no_faults l st :
  Get.Orders.with_items l no_faults st =
    (Val (map (fun order => (order, select_item_views (o_id (ov_order order)) (st_db st))) l),
     mkSt (st_db st) (List.length l + st_tick st)).
Proof.
  revert st. induction l as [| x r IH]; intro st.
  - destruct st; reflexivity.
  - cbn [Get.Orders.with_items]. unfold bind at 1, query at 1, stmt at 1.
    cbn beta iota delta [no_faults st_db st_tick].
    unfold bind at 1. rewrite IH. cbn [st_db st_tick map List.length ret].
    unfold ret. do 2 f_equal. lia.
Qed.

Lemma steady_Orders_with_items l : steady (Get.Orders.with_items l).
Proof. induction l as [| x r IH]; simpl; steady_tac. Qed.

Lemma readonly_Orders_with_items l : readonly (Get.Orders.with_items l).
Proof.
  unfold readonly. induction l as [| x r IH]; simpl.
  - now apply preserves_ret.
  - apply preserves_bind; [congruence | now apply preserves_query |].
    intro a. apply preserves_bind; [congruence | exact IH |].
    intro b. now apply preserves_ret.
Qed.

Lemma readonly_Orders_GET q : readonly (Get.Orders.GET_body q).
Proof.
  unfold readonly, Get.Orders.GET_body.
  apply preserves_bind; [congruence | | intro; apply readonly_Orders_with_items].
  apply preserves_stmt; [reflexivity |]. intros db a db'.
  unfold Get.Orders.select_orders. destruct (Get.Orders.limit q) as [[n |] |]; congruence.
Qed.

Lemma readonly_handle_list {A} (m : M (list A)) on_error flt db r db' :
  readonly m -> handle_list m on_error flt db = (r, db') -> db' = db.
Proof.
  intros Hm. unfold handle_list.
  destruct (m flt (mkSt db 0)) as [[a | x | e] st1] eqn:E; intro E'; inversion E'; subst;
    symmetry; apply (Hm _ _ _ _ E).
Qed.

Lemma steady_handle_list {A} (m : M (list A)) on_error flt db l db' :
  steady m -> handle_list m on_error flt db = (Rows l, db') ->
  handle_list m on_error no_faults db = (Rows l, db').
Proof.
  intros Hm. unfold handle_list.
  destruct (m flt (mkSt db 0)) as [[a | x | e] st1] eqn:E; intro E'; inversion E'; subst.
  now rewrite (Hm _ _ _ _ E) by discriminate.
Qed.

Lemma Orders_GET_no_faults q db :
  Get.Orders.GET no_faults q db =
    (match Get.Orders.select_orders q db with
     | Done found _ =>
         Rows (map (fun order => (order, select_item_views (o_id (ov_order order)) db)) found)
     | Fail _ => NoRows (error_response "Failed to fetch orders" 500)
     end, db).
Proof.
  unfold Get.Orders.GET, handle_list, Get.Orders.GET_body.
  unfold bind at 1, stmt at 1. cbn beta iota delta [no_faults st_db st_tick].
  assert (D : forall found d, Get.Orders.select_orders q db = Done found d -> d = db).
  { unfold Get.Orders.select_orders.
    destruct (Get.Orders.limit q) as [[n |] |]; congruence. }
  destruct (Get.Orders.select_orders q db) as [found d | e] eqn:S; [| reflexivity].
  rewrite (D _ _ eq_refl). rewrite Orders_with_items_no_faults. reflexivity.
Qed.

Section SortedPrefix.
Context {A : Type} (R : A -> A -> Prop).

Lemma firstn_In k : forall (l : list A) x, In x (firstn k l) -> In x l.
Proof.
  induction k as [| k IH]; intros l x Hx; [contradiction |].
  destruct l as [| y l]; [contradiction |]. cbn in Hx.
  destruct Hx as [-> | Hx]; [now left | right; now apply IH].
Qed.

Lemma sorted_firstn k : forall l, StronglySorted R l -> StronglySorted R (firstn k l).
Proof.
  induction k as [| k IH]; intros l Hl; [constructor |].
  destruct l as [| x l]; [constructor |]. cbn.
  apply StronglySorted_inv in Hl. destruct Hl as [Hl Hx].
  constructor; [now apply IH |].
  rewrite Forall_forall in *. intros y Hy. apply Hx. eapply firstn_In; exact Hy.
Qed.

Lemma sorted_prefix_first k : forall l,
  StronglySorted R l -> forall a b, In a (firstn k l) -> In b l -> ~ In b (firstn k l) ->
  R a b.
Proof.
  induction k as [| k IH]; intros l Hl a b Ha Hb Hn; [contradiction |].
  destruct l as [| x l]; [contradiction |]. cbn in *.
  apply StronglySorted_inv in Hl. destruct Hl as [Hl Hx].
  destruct Hb as [-> | Hb]; [elim Hn; now left |].
  destruct Ha as [<- | Ha].
  - rewrite Forall_forall in Hx. now apply Hx.
  - apply (IH l); auto.
Qed.
End SortedPrefix.

Lemma listed_orders_views {B} (items : OrderView -> B) db (l : list Order) :
  listed_orders (map (fun order => (order, items order)) (map (order_view db) l)) = l.
Proof.
  unfold listed_orders. rewrite !map_map. cbn. apply map_id.
Qed.

Lemma Orders_GET_rows q db l :
  Get.Orders.GET no_faults q db = (Rows l, db) ->
  exists k,
    let sorted := order_by_created_desc (select_where (Get.Orders.matches q) (orders db)) in
    l = map (fun order => (order, select_item_views (o_id (ov_order order)) db))
            (map (order_view db) (firstn k sorted)) /\
    Nat.min k (List.length sorted) =
      match Get.Orders.limit q with
      | Some (Some n) => if n <? 0 then List.length sorted
                         else Nat.min (Z.to_nat n) (List.length sorted)
      | _ => List.length sorted
      end.
Proof.
  rewrite Orders_GET_no_faults. unfold Get.Orders.select_orders.
  set (sorted := order_by_created_desc _).
  destruct (Get.Orders.limit q) as [[n |] |]; intro E; try discriminate;
    injection E as <-; cbv zeta.
  - destruct (n <? 0).
    + exists (List.length sorted). rewrite firstn_all. split; [reflexivity | lia].
    + exists (Z.to_nat n). now rewrite firstn_map.
  - exists (List.length sorted). rewrite firstn_all. split; [reflexivity | lia].
Qed.

(** X7: the listing [GET /api/orders] of the first route. An order matches
    when its status is the (non-empty) [status] given and its table is the
    [tableId] given, a [tableId] that is not a number matching no order.
    Unless [limit] is given and is not a number the listing succeeds when
    the store does not fail. It never writes, and what it returns is
    sorted newest first, consists of matching orders that are at least as
    new as every matching order left out, has as many orders as the limit
    allows (all of them for a negative limit or none), and gives each order
    with the lines the store has for it. *)
Theorem orders_listing q db :
  (forall o, Get.Orders.matches q o = true <->
     (forall s, or_nullS (Get.Orders.status q) = Some s ->
                OrderStatus_to_string (o_status o) = s) /\
     (forall t, Get.Orders.tableId q = Some t -> t = Some (o_table_id o))) /\
  (Get.Orders.limit q <> Some None ->
   exists l, Get.Orders.GET no_faults q db = (Rows l, db)) /\
  (forall flt r db', Get.Orders.GET flt q db = (r, db') ->
     db' = db /\
     forall l, r = Rows l ->
       let returned := listed_orders l in
       let matching := select_where (Get.Orders.matches q) (orders db) in
       StronglySorted newer_first returned /\
       (forall o, In o returned -> In o matching) /\
       (forall o o', In o returned -> In o' matching -> ~ In o' returned ->
                     o_created_at o' <= o_created_at o) /\
       List.length returned =
         match Get.Orders.limit q with
         | Some (Some n) => if n <? 0 then List.length matching
                            else Nat.min (Z.to_nat n) (List.length matching)
         | _ => List.length matching
         end /\
       ((forall n, Get.Orders.limit q = Some (Some n) -> n < 0) ->
        Permutation returned matching) /\
       Forall (fun p => fst p = order_view db (ov_order (fst p)) /\
                        snd p = select_item_views (o_id (ov_order (fst p))) db) l).
Proof.
  split; [| split].
  - intro o. unfold Get.Orders.matches. rewrite andb_true_iff. split.
    + intros [Hs Ht]. split.
      * intros s Es. rewrite Es in Hs. now apply String.eqb_eq.
      * intros t Et. rewrite Et in Ht. destruct t as [t |]; [| discriminate].
        apply Z.eqb_eq in Ht. congruence.
    + intros [Hs Ht]. split.
      * destruct (or_nullS (Get.Orders.status q)) as [s |]; [| reflexivity].
        apply String.eqb_eq. now apply Hs.
      * destruct (Get.Orders.tableId q) as [[t |] |]; [| | reflexivity].
        -- specialize (Ht _ eq_refl). injection Ht as ->. apply Z.eqb_refl.
        -- specialize (Ht _ eq_refl). discriminate.
  - intro Hl. rewrite Orders_GET_no_faults. unfold Get.Orders.select_orders.
    destruct (Get.Orders.limit q) as [[n |] |]; [| now elim Hl |]; eexists; reflexivity.
  - intros flt r db' E.
    assert (D : db' = db) by (eapply readonly_handle_list; [apply readonly_Orders_GET | exact E]).
    split; [exact D |]. subst db'. intros l ->.
    apply steady_handle_list in E;
      [| unfold Get.Orders.GET_body; apply steady_bind;
         [apply steady_stmt | intro; apply steady_Orders_with_items]].
    apply Orders_GET_rows in E. destruct E as (k & -> & Hk). cbv zeta in *.
    rewrite listed_orders_views.
    set (matching := select_where (Get.Orders.matches q) (orders db)) in *.
    set (sorted := order_by_created_desc matching) in *.
    assert (P : Permutation sorted matching) by apply order_by_created_desc_perm.
    assert (S : StronglySorted newer_first sorted) by apply order_by_created_desc_sorted.
    split; [now apply sorted_firstn |]. split.
    { intros o Ho. apply (Permutation_in _ P). eapply firstn_In; exact Ho. }
    split.
    { intros o o' Ho Ho' Hn.
      apply (@sorted_prefix_first _ newer_first k sorted S o o' Ho); [| exact Hn].
      apply (Permutation_in _ (Permutation_sym P)). exact Ho'. }
    split.
    { rewrite length_firstn, Hk, (Permutation_length P). reflexivity. }
    split.
    { intro Hneg. rewrite <- P.
      assert (K : Nat.min k (List.length sorted) = List.length sorted).
      { rewrite Hk. destruct (Get.Orders.limit q) as [[n |] |]; try reflexivity.
        specialize (Hneg n eq_refl). apply Z.ltb_lt in Hneg. now rewrite Hneg. }
      rewrite <- (firstn_all sorted) at 2. rewrite <- K.
      rewrite <- firstn_firstn. rewrite firstn_all. reflexivity. }
    apply Forall_forall. intros p Hp. apply in_map_iff in Hp.
    destruct Hp as (v & <- & Hv). apply in_map_iff in Hv. destruct Hv as (o & <- & _).
    now split.
Qed.

Lemma orders_listing_witness :
  exists l, Get.Orders.GET no_faults (Get.Orders.mkQuery (Some "Pending") None (Some (Some 10)))
              sample_db_order = (Rows l, sample_db_order).
Proof.
  apply (proj1 (proj2 (orders_listing
                         (Get.Orders.mkQuery (Some "Pending") None (Some (Some 10)))
                         sample_db_order))).
  cbn. discriminate.
Defined.

(* ================================================================= *)
(** ** Tables: listing, creation, update, deletion *)

Lemma insert_asc_perm t l : Permutation (insert_asc t l) (t :: l).
Proof.
  induction l as [| x r IH]; simpl; [reflexivity |].
  destruct (t_number t <=? t_number x); [reflexivity |].
  rewrite IH. apply perm_swap.
Qed.

Lemma order_by_number_perm l : Permutation (order_by_number l) l.
Proof.
  induction l as [| x r IH]; simpl; [reflexivity |].
  rewrite insert_asc_perm. now constructor.
Qed.

Lemma insert_asc_sorted t l :
  StronglySorted (fun a b => t_number a <= t_number b) l ->
  StronglySorted (fun a b => t_number a <= t_number b) (insert_asc t l).
Proof.
  induction 1 as [| x r Hr IH Hx]; simpl.
  - repeat constructor.
  - destruct (t_number t <=? t_number x) eqn:E.
    + apply Z.leb_le in E. constructor; [now constructor |].
      constructor; [exact E |].
      eapply Forall_impl; [| exact Hx]. cbn. intros; lia.
    + apply Z.leb_gt in E. constructor; [exact IH |].
      eapply Permutation_Forall; [symmetry; apply insert_asc_perm |].
      constructor; [lia | exact Hx].
Qed.

Lemma order_by_number_sorted l :
  StronglySorted (fun a b => t_number a <= t_number b) (order_by_number l).
Proof.
  induction l as [| x r IH]; simpl; [constructor | now apply insert_asc_sorted].
Qed.

Lemma sorted_distinct l :
  StronglySorted (fun a b => t_number a <= t_number b) l ->
  NoDup (map t_number l) ->
  StronglySorted (fun a b : Table => t_number a < t_number b) l.
Proof.
  induction 1 as [| x r Hr IH Hx]; intro Hn; [constructor |].
  cbn in Hn. inversion Hn; subst. constructor; [now apply IH |].
  rewrite Forall_forall in *. intros y Hy. specialize (Hx y Hy).
  assert (t_number y <> t_number x).
  { intro E. apply H1. rewrite <- E. now apply in_map. }
  lia.
Qed.

(** X12: the listing [GET /api/tables]. It never writes; it answers the
    tables of the store, all of them, in ascending order of their number,
    or the 500 of its catch block when the store fails; in a reachable
    store the numbers are strictly ascending. *)
Theorem tables_listing flt db r db' :
  Get.Tables.GET flt db = (r, db') ->
  db' = db /\
  (r = Rows (order_by_number (rows (tables db)))
   \/ r = NoRows (error_response "Failed to fetch tables" 500) /\ flt 0%nat = true) /\
  forall l, r = Rows l ->
    Permutation l (rows (tables db)) /\
    StronglySorted (fun a b => t_number a <= t_number b) l /\
    (reachable db -> StronglySorted (fun a b => t_number a < t_number b) l).
Proof.
  unfold Get.Tables.GET, handle_list, Get.Tables.GET_body, query, stmt. cbn [st_db st_tick].
  destruct (flt 0%nat) eqn:F; intro E; injection E as <- <-.
  - split; [reflexivity |]. split; [now right |]. discriminate.
  - split; [reflexivity |]. split; [now left |]. intros l E. injection E as <-.
    split; [apply order_by_number_perm |]. split; [apply order_by_number_sorted |].
    intro Hr. apply sorted_distinct; [apply order_by_number_sorted |].
    apply reachable_sound in Hr. destruct Hr as [(_ & _ & _ & _ & _ & Hn) _].
    eapply Permutation_NoDup; [| exact Hn].
    apply Permutation_map. symmetry. apply order_by_number_perm.
Qed.

Lemma tables_listing_witness :
  snd (Get.Tables.GET no_faults sample_db_order) = sample_db_order.
Proof.
  apply (@tables_listing no_faults sample_db_order
           (fst (Get.Tables.GET no_faults sample_db_order))).
  apply surjective_pairing.
Defined.

Lemma select_table_inserted mk db :
  (forall k, t_id (mk k) = k) ->
  select_table (next_rowid (tables db)) (with_tables (snd (insert_row mk (tables db))) db)
    = Some (mk (next_rowid (tables db))).
Proof.
  intro Hk. unfold select_table, get_where. cbn [tables with_tables].
  exact (find_fresh_insert mk (tables db) Hk).
Qed.

(** X13: creating a table. For a non-zero number and a valid status
    (Free when none is given): when the number is taken the answer is 409
    and, under every failure schedule, nothing is written; otherwise the
    table is added at the end with a fresh id, the rest of the store is
    unchanged, the body of the 201 answer is the new row, and
    [GET /api/tables/{id}] gives it back. *)
Theorem table_creation now db req n st :
  Tables.number req = Some n -> n <> 0 ->
  TableStatus_of_string (match Tables.status req with Some s => s | None => "Free" end)
    = Some st ->
  let t := mkTable (next_rowid (tables db)) n st (or_nullZ (Tables.customerCount req))
                   now now in
  (In n (map t_number (rows (tables db))) ->
   Tables.POST no_faults now req db = (error_response "Table number already exists" 409, db)
   /\ forall flt resp db', Tables.POST flt now req db = (resp, db') ->
        db' = db /\ (http_status resp = 409 \/ http_status resp = 500)) /\
  (~ In n (map t_number (rows (tables db))) ->
   exists db',
     Tables.POST no_faults now req db = (json_status (TableJson (Some t)) 201, db') /\
     rows (tables db') = rows (tables db) ++ [t] /\
     menu_items db' = menu_items db /\ staff db' = staff db /\
     orders db' = orders db /\ order_items db' = order_items db /\
     Get.TableById.GET no_faults (Some (t_id t)) db' = (json (TableJson (Some t)), db')).
Proof.
  intros Hn Hz Hs t.
  assert (Tr : truthyZ (Tables.number req) = true).
  { rewrite Hn. cbn. apply negb_true_iff. now apply Z.eqb_neq. }
  split.
  - intro Hin.
    assert (Ex : existsb (fun x => t_number x =? n) (rows (tables db)) = true).
    { apply in_map_iff in Hin. destruct Hin as (x & E & Hx).
      apply existsb_exists. exists x. split; [exact Hx |]. now apply Z.eqb_eq. }
    assert (F : insert_table now n (match Tables.status req with Some s => s | None => "Free" end)
                  (or_nullZ (Tables.customerCount req)) db = Fail ConstraintUnique).
    { unfold insert_table. now rewrite Hs, Ex. }
    split.
    + unfold Tables.POST, handle, Tables.POST_body. rewrite Tr, Hn. cbn [negb].
      unfold bind at 1, stmt at 1. cbn beta iota delta [no_faults st_db st_tick].
      now rewrite F.
    + intros flt resp db'. unfold Tables.POST, handle, Tables.POST_body.
      rewrite Tr, Hn. cbn [negb].
      unfold bind at 1, stmt at 1. cbn beta iota delta [st_db st_tick].
      rewrite F. destruct (flt 0%nat); intro E; injection E as <- <-; cbn; auto.
  - intro Hin.
    assert (Ex : existsb (fun x => t_number x =? n) (rows (tables db)) = false).
    { apply not_true_is_false. intro Ex. apply existsb_exists in Ex.
      destruct Ex as (x & Hx & E). apply Z.eqb_eq in E. apply Hin.
      rewrite <- E. now apply in_map. }
    exists (with_tables (snd (insert_row (fun i => mkTable i n st
                                            (or_nullZ (Tables.customerCount req)) now now)
                                         (tables db))) db).
    assert (S : select_table (next_rowid (tables db))
                  (with_tables (snd (insert_row (fun i => mkTable i n st
                                            (or_nullZ (Tables.customerCount req)) now now)
                                         (tables db))) db) = Some t)
      by (apply (select_table_inserted
                   (fun i => mkTable i n st (or_nullZ (Tables.customerCount req)) now now));
          reflexivity).
    split.
    + unfold Tables.POST, handle, Tables.POST_body. rewrite Tr, Hn. cbn [negb].
      unfold bind at 1, stmt at 1. cbn beta iota delta [no_faults st_db st_tick].
      unfold insert_table. rewrite Hs, Ex. cbn [insert_row].
      unfold bind at 1, query at 1, stmt at 1.
      cbn beta iota delta [no_faults st_db st_tick ret].
      cbn [insert_row snd] in S. now rewrite S.
    + repeat (split; [reflexivity |]).
      unfold Get.TableById.GET, handle, Get.TableById.GET_body.
      unfold bind at 1, query at 1, stmt at 1.
      cbn beta iota delta [no_faults st_db st_tick].
      cbn [t_id t]. now rewrite S.
Qed.

Lemma table_creation_witness :
  exists db',
    Tables.POST no_faults 20 (Tables.mkRequest (Some 6) None None) sample_db
      = (json_status (TableJson (Some (mkTable 2 6 Free None 20 20))) 201, db') /\
    rows (tables db') = rows (tables sample_db) ++ [mkTable 2 6 Free None 20 20].
Proof.
  destruct (@table_creation 20 sample_db (Tables.mkRequest (Some 6) None None) 6 Free
              eq_refl ltac:(discriminate) eq_refl) as [_ H].
  destruct H as (db' & E & R & _).
  - vm_compute. intros [H | []]. discriminate.
  - exists db'. exact (conj E R).
Defined.

Lemma find_update {A} (p : A -> bool) (f : A -> A) (l : list A) :
  (forall x, p (f x) = p x) ->
  find p (map (fun x => if p x then f x else x) l) = option_map f (find p l).
Proof.
  intro Hf. induction l as [| x l IH]; simpl; [reflexivity |].
  destruct (p x) eqn:E.
  - now rewrite Hf, E.
  - now rewrite E.
Qed.

Lemma others_unchanged {A} (key : A -> Z) id (f : A -> A) (l : list A) :
  Forall2 (fun x y => key x <> id -> y = x) l
          (map (fun x => if key x =? id then f x else x) l).
Proof.
  induction l as [| x l IH]; cbn [map]; constructor; [| exact IH].
  intro N. apply Z.eqb_neq in N. now rewrite N.
Qed.

Lemma TableById_PUT_no_faults now id req db t :
  select_table id db = Some t ->
  let s' := match or_nullS (TableById.status req) with
            | Some given => TableStatus_of_string given
            | None => None
            end in
  (or_nullS (TableById.status req) <> None -> s' <> None) ->
  let db' := update_table_coalesce now s' (or_nullZ (TableById.customerCount req)) id db in
  TableById.PUT no_faults now (Some id) req db = (json (TableJson (select_table id db')), db').
Proof.
  intros St s' V db'. subst s' db'.
  unfold TableById.PUT, handle, TableById.PUT_body. cbv zeta.
  destruct (or_nullS (TableById.status req)) as [g |];
    [destruct (TableStatus_of_string g); [| now elim V] |];
    unfold bind at 1, query at 1, stmt at 1;
    cbn beta iota delta [no_faults st_db st_tick]; rewrite St;
    unfold bind at 1, exec at 1, stmt at 1;
    cbn beta iota delta [no_faults st_db st_tick];
    unfold bind at 1, query at 1, stmt at 1;
    cbn beta iota delta [no_faults st_db st_tick ret]; reflexivity.
Qed.

(** X14: updating a table. For a table that exists and a status that is
    absent, empty or valid, [PUT /api/tables/{id}] stores the given status
    and customer count and keeps the columns not given; the answer is the
    stored row, [GET /api/tables/{id}] gives it back, and nothing else
    changes: the other tables stay as they are, each in its place, and so
    do the menu, the staff, the orders and the order lines. A customer
    count of 0 cannot be stored: it is treated as not given. *)
Theorem table_update now db id t req s :
  select_table id db = Some t ->
  match or_nullS (TableById.status req) with
  | Some given => TableStatus_of_string given = Some s
  | None => s = t_status t
  end ->
  let t' := mkTable (t_id t) (t_number t) s
                    (match or_nullZ (TableById.customerCount req) with
                     | Some c => Some c
                     | None => t_customer_count t
                     end)
                    (t_created_at t) now in
  exists db',
    TableById.PUT no_faults now (Some id) req db = (json (TableJson (Some t')), db') /\
    select_table id db' = Some t' /\
    Get.TableById.GET no_faults (Some id) db' = (json (TableJson (Some t')), db') /\
    Forall2 (fun x y => t_id x <> id -> y = x) (rows (tables db)) (rows (tables db')) /\
    seq (tables db') = seq (tables db) /\
    menu_items db' = menu_items db /\ staff db' = staff db /\
    orders db' = orders db /\ order_items db' = order_items db /\
    (TableById.customerCount req = None \/ TableById.customerCount req = Some 0 ->
     t_customer_count t' = t_customer_count t).
Proof.
  intros St Hs t'.
  set (s' := match or_nullS (TableById.status req) with
             | Some given => TableStatus_of_string given
             | None => None
             end).
  assert (Hc : coalesce s' (t_status t) = s).
  { unfold s'. destruct (or_nullS (TableById.status req)); [now rewrite Hs | now symmetry]. }
  assert (V : or_nullS (TableById.status req) <> None -> s' <> None).
  { unfold s'. destruct (or_nullS (TableById.status req)); [now rewrite Hs | congruence]. }
  exists (update_table_coalesce now s' (or_nullZ (TableById.customerCount req)) id db).
  assert (S : select_table id
                (update_table_coalesce now s' (or_nullZ (TableById.customerCount req)) id db)
              = Some t').
  { unfold select_table, get_where, update_table_coalesce, update_tables.
    cbn [tables with_tables update_where rows].
    rewrite (find_update (fun x => t_id x =? id)) by reflexivity.
    unfold select_table, get_where in St. rewrite St. cbn. unfold t'. now rewrite Hc. }
  split.
  - rewrite (@TableById_PUT_no_faults now id req db t St V). cbv zeta. fold s'. now rewrite S.
  - split; [exact S |]. split.
    + unfold Get.TableById.GET, handle, Get.TableById.GET_body.
      unfold bind at 1, query at 1, stmt at 1.
      cbn beta iota delta [no_faults st_db st_tick]. now rewrite S.
    + split; [apply (others_unchanged t_id) |].
      repeat (split; [reflexivity |]).
      intros [E | E]; unfold t'; cbn [t_customer_count]; now rewrite E.
Qed.

Lemma table_update_witness :
  exists db',
    TableById.PUT no_faults 20 (Some 1) (TableById.mkRequest (Some "Occupied") (Some 4))
      sample_db = (json (TableJson (Some (mkTable 1 5 Occupied (Some 4) 10 20))), db').
Proof.
  destruct (@table_update 20 sample_db 1 (mkTable 1 5 Free None 10 10)
              (TableById.mkRequest (Some "Occupied") (Some 4)) Occupied eq_refl eq_refl)
    as (db' & E & _).
  exists db'. exact E.
Defined.

Lemma TableById_DELETE_cases flt id db resp db' :
  select_table id db <> None ->
  TableById.DELETE flt (Some id) db = (resp, db') ->
  (http_status resp = 500 /\ db' = db)
  \/ (resp = json (MessageJson "Table deleted successfully") /\ db' = delete_table id db).
Proof.
  intro St. unfold TableById.DELETE, handle, TableById.DELETE_body.
  unfold bind at 1, query at 1, stmt at 1. cbn beta iota delta [st_db st_tick].
  destruct (flt 0%nat); [intro E; injection E as <- <-; now left |].
  destruct (select_table id db); [| now elim St].
  unfold bind at 1, exec at 1, stmt at 1. cbn beta iota delta [st_db st_tick].
  destruct (flt 1%nat); intro E; injection E as <- <-; [now left | now right].
Qed.

(** X15: deleting a table takes its orders with it. [DELETE /api/tables/{id}]
    on a table that exists either fails with 500 and writes nothing, or
    removes the table, every order of the table and every line of those
    orders, and nothing else; afterwards the table is not found and its
    order listing is empty. *)
Theorem table_deletion flt id db resp db' :
  select_table id db <> None ->
  TableById.DELETE flt (Some id) db = (resp, db') ->
  (http_status resp = 500 /\ db' = db)
  \/ (resp = json (MessageJson "Table deleted successfully") /\
      rows (tables db') = filter (fun t => negb (t_id t =? id)) (rows (tables db)) /\
      rows (orders db') = filter (fun o => negb (o_table_id o =? id)) (rows (orders db)) /\
      (forall i, In i (rows (order_items db')) <->
                 In i (rows (order_items db)) /\
                 forall o, In o (rows (orders db)) -> o_id o = oi_order_id i ->
                           o_table_id o <> id) /\
      menu_items db' = menu_items db /\ staff db' = staff db /\
      Get.TableById.GET no_faults (Some id) db' = (error_response "Table not found" 404, db') /\
      TableOrders.GET no_faults (Some id) db' = (json (OrderListJson []), db')).
Proof.
  intros St E. apply TableById_DELETE_cases in E; [| exact St].
  destruct E as [E | [-> ->]]; [now left | right].
  split; [reflexivity |]. split; [reflexivity |]. split; [reflexivity |].
  assert (Ro : rows (orders (delete_table id db))
               = filter (fun o => negb (o_table_id o =? id)) (rows (orders db))) by reflexivity.
  split.
  { intro i. unfold delete_table.
    cbn [order_items with_order_items delete_where rows].
    rewrite filter_In, negb_true_iff. split.
    - intros [Hi Hn]. split; [exact Hi |]. intros o Ho Eo Et.
      assert (X : existsb (Z.eqb (oi_order_id i))
                    (map o_id (select_where (fun o => o_table_id o =? id) (orders db))) = true).
      { apply existsb_exists. exists (o_id o). split; [| rewrite Eo; apply Z.eqb_refl].
        apply in_map. unfold select_where. apply filter_In. split; [exact Ho |].
        now apply Z.eqb_eq. }
      congruence.
    - intros [Hi Hn]. split; [exact Hi |]. apply not_true_is_false. intro X.
      apply existsb_exists in X. destruct X as (k & Hk & Ek). apply Z.eqb_eq in Ek.
      apply in_map_iff in Hk. destruct Hk as (o & <- & Ho).
      unfold select_where in Ho. apply filter_In in Ho. destruct Ho as [Ho Et].
      apply Z.eqb_eq in Et. exact (Hn o Ho (eq_sym Ek) Et). }
  split; [reflexivity |]. split; [reflexivity |]. split.
  - unfold Get.TableById.GET, handle, Get.TableById.GET_body.
    unfold bind at 1, query at 1, stmt at 1. cbn beta iota delta [no_faults st_db st_tick].
    replace (select_table id (delete_table id db)) with (@None Table); [reflexivity |].
    symmetry. unfold select_table, get_where, delete_table.
    cbn [tables with_tables with_orders with_order_items delete_where rows].
    apply (find_filter_none (fun t => t_id t =? id)).
  - rewrite GET_no_faults. unfold listing.
    replace (active_orders id (delete_table id db)) with (@nil Order); [reflexivity |].
    symmetry. unfold active_orders, select_where. rewrite Ro. clear Ro.
    induction (rows (orders db)) as [| o l IH]; simpl; [reflexivity |].
    destruct (o_table_id o =? id) eqn:Et; simpl; [exact IH |]. now rewrite Et.
Qed.

Lemma table_deletion_witness :
  let r := TableById.DELETE no_faults (Some 1) sample_db_order in
  fst r = json (MessageJson "Table deleted successfully") /\
  rows (orders (snd r)) =
    filter (fun o => negb (o_table_id o =? 1)) (rows (orders sample_db_order)).
Proof.
  cbv zeta.
  destruct (@table_deletion no_faults 1 sample_db_order
              (fst (TableById.DELETE no_faults (Some 1) sample_db_order))
              (snd (TableById.DELETE no_faults (Some 1) sample_db_order)))
    as [[H _] | (E & _ & R & _)].
  - vm_compute. discriminate.
  - apply surjective_pairing.
  - vm_compute in H. discriminate.
  - exact (conj E R).
Defined.

Lemma MenuById_DELETE_cases flt id db resp db' :
  select_menu_item id db <> None ->
  MenuById.DELETE flt (Some id) db = (resp, db') ->
  (http_status resp = 500 /\ db' = db)
  \/ (resp = json (MessageJson "Menu item deleted successfully") /\
      db' = delete_menu_item id db).
Proof.
  intro St. unfold MenuById.DELETE, handle, MenuById.DELETE_body.
  unfold bind at 1, query at 1, stmt at 1. cbn beta iota delta [st_db st_tick].
  destruct (flt 0%nat); [intro E; injection E as <- <-; now left |].
  destruct (select_menu_item id db); [| now elim St].
  unfold bind at 1, exec at 1, stmt at 1. cbn beta iota delta [st_db st_tick].
  destruct (flt 1%nat); intro E; injection E as <- <-; [now left | now right].
Qed.

(** X18: deleting a menu item takes the order lines of that item with it
    and leaves the orders, and their totals, as they are.
    [DELETE /api/menu/{id}] on an item that exists either fails with 500
    and writes nothing, or removes the item and exactly the order lines
    that name it; afterwards the item is not found. *)
Theorem menu_item_deletion flt id db resp db' :
  select_menu_item id db <> None ->
  MenuById.DELETE flt (Some id) db = (resp, db') ->
  (http_status resp = 500 /\ db' = db)
  \/ (resp = json (MessageJson "Menu item deleted successfully") /\
      rows (menu_items db') = filter (fun m => negb (mi_id m =? id)) (rows (menu_items db)) /\
      rows (order_items db') =
        filter (fun i => negb (oi_menu_item_id i =? id)) (rows (order_items db)) /\
      orders db' = orders db /\ tables db' = tables db /\ staff db' = staff db /\
      Get.MenuById.GET no_faults (Some id) db'
        = (error_response "Menu item not found" 404, db')).
Proof.
  intros St E. apply MenuById_DELETE_cases in E; [| exact St].
  destruct E as [E | [-> ->]]; [now left | right].
  repeat (split; [reflexivity |]).
  unfold Get.MenuById.GET, handle, Get.MenuById.GET_body.
  unfold bind at 1, query at 1, stmt at 1. cbn beta iota delta [no_faults st_db st_tick].
  replace (select_menu_item id (delete_menu_item id db)) with (@None MenuItem); [reflexivity |].
  symmetry. unfold select_menu_item, get_where, delete_menu_item.
  cbn [menu_items with_menu_items with_order_items delete_where rows].
  apply (find_filter_none (fun m => mi_id m =? id)).
Qed.

Lemma menu_item_deletion_witness :
  let r := MenuById.DELETE no_faults (Some 1) sample_db_order in
  fst r = json (MessageJson "Menu item deleted successfully") /\
  orders (snd r) = orders sample_db_order.
Proof.
  cbv zeta.
  destruct (@menu_item_deletion no_faults 1 sample_db_order
              (fst (MenuById.DELETE no_faults (Some 1) sample_db_order))
              (snd (MenuById.DELETE no_faults (Some 1) sample_db_order)))
    as [[H _] | (E & _ & _ & R & _)].
  - vm_compute. discriminate.
  - apply surjective_pairing.
  - vm_compute in H. discriminate.
  - exact (conj E R).
Defined.

Lemma StaffById_DELETE_cases flt now id db resp db' :
  select_staff id db <> None ->
  StaffById.DELETE flt now (Some id) db = (resp, db') ->
  (http_status resp = 500 /\ db' = db)
  \/ (resp = json (MessageJson "Staff member deleted successfully") /\
      db' = delete_staff now id db).
Proof.
  intro St. unfold StaffById.DELETE, handle, StaffById.DELETE_body.
  unfold bind at 1, query at 1, stmt at 1. cbn beta iota delta [st_db st_tick].
  destruct (flt 0%nat); [intro E; injection E as <- <-; now left |].
  destruct (select_staff id db); [| now elim St].
  unfold bind at 1, exec at 1, stmt at 1. cbn beta iota delta [st_db st_tick].
  destruct (flt 1%nat); intro E; injection E as <- <-; [now left | now right].
Qed.

(** X21: deleting a staff member keeps the orders and unassigns them.
    [DELETE /api/staff/{id}] on a member that exists either fails with 500
    and writes nothing, or removes the member and, on the orders of that
    member, sets the staff id to null, which refreshes their time of
    update; the orders of other members, the other columns of every order
    (id, table, total, status, time of creation), the order lines, the
    tables and the menu stay as they are; afterwards the member is not
    found. *)
Theorem staff_deletion flt now id db resp db' :
  select_staff id db <> None ->
  StaffById.DELETE flt now (Some id) db = (resp, db') ->
  (http_status resp = 500 /\ db' = db)
  \/ (resp = json (MessageJson "Staff member deleted successfully") /\
      rows (staff db') = filter (fun s => negb (s_id s =? id)) (rows (staff db)) /\
      Forall2 (fun o o' =>
                 o_id o' = o_id o /\ o_table_id o' = o_table_id o /\
                 o_total_amount o' = o_total_amount o /\ o_status o' = o_status o /\
                 o_created_at o' = o_created_at o /\
                 o_staff_id o' = match o_staff_id o with
                                 | Some s => if s =? id then None else Some s
                                 | None => None
                                 end /\
                 o_updated_at o' = (if match o_staff_id o with
                                       | Some s => s =? id
                                       | None => false
                                       end
                                    then now else o_updated_at o) /\
                 (o_staff_id o <> Some id -> o' = o))
              (rows (orders db)) (rows (orders db')) /\
      seq (orders db') = seq (orders db) /\
      order_items db' = order_items db /\ tables db' = tables db /\
      menu_items db' = menu_items db /\
      Get.StaffById.GET no_faults (Some id) db'
        = (error_response "Staff member not found" 404, db')).
Proof.
  intros St E. apply StaffById_DELETE_cases in E; [| exact St].
  destruct E as [E | [-> ->]]; [now left | right].
  split; [reflexivity |]. split; [reflexivity |]. split.
  { unfold delete_staff. cbn [orders with_orders with_staff update_where rows].
    induction (rows (orders db)) as [| o l IH]; simpl; constructor; [| exact IH].
    destruct (o_staff_id o) as [s |] eqn:Es.
    - destruct (s =? id) eqn:Ei; cbn; rewrite ?Es; repeat split.
      intro N. apply Z.eqb_eq in Ei. congruence.
    - cbn. rewrite Es. repeat split. }
  repeat (split; [reflexivity |]).
  unfold Get.StaffById.GET, handle, Get.StaffById.GET_body.
  unfold bind at 1, query at 1, stmt at 1. cbn beta iota delta [no_faults st_db st_tick].
  replace (select_staff id (delete_staff now id db)) with (@None Staff); [reflexivity |].
  symmetry. unfold select_staff, get_where, delete_staff.
  cbn [staff with_orders with_staff delete_where rows].
  apply (find_filter_none (fun s => s_id s =? id)).
Qed.

Lemma staff_deletion_witness :
  let r := StaffById.DELETE no_faults 200 (Some 1) sample_db_order in
  fst r = json (MessageJson "Staff member deleted successfully") /\
  order_items (snd r) = order_items sample_db_order.
Proof.
  cbv zeta.
  destruct (@staff_deletion no_faults 200 1 sample_db_order
              (fst (StaffById.DELETE no_faults 200 (Some 1) sample_db_order))
              (snd (StaffById.DELETE no_faults 200 (Some 1) sample_db_order)))
    as [[H _] | (E & _ & _ & _ & R & _)].
  - vm_compute. discriminate.
  - apply surjective_pairing.
  - vm_compute in H. discriminate.
  - exact (conj E R).
Defined.

(* ================================================================= *)
(** ** A reference to a row that is not there fails the request and
    leaves nothing behind *)

Lemma select_order_has_rowid id db :
  select_order id db <> None -> has_rowid id (orders db) = true.
Proof.
  unfold select_order, get_where. intro H.
  destruct (find _ (rows (orders db))) as [m |] eqn:F; [| congruence].
  apply find_some in F. apply has_rowid_true. exists m. split; [tauto |].
  now apply Z.eqb_eq.
Qed.

Lemma has_rowid_select_table id db :
  has_rowid id (tables db) = true -> select_table id db <> None.
Proof.
  intro H. apply has_rowid_true in H. destruct H as (t & Ht & E).
  unfold select_table, get_where. intro N.
  apply (find_none _ _ N) in Ht. change (@rowid Table _ t) with (t_id t) in E.
  rewrite E, Z.eqb_refl in Ht. discriminate.
Qed.

Lemma update_unknown_staff now oid s staffId tableId flt st o st' :
  has_rowid oid (orders (st_db st)) = true ->
  staff_ref_ok (or_nullZ staffId) (st_db st) = false ->
  OrderById.update now oid s staffId tableId flt st = (o, st') ->
  exists e, o = Throw e.
Proof.
  intros Ho Hs. unfold OrderById.update. intro E. apply bind_inv in E.
  destruct E as [(a & st1 & E1 & _) | [(r & E1 & _) | (e & _ & ->)]].
  - apply stmt_inv in E1.
    destruct E1 as [_ [(_ & D & _) | [(_ & a' & F & _) | (_ & e & _ & D & _)]]];
      try discriminate.
    unfold update_order in F. rewrite Ho, Hs in F. discriminate.
  - now elim (@quiet_stmt _ _ _ _ _ _ E1 r).
  - now exists e.
Qed.

Lemma transaction_throws {A B} (m : M A) (k : A -> M B) flt st o st' :
  (forall o1 st1, m flt st = (o1, st1) -> exists e, o1 = Throw e) ->
  bind (transaction m) k flt st = (o, st') ->
  st_db st' = st_db st /\ exists e, o = Throw e.
Proof.
  intros Hm E. apply bind_inv in E.
  destruct E as [(a & st1 & E1 & _) | [(r & E1 & _) | (e & E1 & ->)]];
    apply transaction_atomic in E1;
    destruct E1 as [(e1 & D & Hd) | [N E1]]; try discriminate;
    try (destruct (Hm _ _ E1) as (e2 & D2); discriminate).
  - split; [exact Hd | now exists e].
  - destruct (Hm _ _ E1) as (e2 & D2). now elim (N e2).
Qed.

Lemma PUT_body_unknown_staff now oid req flt st o st' :
  select_order oid (st_db st) <> None ->
  staff_ref_ok (or_nullZ (OrderById.staffId req)) (st_db st) = false ->
  OrderById.PUT_body now (Some oid) req flt st = (o, st') ->
  st_db st' = st_db st /\
  match o with
  | Val _ => False
  | Reply r => r = error_response "Invalid order status" 400
  | Throw _ => True
  end.
Proof.
  intros So Hs. unfold OrderById.PUT_body. cbv zeta.
  assert (T : forall s o st',
            (existingOrder <- query (select_order oid) ;;
             match existingOrder with
             | None => reply (error_response "Order not found" 404)
             | Some existing =>
                 transaction (OrderById.update now oid s (OrderById.staffId req)
                                               (o_table_id existing)) ;;;
                 updatedOrder <- query (select_order_view oid) ;;
                 items <- query (select_item_views oid) ;;
                 ret (json (OrderJson updatedOrder items))
             end) flt st = (o, st') ->
            st_db st' = st_db st /\
            match o with
            | Val _ => False
            | Reply r => r = error_response "Invalid order status" 400
            | Throw _ => True
            end).
  { clear o st'. intros s o st' E. apply bind_inv in E.
    destruct E as [(ex & st1 & E1 & E2) | [(r & E1 & _) | (e & E1 & ->)]].
    - apply query_inv in E1. destruct E1 as [D1 [V | V]]; [| discriminate].
      injection V as ->.
      assert (Ho : has_rowid oid (orders (st_db st)) = true)
        by now apply select_order_has_rowid.
      destruct (select_order oid (st_db st)) as [existing |]; [| now elim So].
      apply transaction_throws in E2.
      + destruct E2 as [D2 (e & ->)]. split; [congruence | exact I].
      + intros o1 st2. apply update_unknown_staff; now rewrite D1.
    - now elim (@quiet_stmt _ _ _ _ _ _ E1 r).
    - apply query_inv in E1. destruct E1 as [D1 _]. now split. }
  destruct (or_nullS (OrderById.status req)) as [given |].
  - destruct (OrderStatus_of_string given); [apply T |].
    intro E. inversion E. now split.
  - apply T.
Qed.

Lemma insert_order_unknown now tableId total staffId db :
  has_rowid tableId (tables db) = false \/ staff_ref_ok staffId db = false ->
  exists e, insert_order now tableId total staffId db = Fail e.
Proof.
  unfold insert_order. destruct (sql_real total); [| now eexists].
  intros [-> | H]; cbn; [now eexists |].
  destruct (has_rowid tableId (tables db)); cbn; [rewrite H |]; now eexists.
Qed.

Lemma create_unknown_staff now tableId total staffId lines flt st o st' :
  staff_ref_ok (or_nullZ staffId) (st_db st) = false ->
  Orders.create now tableId total staffId lines flt st = (o, st') ->
  exists e, o = Throw e.
Proof.
  intros Hs. unfold Orders.create. intro E. apply bind_inv in E.
  destruct E as [(a & st1 & E1 & _) | [(r & E1 & _) | (e & _ & ->)]].
  - apply stmt_inv in E1.
    destruct E1 as [_ [(_ & D & _) | [(_ & a' & F & _) | (_ & e & _ & D & _)]]];
      try discriminate.
    destruct (@insert_order_unknown now tableId total (or_nullZ staffId) (st_db st)
                (or_intror Hs)) as (e & Fe).
    congruence.
  - now elim (@quiet_stmt _ _ _ _ _ _ E1 r).
  - now exists e.
Qed.

Lemma alt_create_unknown_table now tableId total lines flt st o st' :
  has_rowid tableId (tables (st_db st)) = false ->
  OrdersAlt.create now tableId total lines flt st = (o, st') ->
  exists e, o = Throw e.
Proof.
  intros Hs. unfold OrdersAlt.create. intro E. apply bind_inv in E.
  destruct E as [(a & st1 & E1 & _) | [(r & E1 & _) | (e & _ & ->)]].
  - apply stmt_inv in E1.
    destruct E1 as [_ [(_ & D & _) | [(_ & a' & F & _) | (_ & e & _ & D & _)]]];
      try discriminate.
    destruct (@insert_order_unknown now tableId total None (st_db st)
                (or_introl Hs)) as (e & Fe).
    congruence.
  - now elim (@quiet_stmt _ _ _ _ _ _ E1 r).
  - now exists e.
Qed.

Lemma Orders_POST_body_unknown_staff now req flt st o st' :
  staff_ref_ok (or_nullZ (Orders.staffId req)) (st_db st) = false ->
  Orders.POST_body now req flt st = (o, st') ->
  st_db st' = st_db st /\ forall r, o <> Val r.
Proof.
  intro Hs. unfold Orders.POST_body.
  destruct (Orders.tableId req) as [tableId |];
    [| intro E; inversion E; split; [reflexivity | discriminate]].
  destruct (Orders.items req) as [[| i l] |];
    try (intro E; inversion E; split; [reflexivity | discriminate]).
  destruct (tableId =? 0); [intro E; inversion E; split; [reflexivity | discriminate] |].
  intro E. apply bind_inv in E.
  destruct E as [(t & st1 & E1 & E2) | [(r & E1 & _) | (e & E1 & ->)]].
  - apply query_inv in E1. destruct E1 as [D1 _].
    destruct t as [t |]; [| inversion E2; subst; split; [exact D1 | discriminate]].
    apply bind_inv in E2.
    destruct E2 as [(priced & st2 & E2 & E3) | [(r & E2 & ->) | (e & E2 & ->)]].
    + apply price_items_inv in E2. destruct E2 as [D2 _]. destruct priced as [total data].
      apply transaction_throws in E3.
      * destruct E3 as [D3 (e & ->)]. split; [congruence | discriminate].
      * intros o1 st3. apply create_unknown_staff. now rewrite D2, D1.
    + apply price_items_inv in E2. destruct E2 as [D2 _]. split; [congruence | discriminate].
    + apply price_items_inv in E2. destruct E2 as [D2 _]. split; [congruence | discriminate].
  - now elim (@quiet_stmt _ _ _ _ _ _ E1 r).
  - apply query_inv in E1. destruct E1 as [D1 _]. split; [exact D1 | discriminate].
Qed.

Lemma OrdersAlt_POST_body_unknown_table now req tableId flt st o st' :
  OrdersAlt.tableId req = Some tableId ->
  has_rowid tableId (tables (st_db st)) = false ->
  OrdersAlt.POST_body now req flt st = (o, st') ->
  st_db st' = st_db st /\ forall r, o <> Val r.
Proof.
  intros Ht Hs. unfold OrdersAlt.POST_body. rewrite Ht.
  destruct (OrdersAlt.items req) as [[| i l] |];
    try (intro E; inversion E; split; [reflexivity | discriminate]).
  destruct (tableId =? 0); [intro E; inversion E; split; [reflexivity | discriminate] |].
  intro E. apply bind_inv in E.
  destruct E as [(priced & st2 & E2 & E3) | [(r & E2 & ->) | (e & E2 & ->)]].
  - apply alt_price_items_inv in E2. destruct E2 as [D2 _]. destruct priced as [total data].
    apply transaction_throws in E3.
    + destruct E3 as [D3 (e & ->)]. split; [congruence | discriminate].
    + intros o1 st3. apply alt_create_unknown_table. now rewrite D2.
  - apply alt_price_items_inv in E2. destruct E2 as [D2 _]. split; [congruence | discriminate].
  - apply alt_price_items_inv in E2. destruct E2 as [D2 _]. split; [congruence | discriminate].
Qed.

Lemma handle_no_val m on_error flt db resp db' :
  (forall o st, m flt (mkSt db 0) = (o, st) -> st_db st = db /\ forall r, o <> Val r) ->
  (forall r st, m flt (mkSt db 0) = (Reply r, st) -> http_status r <> 201) ->
  (forall e, http_status (on_error e) <> 201) ->
  handle m on_error flt db = (resp, db') -> db' = db /\ http_status resp <> 201.
Proof.
  intros Hm Hr He. unfold handle.
  destruct (m flt (mkSt db 0)) as [[r | r | e] st1] eqn:E; intro E'; inversion E'; subst;
    destruct (Hm _ _ eq_refl) as [D N].
  - now elim (N _ eq_refl).
  - split; [exact D | now apply (Hr _ _ eq_refl)].
  - split; [exact D | apply He].
Qed.

Lemma alt_price_items_valid db l :
  Forall (valid_line db) l ->
  forall total acc tick,
    OrdersAlt.price_items l total acc no_faults (mkSt db tick) =
      (Val (fold_left PrimFloat.add (map (fun i => subtotal (priced_line db i)) l) total,
            acc ++ map (priced_line db) l),
       mkSt db (List.length l + tick)).
Proof.
  induction 1 as [| item rest Hv _ IH]; intros total acc tick.
  - cbn. now rewrite app_nil_r.
  - destruct Hv as (id & q & Hid & Hid0 & Hq & Hq0 & Hm).
    destruct (select_menu_item id db) as [m |] eqn:Sm; [clear Hm | congruence].
    cbn [OrdersAlt.price_items]. rewrite Hid, Hq.
    unfold bind at 1, query at 1, stmt at 1.
    cbn beta iota delta [no_faults st_db st_tick]. rewrite Sm.
    rewrite IH.
    assert (P : priced_line db item =
                mkLine id (Some q) (mi_price m) (PrimFloat.mul (mi_price m) (number_of_Z q))).
    { unfold priced_line, price_of. now rewrite Hid, Hq, Sm. }
    cbn [map fold_left List.length]. rewrite P. cbn [subtotal].
    rewrite <- app_assoc. cbn [app]. do 2 f_equal. lia.
Qed.

(** X8: a reference to a row that is not there. An update of an order that
    names a staff member that does not exist, and a creation that names a
    staff member or (second route) a table that does not exist, leave the
    store as it was under every failure schedule and never answer success:
    the foreign key fails inside the transaction, which rolls back. Without
    store failures the second creation route answers 500 for the unknown
    table, and the first route, which checks the table, answers 404. *)
Theorem unknown_reference_rolls_back now db :
  (forall flt oid req resp db',
     select_order oid db <> None ->
     staff_ref_ok (or_nullZ (OrderById.staffId req)) db = false ->
     OrderById.PUT flt now (Some oid) req db = (resp, db') ->
     db' = db /\
     (resp = error_response "Invalid order status" 400 \/
      resp = error_response "Failed to update order" 500)) /\
  (forall flt req resp db',
     staff_ref_ok (or_nullZ (Orders.staffId req)) db = false ->
     Orders.POST flt now req db = (resp, db') ->
     db' = db /\ http_status resp <> 201) /\
  (forall flt req tableId resp db',
     OrdersAlt.tableId req = Some tableId -> select_table tableId db = None ->
     OrdersAlt.POST flt now req db = (resp, db') ->
     db' = db /\ http_status resp <> 201) /\
  (forall req tableId items,
     OrdersAlt.tableId req = Some tableId -> tableId <> 0 ->
     select_table tableId db = None ->
     OrdersAlt.items req = Some items -> items <> [] -> Forall (valid_line db) items ->
     OrdersAlt.POST no_faults now req db
       = (error_response "Failed to create order, please try again" 500, db)) /\
  (forall req tableId items,
     Orders.tableId req = Some tableId -> tableId <> 0 ->
     select_table tableId db = None ->
     Orders.items req = Some items -> items <> [] ->
     Orders.POST no_faults now req db = (error_response "Table not found" 404, db)).
Proof.
  split; [| split; [| split; [| split]]].
  - intros flt oid req resp db' So Hs. unfold OrderById.PUT, handle.
    destruct (OrderById.PUT_body now (Some oid) req flt (mkSt db 0)) as [[r | r | e] st1] eqn:E;
      intro E'; inversion E'; subst;
      apply PUT_body_unknown_staff in E; try assumption; destruct E as [D E].
    + contradiction.
    + split; [exact D | now left].
    + split; [exact D | now right].
  - intros flt req resp db' Hs. apply handle_no_val.
    + intros o st. now apply Orders_POST_body_unknown_staff.
    + intros r st Er. apply Orders_POST_body_inv in Er.
      destruct Er as [[_ Er] | (? & ? & _ & _ & _ & [])]. destruct Er as [-> | ->]; discriminate.
    + discriminate.
  - intros flt req tableId resp db' Ht St.
    assert (Hn : has_rowid tableId (tables db) = false).
    { apply not_true_is_false. intro H. now apply has_rowid_select_table in H. }
    apply handle_no_val.
    + intros o st. now apply OrdersAlt_POST_body_unknown_table with (tableId := tableId).
    + intros r st Er. apply OrdersAlt_POST_body_inv in Er.
      destruct Er as [[_ Er] | (? & ? & _ & _ & _ & [])]. rewrite Er. discriminate.
    + discriminate.
  - intros req tableId items Ht Hz St Hi Hne Hv.
    assert (Hn : has_rowid tableId (tables db) = false).
    { apply not_true_is_false. intro H. now apply has_rowid_select_table in H. }
    unfold OrdersAlt.POST, handle, OrdersAlt.POST_body. rewrite Ht, Hi.
    destruct items as [| i l]; [now elim Hne |].
    apply Z.eqb_neq in Hz. rewrite Hz.
    unfold bind at 1. rewrite (alt_price_items_valid Hv).
    unfold bind at 1, transaction at 1, OrdersAlt.create.
    unfold bind at 1, stmt at 1. cbn beta iota delta [no_faults st_db st_tick].
    unfold insert_order. rewrite Hn. now destruct (sql_real _).
  - intros req tableId items Ht Hz St Hi Hne.
    unfold Orders.POST, handle, Orders.POST_body. rewrite Ht, Hi.
    destruct items as [| i l]; [now elim Hne |].
    apply Z.eqb_neq in Hz. rewrite Hz.
    unfold bind at 1, query at 1, stmt at 1. cbn beta iota delta [no_faults st_db st_tick].
    now rewrite St.
Qed.

Lemma unknown_reference_rolls_back_witness :
  Orders.POST no_faults 100
    (Orders.mkRequest (Some 9) (Some [mkItemReq (Some 1) (Some 2)]) None) sample_db
  = (error_response "Table not found" 404, sample_db).
Proof.
  destruct (unknown_reference_rolls_back 100 sample_db) as (_ & _ & _ & _ & H).
  apply (H _ 9 [mkItemReq (Some 1) (Some 2)]).
  - reflexivity.
  - discriminate.
  - reflexivity.
  - reflexivity.
  - discriminate.
Defined.

(* ================================================================= *)
(** ** The bulk resync under store failures, and run twice *)

Lemma sync_table_inv now t flt st o st' :
  TablesSync.sync_table now t flt st = (o, st') ->
  (o = Val tt /\ st_db st' = sync_step now (st_db st) t)
  \/ (exists e, o = Throw e) /\ st_db st' = st_db st.
Proof.
  unfold TablesSync.sync_table. intro E. apply bind_inv in E.
  destruct E as [(a & st1 & E1 & E2) | [(r & E1 & _) | (e & E1 & ->)]];
    [| now elim (@quiet_stmt _ _ _ _ _ _ E1 r)
     | apply query_inv in E1; destruct E1 as [D1 _]; right; split; [now exists e | exact D1]].
  apply query_inv in E1. destruct E1 as [D1 [V | V]]; [| discriminate]. injection V as ->.
  apply bind_inv in E2.
  destruct E2 as [(c & st2 & E2 & E3) | [(r & E2 & _) | (e & E2 & ->)]];
    [| now elim (@quiet_stmt _ _ _ _ _ _ E2 r)
     | apply query_inv in E2; destruct E2 as [D2 _]; right;
       split; [now exists e | congruence]].
  apply query_inv in E2. destruct E2 as [D2 [V | V]]; [| discriminate]. injection V as ->.
  rewrite D1 in *.
  destruct (TablesSync.derive _ _) as [s c] eqn:D.
  apply stmt_inv in E3.
  destruct E3 as [_ [(_ & -> & D3) | [(_ & u & F & ->) | (_ & e & F & _)]]].
  - right. split; [now eexists | congruence].
  - left. destruct u. split; [reflexivity |]. injection F as F.
    rewrite <- F, D2. unfold sync_step, derived. now rewrite D.
  - discriminate.
Qed.

Lemma for_each_sync_inv now l : forall flt st o st',
  for_each l (TablesSync.sync_table now) flt st = (o, st') ->
  exists k, (k <= List.length l)%nat /\
    st_db st' = fold_left (sync_step now) (firstn k l) (st_db st) /\
    ((o = Val tt /\ k = List.length l) \/ exists e, o = Throw e).
Proof.
  induction l as [| t rest IH]; intros flt st o st' E.
  - inversion E. exists 0%nat. repeat split; auto.
  - cbn [for_each] in E. apply bind_inv in E.
    destruct E as [(a & st1 & E1 & E2) | [(r & E1 & _) | (e & E1 & ->)]];
      apply sync_table_inv in E1; destruct E1 as [[V D] | [(e1 & V) D]];
      try discriminate.
    + apply IH in E2. destruct E2 as (k & Hk & Dk & Ok).
      exists (S k). cbn [firstn fold_left List.length]. split; [lia |].
      split; [now rewrite Dk, D |].
      destruct Ok as [[-> ->] | Ok]; [now left | now right].
    + exists 0%nat. cbn. split; [lia |]. split; [exact D |]. right. now exists e.
Qed.

(** X10: the bulk resync is not atomic. Whatever the failures of the store,
    [POST /api/tables/sync-status] has synchronised the first [k] tables and
    left the others, and the four other tables of the store, as they were;
    it answers 200 only when [k] is the number of tables, and the 500 of its
    catch block otherwise. *)
Theorem resync_under_failures flt now db resp db' :
  TablesSync.POST flt now db = (resp, db') ->
  exists k, (k <= List.length (rows (tables db)))%nat /\
    rows (tables db') =
      map (fun x => if existsb (fun t => t_id x =? t_id t) (firstn k (rows (tables db)))
                    then synced now db x else x)
          (rows (tables db)) /\
    menu_items db' = menu_items db /\ staff db' = staff db /\
    orders db' = orders db /\ order_items db' = order_items db /\
    ((http_status resp = 200 /\ k = List.length (rows (tables db)))
     \/ resp = error_response "Failed to sync table statuses" 500) /\
    (keys_hold db ->
     rows (tables db') =
       map (synced now db) (firstn k (rows (tables db))) ++ skipn k (rows (tables db))).
Proof.
  unfold TablesSync.POST, handle, TablesSync.POST_body. intro E.
  destruct (bind _ _ flt (mkSt db 0)) as [o st1] eqn:B.
  assert (X : exists k, (k <= List.length (rows (tables db)))%nat /\
            st_db st1 = fold_left (sync_step now) (firstn k (rows (tables db))) db /\
            ((exists r, o = Val r /\ http_status r = 200 /\ k = List.length (rows (tables db)))
             \/ exists e, o = Throw e)).
  { apply bind_inv in B.
    destruct B as [(all & st2 & E1 & E2) | [(r & E1 & _) | (e & E1 & ->)]];
      [| now elim (@quiet_stmt _ _ _ _ _ _ E1 r)
       | apply query_inv in E1; destruct E1 as [D1 _]; exists 0%nat; cbn;
         split; [lia | split; [exact D1 | right; now exists e]]].
    apply query_inv in E1. destruct E1 as [D1 [V | V]]; [| discriminate]. injection V as ->.
    cbn [st_db] in *. apply bind_inv in E2.
    destruct E2 as [(u & st3 & E2 & E3) | [(r & E2 & _) | (e & E2 & ->)]];
      apply for_each_sync_inv in E2; destruct E2 as (k & Hk & Dk & Ok); rewrite D1 in Dk.
    - destruct Ok as [[_ ->] | (e & D)]; [| discriminate].
      exists (List.length (rows (tables db))). split; [lia |].
      inversion E3; subst. split; [exact Dk |]. left. eexists. repeat split.
    - destruct Ok as [[D _] | (e & D)]; discriminate.
    - exists k. split; [exact Hk |]. split; [exact Dk |]. right. now exists e. }
  destruct X as (k & Hk & Dk & Ok). exists k. split; [exact Hk |].
  assert (D : db' = fold_left (sync_step now) (firstn k (rows (tables db))) db).
  { destruct o; inversion E; subst; exact Dk. }
  destruct (fold_sync now (firstn k (rows (tables db))) db) as (Hm & Hs & Ho & Hi & _ & Hr).
  rewrite <- D in *. repeat (split; [assumption |]). split.
  - destruct Ok as [(r & -> & H2 & ->) | (e & ->)]; inversion E; subst; [left | right]; auto.
  - intros (Kt & _). rewrite Hr. destruct Kt as [Kn _]. clear - Hk Kn.
    revert k Hk. induction (rows (tables db)) as [| x l IH]; intros k Hk.
    + now destruct k.
    + destruct k as [| k]; cbn [firstn skipn map app existsb].
      * f_equal. apply map_id.
      * cbn in Kn. inversion Kn; subst. rewrite Z.eqb_refl. cbn [orb]. f_equal.
        rewrite <- IH; [| assumption | cbn in Hk; lia].
        apply map_ext_in. intros y Hy.
        replace (t_id y =? t_id x) with false; [reflexivity |].
        symmetry. apply Z.eqb_neq. intro Ey. apply H1.
        apply in_map_iff. exists y. split; [exact Ey | exact Hy].
Qed.

Lemma resync_under_failures_witness :
  orders (snd (TablesSync.POST (fun n => Nat.eqb n 1) 200 sample_db_order))
    = orders sample_db_order.
Proof.
  destruct (@resync_under_failures (fun n => Nat.eqb n 1) 200 sample_db_order
              (fst (TablesSync.POST (fun n => Nat.eqb n 1) 200 sample_db_order))
              (snd (TablesSync.POST (fun n => Nat.eqb n 1) 200 sample_db_order))
              (surjective_pairing _))
    as (k & _ & _ & _ & _ & H & _).
  exact H.
Defined.

(** X11: a second resync changes nothing but [updated_at]. After a resync
    that answered 200, a resync that answers 200 leaves every table row as
    it is except for its time of update. *)
Theorem resync_twice flt1 flt2 now1 now2 db resp1 db1 resp2 db2 :
  TablesSync.POST flt1 now1 db = (resp1, db1) -> http_status resp1 = 200 ->
  TablesSync.POST flt2 now2 db1 = (resp2, db2) -> http_status resp2 = 200 ->
  rows (tables db2) = map (set_t_updated_at now2) (rows (tables db1)) /\
  menu_items db2 = menu_items db1 /\ staff db2 = staff db1 /\
  orders db2 = orders db1 /\ order_items db2 = order_items db1.
Proof.
  intros E1 H1 E2 H2.
  destruct (@sync_success _ _ _ _ _ E1 H1) as (R1 & _ & _ & O1 & I1).
  destruct (@sync_success _ _ _ _ _ E2 H2) as (R2 & M2 & S2 & O2 & I2).
  split; [| now repeat split].
  rewrite R2, R1, !map_map. apply map_ext. intro x.
  rewrite (synced_frame now2 db1 db) by assumption.
  unfold synced, set_t_updated_at. reflexivity.
Qed.

Lemma resync_twice_witness :
  let db1 := snd (TablesSync.POST no_faults 200 sample_db_order) in
  let db2 := snd (TablesSync.POST no_faults 300 db1) in
  rows (tables db2) = map (set_t_updated_at 300) (rows (tables db1)).
Proof.
  cbv zeta.
  apply (@resync_twice no_faults no_faults 200 300 sample_db_order
           (fst (TablesSync.POST no_faults 200 sample_db_order))
           (snd (TablesSync.POST no_faults 200 sample_db_order))
           (fst (TablesSync.POST no_faults 300
                   (snd (TablesSync.POST no_faults 200 sample_db_order))))).
  - apply surjective_pairing.
  - vm_compute. reflexivity.
  - apply surjective_pairing.
  - vm_compute. reflexivity.
Defined.

(* ================================================================= *)
(** ** The cart of the order popup *)

Section Cart.
Import OrderPopup.













(** Adding an item that is in the cart does not in general add its price to
    the total shown. With 0.1 twice and 0.3 once the total shown is 0.5; one
    more at 0.1 gives 0.6000000000000001, which is not 0.5 + 0.1. *)
Example cart_total_rounding :
  let olives := mkMenuItem 3 "Olives" 0.1 Starters "o.png" true 10 10 in
  let bread := mkMenuItem 4 "Bread" 0.3 Starters "p.png" true 10 10 in
  let cart := click (Add bread) (click (Add olives) (click (Add olives) [])) in
  cart = [mkCartItem olives 2; mkCartItem bread 1] /\
  total cart = 0.5%float /\
  total (handleAddItem olives cart) = 0.6000000000000001%float /\
  PrimFloat.add (total cart) (mi_price olives) = 0.6%float /\
  PrimFloat.eqb 0.6000000000000001 0.6 = false.
Proof. vm_compute. repeat split. Qed.





End Cart.

(* ================================================================= *)
(** ** An order id denotes the same order for ever *)

Lemma evolve_refl db : orders_evolve db db.
Proof.
  split; [lia |]. intros o Ho. left. exists o. repeat split. exact Ho.
Qed.

Lemma evolve_trans a b c : orders_evolve a b -> orders_evolve b c -> orders_evolve a c.
Proof.
  intros [Sab Hab] [Sbc Hbc]. split; [lia |]. intros o'' Ho''.
  destruct (Hbc o'' Ho'') as [(o' & Ho' & Ei & Et & Ea & Ec) | Hnew]; [| right; lia].
  destruct (Hab o' Ho') as [(o & Ho & Ei' & Et' & Ea' & Ec') | Hnew]; [| right; lia].
  left. exists o. repeat split; congruence.
Qed.

Lemma evolve_same a b : orders b = orders a -> orders_evolve a b.
Proof. intro E. unfold orders_evolve. rewrite E. apply evolve_refl. Qed.

Lemma evolve_map (f : Order -> Order) (p : Order -> bool) a b :
  (forall o, o_id (f o) = o_id o /\ o_table_id (f o) = o_table_id o /\
             o_total_amount (f o) = o_total_amount o /\ o_created_at (f o) = o_created_at o) ->
  orders b = update_where p f (orders a) -> orders_evolve a b.
Proof.
  intros Hf E. unfold orders_evolve. rewrite E. cbn [update_where rows seq].
  split; [lia |]. intros o' Ho'. apply in_map_iff in Ho'. destruct Ho' as (o & <- & Ho).
  left. exists o. split; [exact Ho |].
  destruct (p o); [| now repeat split]. destruct (Hf o) as (H1 & H2 & H3 & H4).
  repeat split; congruence.
Qed.

Lemma evolve_filter (p : Order -> bool) a b :
  orders b = delete_where p (orders a) -> orders_evolve a b.
Proof.
  intro E. unfold orders_evolve. rewrite E. cbn [delete_where rows seq].
  split; [lia |]. intros o Ho. apply filter_In in Ho. destruct Ho as [Ho _].
  left. exists o. now repeat split.
Qed.

Lemma evolve_update_tables now id f db : orders_evolve db (update_tables now id f db).
Proof. now apply evolve_same. Qed.

Lemma evolve_update_table_status now s id db :
  orders_evolve db (update_table_status now s id db).
Proof. now apply evolve_same. Qed.

Lemma evolve_update_table_status_count now s c id db :
  orders_evolve db (update_table_status_count now s c id db).
Proof. now apply evolve_same. Qed.

Lemma evolve_update_table_coalesce now s c id db :
  orders_evolve db (update_table_coalesce now s c id db).
Proof. now apply evolve_same. Qed.

Lemma evolve_insert_table now n s c db a db' :
  insert_table now n s c db = Done a db' -> orders_evolve db db'.
Proof.
  unfold insert_table. destruct (TableStatus_of_string s) as [st |]; [| discriminate].
  destruct (existsb _ _); [discriminate |]. cbn. intro E. injection E as _ <-.
  now apply evolve_same.
Qed.

Lemma evolve_delete_table id db : orders_evolve db (delete_table id db).
Proof. now apply evolve_filter with (p := fun o => o_table_id o =? id). Qed.

Lemma evolve_insert_order now tableId total staffId db a db' :
  insert_order now tableId total staffId db = Done a db' -> orders_evolve db db'.
Proof.
  intro E. apply insert_order_done in E. destruct E as (_ & _ & ->).
  unfold orders_evolve. cbn [orders with_orders insert_row snd rows seq].
  assert (seq (orders db) < next_rowid (orders db)) by (unfold next_rowid; lia).
  split; [lia |]. intros o Ho. apply in_app_or in Ho. destruct Ho as [Ho | [<- | []]].
  - left. exists o. now repeat split.
  - right. exact H.
Qed.

Lemma evolve_insert_order_item now oid l db a db' :
  insert_order_item now oid l db = Done a db' -> orders_evolve db db'.
Proof. intro E. apply insert_order_item_done in E. subst db'. now apply evolve_same. Qed.

Lemma evolve_update_order now s staffId id db a db' :
  update_order now s staffId id db = Done a db' -> orders_evolve db db'.
Proof.
  intro E. apply update_order_done in E. subst db'.
  apply (@evolve_map (update_order_row now s staffId) (fun o => o_id o =? id));
    [now repeat split | reflexivity].
Qed.

Lemma evolve_update_order_status now s id db a db' :
  update_order_status now s id db = Done a db' -> orders_evolve db db'.
Proof.
  unfold update_order_status. destruct id as [i |]; intro E; injection E as _ <-;
    [| apply evolve_refl].
  apply (@evolve_map (fun o => set_o_updated_at now (set_o_status s o))
                     (fun o => o_id o =? i)); [now repeat split | reflexivity].
Qed.

Lemma evolve_delete_order id db : orders_evolve db (delete_order id db).
Proof. now apply evolve_filter with (p := fun o => o_id o =? id). Qed.

Lemma evolve_insert_menu_item now n p c i av db a db' :
  insert_menu_item now n p c i av db = Done a db' -> orders_evolve db db'.
Proof.
  intro E. apply insert_menu_item_done in E. destruct E as (_ & _ & ->). now apply evolve_same.
Qed.

Lemma evolve_update_menu_item now n p c i av id db :
  orders_evolve db (update_menu_item now n p c i av id db).
Proof. now apply evolve_same. Qed.

Lemma evolve_delete_menu_item id db : orders_evolve db (delete_menu_item id db).
Proof. now apply evolve_same. Qed.

Lemma evolve_insert_staff now n r sh s av db a db' :
  insert_staff now n r sh s av db = Done a db' -> orders_evolve db db'.
Proof. unfold insert_staff. cbn. intro E. injection E as _ <-. now apply evolve_same. Qed.

Lemma evolve_update_staff now n r sh s av id db :
  orders_evolve db (update_staff now n r sh s av id db).
Proof. now apply evolve_same. Qed.

Lemma evolve_delete_staff now id db : orders_evolve db (delete_staff now id db).
Proof.
  apply (@evolve_map (fun o => set_o_updated_at now (set_o_staff_id None o))
                     (fun o => match o_staff_id o with Some s => s =? id | None => false end));
    [now repeat split | reflexivity].
Qed.

Create HintDb evolve.
#[local] Hint Resolve evolve_refl evolve_update_table_status
  evolve_update_table_status_count evolve_update_table_coalesce evolve_insert_table
  evolve_delete_table evolve_insert_order evolve_insert_order_item evolve_update_order
  evolve_update_order_status evolve_delete_order evolve_insert_menu_item
  evolve_update_menu_item evolve_delete_menu_item evolve_insert_staff evolve_update_staff
  evolve_delete_staff : evolve.

Ltac evolve_tac := preserves_tac evolve_refl evolve_trans; eauto with evolve.

Lemma run_orders_evolve flt now op db resp db' :
  run flt now op db = (resp, db') -> orders_evolve db db'.
Proof.
  intro E. destruct op; cbn [run] in E; (eapply preserves_handle; [| exact E]).
  - unfold Orders.POST_body, Orders.create.
    destruct (Orders.tableId req); [| evolve_tac].
    destruct (Orders.items req) as [[| i l] |]; try solve [evolve_tac].
    destruct (_ =? 0); [evolve_tac |].
    apply preserves_bind; [exact evolve_trans | evolve_tac |].
    intros [t |]; [| evolve_tac].
    apply preserves_bind;
      [exact evolve_trans
      | apply preserves_readonly; [exact evolve_refl | apply readonly_price_items] |].
    intros [total data]. evolve_tac.
  - unfold OrdersAlt.POST_body, OrdersAlt.create.
    destruct (OrdersAlt.tableId req); [| evolve_tac].
    destruct (OrdersAlt.items req) as [[| i l] |]; try solve [evolve_tac].
    destruct (_ =? 0); [evolve_tac |].
    apply preserves_bind;
      [exact evolve_trans
      | apply preserves_readonly; [exact evolve_refl | apply alt_readonly_price_items] |].
    intros [total data]. evolve_tac.
  - unfold OrderById.PUT_body, OrderById.update, OrderById.table_status_for. evolve_tac.
  - unfold OrderById.DELETE_body, OrderById.cancel. evolve_tac.
  - unfold OrderStatusRoute.PATCH_body, OrderStatusRoute.free_table_when_paid. evolve_tac.
  - apply preserves_readonly; [exact evolve_refl | apply readonly_GET_body].
  - unfold TablesSync.POST_body, TablesSync.sync_table. evolve_tac.
  - unfold Tables.POST_body. evolve_tac.
  - unfold TableById.PUT_body. evolve_tac.
  - unfold TableById.DELETE_body. evolve_tac.
  - unfold Menu.POST_body. evolve_tac.
  - unfold MenuById.PUT_body. evolve_tac.
  - unfold MenuById.DELETE_body. evolve_tac.
  - unfold StaffRoute.POST_body. evolve_tac.
  - unfold StaffById.PUT_body. evolve_tac.
  - unfold StaffById.DELETE_body. evolve_tac.
Qed.

Lemma later_orders_evolve db db' : later db db' -> orders_evolve db db'.
Proof.
  induction 1 as [| flt now op db' _ IH]; [apply evolve_refl |].
  eapply evolve_trans; [exact IH |]. eapply run_orders_evolve. apply surjective_pairing.
Qed.

(** X4: an order id denotes the same order for ever. If an order is in a
    reachable store and, after any further requests (cancellations and
    deletions included), some order has that id, it has the same table,
    the same total and the same creation time: ids are not given twice and
    no request changes these three columns. *)
Theorem order_id_never_reused db db' o o' :
  reachable db -> later db db' ->
  In o (rows (orders db)) -> In o' (rows (orders db')) -> o_id o' = o_id o ->
  o_table_id o' = o_table_id o /\ o_total_amount o' = o_total_amount o /\
  o_created_at o' = o_created_at o.
Proof.
  intros Hr Hl Ho Ho' Eid.
  destruct (reachable_sound Hr) as [(_ & _ & _ & Ko & _) _].
  destruct (later_orders_evolve Hl) as [_ He].
  destruct (He o' Ho') as [(o2 & Ho2 & Ei & Et & Ea & Ec) | Hnew].
  - assert (o2 = o).
    { pose proof (@keyed_find _ _ _ _ Ko Ho) as F1.
      pose proof (@keyed_find _ _ _ _ Ko Ho2) as F2.
      change (@rowid Order _ o) with (o_id o) in F1.
      change (@rowid Order _ o2) with (o_id o2) in F2.
      replace (o_id o2) with (o_id o) in F2 by congruence. congruence. }
    subst o2. repeat split; congruence.
  - destruct Ko as [_ Kb]. rewrite Forall_forall in Kb. specialize (Kb o Ho).
    change (@rowid Order _ o) with (o_id o) in Kb. lia.
Qed.

Lemma order_id_never_reused_witness :
  let later_db := snd (run no_faults 150
                         (UpdateOrder (Some 1) (OrderById.mkRequest (Some "Preparing") None))
                         sample_db_order) in
  let o := mkOrder 1 1 2500 Pending None 100 100 in
  let o' := mkOrder 1 1 2500 Preparing None 100 150 in
  In o (rows (orders sample_db_order)) /\ In o' (rows (orders later_db)) /\
  o_table_id o' = o_table_id o /\ o_total_amount o' = o_total_amount o /\
  o_created_at o' = o_created_at o.
Proof.
  cbv zeta.
  assert (Ho : In (mkOrder 1 1 2500 Pending None 100 100) (rows (orders sample_db_order)))
    by (vm_compute; left; reflexivity).
  assert (Ho' : In (mkOrder 1 1 2500 Preparing None 100 150)
                   (rows (orders (snd (run no_faults 150
                      (UpdateOrder (Some 1) (OrderById.mkRequest (Some "Preparing") None))
                      sample_db_order)))))
    by (vm_compute; left; reflexivity).
  split; [exact Ho |]. split; [exact Ho' |].
  exact (@order_id_never_reused sample_db_order _ _ _ sample_db_order_reachable
           (later_run no_faults 150
              (UpdateOrder (Some 1) (OrderById.mkRequest (Some "Preparing") None))
              (later_now sample_db_order))
           Ho Ho' eq_refl).
Defined.

(* ================================================================= *)
(** ** Keys and references of every reachable store *)

Section FindById.
Context {A : Type} `{Row A}.

Lemma has_rowid_find (i : Z) (r : Rel A) :
  has_rowid i r = true -> find (fun x => rowid x =? i) (rows r) <> None.
Proof.
  intro Hi. apply has_rowid_true in Hi. destruct Hi as (x & Hx & E). intro N.
  apply (find_none _ _ N) in Hx. rewrite E, Z.eqb_refl in Hx. discriminate.
Qed.
End FindById.

(** X2: the four foreign keys hold in every store the application can be
    in: the table of every order exists, its staff member exists when it
    has one, and the order and the menu item of every order line exist. *)
Theorem references_in_reachable_stores db :
  reachable db ->
  (forall o, In o (rows (orders db)) ->
     select_table (o_table_id o) db <> None /\
     forall s, o_staff_id o = Some s -> select_staff s db <> None) /\
  (forall i, In i (rows (order_items db)) ->
     select_order (oi_order_id i) db <> None /\
     select_menu_item (oi_menu_item_id i) db <> None).
Proof.
  intro Hr. destruct (reachable_sound Hr) as [_ [[Ht Hs] [Ho Hm]]].
  unfold orders_have_table, orders_have_staff, items_have_order, items_have_menu_item in *.
  rewrite Forall_forall in Ht, Hs, Ho, Hm. split.
  - intros o Hin. split.
    + exact (has_rowid_find _ _ (Ht o Hin)).
    + intros s Es. specialize (Hs o Hin). rewrite Es in Hs.
      exact (has_rowid_find _ _ Hs).
  - intros i Hin. split.
    + exact (has_rowid_find _ _ (Ho i Hin)).
    + exact (Hm i Hin).
Qed.

Lemma references_in_reachable_stores_witness :
  In (mkOrder 1 1 2500 Pending None 100 100) (rows (orders sample_db_order)) /\
  select_table 1 sample_db_order <> None.
Proof.
  assert (Ho : In (mkOrder 1 1 2500 Pending None 100 100) (rows (orders sample_db_order)))
    by (vm_compute; left; reflexivity).
  split; [exact Ho |].
  exact (proj1 (proj1 (@references_in_reachable_stores sample_db_order
                         sample_db_order_reachable) _ Ho)).
Defined.

(** X3: in every store the application can be in, the ids of each of the
    five tables and the table numbers are without duplicates, the ids are
    positive, and looking a row up by its id gives that row. *)
Theorem keys_in_reachable_stores db :
  reachable db ->
  NoDup (map t_id (rows (tables db))) /\ NoDup (map t_number (rows (tables db))) /\
  NoDup (map mi_id (rows (menu_items db))) /\ NoDup (map s_id (rows (staff db))) /\
  NoDup (map o_id (rows (orders db))) /\ NoDup (map oi_id (rows (order_items db))) /\
  (forall t, In t (rows (tables db)) -> 0 < t_id t /\ select_table (t_id t) db = Some t) /\
  (forall m, In m (rows (menu_items db)) ->
     0 < mi_id m /\ select_menu_item (mi_id m) db = Some m) /\
  (forall s, In s (rows (staff db)) -> 0 < s_id s /\ select_staff (s_id s) db = Some s) /\
  (forall o, In o (rows (orders db)) -> 0 < o_id o /\ select_order (o_id o) db = Some o).
Proof.
  intro Hr. destruct (reachable_sound Hr) as [(Kt & Km & Ks & Ko & Ki & Kn) _].
  split; [apply Kt |]. split; [exact Kn |]. split; [apply Km |]. split; [apply Ks |].
  split; [apply Ko |]. split; [apply Ki |].
  split; [| split; [| split]]; intros x Hx.
  - split; [| exact (@keyed_find _ _ _ _ Kt Hx)].
    destruct Kt as [_ Kb]. rewrite Forall_forall in Kb. apply (Kb x Hx).
  - split; [| exact (@keyed_find _ _ _ _ Km Hx)].
    destruct Km as [_ Kb]. rewrite Forall_forall in Kb. apply (Kb x Hx).
  - split; [| exact (@keyed_find _ _ _ _ Ks Hx)].
    destruct Ks as [_ Kb]. rewrite Forall_forall in Kb. apply (Kb x Hx).
  - split; [| exact (@keyed_find _ _ _ _ Ko Hx)].
    destruct Ko as [_ Kb]. rewrite Forall_forall in Kb. apply (Kb x Hx).
Qed.

Lemma keys_in_reachable_stores_witness :
  NoDup (map t_id (rows (tables sample_db_order))) /\
  NoDup (map t_number (rows (tables sample_db_order))).
Proof.
  destruct (@keys_in_reachable_stores sample_db_order sample_db_order_reachable)
    as (Hi & Hn & _).
  exact (conj Hi Hn).
Defined.

(* ================================================================= *)
(** ** [PATCH /api/orders/[id]/status] against the schema *)

(** X9: [PATCH /api/orders/{id}/status] never succeeds on this store. Under
    every failure schedule it leaves the store as it was and does not answer
    200; for a valid status the answer is the 500 of its catch block,
    because preparing its UPDATE fails on the column [updatedAt], which the
    table [orders] does not have. *)
Theorem patch_status_never_succeeds flt now id status db resp db' :
  OrderStatusRoute.PATCH orders_columns flt now id status db = (resp, db') ->
  db' = db /\ http_status resp <> 200 /\
  (forall given, or_nullS status = Some given -> OrderStatus_of_string given <> None ->
     resp = error_response "Failed to update order status" 500) /\
  (forall st, prepare orders_columns ["status"; "updatedAt"; "id"] flt st
              = (Throw (NoSuchColumn "updatedAt"), st)).
Proof.
  rewrite PATCH_store_columns. intro E. injection E as <- <-.
  split; [reflexivity |]. split.
  - destruct (or_nullS status) as [g |]; [| discriminate].
    destruct (OrderStatus_of_string g); discriminate.
  - split; [| reflexivity].
    intros given -> Hv. destruct (OrderStatus_of_string given); [reflexivity | now elim Hv].
Qed.

Lemma patch_status_never_succeeds_witness :
  snd (OrderStatusRoute.PATCH orders_columns no_faults 200 (Some 1) (Some "Paid")
         sample_db_order) = sample_db_order.
Proof.
  apply (@patch_status_never_succeeds no_faults 200 (Some 1) (Some "Paid") sample_db_order
           (fst (OrderStatusRoute.PATCH orders_columns no_faults 200 (Some 1) (Some "Paid")
                   sample_db_order))).
  apply surjective_pairing.
Defined.

(* ================================================================= *)
(** ** Menu items and staff: creation and update *)

Lemma select_menu_item_inserted mk db :
  (forall k, mi_id (mk k) = k) ->
  select_menu_item (next_rowid (menu_items db))
    (with_menu_items (snd (insert_row mk (menu_items db))) db)
    = Some (mk (next_rowid (menu_items db))).
Proof.
  intro Hk. unfold select_menu_item, get_where. cbn [menu_items with_menu_items].
  exact (find_fresh_insert mk (menu_items db) Hk).
Qed.

Lemma select_staff_inserted mk db :
  (forall k, s_id (mk k) = k) ->
  select_staff (next_rowid (staff db)) (with_staff (snd (insert_row mk (staff db))) db)
    = Some (mk (next_rowid (staff db))).
Proof.
  intro Hk. unfold select_staff, get_where. cbn [staff with_staff].
  exact (find_fresh_insert mk (staff db) Hk).
Qed.

(** X16: creating a menu item. A request without a name, a price (0
    counts as none), a category or an image is answered 400, as is an
    unknown category and a price that is not positive, with nothing
    written; otherwise the item is added at the end with a fresh id,
    available unless the request says otherwise, the rest of the store is
    unchanged, and [GET /api/menu/{id}] gives it back. *)
Theorem menu_item_creation now db req :
  (or_nullS (Menu.name req) = None \/ or_nullF (Menu.price req) = None \/
   or_nullS (Menu.category req) = None \/ or_nullS (Menu.image req) = None ->
   forall flt, Menu.POST flt now req db
               = (error_response "Name, price, category, and image are required" 400, db)) /\
  (forall n p c i,
     or_nullS (Menu.name req) = Some n -> or_nullF (Menu.price req) = Some p ->
     or_nullS (Menu.category req) = Some c -> or_nullS (Menu.image req) = Some i ->
     (MenuCategory_of_string c = None ->
      forall flt, Menu.POST flt now req db
                  = (error_response "Invalid category. Must be Starters, Mains, or Drinks" 400,
                     db)) /\
     (forall cat, MenuCategory_of_string c = Some cat ->
        (PrimFloat.leb p 0 = true ->
         forall flt, Menu.POST flt now req db
                     = (error_response "Price must be a positive number" 400, db)) /\
        (PrimFloat.ltb 0 p = true ->
         let m := mkMenuItem (next_rowid (menu_items db)) n p cat i
                             (match Menu.isAvailable req with Some b => b | None => true end)
                             now now in
         exists db',
           Menu.POST no_faults now req db = (json_status (MenuItemJson (Some m)) 201, db') /\
           rows (menu_items db') = rows (menu_items db) ++ [m] /\
           tables db' = tables db /\ staff db' = staff db /\
           orders db' = orders db /\ order_items db' = order_items db /\
           Get.MenuById.GET no_faults (Some (mi_id m)) db'
             = (json (MenuItemJson (Some m)), db')))).
Proof.
  split.
  - intros H flt. unfold Menu.POST, handle, Menu.POST_body.
    destruct (or_nullS (Menu.name req)), (or_nullF (Menu.price req)),
             (or_nullS (Menu.category req)), (or_nullS (Menu.image req));
      try reflexivity.
    destruct H as [H | [H | [H | H]]]; discriminate.
  - intros n p c i Hn Hp Hc Hi. split.
    + intros Hcat flt. unfold Menu.POST, handle, Menu.POST_body.
      now rewrite Hn, Hp, Hc, Hi, Hcat.
    + intros cat Hcat. split.
      * intros Hle flt. unfold Menu.POST, handle, Menu.POST_body.
        rewrite Hn, Hp, Hc, Hi, Hcat. now rewrite Hle.
      * intros Hpos m.
        set (mk := fun k => mkMenuItem k n p cat i
                     (match Menu.isAvailable req with Some b => b | None => true end) now now).
        exists (with_menu_items (snd (insert_row mk (menu_items db))) db).
        assert (S : select_menu_item (next_rowid (menu_items db))
                      (with_menu_items (snd (insert_row mk (menu_items db))) db) = Some m)
          by (apply (select_menu_item_inserted mk); reflexivity).
        split.
        -- unfold Menu.POST, handle, Menu.POST_body.
           rewrite Hn, Hp, Hc, Hi, Hcat.
           destruct (positive_number Hpos) as (Hnan & _ & Hle). rewrite Hle.
           unfold bind at 1, stmt at 1. cbn beta iota delta [no_faults st_db st_tick].
           unfold insert_menu_item. rewrite (sql_real_number _ Hnan). fold mk.
           cbn [insert_row].
           unfold bind at 1, query at 1, stmt at 1.
           cbn beta iota delta [no_faults st_db st_tick ret].
           cbn [insert_row snd] in S. now rewrite S.
        -- repeat (split; [reflexivity |]).
           unfold Get.MenuById.GET, handle, Get.MenuById.GET_body.
           unfold bind at 1, query at 1, stmt at 1.
           cbn beta iota delta [no_faults st_db st_tick].
           cbn [mi_id m]. now rewrite S.
Qed.

Lemma menu_item_creation_witness :
  let req := Menu.mkRequest (Some "Tiramisu") (Some 700%float) (Some "Starters") (Some "t.png")
               None in
  exists db',
    Menu.POST no_faults 20 req sample_db
      = (json_status (MenuItemJson
                        (Some (mkMenuItem 3 "Tiramisu" 700 Starters "t.png" true 20 20))) 201,
         db') /\
    Get.MenuById.GET no_faults (Some 3) db'
      = (json (MenuItemJson (Some (mkMenuItem 3 "Tiramisu" 700 Starters "t.png" true 20 20))),
         db').
Proof.
  cbv zeta.
  destruct (proj2 (menu_item_creation 20 sample_db
                     (Menu.mkRequest (Some "Tiramisu") (Some 700%float) (Some "Starters")
                        (Some "t.png") None))
              "Tiramisu" 700%float "Starters" "t.png" eq_refl eq_refl eq_refl eq_refl) as [_ H].
  destruct (H Starters eq_refl) as [_ H'].
  destruct H' as (db' & E & _ & _ & _ & _ & _ & G).
  - reflexivity.
  - exists db'. exact (conj E G).
Defined.

Lemma MenuById_PUT_no_faults now id req db m :
  select_menu_item id db = Some m ->
  let cat := match or_nullS (Menu.category req) with
             | Some c => MenuCategory_of_string c
             | None => None
             end in
  (or_nullS (Menu.category req) <> None -> cat <> None) ->
  (forall p, Menu.price req = Some p -> PrimFloat.ltb 0 p = true) ->
  let db' := update_menu_item now (or_nullS (Menu.name req)) (or_nullF (Menu.price req)) cat
               (or_nullS (Menu.image req)) (Menu.isAvailable req) id db in
  MenuById.PUT no_faults now (Some id) req db
    = (json (MenuItemJson (select_menu_item id db')), db').
Proof.
  intros Sm cat V Hp db'. subst cat db'.
  unfold MenuById.PUT, handle, MenuById.PUT_body. cbv zeta.
  assert (P : match Menu.price req with Some p => PrimFloat.leb p 0 | None => false end
              = false).
  { destruct (Menu.price req) as [p |]; [| reflexivity].
    now destruct (positive_number (Hp p eq_refl)) as (_ & _ & ->). }
  destruct (or_nullS (Menu.category req)) as [g |];
    [destruct (MenuCategory_of_string g); [| now elim V] |];
    rewrite P;
    unfold bind at 1, query at 1, stmt at 1;
    cbn beta iota delta [no_faults st_db st_tick]; rewrite Sm;
    unfold bind at 1, exec at 1, stmt at 1;
    cbn beta iota delta [no_faults st_db st_tick];
    unfold bind at 1, query at 1, stmt at 1;
    cbn beta iota delta [no_faults st_db st_tick ret]; reflexivity.
Qed.

(** X17: updating a menu item that exists. A price of 0 is answered 400
    and nothing is written; for a category that is absent, empty or valid
    and a price that is absent or positive, [PUT /api/menu/{id}] stores
    what is given and keeps the columns not given (an empty name or image
    counts as not given), answers the stored row, which
    [GET /api/menu/{id}] gives back, and leaves the orders and their lines
    as they are. *)
Theorem menu_item_update now db id m req :
  select_menu_item id db = Some m ->
  (forall flt, Menu.price req = Some 0%float ->
     (or_nullS (Menu.category req) = None \/
      exists c cat, or_nullS (Menu.category req) = Some c /\
                    MenuCategory_of_string c = Some cat) ->
     MenuById.PUT flt now (Some id) req db
       = (error_response "Price must be a positive number" 400, db)) /\
  (forall cat,
     match or_nullS (Menu.category req) with
     | Some c => MenuCategory_of_string c = Some cat
     | None => cat = mi_category m
     end ->
     (forall p, Menu.price req = Some p -> PrimFloat.ltb 0 p = true) ->
     let m' := mkMenuItem (mi_id m)
                          (coalesce (or_nullS (Menu.name req)) (mi_name m))
                          (coalesce (Menu.price req) (mi_price m))
                          cat
                          (coalesce (or_nullS (Menu.image req)) (mi_image m))
                          (coalesce (Menu.isAvailable req) (mi_is_available m))
                          (mi_created_at m) now in
     exists db',
       MenuById.PUT no_faults now (Some id) req db = (json (MenuItemJson (Some m')), db') /\
       Get.MenuById.GET no_faults (Some id) db' = (json (MenuItemJson (Some m')), db') /\
       tables db' = tables db /\ staff db' = staff db /\
       orders db' = orders db /\ order_items db' = order_items db).
Proof.
  intro Sm. split.
  - intros flt Hp Hc. unfold MenuById.PUT, handle, MenuById.PUT_body. cbv zeta.
    rewrite Hp. destruct Hc as [-> | (c & cat & -> & ->)]; reflexivity.
  - intros cat Hc Hp m'.
    set (cat' := match or_nullS (Menu.category req) with
                 | Some c => MenuCategory_of_string c
                 | None => None
                 end).
    assert (Hcat : coalesce cat' (mi_category m) = cat).
    { unfold cat'. destruct (or_nullS (Menu.category req)); [now rewrite Hc | now symmetry]. }
    assert (V : or_nullS (Menu.category req) <> None -> cat' <> None).
    { unfold cat'. destruct (or_nullS (Menu.category req)); [now rewrite Hc | congruence]. }
    assert (Hprice : coalesce (bind_real (or_nullF (Menu.price req))) (mi_price m)
                     = coalesce (Menu.price req) (mi_price m)).
    { destruct (Menu.price req) as [p |] eqn:Ep; [| reflexivity].
      specialize (Hp p eq_refl). rewrite (truthyF_positive Hp). cbn [bind_real].
      destruct (positive_number Hp) as (Hnan & _). now rewrite (sql_real_number _ Hnan). }
    exists (update_menu_item now (or_nullS (Menu.name req)) (or_nullF (Menu.price req)) cat'
              (or_nullS (Menu.image req)) (Menu.isAvailable req) id db).
    assert (S : select_menu_item id
                  (update_menu_item now (or_nullS (Menu.name req)) (or_nullF (Menu.price req))
                     cat' (or_nullS (Menu.image req)) (Menu.isAvailable req) id db)
                = Some m').
    { unfold select_menu_item, get_where, update_menu_item.
      cbn [menu_items with_menu_items update_where rows].
      rewrite (find_update (fun x => mi_id x =? id)) by reflexivity.
      unfold select_menu_item, get_where in Sm. rewrite Sm. cbn [option_map].
      unfold m'. now rewrite Hcat, Hprice. }
    split.
    + rewrite (@MenuById_PUT_no_faults now id req db m Sm V Hp). cbv zeta. fold cat'.
      now rewrite S.
    + split; [| now repeat split].
      unfold Get.MenuById.GET, handle, Get.MenuById.GET_body.
      unfold bind at 1, query at 1, stmt at 1.
      cbn beta iota delta [no_faults st_db st_tick]. now rewrite S.
Qed.

Lemma menu_item_update_witness :
  exists db',
    MenuById.PUT no_faults 20 (Some 2) (Menu.mkRequest None (Some 550%float) None None None)
      sample_db
      = (json (MenuItemJson (Some (mkMenuItem 2 "Espresso" 550 Drinks "b.png" true 10 20))),
         db') /\
    orders db' = orders sample_db.
Proof.
  destruct (@menu_item_update 20 sample_db 2 (mkMenuItem 2 "Espresso" 500 Drinks "b.png" true 10 10)
              (Menu.mkRequest None (Some 550%float) None None None) eq_refl) as [_ H].
  destruct (H Drinks eq_refl) as (db' & E & _ & _ & _ & O & _).
  - intros p Hp. injection Hp as <-. reflexivity.
  - exists db'. exact (conj E O).
Defined.

(** X19: creating a staff member. A request without a name, a role, a
    shift or an avatar is answered 400, as is an unknown role and an
    unknown status, with nothing written; otherwise the member is added at
    the end with a fresh id, Off Duty when no status is given, the rest of
    the store is unchanged, and [GET /api/staff/{id}] gives it back. *)
Theorem staff_creation now db req :
  (or_nullS (StaffRoute.name req) = None \/ or_nullS (StaffRoute.role req) = None \/
   or_nullS (StaffRoute.shift req) = None \/ or_nullS (StaffRoute.avatar req) = None ->
   forall flt, StaffRoute.POST flt now req db
               = (error_response "Name, role, shift, and avatar are required" 400, db)) /\
  (forall n r sh a,
     or_nullS (StaffRoute.name req) = Some n -> or_nullS (StaffRoute.role req) = Some r ->
     or_nullS (StaffRoute.shift req) = Some sh -> or_nullS (StaffRoute.avatar req) = Some a ->
     (StaffRole_of_string r = None ->
      forall flt, StaffRoute.POST flt now req db = (error_response "Invalid role" 400, db)) /\
     (forall rl, StaffRole_of_string r = Some rl ->
        (ShiftStatus_of_string
           (match StaffRoute.status req with Some s => s | None => "Off Duty" end) = None ->
         forall flt, StaffRoute.POST flt now req db
                     = (error_response invalid_shift_status 400, db)) /\
        (forall st,
           ShiftStatus_of_string
             (match StaffRoute.status req with Some s => s | None => "Off Duty" end) = Some st ->
           let s := mkStaff (next_rowid (staff db)) n rl sh st a now now in
           (StaffRoute.status req = None -> st = OffDuty) /\
           exists db',
             StaffRoute.POST no_faults now req db = (json_status (StaffJson (Some s)) 201, db') /\
             rows (staff db') = rows (staff db) ++ [s] /\
             tables db' = tables db /\ menu_items db' = menu_items db /\
             orders db' = orders db /\ order_items db' = order_items db /\
             Get.StaffById.GET no_faults (Some (s_id s)) db'
               = (json (StaffJson (Some s)), db')))).
Proof.
  split.
  - intros H flt. unfold StaffRoute.POST, handle, StaffRoute.POST_body.
    destruct (or_nullS (StaffRoute.name req)), (or_nullS (StaffRoute.role req)),
             (or_nullS (StaffRoute.shift req)), (or_nullS (StaffRoute.avatar req));
      try reflexivity.
    destruct H as [H | [H | [H | H]]]; discriminate.
  - intros n r sh a Hn Hr Hsh Ha. split.
    + intros Hrole flt. unfold StaffRoute.POST, handle, StaffRoute.POST_body.
      now rewrite Hn, Hr, Hsh, Ha, Hrole.
    + intros rl Hrole. split.
      * intros Hst flt. unfold StaffRoute.POST, handle, StaffRoute.POST_body.
        now rewrite Hn, Hr, Hsh, Ha, Hrole, Hst.
      * intros st Hst s. split.
        { intro N. rewrite N in Hst. cbn in Hst. congruence. }
        set (mk := fun k => mkStaff k n rl sh st a now now).
        exists (with_staff (snd (insert_row mk (staff db))) db).
        assert (S : select_staff (next_rowid (staff db))
                      (with_staff (snd (insert_row mk (staff db))) db) = Some s)
          by (apply (select_staff_inserted mk); reflexivity).
        split.
        -- unfold StaffRoute.POST, handle, StaffRoute.POST_body.
           rewrite Hn, Hr, Hsh, Ha, Hrole, Hst.
           unfold bind at 1, stmt at 1. cbn beta iota delta [no_faults st_db st_tick].
           unfold insert_staff. fold mk. cbn [insert_row].
           unfold bind at 1, query at 1, stmt at 1.
           cbn beta iota delta [no_faults st_db st_tick ret].
           cbn [insert_row snd] in S. now rewrite S.
        -- repeat (split; [reflexivity |]).
           unfold Get.StaffById.GET, handle, Get.StaffById.GET_body.
           unfold bind at 1, query at 1, stmt at 1.
           cbn beta iota delta [no_faults st_db st_tick].
           cbn [s_id s]. now rewrite S.
Qed.

Lemma staff_creation_witness :
  let req := StaffRoute.mkRequest (Some "Li Wei") (Some "Chef") (Some "5pm - 1am") None
               (Some "l.png") in
  exists db',
    StaffRoute.POST no_faults 20 req sample_db
      = (json_status (StaffJson
                        (Some (mkStaff 2 "Li Wei" Chef "5pm - 1am" OffDuty "l.png" 20 20))) 201,
         db').
Proof.
  cbv zeta.
  destruct (proj2 (staff_creation 20 sample_db
                     (StaffRoute.mkRequest (Some "Li Wei") (Some "Chef") (Some "5pm - 1am")
                        None (Some "l.png")))
              "Li Wei" "Chef" "5pm - 1am" "l.png" eq_refl eq_refl eq_refl eq_refl) as [_ H].
  destruct (H Chef eq_refl) as [_ H'].
  destruct (H' OffDuty eq_refl) as (_ & db' & E & _).
  exists db'. exact E.
Defined.

Lemma StaffById_PUT_no_faults now id req db x :
  select_staff id db = Some x ->
  let rl := match or_nullS (StaffRoute.role req) with
            | Some r => StaffRole_of_string r
            | None => None
            end in
  let st := match or_nullS (StaffRoute.status req) with
            | Some s => ShiftStatus_of_string s
            | None => None
            end in
  (or_nullS (StaffRoute.role req) <> None -> rl <> None) ->
  (or_nullS (StaffRoute.status req) <> None -> st <> None) ->
  let db' := update_staff now (or_nullS (StaffRoute.name req)) rl
               (or_nullS (StaffRoute.shift req)) st (or_nullS (StaffRoute.avatar req)) id db in
  StaffById.PUT no_faults now (Some id) req db = (json (StaffJson (select_staff id db')), db').
Proof.
  intros Sx rl st Vr Vs db'. subst rl st db'.
  unfold StaffById.PUT, handle, StaffById.PUT_body. cbv zeta.
  destruct (or_nullS (StaffRoute.role req)) as [r |];
    [destruct (StaffRole_of_string r); [| now elim Vr] |];
    (destruct (or_nullS (StaffRoute.status req)) as [g |];
     [destruct (ShiftStatus_of_string g); [| now elim Vs] |]);
    unfold bind at 1, query at 1, stmt at 1;
    cbn beta iota delta [no_faults st_db st_tick]; rewrite Sx;
    unfold bind at 1, exec at 1, stmt at 1;
    cbn beta iota delta [no_faults st_db st_tick];
    unfold bind at 1, query at 1, stmt at 1;
    cbn beta iota delta [no_faults st_db st_tick ret]; reflexivity.
Qed.

(** X20: updating a staff member that exists. For a role and a status that
    are absent, empty or valid, [PUT /api/staff/{id}] stores what is given
    and keeps the columns not given, answers the stored row, which
    [GET /api/staff/{id}] gives back, and changes nothing else: the other
    staff members stay as they are, each in its place, and so do the
    tables, the menu, the orders and the order lines. *)
Theorem staff_update now db id x req rl st :
  select_staff id db = Some x ->
  match or_nullS (StaffRoute.role req) with
  | Some r => StaffRole_of_string r = Some rl
  | None => rl = s_role x
  end ->
  match or_nullS (StaffRoute.status req) with
  | Some s => ShiftStatus_of_string s = Some st
  | None => st = s_status x
  end ->
  let x' := mkStaff (s_id x)
                    (coalesce (or_nullS (StaffRoute.name req)) (s_name x))
                    rl
                    (coalesce (or_nullS (StaffRoute.shift req)) (s_shift x))
                    st
                    (coalesce (or_nullS (StaffRoute.avatar req)) (s_avatar x))
                    (s_created_at x) now in
  exists db',
    StaffById.PUT no_faults now (Some id) req db = (json (StaffJson (Some x')), db') /\
    Get.StaffById.GET no_faults (Some id) db' = (json (StaffJson (Some x')), db') /\
    Forall2 (fun y y' => s_id y <> id -> y' = y) (rows (staff db)) (rows (staff db')) /\
    seq (staff db') = seq (staff db) /\
    tables db' = tables db /\ menu_items db' = menu_items db /\
    orders db' = orders db /\ order_items db' = order_items db.
Proof.
  intros Sx Hr Hs x'.
  set (rl' := match or_nullS (StaffRoute.role req) with
              | Some r => StaffRole_of_string r
              | None => None
              end).
  set (st' := match or_nullS (StaffRoute.status req) with
              | Some s => ShiftStatus_of_string s
              | None => None
              end).
  assert (Hrl : coalesce rl' (s_role x) = rl).
  { unfold rl'. destruct (or_nullS (StaffRoute.role req)); [now rewrite Hr | now symmetry]. }
  assert (Hst : coalesce st' (s_status x) = st).
  { unfold st'. destruct (or_nullS (StaffRoute.status req)); [now rewrite Hs | now symmetry]. }
  assert (Vr : or_nullS (StaffRoute.role req) <> None -> rl' <> None).
  { unfold rl'. destruct (or_nullS (StaffRoute.role req)); [now rewrite Hr | congruence]. }
  assert (Vs : or_nullS (StaffRoute.status req) <> None -> st' <> None).
  { unfold st'. destruct (or_nullS (StaffRoute.status req)); [now rewrite Hs | congruence]. }
  exists (update_staff now (or_nullS (StaffRoute.name req)) rl'
            (or_nullS (StaffRoute.shift req)) st' (or_nullS (StaffRoute.avatar req)) id db).
  assert (S : select_staff id
                (update_staff now (or_nullS (StaffRoute.name req)) rl'
                   (or_nullS (StaffRoute.shift req)) st' (or_nullS (StaffRoute.avatar req))
                   id db) = Some x').
  { unfold select_staff, get_where, update_staff.
    cbn [staff with_staff update_where rows].
    rewrite (find_update (fun y => s_id y =? id)) by reflexivity.
    unfold select_staff, get_where in Sx. rewrite Sx. cbn [option_map].
    unfold x'. now rewrite Hrl, Hst. }
  split.
  - rewrite (@StaffById_PUT_no_faults now id req db x Sx Vr Vs). cbv zeta.
    fold rl' st'. now rewrite S.
  - split; [| split; [apply (others_unchanged s_id) | now repeat split]].
    unfold Get.StaffById.GET, handle, Get.StaffById.GET_body.
    unfold bind at 1, query at 1, stmt at 1.
    cbn beta iota delta [no_faults st_db st_tick]. now rewrite S.
Qed.

Lemma staff_update_witness :
  exists db',
    StaffById.PUT no_faults 20 (Some 1)
      (StaffRoute.mkRequest None (Some "Head Waiter") None (Some "Off Duty") None) sample_db
      = (json (StaffJson (Some (mkStaff 1 "Maria Garcia" HeadWaiter "9am - 5pm" OffDuty
                                        "m.png" 10 20))),
         db').
Proof.
  destruct (@staff_update 20 sample_db 1
              (mkStaff 1 "Maria Garcia" Waiter "9am - 5pm" OnShift "m.png" 10 10)
              (StaffRoute.mkRequest None (Some "Head Waiter") None (Some "Off Duty") None)
              HeadWaiter OffDuty eq_refl eq_refl eq_refl) as (db' & E & _).
  exists db'. exact E.
Defined.

(* ================================================================= *)
(** ** Menu and staff: the listings *)

Section OrderByFacts.
Context {A : Type} (before : A -> A -> bool).
Hypothesis before_total : forall a b, before a b = true \/ before b a = true.
Hypothesis before_trans :
  forall a b c, before a b = true -> before b c = true -> before a c = true.

Lemma insert_by_perm x l : Permutation (insert_by before x l) (x :: l).
Proof.
  induction l as [| y r IH]; simpl; [reflexivity |].
  destruct (before x y); [reflexivity |].
  rewrite IH. apply perm_swap.
Qed.

Lemma order_by_perm l : Permutation (order_by before l) l.
Proof.
  induction l as [| x r IH]; simpl; [reflexivity |].
  rewrite insert_by_perm. now constructor.
Qed.

Lemma insert_by_sorted x l :
  StronglySorted (fun a b => before a b = true) l ->
  StronglySorted (fun a b => before a b = true) (insert_by before x l).
Proof.
  induction 1 as [| y r Hr IH Hy]; simpl.
  - repeat constructor.
  - destruct (before x y) eqn:E.
    + constructor; [now constructor |].
      constructor; [exact E |].
      eapply Forall_impl; [| exact Hy]. cbn. intros z Hz. now apply before_trans with y.
    + constructor; [exact IH |].
      eapply Permutation_Forall; [symmetry; apply insert_by_perm |].
      constructor; [| exact Hy].
      destruct (before_total x y) as [F | F]; [congruence | exact F].
Qed.

Lemma order_by_sorted l :
  StronglySorted (fun a b => before a b = true) (order_by before l).
Proof.
  induction l as [| x r IH]; simpl; [constructor | now apply insert_by_sorted].
Qed.
End OrderByFacts.

Lemma ascii_compare_trans a b c :
  Ascii.compare a b = Lt -> Ascii.compare b c = Lt -> Ascii.compare a c = Lt.
Proof.
  unfold Ascii.compare. rewrite !N.compare_lt_iff. apply N.lt_trans.
Qed.

Lemma string_compare_trans s1 :
  forall s2 s3, String.compare s1 s2 = Lt -> String.compare s2 s3 = Lt ->
    String.compare s1 s3 = Lt.
Proof.
  induction s1 as [| a s1 IH]; intros [| b s2] [| c s3]; cbn; try congruence.
  destruct (Ascii.compare a b) eqn:Eab; try discriminate.
  - apply Ascii.compare_eq_iff in Eab. subst b.
    destruct (Ascii.compare a c); try congruence. apply IH.
  - intros _. destruct (Ascii.compare b c) eqn:Ebc; try discriminate.
    + apply Ascii.compare_eq_iff in Ebc. subst c. now rewrite Eab.
    + intros _. now rewrite (ascii_compare_trans _ _ _ Eab Ebc).
Qed.

Lemma string_compare_refl s : String.compare s s = Eq.
Proof.
  induction s as [| a s IH]; cbn; [reflexivity |].
  assert (E : Ascii.compare a a = Eq) by (unfold Ascii.compare; apply N.compare_refl).
  now rewrite E.
Qed.

Lemma string_leb_trans s1 s2 s3 :
  String.leb s1 s2 = true -> String.leb s2 s3 = true -> String.leb s1 s3 = true.
Proof.
  unfold String.leb.
  destruct (String.compare s1 s2) eqn:E12; try discriminate; intros _;
  destruct (String.compare s2 s3) eqn:E23; try discriminate; intros _.
  - apply String.compare_eq_iff in E12, E23. subst. now rewrite string_compare_refl.
  - apply String.compare_eq_iff in E12. subst. now rewrite E23.
  - apply String.compare_eq_iff in E23. subst. now rewrite E12.
  - now rewrite (string_compare_trans _ _ _ E12 E23).
Qed.

Lemma menu_before_total a b : menu_before a b = true \/ menu_before b a = true.
Proof.
  unfold menu_before.
  rewrite (String.compare_antisym (MenuCategory_to_string (mi_category b))).
  destruct (String.compare (MenuCategory_to_string (mi_category a))
                           (MenuCategory_to_string (mi_category b))); cbn;
    [apply String.leb_total | now left | now right].
Qed.

Lemma menu_before_trans a b c :
  menu_before a b = true -> menu_before b c = true -> menu_before a c = true.
Proof.
  unfold menu_before.
  destruct (String.compare (MenuCategory_to_string (mi_category a))
                           (MenuCategory_to_string (mi_category b))) eqn:E12;
    try discriminate;
  destruct (String.compare (MenuCategory_to_string (mi_category b))
                           (MenuCategory_to_string (mi_category c))) eqn:E23;
    try discriminate.
  - apply String.compare_eq_iff in E12, E23. rewrite E12, E23, string_compare_refl.
    apply string_leb_trans.
  - apply String.compare_eq_iff in E12. rewrite E12, E23. reflexivity.
  - apply String.compare_eq_iff in E23. rewrite <- E23, E12. reflexivity.
  - now rewrite (string_compare_trans _ _ _ E12 E23).
Qed.

Lemma staff_before_total a b : staff_before a b = true \/ staff_before b a = true.
Proof. apply String.leb_total. Qed.

Lemma staff_before_trans a b c :
  staff_before a b = true -> staff_before b c = true -> staff_before a c = true.
Proof. apply string_leb_trans. Qed.

Lemma menu_matches_spec q m :
  Get.Menu.matches q m = true <->
  (forall c, Get.Menu.category q = Some c -> c <> "" ->
     MenuCategory_to_string (mi_category m) = c) /\
  (forall a, Get.Menu.available q = Some a ->
     mi_is_available m = String.eqb a "true").
Proof.
  unfold Get.Menu.matches, or_nullS, truthyS. rewrite andb_true_iff. split.
  - intros [Hc Ha]. split.
    + intros c Ec Nc. rewrite Ec in Hc.
      destruct (String.eqb c "") eqn:Z; [apply String.eqb_eq in Z; contradiction |].
      cbn in Hc. now apply String.eqb_eq.
    + intros a Ea. rewrite Ea in Ha. now apply Bool.eqb_prop.
  - intros [Hc Ha]. split.
    + destruct (Get.Menu.category q) as [c |]; [| reflexivity].
      destruct (String.eqb c "") eqn:Z; cbn; [reflexivity |].
      apply String.eqb_eq. apply Hc; [reflexivity |].
      intros ->. discriminate.
    + destruct (Get.Menu.available q) as [a |]; [| reflexivity].
      rewrite (Ha a eq_refl). apply Bool.eqb_reflx.
Qed.

Lemma staff_matches_spec q s :
  Get.Staff.matches q s = true <->
  (forall x, Get.Staff.status q = Some x -> x <> "" ->
     ShiftStatus_to_string (s_status s) = x) /\
  (forall x, Get.Staff.role q = Some x -> x <> "" ->
     StaffRole_to_string (s_role s) = x).
Proof.
  assert (G : forall (o : option string) (t : string),
             match or_nullS o with Some x => String.eqb t x | None => true end = true <->
             (forall x, o = Some x -> x <> "" -> t = x)).
  { intros o t. unfold or_nullS, truthyS. destruct o as [x |].
    - destruct (String.eqb x "") eqn:Z; cbn.
      + apply String.eqb_eq in Z. subst x. split; [| reflexivity].
        intros _ x E N. injection E as <-. now elim N.
      + split.
        * intros H y E _. injection E as <-. now apply String.eqb_eq.
        * intro H. apply String.eqb_eq. apply H; [reflexivity |].
          intros ->. discriminate.
    - split; [discriminate | reflexivity]. }
  unfold Get.Staff.matches. rewrite andb_true_iff, !G. reflexivity.
Qed.

(** X24: the listing [GET /api/menu]. It never writes. It answers the 500
    of its catch block when the store fails, and otherwise exactly the menu
    items of the (non-empty) category given whose availability is the one
    asked for, sorted by category and then by name. The value [true] of
    [available] asks for the available items and every other value, the
    empty one included, for the unavailable ones. *)
Theorem menu_listing flt q db r db' :
  Get.Menu.GET flt q db = (r, db') ->
  db' = db /\
  (r = NoRows (error_response "Failed to fetch menu items" 500) /\ flt 0%nat = true
   \/ exists l, r = Rows l /\ flt 0%nat = false /\
      Permutation l (filter (Get.Menu.matches q) (rows (menu_items db))) /\
      StronglySorted (fun a b => menu_before a b = true) l /\
      (forall m, In m l <->
         In m (rows (menu_items db)) /\
         (forall c, Get.Menu.category q = Some c -> c <> "" ->
            MenuCategory_to_string (mi_category m) = c) /\
         (forall a, Get.Menu.available q = Some a ->
            mi_is_available m = String.eqb a "true"))).
Proof.
  unfold Get.Menu.GET, handle_list, Get.Menu.GET_body, query, stmt. cbn [st_db st_tick].
  destruct (flt 0%nat) eqn:F; intro E; injection E as <- <-.
  - split; [reflexivity |]. now left.
  - split; [reflexivity |]. right. eexists. split; [reflexivity |].
    split; [reflexivity |].
    assert (P : Permutation
                  (order_by menu_before (select_where (Get.Menu.matches q) (menu_items db)))
                  (filter (Get.Menu.matches q) (rows (menu_items db))))
      by apply order_by_perm.
    split; [exact P |].
    split; [apply order_by_sorted; [apply menu_before_total | apply menu_before_trans] |].
    intro m. split.
    + intro Hm. apply (Permutation_in _ P) in Hm. apply filter_In in Hm.
      destruct Hm as [Hm Hq]. split; [exact Hm |]. now apply menu_matches_spec.
    + intros (Hm & Hq). apply (Permutation_in _ (Permutation_sym P)).
      apply filter_In. split; [exact Hm |]. now apply menu_matches_spec.
Qed.

Lemma menu_listing_witness :
  snd (Get.Menu.GET no_faults (Get.Menu.mkQuery None (Some "true")) sample_db) = sample_db.
Proof.
  apply (@menu_listing no_faults (Get.Menu.mkQuery None (Some "true")) sample_db
           (fst (Get.Menu.GET no_faults (Get.Menu.mkQuery None (Some "true")) sample_db))).
  apply surjective_pairing.
Defined.

(** X25: the listing [GET /api/staff]. It never writes. It answers the 500
    of its catch block when the store fails, and otherwise exactly the staff
    members with the (non-empty) status and the (non-empty) role given,
    sorted by name. *)
Theorem staff_listing flt q db r db' :
  Get.Staff.GET flt q db = (r, db') ->
  db' = db /\
  (r = NoRows (error_response "Failed to fetch staff members" 500) /\ flt 0%nat = true
   \/ exists l, r = Rows l /\ flt 0%nat = false /\
      Permutation l (filter (Get.Staff.matches q) (rows (staff db))) /\
      StronglySorted (fun a b => String.leb (s_name a) (s_name b) = true) l /\
      (forall s, In s l <->
         In s (rows (staff db)) /\
         (forall x, Get.Staff.status q = Some x -> x <> "" ->
            ShiftStatus_to_string (s_status s) = x) /\
         (forall x, Get.Staff.role q = Some x -> x <> "" ->
            StaffRole_to_string (s_role s) = x))).
Proof.
  unfold Get.Staff.GET, handle_list, Get.Staff.GET_body, query, stmt. cbn [st_db st_tick].
  destruct (flt 0%nat) eqn:F; intro E; injection E as <- <-.
  - split; [reflexivity |]. now left.
  - split; [reflexivity |]. right. eexists. split; [reflexivity |].
    split; [reflexivity |].
    assert (P : Permutation
                  (order_by staff_before (select_where (Get.Staff.matches q) (staff db)))
                  (filter (Get.Staff.matches q) (rows (staff db))))
      by apply order_by_perm.
    split; [exact P |].
    split; [exact (@order_by_sorted _ staff_before staff_before_total staff_before_trans _) |].
    intro s. split.
    + intro Hs. apply (Permutation_in _ P) in Hs. apply filter_In in Hs.
      destruct Hs as [Hs Hq]. split; [exact Hs |]. now apply staff_matches_spec.
    + intros (Hs & Hq). apply (Permutation_in _ (Permutation_sym P)).
      apply filter_In. split; [exact Hs |]. now apply staff_matches_spec.
Qed.

Lemma staff_listing_witness :
  snd (Get.Staff.GET no_faults (Get.Staff.mkQuery (Some "On Shift") None) sample_db)
    = sample_db.
Proof.
  apply (@staff_listing no_faults (Get.Staff.mkQuery (Some "On Shift") None) sample_db
           (fst (Get.Staff.GET no_faults (Get.Staff.mkQuery (Some "On Shift") None)
                   sample_db))).
  apply surjective_pairing.
Defined.
